(* ===== verification/_CoqProject ===== *)
-Q . S2P
Prelude.v
Hash.v
Base64.v
Engine.v
Pair.v
Quiet.v
Pki.v
Proto.v
Schema.v
Queries.v
QueriesFacts.v
QueriesFrame.v
Service.v
Demo.v
Roles.v
Actions.v
Assignments.v
Devices.v
Enrollment.v
AgentStream.v
Rotation.v
Auth.v
Idp.v
Login.v
Sessions.v
Server.v
Pagination.v
AgentStore.v
AgentPolicy.v
AgentLedger.v
Strs.v
Exec.v
Executor.v
Scheduler.v
Delivery.v
Sync.v
AgentCerts.v
Reconnect.v
AgentEnroll.v
Text.v
Packages.v
Apt.v
Dnf.v
Zypper.v
Pacman.v
Words.v
PacmanFacts.v
PackageManagers.v
PackageSafety.v
Guards.v
Paths.v
Units.v
Files.v
FilesFacts.v
RemoveDir.v
RemoveDirFacts.v
HostFiles.v
CredentialStore.v
Services.v
ServicesFacts.v
AgentUnit.v
AgentUnitFacts.v
AgentMain.v
AgentMainFacts.v
Middleware.v
ServerStart.v
ServerStartFacts.v
Witnesses.v
AgentWitnesses.v
LifeWitnesses.v
PackageWitnesses.v
ServiceWitnesses.v
TreeWitnesses.v
StartWitnesses.v
CredentialWitnesses.v
AgentMainWitnesses.v
ClientStream.v
ClientStreamFacts.v
ClientStreamLive.v
ClientStreamWitnesses.v
