(* ===== verification/Prelude.v ===== *)
(** * Cadestro: a verification development

    Cadestro manages a fleet of Linux machines.  A control plane ([src/server]) keeps
    a SQLite database; administrators reach it through a browser and OIDC logins,
    devices through a long-lived stream over mutual TLS.  A device agent ([src/agent])
    keeps a SQLite file of its own, pulls the actions it is to run, runs them while
    offline too, and delivers the results.  The two share a contract ([src/contract])
    and a library for running commands ([src/sdk]).  This development models the
    handlers, queries and loops of both programs and proves what they promise.

    ** How programs are modelled

    A handler is a function of a state monad [Engine.M] over a database: it takes an
    environment and the database and returns a value or a Go error with the database
    it leaves.  The environment decides which database calls fail, what the clocks
    read, which ULIDs and random bytes are drawn; it is indexed by the number of
    effects so far, so that theorems quantify over all faults and clocks.  [sql] is
    one statement, [transaction] is BEGIN, body, COMMIT with the deferred ROLLBACK.
    [triple P m Q E] says what holds after a run on the value and on the error side,
    in every environment; [Quiet.quietly] that a run without faults returns.  Go
    integers are [Z] with their wrap-around written out, times are nanoseconds,
    strings and bytes are Rocq's, maps and tables are [gmap]s keyed by primary key.

    ** Files and what they model

    - [Prelude], [Hash], [Base64], [Strs]: notations, tactics and lemmas; SHA-256,
      base64 and Go's [strings], as far as the programs use them.
    - [Engine], [Pair], [Quiet]: the monad and its logics; programs over two states.
    - [Proto]: the messages of [contract/proto] and [contract/action.go].
    - [Pki]: [server/internal/ca] and [server/internal/mtls].
    - [Schema], [Queries], [QueriesFacts], [QueriesFrame]: the tables of
      [server/internal/store] with their constraints ([WellFormed]), every generated
      query as a definition of its name, and that each keeps the constraints.
    - [Service], [Roles], [Actions], [Assignments], [Devices], [Enrollment],
      [AgentStream], [Login]: the files of [server/internal/core], one definition per
      RPC or helper, under the name it has there ([Login] is [auth.go], [AgentStream]
      is [agent.go]).
    - [Auth], [Idp]: [server/internal/auth] and [server/internal/idp].
    - [Rotation], [Sessions], [Pagination]: theorems about several of these together.
    - [Server]: one step of the control plane, a request to either listener through
      its middleware and its handler ([server/cmd/cadestro]).
    - [AgentStore], [AgentPolicy], [AgentLedger]: [agent/internal/store]; its schema,
      queries and operations, the reference for reconciling, the abstract ledger.
    - [AgentCerts], [Reconnect], [AgentEnroll]: [agent/internal/credentials],
      [agent/internal/deviceauth] and [agent/cmd/cadestrod/cert_rotation.go]; the
      credential file, the enrollment, the loop that connects, promotes and renews,
      against the handlers of the control plane, with crashes between any two effects.
    - [Exec], [Executor], [Scheduler]: [sdk/sys/exec], [agent/internal/executor] and
      [agent/internal/scheduler]; the runner, the actions, a round of the scheduler
      with the interleavings of the agent's other goroutines and with crashes.
    - [Delivery], [Sync]: the loops of [agent/cmd/cadestrod/runtime.go] with the
      requests of [contract/client.go]; stated over any remote, and composed with the
      control plane's handlers behind a connection that may lose messages and, for the
      delivery, with the agent's other goroutines between its effects.
    - [ClientStream], [ClientStreamFacts], [ClientStreamLive]: [contract/client.go] as a
      concurrent program; [Run], the heartbeats and the callers as goroutines that share
      the mutexes, the map of pending requests and their channels, one definition per
      step of each, and the invariants of every interleaving.
    - [Text], [Words]: splitting and scanning text; the words of a line.
    - [Packages], [Apt], [Dnf], [Zypper], [Pacman]: [sdk/pkg]; what the back ends
      share, and one module per back end with a definition per method of the interface
      [Manager] and per parser.
    - [PackageManagers]: the interface itself, as the types [Query] and [Mutation] that
      each back end interprets; [New], [Detect] and [NewExecutor].
    - [Guards]: what [sdk/crypto], [sdk/sys/exec] and [sdk/pkg] check for clients to come; CA
      continuity, secrets, references to keys.
    - [PackageSafety], [PacmanFacts]: theorems about the commands all back ends run, and
      about pinning on Arch.
    - [Paths], [Files], [FilesFacts]: [path/filepath] and [sdk/sys/fs]; what a path names,
      the guards, every operation of the manager of files over the system calls ([OS]) or
      the runner, and the laws of these calls on a tree of files.
    - [RemoveDir], [RemoveDirFacts]: [sdk/sys/fs/remove_dir_unix.go]; the walk of a tree
      through the descriptors of its directories, over the calls [Removal] and their laws.
    - [HostFiles], [CredentialStore]: the calls the two programs make on files of their own;
      [agent/internal/credentials], the file of [AgentCerts] on directories, modes and JSON.
    - [Units], [Services], [ServicesFacts]: [sdk/sys/service]; the names of units, the
      policy on what a unit file says, the manager over a runner and the interface
      [FsManager], which [Files] implements.
    - [AgentUnit], [AgentUnitFacts]: [agent/internal/unit]; the agent's own unit over the
      interface [UnitManager], which [Services] implements.
    - [AgentMain], [AgentMainFacts]: [agent/cmd/cadestrod]; the command line, [enroll],
      [install-unit] and the start of the agent up to its loops, over the host, the data
      directories and the control plane.
    - [Middleware]: [server/internal/middleware], in front of the public routes.
    - [ServerStart], [ServerStartFacts]: [server/cmd/cadestro]; the configuration, the
      certificate authority and the database from their files, and [run].
    - [Demo], [Witnesses], [AgentWitnesses], [LifeWitnesses], [PackageWitnesses],
      [ServiceWitnesses], [TreeWitnesses], [StartWitnesses], [CredentialWitnesses],
      [AgentMainWitnesses], [ClientStreamWitnesses]: a concrete environment, concrete stand-ins for the parts outside
      the repository, and every theorem with hypotheses applied to a run of the programs.

    ** What the theorems show

    - The control plane's state.  Whatever is requested, in any order and with any
      faults, the database satisfies its constraints and every stored action is valid
      ([Server.server_invariant]); a failed request changes nothing
      ([failed_request_changes_nothing]).
    - Who may do what.  A procedure runs exactly for a valid token with its permission
      ([Auth.WrapUnary_authorizes]); permissions change only with
      the session version ([Server.permissions_follow_sessions]); refresh tokens work
      once and revoked sessions stay revoked ([refresh_token_single_use],
      [revoked_sessions_stay_revoked]); tokens round trip and their kinds never mix
      ([Auth.GenerateTokens_validate], [token_kinds_separate]); logins come from
      verified claims ([Idp.VerifyIDToken_verified], [Sessions.linkIdentity_links],
      [Idp.ssrfSafeDialControl_exact]).
    - The control plane's life.  It serves only from an acceptable configuration, with keys
      that nobody else may read, an authority whose key is its own and listeners that ask
      devices for its certificates; whatever fails, its database is one that requests lead
      to, and in good order it starts again ([ServerStartFacts.control_plane_starts]).
    - Devices and their certificates.  A registration token admits no more devices
      than it allows under any interleaving of stale readers
      ([Enrollment.registration_token_never_overused], [Register_enrolls]); rotation
      never leaves a device without an accepted certificate
      ([Rotation.certificate_rotation], [authenticateAgent_current]); an enrollment that
      returns has saved what the control plane accepts, and can be repeated when it was
      interrupted ([AgentEnroll.Enroll_enrolls]); whatever fails, an enrolled agent is
      connected again once the weather is good ([Reconnect.agent_reconnects]).  The
      command line's exit codes mean what they say of the data directory, and an agent runs
      with the credentials of just the enrollment in it ([AgentMainFacts.agent_commands]);
      the file they are kept in is implemented by [CredentialStore]
      ([credential_store_refines]).
    - Actions from the administrator to the device.  What validation accepts, what
      configuring replaces, what the policy of a device lists
      ([Actions.validateAction_exact], [ConfigureAction_replaces],
      [AgentStream.desiredPolicy_exact]); reconciling has the effect of a pointwise
      reference ([AgentPolicy.ReconcilePolicy_reconciles]); one answered pull makes
      the agent's live works exactly the actions assigned to the device
      ([Sync.pullDesiredPolicyFromControl_converges]).
    - Runs and reports.  The agent refines an abstract ledger in which a run is begun
      only when none is open and finished once ([Scheduler.agent_refines_ledger],
      [runs_accounted]); due actions run and are reported
      ([Scheduler.executeAction_reports]); crashes are settled
      ([AgentLedger.RecoverInterruptedActions_settles]); no report is lost or invented
      on its way to the control plane while the agent goes on running actions, so that every
      run is open, reported or refused, and an answering control plane receives them all
      ([Delivery.sendScheduledResults_delivers], [syncPendingResults_drains]); the client
      concludes only from the answer to the request itself, and returns from every call
      once its connection is over, however its goroutines are scheduled
      ([ClientStreamFacts.client_calls_safe], [ClientStreamLive.client_calls_return]); a result is
      stored exactly once ([AgentStream.storeActionResult_exactly_once]) and compliance
      means what it says ([Assignments.deviceCompliance_meaning]).
    - Running commands.  The child's environment cannot be hijacked, its captured
      output is bounded, every action gets a well-formed result on any host, and a
      compliance check only detects ([Exec.buildChildEnv_safe], [captured_bounded],
      [PackageManagers.NewExecutor_answers], [Executor.compliance_only_detects]).
    - Packages.  No string of a caller, or of the control plane, reaches a package
      manager as an option, queries never run with privileges, and each call runs its own
      tools alone ([PackageSafety.package_commands_safe], [package_action_commands]);
      pins on Arch are read back as written ([PacmanFacts.pacman_pins]).
    - Files and units.  A file that is written has its old content or its new one whatever
      system calls fail, after a crash too, and an exclusive write touches nothing that is
      there ([FilesFacts.files_written_whole]); what is protected is found out however the
      path is written ([protected_prefix_exact]); removing a tree removes nothing but the
      tree, follows no link and spares what is protected
      ([RemoveDirFacts.RemoveDir_removes]).  The manager of services runs [systemctl]
      on one unit and writes units the policy accepts, in the system's directory alone
      ([ServicesFacts.service_effects]); the agent's unit is installed whole and read by
      systemd, or the next attempt completes it ([AgentUnit.unit_installed]), and passes
      the policy ([AgentUnitFacts.rendered_unit_accepted]).
    - Other origins read the public listener's responses only when they are configured
      ([Middleware.public_origins]).
    - Schedules, pages and tokens of pages: [AgentStore], [Pagination], [Assignments]; the delays
      between two connections: [AgentMainFacts.next_delay_bounds].

    ** Parameters, bounds and fuel

    The protobuf runtime ([ProtoCodec], laws: a marshalled message is read back),
    X.509 and PEM, JWT signing, OIDC, URLs, RFC 3339, the page token codec, parsing a
    float or a duration, JSON, the SQLite driver and the migrations, the environment
    variables, the files, system calls and processes of the operating system are classes, with the
    documented behaviour a theorem needs as a second class of laws; the witness files
    instantiate all of them.  No definition runs out of fuel: loops recurse on the list
    they walk, [Sync.periodicSync] on the number of ticks before its context ends, and
    scanning a text on its length, each step taking a byte or more.  The walk of
    [RemoveDir] and the search for a parent that exists are given a depth; the theorems say
    that the depth of the tree, and the length of a path, are enough.  The order in which Go ranges over a map is a parameter
    ([MapRange]) constrained only to be a permutation.

    ** Not modelled

    Sockets, TLS handshakes and signals, of which only the end of a listener or of a context
    is seen; the start and the killing of processes; how the client's requests travel; links in the tree of files, which the laws of [OS] leave out (those of
    [Removal] have them); logging and printing; generated code other than the queries; the
    test doubles; the web client. *)

From Stdlib Require Export ZArith Lia.
From stdpp Require Export gmap strings sorting prelude list.

(** ** Notations of the development *)

Declare Scope cadestro_scope.
Delimit Scope cadestro_scope with cad.
Open Scope cadestro_scope.
Open Scope Z_scope.

(** A Go [[]byte]. *)
Abbreviation bytes := (list Byte.byte).

(** A Go [time.Time]: an instant, in nanoseconds since the Unix epoch. *)
Abbreviation time := Z (only parsing).

#[export] Instance byte_eq_dec : EqDecision Byte.byte := Byte.byte_eq_dec.

(** ** Machine integers *)

Definition in_int32 (z : Z) : bool := (-2147483648 <=? z) && (z <=? 2147483647).

(** Go's conversion [int32(x)]: two's complement truncation. *)
Definition int32 (z : Z) : Z := (z + 2147483648) mod 4294967296 - 2147483648.

(** Go's [int64] arithmetic, the type behind [time.Duration]. *)
Definition int64 (z : Z) : Z :=
  (z + 9223372036854775808) mod 18446744073709551616 - 9223372036854775808.

Definition in_int64 (z : Z) : bool :=
  (-9223372036854775808 <=? z) && (z <=? 9223372036854775807).

Lemma in_int32_spec z : in_int32 z = true <-> -2147483648 <= z <= 2147483647.
Proof. unfold in_int32. rewrite andb_true_iff, !Z.leb_le. done. Qed.

Lemma int32_id z : in_int32 z = true -> int32 z = z.
Proof. rewrite in_int32_spec. intros H. unfold int32. rewrite Z.mod_small; lia. Qed.

Lemma int32_add_l a b : int32 (int32 a + b) = int32 (a + b).
Proof.
  unfold int32. f_equal.
  replace ((a + 2147483648) mod 4294967296 - 2147483648 + b + 2147483648)
    with ((a + 2147483648) mod 4294967296 + b) by lia.
  rewrite Z.add_mod_idemp_l by lia. f_equal. lia.
Qed.

Lemma int32_range z : in_int32 (int32 z) = true.
Proof.
  rewrite in_int32_spec. unfold int32.
  pose proof (Z.mod_pos_bound (z + 2147483648) 4294967296 ltac:(lia)). lia.
Qed.

Lemma in_int64_spec z :
  in_int64 z = true <-> -9223372036854775808 <= z <= 9223372036854775807.
Proof. unfold in_int64. rewrite andb_true_iff, !Z.leb_le. done. Qed.

Lemma int64_id z : in_int64 z = true -> int64 z = z.
Proof. rewrite in_int64_spec. intros H. unfold int64. rewrite Z.mod_small; lia. Qed.

(** ** Text order: SQLite compares TEXT keys byte by byte (BINARY collation). *)

Definition str_lt (a b : string) : bool := String.ltb a b.

Lemma str_lt_le a b : str_lt a b = true <-> (a ≤ b)%string /\ a <> b.
Proof.
  unfold str_lt, String.le, String.ltb, String.leb.
  rewrite (String.compare_antisym).
  destruct (String.compare b a) eqn:Hc; simpl.
  - apply String.compare_eq_iff in Hc as ->. split; [done|]. intros [_ ?]; done.
  - split; [done|]. intros [[] _].
  - split; [|done]. intros _. split; [done|]. intros ->.
    assert (String.compare b b = Eq) as Hr; [|by rewrite Hr in Hc].
    clear. induction b as [|c b IH]; simpl; [done|].
    unfold Ascii.compare. by rewrite N.compare_refl.
Qed.

Lemma str_lt_irrefl a : str_lt a a = false.
Proof.
  destruct (str_lt a a) eqn:H; [|done]. apply str_lt_le in H as [_ ?]. done.
Qed.

Lemma str_le_lt_trans a b c : (a ≤ b)%string -> str_lt b c = true -> str_lt a c = true.
Proof.
  intros Hab [Hbc Hne]%str_lt_le. apply str_lt_le. split; [by etrans|].
  intros ->. apply Hne. by apply (anti_symm String.le).
Qed.

Lemma str_lt_trans a b c : str_lt a b = true -> str_lt b c = true -> str_lt a c = true.
Proof. intros [Hab _]%str_lt_le. by apply str_le_lt_trans. Qed.

Lemma str_not_lt a b : str_lt a b = false -> (b ≤ a)%string.
Proof.
  intros H. destruct (total String.le b a) as [|Hab]; [done|].
  destruct (decide (a = b)) as [->|Hne]; [done|].
  assert (str_lt a b = true) by (by apply str_lt_le). congruence.
Qed.

(** ** Tables: a SQL table is a finite map from its primary key to its rows *)

Section tables.
Context {K R : Type} `{Countable K}.
Implicit Types (m : gmap K R) (p : R -> bool).

(** [SELECT * FROM m WHERE p], in no particular order. *)
Definition select_where (p : R -> bool) (m : gmap K R) : list R :=
  List.filter p (map_to_list m).*2.

(** [EXISTS (SELECT 1 FROM m WHERE p)]. *)
Definition exists_row (p : R -> bool) (m : gmap K R) : bool :=
  existsb p (map_to_list m).*2.

(** [SELECT COUNT( * ) FROM m WHERE p]. *)
Definition count_rows (p : R -> bool) (m : gmap K R) : Z :=
  Z.of_nat (length (select_where p m)).

Lemma elem_of_rows m r : r ∈ (map_to_list m).*2 <-> exists k, m !! k = Some r.
Proof.
  rewrite list_elem_of_fmap. split.
  - intros ([k r'] & -> & Hin). exists k. by apply elem_of_map_to_list.
  - intros [k Hk]. exists (k, r). split; [done|]. by apply elem_of_map_to_list.
Qed.

Lemma elem_of_select_where p m r :
  r ∈ select_where p m <-> p r = true /\ exists k, m !! k = Some r.
Proof.
  unfold select_where. rewrite list_elem_of_In, filter_In, <- list_elem_of_In, elem_of_rows.
  tauto.
Qed.

Lemma exists_row_true p m :
  exists_row p m = true <-> exists k r, m !! k = Some r /\ p r = true.
Proof.
  unfold exists_row. rewrite existsb_exists. setoid_rewrite <- list_elem_of_In.
  setoid_rewrite elem_of_rows. split.
  - intros (r & [k Hk] & Hp). by exists k, r.
  - intros (k & r & Hk & Hp). exists r. eauto.
Qed.

Lemma exists_row_false p m :
  exists_row p m = false <-> forall k r, m !! k = Some r -> p r = false.
Proof.
  split.
  - intros Hf k r Hk. destruct (p r) eqn:Hp; [|done].
    assert (exists_row p m = true); [|congruence]. apply exists_row_true. eauto.
  - intros Hall. destruct (exists_row p m) eqn:He; [|done].
    apply exists_row_true in He as (k & r & Hk & Hp). rewrite (Hall k r Hk) in Hp. done.
Qed.

Lemma count_rows_size m : count_rows (fun _ => true) m = Z.of_nat (size m).
Proof.
  unfold count_rows, select_where. f_equal. rewrite <- length_map_to_list.
  transitivity (length (map_to_list m).*2); [|by rewrite length_fmap].
  f_equal. induction ((map_to_list m).*2) as [|r l IH]; simpl; [done|by rewrite IH].
Qed.

(** Every row is stored under its own primary key. *)
Definition keyed (key : R -> K) (m : gmap K R) : Prop :=
  forall k r, m !! k = Some r -> key r = k.

Lemma keyed_empty key : keyed key ∅.
Proof. intros k r Hk. by rewrite lookup_empty in Hk. Qed.

Lemma keyed_insert key m k r : key r = k -> keyed key m -> keyed key (<[k := r]> m).
Proof.
  intros Hk Hm k' r' [[<- <-]|[Hne Hl]]%lookup_insert_Some; [done|]. by apply Hm.
Qed.

Lemma keyed_delete key m k : keyed key m -> keyed key (delete k m).
Proof. intros Hm k' r' [_ Hl]%lookup_delete_Some. by apply Hm. Qed.

Lemma keyed_filter key (P : K * R -> Prop) `{!forall x, Decision (P x)} m :
  keyed key m -> keyed key (filter P m).
Proof. intros Hm k r [Hl _]%map_lookup_filter_Some. by apply Hm. Qed.

Lemma keyed_fmap key (f : R -> R) m :
  (forall r, key (f r) = key r) -> keyed key m -> keyed key (f <$> m).
Proof.
  intros Hf Hm k r. rewrite lookup_fmap, fmap_Some. intros (r' & Hl & ->).
  rewrite Hf. by apply Hm.
Qed.

Lemma keyed_map key (f : R -> R) m k r :
  keyed key m -> m !! k = Some r -> key (f r) = key r -> key (f r) = k.
Proof. intros Hm Hl ->. by apply Hm. Qed.

Lemma select_where_NoDup key p m : keyed key m -> NoDup (key <$> select_where p m).
Proof.
  intros Hm. unfold select_where.
  assert (NoDup (key <$> (map_to_list m).*2)) as Hnd.
  { rewrite <- list_fmap_compose.
    rewrite (list_fmap_ext _ fst).
    - apply NoDup_fst_map_to_list.
    - intros i [k r] Hi. simpl. apply Hm. apply elem_of_map_to_list.
      by eapply list_elem_of_lookup_2. }
  revert Hnd. generalize ((map_to_list m).*2) as l. clear.
  induction l as [|r l IH]; simpl; [done|]. intros [Hnin Hnd]%NoDup_cons.
  destruct (p r); simpl; [|by apply IH].
  apply NoDup_cons. split; [|by apply IH].
  intros (r' & Heq & Hin)%list_elem_of_fmap. apply Hnin. rewrite Heq.
  apply list_elem_of_fmap. exists r'. split; [done|].
  apply list_elem_of_In in Hin. apply filter_In in Hin as [Hin _]. by apply list_elem_of_In.
Qed.
End tables.

(** ** Ordering and limiting the rows of a query *)

Section ordering.
Context {R : Type}.

Definition by_key (key : R -> string) : relation R := fun a b => (key a ≤ key b)%string.

#[global] Instance by_key_dec key : RelDecision (by_key key).
Proof. intros a b. unfold by_key. apply _. Defined.

#[global] Instance by_key_trans key : Transitive (by_key key).
Proof. intros a b c. unfold by_key. by apply transitivity. Qed.

#[global] Instance by_key_total key : Total (by_key key).
Proof. intros a b. unfold by_key. apply (total String.le). Qed.

(** [ORDER BY key1, key2]. *)
Definition by_key2 (key1 key2 : R -> string) : relation R := fun a b =>
  str_lt (key1 a) (key1 b) = true \/ (key1 a = key1 b /\ (key2 a ≤ key2 b)%string).

#[global] Instance by_key2_dec k1 k2 : RelDecision (by_key2 k1 k2).
Proof. intros a b. unfold by_key2. apply _. Defined.

#[global] Instance by_key2_trans k1 k2 : Transitive (by_key2 k1 k2).
Proof.
  intros a b c [H1|[H1 H2]] [H3|[H3 H4]]; unfold by_key2.
  - left. by eapply str_lt_trans.
  - left. by rewrite <- H3.
  - left. by rewrite H1.
  - right. split; [congruence|]. by etrans.
Qed.

#[global] Instance by_key2_total k1 k2 : Total (by_key2 k1 k2).
Proof.
  intros a b. unfold by_key2.
  destruct (str_lt (k1 a) (k1 b)) eqn:Hab; [by left; left|].
  destruct (str_lt (k1 b) (k1 a)) eqn:Hba; [by right; left|].
  apply str_not_lt in Hab, Hba.
  assert (k1 a = k1 b) as Heq by (by apply (anti_symm String.le)).
  destruct (total String.le (k2 a) (k2 b)); [left|right]; right; done.
Qed.

(** [ORDER BY t, key], both ascending. *)
Definition by_time2 (t : R -> Z) (key : R -> string) : relation R := fun a b =>
  t a < t b \/ (t a = t b /\ (key a ≤ key b)%string).

#[global] Instance by_time2_dec t k : RelDecision (by_time2 t k).
Proof. intros a b. unfold by_time2. apply _. Defined.

#[global] Instance by_time2_trans t k : Transitive (by_time2 t k).
Proof.
  intros a b c [H1|[H1 H2]] [H3|[H3 H4]]; unfold by_time2; [left; lia..|].
  right. split; [lia|]. by etrans.
Qed.

#[global] Instance by_time2_total t k : Total (by_time2 t k).
Proof.
  intros a b. unfold by_time2. destruct (Z.lt_trichotomy (t a) (t b)) as [?|[?|?]]; [lia|..].
  - destruct (total String.le (k a) (k b)); [left|right]; right; (split; [lia|done]).
  - right. by left.
Qed.

(** [ORDER BY ... DESC]. *)
Definition descending (rel : relation R) : relation R := fun a b => rel b a.

#[global] Instance descending_dec rel `{!RelDecision rel} : RelDecision (descending rel).
Proof. intros a b. unfold descending. apply _. Defined.

#[global] Instance descending_trans rel `{!Transitive rel} : Transitive (descending rel).
Proof. intros a b c Hab Hbc. unfold descending in *. by etrans. Qed.

#[global] Instance descending_total rel `{!Total rel} : Total (descending rel).
Proof. intros a b. unfold descending. apply (total rel). Qed.

#[global] Typeclasses Opaque descending.

Definition order_by (rel : relation R) `{!RelDecision rel} (l : list R) : list R :=
  merge_sort rel l.

(** [LIMIT n]; a negative limit means no limit. *)
Definition limit_rows (n : Z) (l : list R) : list R :=
  if n <? 0 then l else take (Z.to_nat n) l.

Lemma order_by_perm (rel : relation R) `{!RelDecision rel} l : order_by rel l ≡ₚ l.
Proof. apply merge_sort_Permutation. Qed.

Lemma elem_of_order_by (rel : relation R) `{!RelDecision rel} l r :
  r ∈ order_by rel l <-> r ∈ l.
Proof. by rewrite order_by_perm. Qed.

Lemma order_by_sorted (rel : relation R) `{!RelDecision rel, !Transitive rel, !Total rel} l :
  StronglySorted rel (order_by rel l).
Proof. apply StronglySorted_merge_sort; apply _. Qed.

Lemma elem_of_limit_rows n l r : r ∈ limit_rows n l -> r ∈ l.
Proof.
  unfold limit_rows. destruct (n <? 0); [done|]. intros (i & Hi)%list_elem_of_lookup.
  apply list_elem_of_lookup. exists i. by apply lookup_take_Some in Hi as [? _].
Qed.

Lemma length_limit_rows n l : 0 <= n -> Z.of_nat (length (limit_rows n l)) <= n.
Proof.
  intros Hn. unfold limit_rows. destruct (Z.ltb_spec n 0); [lia|].
  rewrite length_take. lia.
Qed.
End ordering.

(** Rows ordered by a key that has no duplicates are strictly ordered by it. *)
Lemma strictly_sorted {R} (key : R -> string) (l : list R) :
  StronglySorted (by_key key) l -> NoDup (key <$> l) ->
  StronglySorted (fun a b => str_lt (key a) (key b) = true) l.
Proof.
  induction 1 as [|r l Hs IH Hf]; csimpl; [constructor|]. intros [Hnin Hnd]%NoDup_cons.
  constructor; [by apply IH|]. rewrite Forall_forall in *. intros r' Hr'.
  apply str_lt_le. split; [by apply Hf|]. intros Heq. apply Hnin. rewrite Heq.
  by apply list_elem_of_fmap_2.
Qed.

Lemma order_by_key_strict {R} (key : R -> string) (l : list R) :
  NoDup (key <$> l) ->
  StronglySorted (fun a b => str_lt (key a) (key b) = true) (order_by (by_key key) l).
Proof.
  intros Hnd. apply strictly_sorted; [apply order_by_sorted; apply _|]. by rewrite order_by_perm.
Qed.

Lemma StronglySorted_Forall2 {A B} (R : relation A) (S : relation B) (P : A -> B -> Prop) l k :
  (forall a b a' b', P a b -> P a' b' -> R a a' -> S b b') ->
  Forall2 P l k -> StronglySorted R l -> StronglySorted S k.
Proof.
  intros HP. induction 1 as [|a b l k Hab Hl IH]; intros Hs; [constructor|].
  apply StronglySorted_inv in Hs as [Hs Hf]. constructor; [by apply IH|].
  apply Forall_forall. intros b' [i Hi]%list_elem_of_lookup.
  destruct (Forall2_lookup_r _ _ _ _ _ Hl Hi) as (a' & Ha' & Hp).
  eapply HP; [done..|]. rewrite Forall_forall in Hf. apply Hf. by eapply list_elem_of_lookup_2.
Qed.
