(* ===== verification/Hash.v ===== *)
(** * The parts of Go's standard library the programs compute with

    [crypto/sha256] and [encoding/hex], as executable definitions, with the lengths
    the programs rely on and the round trip of the encoding.  A token's hash
    ([server/internal/core/enrollment.go]) and an action's digest
    ([contract/action.go]) are computed with these. *)

From S2P Require Import Prelude.
From Stdlib Require Import Ascii.

Open Scope Z_scope.

(** ** Bytes and integers *)

Definition byte_to_Z (b : Byte.byte) : Z := Z.of_N (Byte.to_N b).

Definition byte_of_Z (z : Z) : Byte.byte :=
  match Byte.of_N (Z.to_N (z mod 256)) with Some b => b | None => Byte.x00 end.

Lemma byte_of_to_Z b : byte_of_Z (byte_to_Z b) = b.
Proof. by destruct b. Qed.

Lemma byte_to_Z_range b : 0 <= byte_to_Z b < 256.
Proof. unfold byte_to_Z. pose proof (Byte.to_N_bounded b). lia. Qed.

(** A Go string is a byte sequence: [[]byte(s)] and [string(b)]. *)
Definition string_bytes (s : string) : bytes := String.list_byte_of_string s.
Definition bytes_string (b : bytes) : string := String.string_of_list_byte b.

Lemma bytes_string_bytes s : bytes_string (string_bytes s) = s.
Proof. apply String.string_of_list_byte_of_string. Qed.

Lemma string_bytes_string b : string_bytes (bytes_string b) = b.
Proof. apply String.list_byte_of_string_of_list_byte. Qed.

(** ** SHA-256 *)

Definition w32 (z : Z) : Z := z mod 4294967296.
Definition rotr (n x : Z) : Z :=
  Z.lor (Z.shiftr x n) (w32 (Z.shiftl x (32 - n))).

Definition sha_k : list Z :=
  [1116352408; 1899447441; 3049323471; 3921009573; 961987163; 1508970993;
   2453635748; 2870763221; 3624381080; 310598401; 607225278; 1426881987;
   1925078388; 2162078206; 2614888103; 3248222580; 3835390401; 4022224774;
   264347078; 604807628; 770255983; 1249150122; 1555081692; 1996064986;
   2554220882; 2821834349; 2952996808; 3210313671; 3336571891; 3584528711;
   113926993; 338241895; 666307205; 773529912; 1294757372; 1396182291;
   1695183700; 1986661051; 2177026350; 2456956037; 2730485921; 2820302411;
   3259730800; 3345764771; 3516065817; 3600352804; 4094571909; 275423344;
   430227734; 506948616; 659060556; 883997877; 958139571; 1322822218;
   1537002063; 1747873779; 1955562222; 2024104815; 2227730452; 2361852424;
   2428436474; 2756734187; 3204031479; 3329325298].

Record sha_state := mkSha { sa : Z; sb : Z; sc : Z; sd : Z; se : Z; sf : Z; sg : Z; sh : Z }.

Definition sha_init : sha_state :=
  mkSha 1779033703 3144134277 1013904242 2773480762
        1359893119 2600822924 528734635 1541459225.

Definition big_endian (n : nat) (z : Z) : bytes :=
  (fun i => byte_of_Z (Z.shiftr z (8 * Z.of_nat i))) <$> reverse (seq 0 n).

Fixpoint words (b : bytes) : list Z :=
  match b with
  | b0 :: b1 :: b2 :: b3 :: rest =>
      (byte_to_Z b0 * 16777216 + byte_to_Z b1 * 65536 + byte_to_Z b2 * 256 + byte_to_Z b3)
        :: words rest
  | _ => []
  end.

(** The message, 0x80, zeros, and the bit length on 64 bits. *)
Definition sha_pad (b : bytes) : bytes :=
  let len := Z.of_nat (length b) in
  b ++ [Byte.x80] ++ replicate (Z.to_nat ((55 - len) mod 64)) Byte.x00
    ++ big_endian 8 (8 * len).

Definition sigma0 (x : Z) : Z := Z.lxor (rotr 7 x) (Z.lxor (rotr 18 x) (Z.shiftr x 3)).
Definition sigma1 (x : Z) : Z := Z.lxor (rotr 17 x) (Z.lxor (rotr 19 x) (Z.shiftr x 10)).

(** The message schedule, last word first. *)
Fixpoint schedule (n : nat) (w : list Z) : list Z :=
  match n with
  | O => w
  | S n =>
      let at_ i := nth i w 0 in
      schedule n (w32 (sigma1 (at_ 1%nat) + at_ 6%nat + sigma0 (at_ 14%nat) + at_ 15%nat) :: w)
  end.

Definition sha_round (s : sha_state) (kw : Z * Z) : sha_state :=
  let '(mkSha a b c d e f g h) := s in
  let s1 := Z.lxor (rotr 6 e) (Z.lxor (rotr 11 e) (rotr 25 e)) in
  let ch := Z.lxor (Z.land e f) (Z.land (4294967295 - e) g) in
  let t1 := h + s1 + ch + kw.1 + kw.2 in
  let s0 := Z.lxor (rotr 2 a) (Z.lxor (rotr 13 a) (rotr 22 a)) in
  let maj := Z.lxor (Z.land a b) (Z.lxor (Z.land a c) (Z.land b c)) in
  mkSha (w32 (t1 + s0 + maj)) a b c (w32 (d + t1)) e f g.

Definition sha_block (s : sha_state) (block : list Z) : sha_state :=
  let w := reverse (schedule 48 (reverse block)) in
  let r := foldl sha_round s (zip sha_k w) in
  mkSha (w32 (sa s + sa r)) (w32 (sb s + sb r)) (w32 (sc s + sc r)) (w32 (sd s + sd r))
        (w32 (se s + se r)) (w32 (sf s + sf r)) (w32 (sg s + sg r)) (w32 (sh s + sh r)).

Fixpoint sha_blocks (n : nat) (s : sha_state) (w : list Z) : sha_state :=
  match n with
  | O => s
  | S n => sha_blocks n (sha_block s (take 16 w)) (drop 16 w)
  end.

(** [sha256.Sum256]. *)
Definition Sum256 (b : bytes) : bytes :=
  let w := words (sha_pad b) in
  let r := sha_blocks (length w / 16) sha_init w in
  concat (big_endian 4 <$> [sa r; sb r; sc r; sd r; se r; sf r; sg r; sh r]).

Lemma length_big_endian n z : length (big_endian n z) = n.
Proof. unfold big_endian. by rewrite length_fmap, length_reverse, length_seq. Qed.

Lemma length_concat_big_endian n l :
  length (concat (big_endian n <$> l)) = (length l * n)%nat.
Proof.
  induction l as [|z l IH]; [done|]. csimpl. by rewrite length_app, length_big_endian, IH.
Qed.

Lemma length_Sum256 b : length (Sum256 b) = 32%nat.
Proof. unfold Sum256. by rewrite length_concat_big_endian. Qed.

(** ** Hexadecimal *)

Definition hex_digit (z : Z) : ascii :=
  ascii_of_N (Z.to_N (if z <? 10 then 48 + z else 87 + z)).

(** [hex.EncodeToString]. *)
Fixpoint hex_encode (b : bytes) : string :=
  match b with
  | [] => EmptyString
  | x :: b =>
      String (hex_digit (byte_to_Z x / 16)) (String (hex_digit (byte_to_Z x mod 16)) (hex_encode b))
  end.

Definition hex_value (c : ascii) : option Z :=
  let n := Z.of_N (N_of_ascii c) in
  if (48 <=? n) && (n <=? 57) then Some (n - 48)
  else if (97 <=? n) && (n <=? 102) then Some (n - 87)
  else if (65 <=? n) && (n <=? 70) then Some (n - 55)
  else None.

(** [hex.DecodeString]. *)
Fixpoint hex_decode (s : string) : option bytes :=
  match s with
  | EmptyString => Some []
  | String c1 (String c2 s) =>
      h ← hex_value c1; l ← hex_value c2; b ← hex_decode s;
      Some (byte_of_Z (16 * h + l) :: b)
  | String _ EmptyString => None
  end.

Lemma hex_value_digit z : 0 <= z < 16 -> hex_value (hex_digit z) = Some z.
Proof.
  intros Hz.
  assert (z ∈ seqZ 0 16) as Hin by (apply elem_of_seqZ; lia).
  clear Hz. revert z Hin. apply Forall_forall. by repeat constructor.
Qed.

Lemma hex_decode_encode b : hex_decode (hex_encode b) = Some b.
Proof.
  induction b as [|x b IH]; [done|]. simpl.
  pose proof (byte_to_Z_range x) as Hx.
  assert (0 <= byte_to_Z x / 16 < 16).
  { split; [apply Z.div_pos; lia|]. apply Z.div_lt_upper_bound; lia. }
  pose proof (Z.mod_pos_bound (byte_to_Z x) 16 ltac:(lia)).
  rewrite !hex_value_digit by done. simpl. rewrite IH. simpl.
  rewrite <- Z.div_mod by lia. by rewrite byte_of_to_Z.
Qed.

Lemma hex_encode_inj a b : hex_encode a = hex_encode b -> a = b.
Proof.
  intros H. assert (Some a = Some b) as Hs; [|by simplify_eq].
  by rewrite <- (hex_decode_encode a), <- (hex_decode_encode b), H.
Qed.

(** FIPS 180-4 test vectors. *)
Example sha256_abc :
  hex_encode (Sum256 (string_bytes "abc"))
  = "ba7816bf8f01cfea414140de5dae2223b00361a396177a9cb410ff61f20015ad"%string.
Proof. by vm_compute. Qed.

Example sha256_empty :
  hex_encode (Sum256 [])
  = "e3b0c44298fc1c149afbf4c8996fb92427ae41e4649b934ca495991b7852b855"%string.
Proof. by vm_compute. Qed.

Example sha256_two_blocks :
  hex_encode (Sum256 (string_bytes "abcdbcdecdefdefgefghfghighijhijkijkljklmklmnlmnomnopnopq"))
  = "248d6a61d20638b8e5c026930c3e6039a33ce45964ff2167f6ecedd419db06c1"%string.
Proof. by vm_compute. Qed.
