(* ===== verification/Base64.v ===== *)
(** * [encoding/base64.RawURLEncoding]

    Registration tokens and page tokens are base64url text without padding. *)

From Stdlib Require Import Ascii.
From S2P Require Import Prelude Hash.

Open Scope Z_scope.

Definition alphabet : string :=
  "ABCDEFGHIJKLMNOPQRSTUVWXYZabcdefghijklmnopqrstuvwxyz0123456789-_".

Definition b64_char (z : Z) : ascii :=
  default "A"%char (String.get (Z.to_nat z) alphabet).

Fixpoint index_of (c : ascii) (s : string) : option Z :=
  match s with
  | EmptyString => None
  | String c' s => if Ascii.eqb c c' then Some 0 else Z.succ <$> index_of c s
  end.

Definition b64_value (c : ascii) : option Z := index_of c alphabet.

Fixpoint encode_bytes (b : list Z) : list Z :=
  match b with
  | x :: y :: z :: b =>
      x / 4 :: x mod 4 * 16 + y / 16 :: y mod 16 * 4 + z / 64 :: z mod 64 :: encode_bytes b
  | [x; y] => [x / 4; x mod 4 * 16 + y / 16; y mod 16 * 4]
  | [x] => [x / 4; x mod 4 * 16]
  | [] => []
  end.

(** [EncodeToString]. *)
Definition EncodeToString (b : bytes) : string :=
  String.string_of_list_ascii (b64_char <$> encode_bytes (byte_to_Z <$> b)).

Fixpoint decode_values (v : list Z) : option (list Z) :=
  match v with
  | a :: b :: c :: d :: v =>
      fmap (M := option) (fun r => a * 4 + b / 16 :: b mod 16 * 16 + c / 4 :: c mod 4 * 64 + d :: r)
        (decode_values v)
  | [a; b; c] => Some [a * 4 + b / 16; b mod 16 * 16 + c / 4]
  | [a; b] => Some [a * 4 + b / 16]
  | [_] => None
  | [] => Some []
  end.

Definition not_newline (c : ascii) : bool :=
  negb (Ascii.eqb c "010"%char) && negb (Ascii.eqb c "013"%char).

(** [DecodeString]: carriage returns and line feeds are skipped, any other
    character outside the alphabet is an error. *)
Definition DecodeString (s : string) : option bytes :=
  match mapM (M := option) b64_value (List.filter not_newline (String.list_ascii_of_string s)) with
  | None => None
  | Some v => fmap (M := option) (fmap (M := list) byte_of_Z) (decode_values v)
  end.

Lemma b64_value_char z : 0 <= z < 64 -> b64_value (b64_char z) = Some z.
Proof.
  intros Hz.
  assert (forallb (fun n => bool_decide (b64_value (b64_char (Z.of_nat n)) = Some (Z.of_nat n)))
            (seq 0 64) = true) as H by (vm_compute; reflexivity).
  rewrite forallb_forall in H. specialize (H (Z.to_nat z)).
  rewrite Z2Nat.id in H by lia. eapply bool_decide_eq_true, H, in_seq. lia.
Qed.

Lemma b64_char_clean z : 0 <= z < 64 -> not_newline (b64_char z) = true.
Proof.
  intros Hz%b64_value_char. unfold not_newline.
  destruct (Ascii.eqb_spec (b64_char z) "010"%char) as [Heq|]; [by rewrite Heq in Hz|].
  destruct (Ascii.eqb_spec (b64_char z) "013"%char) as [Heq|]; [by rewrite Heq in Hz|done].
Qed.

Lemma filter_clean v :
  Forall (fun z => 0 <= z < 64) v -> List.filter not_newline (b64_char <$> v) = b64_char <$> v.
Proof.
  induction 1 as [|z v Hz _ IH]; csimpl; [done|]. by rewrite b64_char_clean, IH.
Qed.

Lemma byte_list_ind (P : list Z -> Prop) :
  P [] -> (forall x, P [x]) -> (forall x y, P [x; y]) ->
  (forall x y z l, P l -> P (x :: y :: z :: l)) -> forall l, P l.
Proof.
  intros H0 H1 H2 H3. fix IH 1. intros [|x [|y [|z l]]]; [done|done|done|].
  apply H3, IH.
Qed.

Definition is_byte (z : Z) : Prop := 0 <= z < 256.

Lemma encode_range b : Forall is_byte b -> Forall (fun z => 0 <= z < 64) (encode_bytes b).
Proof.
  unfold is_byte. induction b as [|x|x y|x y z b IH] using byte_list_ind; simpl; intros Hb;
    rewrite ?Forall_cons in *; [done| | |].
  - destruct Hb as [? _]. split_and!; [Z.to_euclidean_division_equations; lia..|done].
  - destruct Hb as (? & ? & _). split_and!; [Z.to_euclidean_division_equations; lia..|done].
  - destruct Hb as (? & ? & ? & Hb). split_and!; [Z.to_euclidean_division_equations; lia..|auto].
Qed.

Lemma decode_encode_values b : Forall is_byte b -> decode_values (encode_bytes b) = Some b.
Proof.
  unfold is_byte. induction b as [|x|x y|x y z b IH] using byte_list_ind; simpl; intros Hb;
    rewrite ?Forall_cons in *; [done| | |].
  - destruct Hb as [? _]. do 2 f_equal. Z.to_euclidean_division_equations; lia.
  - destruct Hb as (? & ? & _). f_equal. f_equal; [|f_equal];
      Z.to_euclidean_division_equations; lia.
  - destruct Hb as (? & ? & ? & Hb). rewrite (IH Hb). simpl. f_equal.
    f_equal; [|f_equal; [|f_equal]]; Z.to_euclidean_division_equations; lia.
Qed.

Lemma decode_EncodeToString b : DecodeString (EncodeToString b) = Some b.
Proof.
  unfold DecodeString, EncodeToString. rewrite String.list_ascii_of_string_of_list_ascii.
  assert (Forall is_byte (byte_to_Z <$> b)) as Hb.
  { apply Forall_fmap, Forall_true. intros x. apply byte_to_Z_range. }
  pose proof (encode_range _ Hb) as Hr.
  rewrite filter_clean by done.
  assert (mapM (M := option) b64_value (b64_char <$> encode_bytes (byte_to_Z <$> b))
          = Some (encode_bytes (byte_to_Z <$> b))) as ->.
  { apply mapM_fmap_Forall_Some. eapply Forall_impl; [apply Hr|]. apply b64_value_char. }
  rewrite decode_encode_values by done. simpl. f_equal.
  rewrite <- list_fmap_compose. rewrite <- (list_fmap_id b) at 2. apply list_fmap_ext.
  intros i x _. apply byte_of_to_Z.
Qed.
