(* ===== verification/Engine.v ===== *)
(** * The execution engine: effects, errors, statements and transactions

    Both programs of the repository (the control plane, [server/], and the
    device agent, [agent/]) keep their state in a SQLite file and talk to it
    through generated query functions and [Store.Transaction].  This file
    models what the two share: Go's error values, the state a handler runs in,
    a database statement, a transaction, and a Hoare-style calculus for the
    resulting programs.  Nothing here is specific to one schema. *)

From S2P Require Import Prelude.

(** ** Errors *)

(** The Connect status codes the handlers use. *)
Inductive code :=
| CodeInternal | CodeNotFound | CodeAlreadyExists | CodeInvalidArgument
| CodePermissionDenied | CodeUnauthenticated | CodeFailedPrecondition.

#[export] Instance code_eq_dec : EqDecision code.
Proof. solve_decision. Defined.

(** A Go [error]: the sentinel of [database/sql], the SQLite driver's error with
    its extended result code, a [*connect.Error], a package-level error variable
    (compared by identity), a fresh [errors.New], and [fmt.Errorf("...: %w")]. *)
Inductive error :=
| ErrNoRows
| ErrConstraintUnique
| ErrConstraintPrimaryKey
| ErrConstraintForeignKey
| ErrConstraintCheck
| ErrConstraintNotNull
| ErrDatabase
| ErrScan
| ErrConnect (c : code) (msg : string)
| ErrVar (name : string)
| ErrNew (msg : string)
| ErrWrap (msg : string) (inner : error).

#[export] Instance error_eq_dec : EqDecision error.
Proof. solve_decision. Defined.

(** [errors.Is(err, target)] for a target that is not itself a wrapper. *)
Fixpoint errors_is (target e : error) : bool :=
  bool_decide (e = target) ||
  match e with ErrWrap _ inner => errors_is target inner | _ => false end.

(** [errors.As(err, &connectErr)]. *)
Fixpoint as_connect (e : error) : option (code * string) :=
  match e with
  | ErrConnect c msg => Some (c, msg)
  | ErrWrap _ inner => as_connect inner
  | _ => None
  end.

(** [store.IsNotFound]. *)
Definition IsNotFound (e : error) : bool := errors_is ErrNoRows e.

(** [store.IsConflict]: [errors.As] a SQLite error whose code is the UNIQUE or
    the PRIMARY KEY constraint. *)
Fixpoint IsConflict (e : error) : bool :=
  match e with
  | ErrConstraintUnique | ErrConstraintPrimaryKey => true
  | ErrWrap _ inner => IsConflict inner
  | _ => false
  end.

(** ** Programs *)

Inductive result (A : Type) :=
| Ok (a : A)
| Err (e : error).
Arguments Ok {A} a.
Arguments Err {A} e.

(** [x, err := f(); if err != nil { return err }], for calls without effects. *)
#[export] Instance result_ret : MRet result := fun A a => Ok a.

#[export] Instance result_bind : MBind result := fun A B k r =>
  match r with Ok a => k a | Err e => Err e end.

(** What a run takes from outside: which database calls fail, the readings of
    [time.Now] and of SQLite's CURRENT_TIMESTAMP, the ULIDs [ulid.Make] draws and
    the bytes [crypto/rand] yields ([None] when the read fails).  Each is indexed
    by the number of effects performed so far. *)
Record Env := {
  env_fault : nat -> bool;
  env_now : nat -> time;
  env_sql_now : nat -> time;
  env_ulid : nat -> string;
  env_rand : nat -> option (nat -> Byte.byte);
}.

(** The database, and the number of effects performed. *)
Record World (D : Type) := mkWorld { w_db : D; w_step : nat }.
Arguments mkWorld {D} w_db w_step.
Arguments w_db {D} w.
Arguments w_step {D} w.

Definition M (D A : Type) : Type := Env -> World D -> result A * World D.

#[export] Instance M_ret {D} : MRet (M D) := fun A a _ w => (Ok a, w).

#[export] Instance M_bind {D} : MBind (M D) := fun A B k m env w =>
  match m env w with
  | (Ok a, w') => k a env w'
  | (Err e, w') => (Err e, w')
  end.

Definition fail {D A} (e : error) : M D A := fun _ w => (Err e, w).

(** [if err != nil { return h(err) }] after a call: the handler decides, and the
    effects of the failed call stay. *)
Definition on_error {D A} (m : M D A) (h : error -> M D A) : M D A := fun env w =>
  match m env w with
  | (Ok a, w') => (Ok a, w')
  | (Err e, w') => h e env w'
  end.

(** A call whose error the caller inspects as a value. *)
Definition attempt {D A} (m : M D A) : M D (result A) := fun env w =>
  let (r, w') := m env w in (Ok r, w').

Definition lift {D A} (r : result A) : M D A := fun _ w => (r, w).

(** An effect that reads the environment. *)
Definition draw {D A} (f : Env -> nat -> A) : M D A := fun env w =>
  (Ok (f env (w_step w)), mkWorld (w_db w) (S (w_step w))).

Definition now {D} : M D time := draw env_now.
Definition ulid_make {D} : M D string := draw env_ulid.

(** [rand.Read] of [n] bytes. *)
Definition rand_read {D} (n : nat) : M D (option bytes) :=
  draw (fun env step => match env_rand env step with
                        | Some stream => Some (map stream (seq 0 n))
                        | None => None
                        end).

(** One SQL statement.  It fails without effect when the driver does; otherwise
    it sees CURRENT_TIMESTAMP and the database, and either changes the database
    or fails without effect (SQLite undoes a statement that violates a
    constraint). *)
Definition sql {D A} (f : time -> D -> result (A * D)) : M D A := fun env w =>
  let n := w_step w in
  if env_fault env n then (Err ErrDatabase, mkWorld (w_db w) (S n))
  else match f (env_sql_now env n) (w_db w) with
       | Ok (a, d) => (Ok a, mkWorld d (S n))
       | Err e => (Err e, mkWorld (w_db w) (S n))
       end.

(** A statement that only reads. *)
Definition query {D A} (f : D -> result A) : M D A :=
  sql (fun _ d => match f d with Ok a => Ok (a, d) | Err e => Err e end).

(** BEGIN; [run]; COMMIT, with the deferred ROLLBACK on every other path. *)
Definition transaction {D A} (begin_error : error -> error) (run : M D A) : M D A :=
  fun env w =>
  let n := w_step w in
  if env_fault env n then (Err (begin_error ErrDatabase), mkWorld (w_db w) (S n))
  else match run env (mkWorld (w_db w) (S n)) with
       | (Err e, w') => (Err e, mkWorld (w_db w) (w_step w'))
       | (Ok a, w') =>
           if env_fault env (w_step w')
           then (Err ErrDatabase, mkWorld (w_db w) (S (w_step w')))
           else (Ok a, mkWorld (w_db w') (S (w_step w')))
       end.

(** [for _, x := range l { ... append }]. *)
Fixpoint map_m {D A B} (f : A -> M D B) (l : list A) : M D (list B) :=
  match l with
  | [] => mret []
  | x :: l => y ← f x; ys ← map_m f l; mret (y :: ys)
  end.

(** [for _, x := range l { ... }]. *)
Fixpoint for_each {D A} (f : A -> M D unit) (l : list A) : M D unit :=
  match l with
  | [] => mret tt
  | x :: l => _ ← f x; for_each f l
  end.

(** ** A program logic *)

(** From a database in [P], [m] ends with a value and a database in [Q], or with
    an error and a database in [E], whatever the environment does. *)
Definition triple {D A} (P : D -> Prop) (m : M D A)
    (Q : A -> D -> Prop) (E : error -> D -> Prop) : Prop :=
  forall env w, P (w_db w) ->
    match m env w with
    | (Ok a, w') => Q a (w_db w')
    | (Err e, w') => E e (w_db w')
    end.

(** [m] keeps the invariant [I], on every path. *)
Definition preserves {D A} (I : D -> Prop) (m : M D A) : Prop :=
  triple I m (fun _ => I) (fun _ => I).

(** [m] has all of its effect or none: an error leaves the database as it was. *)
Definition atomic {D A} (m : M D A) : Prop :=
  forall d0, triple (fun d => d = d0) m (fun _ _ => True) (fun _ d => d = d0).

(** [m] never changes the database. *)
Definition read_only {D A} (m : M D A) : Prop :=
  forall d0, triple (fun d => d = d0) m (fun _ d => d = d0) (fun _ d => d = d0).

(** No database call fails. *)
Definition quiet (env : Env) : Prop := forall n, env_fault env n = false.

Create HintDb preserve discriminated.
Create HintDb reads discriminated.
Create HintDb atomic discriminated.

Section logic.
Context {D : Type}.
Implicit Types (P I : D -> Prop).

Lemma triple_conseq {A} P P' (m : M D A) Q Q' E E' :
  triple P' m Q' E' -> (forall d, P d -> P' d) ->
  (forall a d, Q' a d -> Q a d) -> (forall e d, E' e d -> E e d) ->
  triple P m Q E.
Proof.
  intros Hm HP HQ HE env w Hw. specialize (Hm env w (HP _ Hw)).
  destruct (m env w) as [[a|e] w']; auto.
Qed.

Lemma triple_any {A} P (m : M D A) : triple P m (fun _ _ => True) (fun _ _ => True).
Proof. intros env w _. by destruct (m env w) as [[a|e] w']. Qed.

Lemma triple_ret {A} P (a : A) Q E :
  (forall d, P d -> Q a d) -> triple P (mret a) Q E.
Proof. intros H env w Hw. by apply H. Qed.

Lemma triple_fail {A} P e (Q : A -> D -> Prop) (E : error -> D -> Prop) :
  (forall d, P d -> E e d) -> triple P (fail e) Q E.
Proof. intros H env w Hw. by apply H. Qed.

Lemma triple_lift {A} P (r : result A) Q E :
  (forall a d, r = Ok a -> P d -> Q a d) ->
  (forall e d, r = Err e -> P d -> E e d) -> triple P (lift r) Q E.
Proof. intros HQ HE env w Hw. unfold lift. destruct r; auto. Qed.

Lemma triple_bind {A B} P (m : M D A) (k : A -> M D B) R Q E :
  triple P m R E -> (forall a, triple (R a) (k a) Q E) -> triple P (m ≫= k) Q E.
Proof.
  intros Hm Hk env w Hw. unfold mbind, M_bind. specialize (Hm env w Hw).
  destruct (m env w) as [[a|e] w']; [|done]. by apply Hk.
Qed.

Lemma triple_on_error {A} P (m : M D A) h Q E' E :
  triple P m Q E' -> (forall e, triple (E' e) (h e) Q E) ->
  triple P (on_error m h) Q E.
Proof.
  intros Hm Hh env w Hw. unfold on_error. specialize (Hm env w Hw).
  destruct (m env w) as [[a|e] w']; [done|]. by apply Hh.
Qed.

Lemma triple_attempt {A} P (m : M D A) Q E Q0 :
  triple P m (fun a d => Q0 (Ok a) d) (fun e d => Q0 (Err e) d) ->
  (forall r d, Q0 r d -> Q r d) -> triple P (attempt m) Q E.
Proof.
  intros Hm HQ env w Hw. unfold attempt. specialize (Hm env w Hw).
  destruct (m env w) as [[a|e] w']; auto.
Qed.

Lemma triple_draw {A} P (f : Env -> nat -> A) (Q : A -> D -> Prop) E :
  (forall a d, P d -> Q a d) -> triple P (draw f) Q E.
Proof. intros H env w Hw. simpl. by apply H. Qed.

Lemma triple_sql {A} P (f : time -> D -> result (A * D)) Q E :
  (forall t d, P d -> match f t d with Ok (a, d') => Q a d' | Err e => E e d end) ->
  (forall d, P d -> E ErrDatabase d) -> triple P (sql f) Q E.
Proof.
  intros Hf HE env w Hw. unfold sql. destruct (env_fault env (w_step w)); simpl; [auto|].
  specialize (Hf (env_sql_now env (w_step w)) _ Hw).
  by destruct (f _ _) as [[a d]|e].
Qed.

Lemma triple_query {A} P (f : D -> result A) Q E :
  (forall d, P d -> match f d with Ok a => Q a d | Err e => E e d end) ->
  (forall d, P d -> E ErrDatabase d) -> triple P (query f) Q E.
Proof.
  intros Hf HE. apply triple_sql; [|done]. intros _ d Hd. specialize (Hf d Hd).
  by destruct (f d).
Qed.

(** A failed transaction leaves the database it began with. *)
Lemma triple_transaction {A} P (m : M D A) be Q (E E0 : error -> D -> Prop) :
  triple P m Q E0 -> (forall e d, P d -> E e d) -> triple P (transaction be m) Q E.
Proof.
  intros Hm HE env w Hw. unfold transaction.
  destruct (env_fault env (w_step w)); simpl; [auto|].
  specialize (Hm env (mkWorld (w_db w) (S (w_step w))) Hw).
  destruct (m env _) as [[a|e] w'] eqn:Hrun; simpl; [|auto].
  destruct (env_fault env (w_step w')); simpl; auto.
Qed.

(** A failed transaction ends with the error of its body, or with the driver's. *)
Lemma triple_transaction_error {A} P (m : M D A) be Q (E0 E : error -> D -> Prop) :
  triple P m Q E0 -> (forall e d d', P d -> E0 e d' -> E e d) ->
  (forall d, P d -> E (be ErrDatabase) d) -> (forall d, P d -> E ErrDatabase d) ->
  triple P (transaction be m) Q E.
Proof.
  intros Hm HE Hbe Hd env w Hw. unfold transaction.
  destruct (env_fault env (w_step w)); simpl; [auto|].
  specialize (Hm env (mkWorld (w_db w) (S (w_step w))) Hw).
  destruct (m env _) as [[a|e] w'] eqn:Hrun; simpl; [|by eapply HE].
  destruct (env_fault env (w_step w')); simpl; auto.
Qed.

(** Two facts about the same run. *)
Lemma triple_and {A} P1 P2 (m : M D A) Q1 Q2 E1 E2 :
  triple P1 m Q1 E1 -> triple P2 m Q2 E2 ->
  triple (fun d => P1 d /\ P2 d) m (fun a d => Q1 a d /\ Q2 a d) (fun e d => E1 e d /\ E2 e d).
Proof.
  intros H1 H2 env w [Hw1 Hw2]. specialize (H1 env w Hw1). specialize (H2 env w Hw2).
  by destruct (m env w) as [[a|e] w'].
Qed.

(** From each state of the precondition. *)
Lemma triple_at {A} P (m : M D A) Q E :
  (forall d0, P d0 -> triple (fun d => d = d0) m Q E) -> triple P m Q E.
Proof. intros Hm env w Hw. by apply (Hm (w_db w)). Qed.

Lemma triple_pure {A} (phi : Prop) P (m : M D A) Q E :
  (phi -> triple P m Q E) -> triple (fun d => phi /\ P d) m Q E.
Proof. intros H env w [Hphi Hw]. by apply H. Qed.

Lemma triple_exists {A X} (P : X -> D -> Prop) (m : M D A) Q E :
  (forall x, triple (P x) m Q E) -> triple (fun d => exists x, P x d) m Q E.
Proof. intros H env w [x Hw]. by apply (H x). Qed.

(** The value comes from a run. *)
Lemma triple_run {A} P (m : M D A) Q E :
  triple P m Q E ->
  triple P m (fun a d => Q a d /\ exists env w w', m env w = (Ok a, w')) E.
Proof.
  intros Hm env w Hw. specialize (Hm env w Hw).
  destruct (m env w) as [[a|e] w'] eqn:Hrun; [|done]. eauto 6.
Qed.

Lemma triple_bind_lift {A B} P (r : result A) (k : A -> M D B) Q E :
  (forall a, r = Ok a -> triple P (k a) Q E) -> (forall e d, r = Err e -> P d -> E e d) ->
  triple P (lift r ≫= k) Q E.
Proof.
  intros Hk He env w Hw. unfold mbind, M_bind, lift. destruct r as [a|e]; [by apply Hk|auto].
Qed.

(** What follows a step, from the very database the step left. *)
Lemma triple_bind_at {A B} P (m : M D A) (k : A -> M D B) R Q E :
  triple P m R E -> (forall a d1, R a d1 -> triple (fun d => d = d1) (k a) Q E) ->
  triple P (m ≫= k) Q E.
Proof.
  intros Hm Hk env w Hw. unfold mbind, M_bind. specialize (Hm env w Hw).
  destruct (m env w) as [[a|e] w']; [|done]. by apply (Hk a (w_db w') Hm).
Qed.

(** The same, when the error is wrapped on its way out. *)
Lemma triple_bind_lift_wrap {A B} P (r : result A) g (k : A -> M D B) Q :
  (forall a, r = Ok a -> triple P (k a) Q (fun _ _ => True)) ->
  triple P (on_error (lift r) (fun e => fail (g e)) ≫= k) Q (fun _ _ => True).
Proof.
  intros Hk env w Hw. unfold mbind, M_bind, on_error, lift, fail.
  destruct r as [a|e]; [by apply Hk|done].
Qed.

Lemma triple_bind_draw {A B} P (f : Env -> nat -> A) (k : A -> M D B) Q E :
  (forall a, triple P (k a) Q E) -> triple P (draw f ≫= k) Q E.
Proof. intros Hk. eapply triple_bind; [by apply triple_draw with (Q := fun _ => P)|done]. Qed.

(** Mapping a list through calls without effects. *)
Lemma triple_map_m_lift {A B} P (f : A -> result B) (l : list A) :
  triple P (map_m (fun x => lift (f x)) l)
    (fun ys d => Forall2 (fun x y => f x = Ok y) l ys /\ P d) (fun _ => P).
Proof.
  induction l as [|x l IH]; simpl; [by apply triple_ret|].
  apply triple_bind_lift; [|done]. intros y Hy.
  eapply triple_bind; [apply IH|]. intros ys. apply triple_ret. intros d [Hys Hd].
  split; [by constructor|done].
Qed.

(** *** Invariants *)

Lemma preserves_ret {A} I (a : A) : preserves I (mret a).
Proof. by apply triple_ret. Qed.

Lemma preserves_fail {A} I e : preserves I (@fail D A e).
Proof. by apply triple_fail. Qed.

Lemma preserves_lift {A} I (r : result A) : preserves I (lift r).
Proof. by apply triple_lift. Qed.

Lemma preserves_draw {A} I (f : Env -> nat -> A) : preserves I (draw f).
Proof. by apply triple_draw. Qed.

Lemma preserves_bind {A B} I (m : M D A) (k : A -> M D B) :
  preserves I m -> (forall a, preserves I (k a)) -> preserves I (m ≫= k).
Proof. intros Hm Hk. by eapply triple_bind. Qed.

Lemma preserves_on_error {A} I (m : M D A) h :
  preserves I m -> (forall e, preserves I (h e)) -> preserves I (on_error m h).
Proof. intros Hm Hh. by eapply triple_on_error. Qed.

Lemma preserves_attempt {A} I (m : M D A) : preserves I m -> preserves I (attempt m).
Proof. intros Hm. by eapply (triple_attempt _ _ _ _ (fun _ => I)). Qed.

Lemma preserves_query {A} I (f : D -> result A) : preserves I (query f).
Proof. apply triple_query; [|done]. intros d Hd. by destruct (f d). Qed.

Lemma preserves_transaction {A} I be (m : M D A) :
  triple I m (fun _ => I) (fun _ _ => True) -> preserves I (transaction be m).
Proof. intros Hm. by eapply triple_transaction. Qed.

Lemma preserves_weak {A} I (m : M D A) :
  preserves I m -> triple I m (fun _ => I) (fun _ _ => True).
Proof. intros Hm. by eapply triple_conseq. Qed.

Lemma preserves_weak_post {A} P I (m : M D A) :
  (forall d, P d -> I d) -> preserves I m -> triple P m (fun _ => I) (fun _ _ => True).
Proof. intros HP Hm. by eapply triple_conseq. Qed.

Lemma preserves_map_m {A B} I (f : A -> M D B) l :
  (forall x, preserves I (f x)) -> preserves I (map_m f l).
Proof.
  intros Hf. induction l as [|x l IH]; simpl; [apply preserves_ret|].
  apply preserves_bind; [done|]. intros y. apply preserves_bind; [done|].
  intros ys. apply preserves_ret.
Qed.

Lemma preserves_for_each {A} I (f : A -> M D unit) l :
  (forall x, preserves I (f x)) -> preserves I (for_each f l).
Proof.
  intros Hf. induction l as [|x l IH]; simpl; [apply preserves_ret|].
  by apply preserves_bind.
Qed.

(** The continuation of a pure step knows its value. *)
Lemma preserves_bind_lift {A B} I (r : result A) (k : A -> M D B) :
  (forall a, r = Ok a -> preserves I (k a)) -> preserves I (lift r ≫= k).
Proof.
  intros Hk env w Hw. unfold mbind, M_bind, lift. destruct r as [a|e]; [|done]. by apply Hk.
Qed.

(** A value property established by the first step. *)
Lemma preserves_bind_val {A B} (phi : A -> Prop) I (m : M D A) (k : A -> M D B) :
  triple I m (fun a d => phi a /\ I d) (fun _ => I) ->
  (forall a, phi a -> preserves I (k a)) -> preserves I (m ≫= k).
Proof.
  intros Hm Hk. eapply triple_bind; [apply Hm|]. intros a env w [Ha Hw]. by apply Hk.
Qed.

(** *** Strongest postconditions

    What is known after a step, from what was known before it; the error side is
    forgotten, which is enough inside a transaction. *)

Lemma fwd_sql {A} P (f : time -> D -> result (A * D)) :
  triple P (sql f) (fun a d' => exists t d, P d /\ f t d = Ok (a, d')) (fun _ _ => True).
Proof.
  intros env w Hw. unfold sql. destruct (env_fault _ _); [done|].
  destruct (f _ _) as [[a d]|e] eqn:Hf; [|done]. simpl. eauto.
Qed.

Lemma fwd_query {A} P (f : D -> result A) :
  triple P (query f) (fun a d => P d /\ f d = Ok a) (fun _ _ => True).
Proof. apply triple_query; [|done]. intros d Hd. by destruct (f d). Qed.

Lemma fwd_lift {A} P (r : result A) :
  triple P (lift r) (fun a d => P d /\ r = Ok a) (fun _ _ => True).
Proof. by apply triple_lift. Qed.

Lemma fwd_ret {A} P (a : A) : triple P (mret a) (fun x d => P d /\ x = a) (fun _ _ => True).
Proof. by apply triple_ret. Qed.

Lemma fwd_fail {A} P e : triple P (@fail D A e) (fun _ _ => False) (fun _ _ => True).
Proof. by apply triple_fail. Qed.

Lemma fwd_draw {A} P (f : Env -> nat -> A) :
  triple P (draw f) (fun _ => P) (fun _ _ => True).
Proof. by apply triple_draw. Qed.

Lemma fwd_preserved {A} P (m : M D A) :
  preserves P m -> triple P m (fun _ => P) (fun _ _ => True).
Proof. apply preserves_weak. Qed.

(** A transaction whose error is mapped by a handler without effects. *)
Lemma triple_handler {A} P be (m : M D A) h (Q : A -> D -> Prop) (E : error -> D -> Prop) :
  triple P m Q (fun _ _ => True) -> (forall e, triple P (h e) Q E) ->
  triple P (on_error (transaction be m) h) Q E.
Proof.
  intros Hm Hh. apply triple_on_error with (E' := fun _ => P); [|done].
  by eapply triple_transaction.
Qed.

Lemma preserves_handler {A} I be (m : M D A) h :
  triple I m (fun _ => I) (fun _ _ => True) -> (forall e, preserves I (h e)) ->
  preserves I (on_error (transaction be m) h).
Proof. apply triple_handler. Qed.

(** *** Reads and atomicity *)

Lemma read_only_preserves {A} I (m : M D A) : read_only m -> preserves I m.
Proof.
  intros Hm env w Hw. specialize (Hm (w_db w) env w eq_refl).
  destruct (m env w) as [[a|e] w']; by rewrite Hm.
Qed.

Lemma preserves_read_only {A} (m : M D A) :
  (forall I, preserves I m) -> read_only m.
Proof. intros Hm d0. apply Hm. Qed.

Lemma read_only_atomic {A} (m : M D A) : read_only m -> atomic m.
Proof. intros Hm d0. by eapply triple_conseq; [apply (Hm d0)|..]. Qed.

Lemma atomic_transaction {A} be (m : M D A) : atomic (transaction be m).
Proof.
  intros d0. eapply (triple_transaction _ _ _ _ _ (fun _ _ => True)); [|by intros ? ? ->].
  intros env w _. by destruct (m env w) as [[a|e] w'].
Qed.

Lemma atomic_sql {A} (f : time -> D -> result (A * D)) : atomic (sql f).
Proof.
  intros d0. apply triple_sql; [|done]. intros t d ->. by destruct (f t d0) as [[a d']|e].
Qed.

Lemma atomic_bind_read {A B} (m : M D A) (k : A -> M D B) :
  read_only m -> (forall a, atomic (k a)) -> atomic (m ≫= k).
Proof. intros Hm Hk d0. eapply triple_bind; [apply Hm|]. intros a. apply Hk. Qed.

Lemma atomic_on_error {A} (m : M D A) h :
  atomic m -> (forall e, atomic (h e)) -> atomic (on_error m h).
Proof. intros Hm Hh d0. eapply triple_on_error; [apply Hm|]. intros e. apply Hh. Qed.

(** What follows an atomic step may still be a pure mapping of its value. *)
Lemma atomic_bind_ret {A B} (m : M D A) (f : A -> B) :
  atomic m -> atomic (a ← m; mret (f a)).
Proof.
  intros Hm d0. eapply triple_bind; [apply Hm|]. intros a. by apply triple_ret.
Qed.

(** *** Runs without faults *)

Lemma quiet_sql {A} (f : time -> D -> result (A * D)) env d n :
  quiet env ->
  sql f env (mkWorld d n) =
    match f (env_sql_now env n) d with
    | Ok (a, d') => (Ok a, mkWorld d' (S n))
    | Err e => (Err e, mkWorld d (S n))
    end.
Proof. intros Hq. unfold sql. simpl. by rewrite Hq. Qed.

Lemma quiet_query {A} (f : D -> result A) env d n :
  quiet env -> query f env (mkWorld d n) = (f d, mkWorld d (S n)).
Proof. intros Hq. unfold query. rewrite quiet_sql by done. by destruct (f d). Qed.

Lemma quiet_transaction {A} be (m : M D A) env d n :
  quiet env ->
  transaction be m env (mkWorld d n) =
    match m env (mkWorld d (S n)) with
    | (Ok a, w') => (Ok a, mkWorld (w_db w') (S (w_step w')))
    | (Err e, w') => (Err e, mkWorld d (w_step w'))
    end.
Proof.
  intros Hq. unfold transaction. simpl. rewrite Hq.
  destruct (m env _) as [[a|e] w']; [|done]. by rewrite Hq.
Qed.
End logic.

#[export] Hint Resolve preserves_ret preserves_fail preserves_lift preserves_draw
  preserves_query preserves_attempt : preserve.

(** Walks a program, leaving the statements that change the invariant. *)
Ltac preserve_step :=
  match goal with
  | |- preserves _ (mbind _ (lift _)) => apply preserves_bind_lift; intros ? ?
  | |- preserves _ (mbind _ _) => apply preserves_bind; [|intros ?]
  | |- preserves _ (on_error _ _) => apply preserves_on_error; [|intros ?]
  | |- preserves _ (map_m _ _) => apply preserves_map_m; intros ?
  | |- preserves _ (for_each _ _) => apply preserves_for_each; intros ?
  | |- preserves _ (attempt _) => apply preserves_attempt
  | |- preserves _ (transaction _ _) => apply preserves_transaction, preserves_weak
  | |- preserves _ (match ?x with _ => _ end) => destruct x
  | |- preserves _ (let (_, _) := ?x in _) => destruct x
  end.

Ltac preserve := repeat first [solve [eauto 2 with preserve nocore] | preserve_step].

(** Proves [read_only] by proving every invariant preserved. *)
Ltac reads := apply preserves_read_only; intros; preserve.

(** Proves [atomic]: reads, then one transaction or statement, then a mapping. *)
Ltac atomic_step :=
  match goal with
  | |- atomic (transaction _ _) => apply atomic_transaction
  | |- atomic (on_error _ _) => apply atomic_on_error; [|intros ?]
  | |- atomic (mbind _ _) => apply atomic_bind_read; [solve [reads]|intros ?]
  | |- atomic (mbind (fun x => mret _) _) => apply atomic_bind_ret
  | |- atomic (match ?x with _ => _ end) => destruct x
  | |- atomic (let (_, _) := ?x in _) => destruct x
  end.

Ltac atomically :=
  repeat first [ solve [apply read_only_atomic; reads] | solve [eauto 2 with atomic nocore]
               | atomic_step ].

(** Computes a run in an environment without faults. *)
Ltac quiet_step :=
  first
    [ rewrite quiet_transaction by assumption
    | rewrite quiet_query by assumption
    | rewrite quiet_sql by assumption ].
