(* ===== verification/Pair.v ===== *)
(** * Programs over two states

    A device's process has a database and a host, and a fleet has an agent and a
    server: [on_fst] and [on_snd] run a program of one of two states, with the
    effects of both counted together.  [perform] runs a program for its effect and
    drops its error, as code that only logs does. *)

From S2P Require Import Prelude Engine.

Section pair.
Context {D1 D2 : Type}.

Definition on_fst {A} (m : M D1 A) : M (D1 * D2) A := fun env w =>
  let (r, w') := m env (mkWorld (w_db w).1 (w_step w)) in
  (r, mkWorld (w_db w', (w_db w).2) (w_step w')).

Definition on_snd {A} (m : M D2 A) : M (D1 * D2) A := fun env w =>
  let (r, w') := m env (mkWorld (w_db w).2 (w_step w)) in
  (r, mkWorld ((w_db w).1, w_db w') (w_step w')).

Lemma triple_on_fst {A} (P : D1 * D2 -> Prop) (m : M D1 A) Q E :
  (forall d2, triple (fun d1 => P (d1, d2)) m (fun a d1 => Q a (d1, d2)) (fun e d1 => E e (d1, d2))) ->
  triple P (on_fst m) Q E.
Proof.
  intros Hm env [[d1 d2] n] Hw. unfold on_fst. simpl in *.
  specialize (Hm d2 env (mkWorld d1 n) Hw). by destruct (m env _) as [[a|e] w'].
Qed.

Lemma triple_on_snd {A} (P : D1 * D2 -> Prop) (m : M D2 A) Q E :
  (forall d1, triple (fun d2 => P (d1, d2)) m (fun a d2 => Q a (d1, d2)) (fun e d2 => E e (d1, d2))) ->
  triple P (on_snd m) Q E.
Proof.
  intros Hm env [[d1 d2] n] Hw. unfold on_snd. simpl in *.
  specialize (Hm d1 env (mkWorld d2 n) Hw). by destruct (m env _) as [[a|e] w'].
Qed.

(** From one pair of states. *)
Lemma triple_on_fst_at {A} (m : M D1 A) d1 d2 (Q : A -> D1 * D2 -> Prop) E :
  triple (fun d => d = d1) m (fun a d => Q a (d, d2)) (fun e d => E e (d, d2)) ->
  triple (fun d => d = (d1, d2)) (on_fst m) Q E.
Proof. intros Hm. apply triple_on_fst. intros d env w [= Hw ->]. by apply Hm. Qed.

Lemma triple_on_snd_at {A} (m : M D2 A) d1 d2 (Q : A -> D1 * D2 -> Prop) E :
  triple (fun d => d = d2) m (fun a d => Q a (d1, d)) (fun e d => E e (d1, d)) ->
  triple (fun d => d = (d1, d2)) (on_snd m) Q E.
Proof. intros Hm. apply triple_on_snd. intros d env w [= -> Hw]. by apply Hm. Qed.

Lemma preserves_on_fst {A} (I : D1 -> Prop) (m : M D1 A) :
  preserves I m -> preserves (fun d => I d.1) (on_fst m).
Proof. intros Hm. by apply triple_on_fst. Qed.

Lemma preserves_on_snd {A} (I : D1 -> Prop) (m : M D2 A) : preserves (fun d => I d.1) (on_snd m).
Proof.
  apply triple_on_snd. intros d1 env w Hw. by destruct (m env w) as [[a|e] w'].
Qed.
End pair.

Definition perform {D A} (m : M D A) : M D unit := _ ← attempt m; mret tt.

Lemma preserves_perform {D A} (I : D -> Prop) (m : M D A) : preserves I m -> preserves I (perform m).
Proof.
  intros Hm. apply preserves_bind; [by apply preserves_attempt|]. intros r. apply preserves_ret.
Qed.

#[export] Hint Resolve preserves_on_fst preserves_on_snd preserves_perform : preserve.

(** Walks a program over two states. *)
Ltac preserve2 :=
  preserve;
  repeat (first [apply preserves_on_fst | apply preserves_on_snd | apply preserves_perform]; preserve).
