(* ===== verification/Quiet.v ===== *)
(** * Runs without faults

    [quietly P m Q]: in an environment in which no statement fails, [m] started in
    [P] returns a value (it does not fail) and ends in [Q].  This is the total
    counterpart of [triple], for the liveness of the programs; [quietly_triple]
    joins the two. *)

From S2P Require Import Prelude Engine Pair.

Definition quietly {D A} (P : D -> Prop) (m : M D A) (Q : A -> D -> Prop) : Prop :=
  forall env w, quiet env -> P (w_db w) -> exists a w', m env w = (Ok a, w') /\ Q a (w_db w').

Section quietly.
Context {D : Type}.
Implicit Types (P : D -> Prop).

Lemma quietly_conseq {A} P P' (m : M D A) Q Q' :
  quietly P' m Q' -> (forall d, P d -> P' d) -> (forall a d, Q' a d -> Q a d) -> quietly P m Q.
Proof.
  intros Hm HP HQ env w Hq Hw. destruct (Hm env w Hq (HP _ Hw)) as (a & w' & Hrun & Ha). eauto.
Qed.

(** What is proved of every run holds of this one. *)
Lemma quietly_triple {A} P (m : M D A) Q0 Q E :
  quietly P m Q0 -> triple P m Q E -> quietly P m (fun a d => Q0 a d /\ Q a d).
Proof.
  intros Hm Ht env w Hq Hw. destruct (Hm env w Hq Hw) as (a & w' & Hrun & Ha).
  specialize (Ht env w Hw). rewrite Hrun in Ht. eauto.
Qed.

(** A program that never fails. *)
Lemma quietly_total {A} P (m : M D A) Q : triple P m Q (fun _ _ => False) -> quietly P m Q.
Proof.
  intros Ht env w _ Hw. specialize (Ht env w Hw). destruct (m env w) as [[a|e] w']; [eauto|done].
Qed.

Lemma quietly_ret {A} P (a : A) Q : (forall d, P d -> Q a d) -> quietly P (mret a) Q.
Proof. intros HQ env w _ Hw. exists a, w. by split; [|apply HQ]. Qed.

Lemma quietly_lift {A} P (r : result A) a Q :
  r = Ok a -> (forall d, P d -> Q a d) -> quietly P (lift r) Q.
Proof. intros -> HQ env w _ Hw. exists a, w. by split; [|apply HQ]. Qed.

Lemma quietly_bind {A B} P (m : M D A) (k : A -> M D B) R Q :
  quietly P m R -> (forall a, quietly (R a) (k a) Q) -> quietly P (m ≫= k) Q.
Proof.
  intros Hm Hk env w Hq Hw. destruct (Hm env w Hq Hw) as (a & w' & Hrun & Ha).
  destruct (Hk a env w' Hq Ha) as (b & w'' & Hrun' & Hb). exists b, w''.
  unfold mbind, M_bind. by rewrite Hrun.
Qed.

(** The error handler of a call that does not fail. *)
Lemma quietly_on_error {A} P (m : M D A) h Q : quietly P m Q -> quietly P (on_error m h) Q.
Proof.
  intros Hm env w Hq Hw. destruct (Hm env w Hq Hw) as (a & w' & Hrun & Ha). exists a, w'.
  unfold on_error. by rewrite Hrun.
Qed.

Lemma quietly_attempt {A} P (m : M D A) Q :
  quietly P m Q -> quietly P (attempt m) (fun r d => exists a, r = Ok a /\ Q a d).
Proof.
  intros Hm env w Hq Hw. destruct (Hm env w Hq Hw) as (a & w' & Hrun & Ha).
  exists (Ok a), w'. unfold attempt. rewrite Hrun. eauto.
Qed.

Lemma quietly_perform {A} P (m : M D A) Q :
  quietly P m (fun _ => Q) -> quietly P (perform m) (fun _ => Q).
Proof.
  intros Hm. unfold perform. eapply quietly_bind; [by apply quietly_attempt|].
  intros r. apply quietly_ret. by intros d (a & _ & Hd).
Qed.

Lemma quietly_draw {A} P (f : Env -> nat -> A) Q :
  (forall env n d, P d -> Q (f env n) d) -> quietly P (draw f) Q.
Proof. intros HQ env w _ Hw. do 2 eexists. split; [reflexivity|]. by apply HQ. Qed.

Lemma quietly_sql {A} P (f : time -> D -> result (A * D)) Q :
  (forall t d, P d -> exists a d', f t d = Ok (a, d') /\ Q a d') -> quietly P (sql f) Q.
Proof.
  intros Hf env [d n] Hq Hw. destruct (Hf (env_sql_now env n) d Hw) as (a & d' & Hrun & Ha).
  exists a, (mkWorld d' (S n)). rewrite quiet_sql by done. by rewrite Hrun.
Qed.

Lemma quietly_query {A} P (f : D -> result A) Q :
  (forall d, P d -> exists a, f d = Ok a /\ Q a d) -> quietly P (query f) Q.
Proof.
  intros Hf. apply quietly_sql. intros _ d Hd. destruct (Hf d Hd) as (a & -> & Ha). eauto.
Qed.

Lemma quietly_transaction {A} P be (m : M D A) Q : quietly P m Q -> quietly P (transaction be m) Q.
Proof.
  intros Hm env [d n] Hq Hw. destruct (Hm env (mkWorld d (S n)) Hq Hw) as (a & w' & Hrun & Ha).
  exists a, (mkWorld (w_db w') (S (w_step w'))). rewrite quiet_transaction by done. by rewrite Hrun.
Qed.

Lemma quietly_map_m_lift {A B} P (f : A -> result B) (l : list A) :
  (forall x, x ∈ l -> exists y, f x = Ok y) ->
  quietly P (map_m (fun x => lift (f x)) l) (fun _ => P).
Proof.
  induction l as [|x l IH]; simpl; intros Hl; [by apply quietly_ret|].
  destruct (Hl x ltac:(by left)) as [y Hy].
  eapply quietly_bind; [eapply quietly_lift; [exact Hy|intros d Hd; exact Hd]|]. intros y'.
  eapply quietly_bind; [apply IH; intros z Hz; apply Hl; by right|]. intros ys. by apply quietly_ret.
Qed.

Lemma quietly_for_each {A} P (f : A -> M D unit) (l : list A) :
  (forall x, x ∈ l -> quietly P (f x) (fun _ => P)) -> quietly P (for_each f l) (fun _ => P).
Proof.
  induction l as [|x l IH]; simpl; intros Hl; [by apply quietly_ret|].
  eapply quietly_bind; [apply Hl; by left|]. intros []. apply IH. intros y Hy. apply Hl. by right.
Qed.

Lemma quietly_at {A} P (m : M D A) Q :
  (forall d0, P d0 -> quietly (fun d => d = d0) m Q) -> quietly P m Q.
Proof. intros Hm env w Hq Hw. by apply (Hm (w_db w)). Qed.

(** A call whose error is a value: what is known on both sides. *)
Lemma quietly_attempt_triple {A} P (m : M D A) Q E :
  triple P m Q E ->
  quietly P (attempt m) (fun r d => match r with Ok a => Q a d | Err e => E e d end).
Proof.
  intros Hm env w _ Hw. specialize (Hm env w Hw). unfold attempt.
  destruct (m env w) as [[a|e] w']; by eexists _, _.
Qed.

Lemma quietly_pure {A} (phi : Prop) P (m : M D A) Q :
  (phi -> quietly P m Q) -> quietly (fun d => phi /\ P d) m Q.
Proof. intros Hm env w Hq [Hphi Hw]. by apply Hm. Qed.

Lemma quietly_bind_draw {A B} P (f : Env -> nat -> A) (k : A -> M D B) Q :
  (forall env n, quietly P (k (f env n)) Q) -> quietly P (draw f ≫= k) Q.
Proof.
  intros Hk env w Hq Hw. unfold mbind, M_bind, draw. simpl.
  by apply (Hk env (w_step w) env (mkWorld (w_db w) (S (w_step w)))).
Qed.
End quietly.

Section pair.
Context {D1 D2 : Type}.

Lemma quietly_on_fst {A} (m : M D1 A) (d2 : D2) P Q :
  quietly P m Q ->
  quietly (fun d => P d.1 /\ d.2 = d2) (on_fst m) (fun a d => Q a d.1 /\ d.2 = d2).
Proof.
  intros Hm env [[d1 x] n] Hq [Hw Hx]. simpl in *. subst x.
  destruct (Hm env (mkWorld d1 n) Hq Hw) as (a & w' & Hrun & Ha).
  do 2 eexists. unfold on_fst. simpl. rewrite Hrun. by split.
Qed.

Lemma quietly_on_snd {A} (m : M D2 A) (d1 : D1) P Q :
  quietly P m Q ->
  quietly (fun d => d.1 = d1 /\ P d.2) (on_snd m) (fun a d => d.1 = d1 /\ Q a d.2).
Proof.
  intros Hm env [[x d2] n] Hq [Hx Hw]. simpl in *. subst x.
  destruct (Hm env (mkWorld d2 n) Hq Hw) as (a & w' & Hrun & Ha).
  do 2 eexists. unfold on_snd. simpl. rewrite Hrun. by split.
Qed.
End pair.
