(* ===== verification/Pki.v ===== *)
(** * Certificates ([server/internal/ca/ca.go], [server/internal/mtls/])

    The checks on enrollment requests, the issue of device certificates and the
    classification of peers.  PEM, X.509 and Ed25519 are Go's standard library:
    [X509] is the part of it the code calls, [X509Laws] the round trips it
    documents. *)

From Stdlib Require Import Ascii.
From S2P Require Import Prelude Hash Engine.

Open Scope Z_scope.

(** ** The standard library's types *)

Record Block := { Block_Type : string; Block_Bytes : bytes }.

(** [any], of which the code distinguishes [ed25519.PublicKey]. *)
Inductive PublicKey := Ed25519Key (key : bytes) | OtherKey.

Record URL := { Scheme : string; Host : string; Path : string }.

Record CertificateRequest := {
  Csr_SignatureValid : bool;
  Csr_PublicKey : PublicKey;
  Csr_DNSNames : list string;
  Csr_IPAddresses : list bytes;
  Csr_EmailAddresses : list string;
  Csr_URIs : list URL;
}.

Record X509Certificate := {
  Cert_SerialNumber : option Z;
  Cert_CommonName : string;
  Cert_SubjectSerialNumber : string;
  Cert_NotBefore : time;
  Cert_NotAfter : time;
  Cert_PublicKey : PublicKey;
  Cert_URIs : list URL;
}.

(** [pem.Decode], [pem.EncodeToMemory], [x509.ParseCertificateRequest],
    [x509.ParseCertificate], and [x509.CreateCertificate] signed by the CA: the
    template already carries the request's public key. *)
Class X509 := {
  pem_Decode : bytes -> option (Block * bytes);
  pem_Encode : Block -> bytes;
  ParseCertificateRequest : bytes -> option CertificateRequest;
  ParseCertificate : bytes -> option X509Certificate;
  CreateCertificate : X509Certificate -> option bytes;
}.

(** A PEM block is not empty, reads back with nothing after it, and a created certificate
    parses to its template (validity has a resolution of a second). *)
Class X509Laws `{X509} : Prop := {
  pem_decode_encode : forall b, pem_Decode (pem_Encode b) = Some (b, []);
  pem_encode_nonempty : forall b, pem_Encode b <> [];
  parse_created : forall t der, CreateCertificate t = Some der ->
    exists c, ParseCertificate der = Some c /\ Cert_SerialNumber c = Cert_SerialNumber t /\
      Cert_CommonName c = Cert_CommonName t /\
      Cert_SubjectSerialNumber c = Cert_SubjectSerialNumber t /\ Cert_PublicKey c = Cert_PublicKey t /\
      Cert_URIs c = Cert_URIs t;
}.

(** [len(bytes.TrimSpace(b)) == 0]: only Unicode white space, in UTF-8. *)
Fixpoint blank (b : bytes) : bool :=
  match b with
  | [] => true
  | (Byte.x09 | Byte.x0a | Byte.x0b | Byte.x0c | Byte.x0d | Byte.x20) :: b => blank b
  | Byte.xc2 :: (Byte.x85 | Byte.xa0) :: b => blank b
  | Byte.xe1 :: Byte.x9a :: Byte.x80 :: b => blank b
  | Byte.xe2 :: Byte.x80 :: (Byte.x80 | Byte.x81 | Byte.x82 | Byte.x83 | Byte.x84 | Byte.x85
      | Byte.x86 | Byte.x87 | Byte.x88 | Byte.x89 | Byte.x8a | Byte.xa8 | Byte.xa9 | Byte.xaf) :: b =>
      blank b
  | Byte.xe2 :: Byte.x81 :: Byte.x9f :: b => blank b
  | Byte.xe3 :: Byte.x80 :: Byte.x80 :: b => blank b
  | _ => false
  end.

(** [(big.Int).Text(16)] of a non-negative number. *)
Fixpoint hex_text (fuel : nat) (z : Z) (acc : string) : string :=
  match fuel with
  | O => acc
  | S fuel =>
      let acc := String (hex_digit (z mod 16)) acc in
      if z <? 16 then acc else hex_text fuel (z / 16) acc
  end.

Definition Text16 (z : Z) : string := hex_text (S (Z.to_nat (Z.log2 z))) z EmptyString.

(** ** Peer classes ([mtls/peer_class.go]) *)

Definition PeerClassAgent : string := "agent".
Definition peerClassURIScheme : string := "spiffe".
Definition peerClassURIHost : string := "cadestro".

(** [strings.TrimPrefix(path, "/")]. *)
Definition trim_slash (path : string) : string :=
  match path with
  | String "/"%char path => path
  | path => path
  end.

(** The loop of [PeerClassFromCert] from [found]. *)
Fixpoint peer_class_loop (uris : list URL) (found : string) : result string :=
  match uris with
  | [] => Ok found
  | u :: uris =>
      if negb (bool_decide (Scheme u = peerClassURIScheme))
         || negb (bool_decide (Host u = peerClassURIHost))
      then peer_class_loop uris found
      else
        let class := trim_slash (Path u) in
        if bool_decide (class = EmptyString) then peer_class_loop uris found
        else if negb (bool_decide (found = EmptyString)) && negb (bool_decide (found = class))
        then Err (ErrNew "certificate carries multiple peer-class URIs")
        else peer_class_loop uris class
  end.

Definition PeerClassFromCert (cert : X509Certificate) : result string :=
  found ← peer_class_loop (Cert_URIs cert) EmptyString;
  if bool_decide (found = EmptyString)
  then Err (ErrNew "certificate has no peer-class URI SAN")
  else if bool_decide (found = PeerClassAgent) then Ok found
  else Err (ErrNew "unknown peer class").

(** The class a URI names. *)
Definition class_of (u : URL) : option string :=
  if bool_decide (Scheme u = peerClassURIScheme) && bool_decide (Host u = peerClassURIHost)
     && negb (bool_decide (trim_slash (Path u) = EmptyString))
  then Some (trim_slash (Path u)) else None.

Lemma peer_class_loop_cons u uris found :
  peer_class_loop (u :: uris) found =
    match class_of u with
    | None => peer_class_loop uris found
    | Some class =>
        if negb (bool_decide (found = EmptyString)) && negb (bool_decide (found = class))
        then Err (ErrNew "certificate carries multiple peer-class URIs")
        else peer_class_loop uris class
    end.
Proof.
  unfold class_of. simpl. destruct (bool_decide (Scheme u = _)); [|done].
  destruct (bool_decide (Host u = _)); [|done]. simpl. by destruct (bool_decide (trim_slash _ = _)).
Qed.

Lemma class_of_nonempty u c : class_of u = Some c -> c <> EmptyString.
Proof.
  unfold class_of. destruct (bool_decide _ && bool_decide _); [|done]. simpl.
  case_bool_decide; simpl; [done|]. by intros [= <-].
Qed.

(** The loop returns the one class of the URIs, or what it began with. *)
Lemma peer_class_loop_ok uris found c :
  peer_class_loop uris found = Ok c <->
  (forall u d, u ∈ uris -> class_of u = Some d -> d = c) /\
  ((found = c \/ found = EmptyString /\ exists u, u ∈ uris /\ class_of u = Some c)).
Proof.
  revert found. induction uris as [|u uris IH]; intros found.
  - simpl. split; [intros [= ->]; split; [by intros ? ? ?%not_elem_of_nil|by left]|].
    intros [_ [->|(_ & ? & ?%not_elem_of_nil & _)]]; done.
  - rewrite peer_class_loop_cons. destruct (class_of u) as [d|] eqn:Hu.
    + pose proof (class_of_nonempty u d Hu) as Hd.
      destruct (negb _ && negb _) eqn:Hm.
      * apply andb_true_iff in Hm as [Hf%negb_true_iff%bool_decide_eq_false Hne%negb_true_iff%bool_decide_eq_false].
        split; [done|]. intros [Hall [->|[? _]]]; [|done].
        exfalso. apply Hne. symmetry. apply (Hall u d); [by left|done].
      * rewrite IH. split.
        -- intros [Hall [->|[? _]]]; [|done]. split.
           ++ intros u' d' [->|Hin]%elem_of_cons Hc; [congruence|by eapply Hall].
           ++ apply andb_false_iff in Hm as [Hf|Hf]; apply negb_false_iff, bool_decide_eq_true in Hf;
                [right; split; [done|]; exists u; split; [by left|done]|by left].
        -- intros [Hall _]. assert (d = c) as -> by (apply (Hall u); [by left|done]).
           split; [|by left]. intros u' d' Hin. apply Hall. by right.
    + rewrite IH. split; intros [Hall Hor]; split.
      * intros u' d' [->|Hin]%elem_of_cons Hc; [congruence|by eapply Hall].
      * destruct Hor as [|(? & u' & ? & ?)]; [by left|]. right. split; [done|]. exists u'. by split; [right|].
      * intros u' d' Hin. apply Hall. by right.
      * destruct Hor as [|(? & u' & [->|?]%elem_of_cons & ?)]; [by left|congruence|]. right. eauto.
Qed.

Lemma peer_class_agent cert :
  PeerClassFromCert cert = Ok PeerClassAgent <->
  (exists u, u ∈ Cert_URIs cert /\ class_of u = Some PeerClassAgent) /\
  (forall u c, u ∈ Cert_URIs cert -> class_of u = Some c -> c = PeerClassAgent).
Proof.
  unfold PeerClassFromCert. pose proof (peer_class_loop_ok (Cert_URIs cert) EmptyString PeerClassAgent) as Hl.
  split.
  - destruct (peer_class_loop _ _) as [found|]; simpl; [|done].
    case_bool_decide; [done|]. case_bool_decide as Hf; [|done]. intros _. subst found.
    destruct (proj1 Hl eq_refl) as [Hall [Hn|[_ Hex]]]; [done|]. by split.
  - intros [Hex Hall]. rewrite (proj2 Hl); [done|]. split; [done|by right].
Qed.

(** [url.Parse] of [spiffe://cadestro/class]. *)
Definition PeerClassURI (class : string) : result URL :=
  if bool_decide (class = PeerClassAgent)
  then Ok {| Scheme := peerClassURIScheme; Host := peerClassURIHost;
             Path := String "/" class |}
  else Err (ErrNew "unknown peer class").

(** ** The certificate authority ([ca/ca.go]) *)

(** The CA's own certificate in DER and the lifetime of what it issues. *)
Record CA := { CA_Raw : bytes; CA_validity : Z }.

Record IssuedCertificate := { CertPEM : bytes; NotAfter : time }.

Definition clockSkewAllowance : Z := 60 * 1000000000.

Definition ErrInvalidCSR : error := ErrVar "ca.ErrInvalidCSR".

Section ca.
  Context `{X509}.

Definition parseEnrollmentCSR (csrPEM : bytes) : result (CertificateRequest * bytes) :=
  match pem_Decode csrPEM with
  | None => Err (ErrWrap "failed to decode CSR PEM" ErrInvalidCSR)
  | Some (block, rest) =>
      if negb (bool_decide (Block_Type block = "CERTIFICATE REQUEST"%string))
         && negb (bool_decide (Block_Type block = "NEW CERTIFICATE REQUEST"%string))
      then Err (ErrWrap "unexpected PEM block type" ErrInvalidCSR)
      else if negb (blank rest) then Err (ErrWrap "trailing data after CSR PEM" ErrInvalidCSR)
      else match ParseCertificateRequest (Block_Bytes block) with
      | None => Err (ErrWrap "parse CSR" ErrInvalidCSR)
      | Some csr =>
          if negb (Csr_SignatureValid csr)
          then Err (ErrWrap "invalid CSR signature" ErrInvalidCSR)
          else match Csr_PublicKey csr with
          | OtherKey => Err (ErrWrap "unsupported public key type" ErrInvalidCSR)
          | Ed25519Key key =>
              match Csr_DNSNames csr, Csr_IPAddresses csr, Csr_EmailAddresses csr, Csr_URIs csr with
              | [], [], [], [] => Ok (csr, key)
              | _, _, _, _ =>
                  Err (ErrWrap "CSR must not request subject alternative names" ErrInvalidCSR)
              end
          end
      end
  end.

Definition EnrollmentIdentityFromCSR (csrPEM : bytes) : result bytes :=
  csr ← parseEnrollmentCSR csrPEM; Ok csr.2.

Definition SerialFromCert (cert : X509Certificate) : result string :=
  match Cert_SerialNumber cert with
  | None => Err (ErrNew "certificate serial is required")
  | Some serial =>
      if serial <? 0 then Err (ErrNew "certificate serial is required") else Ok (Text16 serial)
  end.

Definition parseCertificatePEM (certPEM : bytes) : result X509Certificate :=
  match pem_Decode certPEM with
  | None => Err (ErrNew "invalid certificate PEM")
  | Some (block, rest) =>
      if negb (bool_decide (Block_Type block = "CERTIFICATE"%string)) || negb (blank rest)
      then Err (ErrNew "invalid certificate PEM")
      else match ParseCertificate (Block_Bytes block) with
      | None => Err (ErrNew "parse certificate")
      | Some cert => Ok cert
      end
  end.

Definition SerialFromPEM (certPEM : bytes) : result string :=
  cert ← parseCertificatePEM certPEM; SerialFromCert cert.

(** [rand.Int(rand.Reader, 1 << 128)]: sixteen bytes, as a big-endian number. *)
Definition serial_of_bytes (b : bytes) : Z :=
  fold_left (fun acc x => acc * 256 + byte_to_Z x) b 0.

Definition IssueCertificateFromCSR {D} (ca : CA) (deviceID : string) (csrPEM : bytes)
    : M D IssuedCertificate :=
  csr ← lift (parseEnrollmentCSR csrPEM);
  raw ← rand_read 16;
  match raw with
  | None => fail (ErrWrap "generate serial number" (ErrNew "rand.Read"))
  | Some raw =>
      at_ ← now;
      let notAfter := at_ + CA_validity ca in
      peerURI ← lift (PeerClassURI PeerClassAgent);
      match CreateCertificate {|
        Cert_SerialNumber := Some (serial_of_bytes raw); Cert_CommonName := deviceID;
        Cert_SubjectSerialNumber := deviceID; Cert_NotBefore := at_ - clockSkewAllowance; Cert_NotAfter := notAfter;
        Cert_PublicKey := Csr_PublicKey csr.1; Cert_URIs := [peerURI] |} with
      | None => fail (ErrWrap "create certificate" (ErrNew "x509.CreateCertificate"))
      | Some certDER =>
          mret {| CertPEM := pem_Encode {| Block_Type := "CERTIFICATE"; Block_Bytes := certDER |};
                  NotAfter := notAfter |}
      end
  end.

Definition CACertPEM (ca : CA) : bytes :=
  pem_Encode {| Block_Type := "CERTIFICATE"; Block_Bytes := CA_Raw ca |}.

Definition AssertCSRMatchesCert (cert : X509Certificate) (csrPEM : bytes) : result unit :=
  match pem_Decode csrPEM with
  | None => Err (ErrNew "invalid certificate signing request")
  | Some (block, rest) =>
      if negb (blank rest) then Err (ErrNew "invalid certificate signing request")
      else match ParseCertificateRequest (Block_Bytes block) with
      | None => Err (ErrNew "parse CSR")
      | Some csr =>
          match Cert_PublicKey cert, Csr_PublicKey csr with
          | Ed25519Key certKey, Ed25519Key csrKey =>
              if bool_decide (certKey = csrKey) then Ok tt
              else Err (ErrNew "CSR public key does not match authenticated TLS peer")
          | _, _ => Err (ErrNew "CSR public key does not match authenticated TLS peer")
          end
      end
  end.

(** ** What an issued certificate says *)

Lemma serial_of_bytes_nonneg b : 0 <= serial_of_bytes b.
Proof.
  assert (forall acc, 0 <= acc -> 0 <= fold_left (fun acc x => acc * 256 + byte_to_Z x) b acc) as Hf.
  { induction b as [|x b IH]; simpl; intros acc Hacc; [done|]. apply IH.
    pose proof (byte_to_Z_range x). lia. }
  by apply Hf.
Qed.

(** The certificate issued for a device is an agent certificate for it, with the
    key of the request. *)
Definition issued_for (deviceID : string) (key : bytes) (c : IssuedCertificate) : Prop :=
  exists x serial, parseCertificatePEM (CertPEM c) = Ok x /\ Cert_CommonName x = deviceID /\
    Cert_PublicKey x = Ed25519Key key /\ PeerClassFromCert x = Ok PeerClassAgent /\
    SerialFromCert x = Ok serial /\ SerialFromPEM (CertPEM c) = Ok serial /\ CertPEM c <> [].

Lemma parseEnrollmentCSR_key csrPEM csr key :
  parseEnrollmentCSR csrPEM = Ok (csr, key) -> Csr_PublicKey csr = Ed25519Key key.
Proof.
  unfold parseEnrollmentCSR. repeat case_match; intros; simplify_eq; done.
Qed.

Context `{!X509Laws}.

Lemma IssueCertificateFromCSR_issues {D} (P : D -> Prop) ca deviceID csrPEM :
  triple P (IssueCertificateFromCSR ca deviceID csrPEM)
    (fun c d => (exists key, EnrollmentIdentityFromCSR csrPEM = Ok key /\ issued_for deviceID key c) /\ P d)
    (fun _ => P).
Proof.
  unfold EnrollmentIdentityFromCSR, IssueCertificateFromCSR.
  destruct (parseEnrollmentCSR csrPEM) as [[csr key]|e] eqn:Hcsr; simpl; [|by apply triple_bind_lift].
  apply parseEnrollmentCSR_key in Hcsr as Hpk.
  apply triple_bind_lift; [intros c [= <-]|done].
  apply triple_bind_draw. intros [raw|]; [|by apply triple_fail].
  apply triple_bind_draw. intros at_. apply triple_bind_lift; [|done]. intros uri [= <-] env w Hw.
  destruct (CreateCertificate _) as [der|] eqn:Hder; [|done]. split; [|done]. exists key. split; [done|].
  destruct (parse_created _ _ Hder) as (x & Hx & Hs & Hcn & _ & Hk & Hu). simpl in *.
  exists x, (Text16 (serial_of_bytes raw)).
  assert (parseCertificatePEM (pem_Encode {| Block_Type := "CERTIFICATE"; Block_Bytes := der |}) = Ok x) as Hp.
  { unfold parseCertificatePEM. rewrite pem_decode_encode. simpl. by rewrite Hx. }
  assert (SerialFromCert x = Ok (Text16 (serial_of_bytes raw))) as Hsr.
  { unfold SerialFromCert. rewrite Hs. pose proof (serial_of_bytes_nonneg raw).
    by destruct (Z.ltb_spec (serial_of_bytes raw) 0); [lia|]. }
  simpl. split_and!; [done|done|congruence| |done| |].
  - unfold PeerClassFromCert. by rewrite Hu.
  - unfold SerialFromPEM. by rewrite Hp.
  - apply pem_encode_nonempty.
Qed.

Lemma IssueCertificateFromCSR_preserves {D} (I : D -> Prop) ca deviceID csrPEM :
  preserves I (IssueCertificateFromCSR ca deviceID csrPEM).
Proof. clear. unfold IssueCertificateFromCSR, rand_read, now. preserve. Qed.
End ca.

#[export] Hint Resolve IssueCertificateFromCSR_preserves : preserve.
