(* ===== verification/Proto.v ===== *)
(** * The wire contract ([contract/])

    The protobuf messages the handlers compute with, the getters of the generated
    code, and the action digest.  Proto3 enums are open: an enum value that comes
    from a peer or from the database is an [int32], so those are [Z] with the
    declared numbers as constants; an enum the program itself computes is an
    inductive type.  The protobuf runtime is outside the repository: [ProtoCodec]
    is its Marshal/Unmarshal pair and [ProtoLaws] the documented round trip. *)

From S2P Require Import Prelude Hash Engine.

Open Scope Z_scope.

(** ** Enums ([common.proto], [control.proto]) *)

Definition EXECUTION_STATUS_SUCCESS : Z := 1.
Definition EXECUTION_STATUS_FAILED : Z := 2.
Definition EXECUTION_STATUS_TIMEOUT : Z := 3.
Definition EXECUTION_STATUS_INDETERMINATE : Z := 4.

Definition DESIRED_STATE_UNSPECIFIED : Z := 0.
Definition DESIRED_STATE_PRESENT : Z := 1.
Definition DESIRED_STATE_ABSENT : Z := 2.

Definition ASSIGNMENT_TARGET_TYPE_DEVICE : Z := 1.
Definition ASSIGNMENT_TARGET_TYPE_DEVICE_GROUP : Z := 2.

Inductive DeviceStatus := DEVICE_STATUS_ONLINE | DEVICE_STATUS_OFFLINE.

Inductive ComplianceStatus :=
| COMPLIANCE_STATUS_UNSPECIFIED
| COMPLIANCE_STATUS_COMPLIANT
| COMPLIANCE_STATUS_NON_COMPLIANT
| COMPLIANCE_STATUS_PENDING.

#[export] Instance ComplianceStatus_eq_dec : EqDecision ComplianceStatus.
Proof. solve_decision. Defined.

Inductive ResultAckCode := RESULT_ACK_CODE_ACCEPTED | RESULT_ACK_CODE_REJECTED.

(** ** Timestamps ([timestamppb]) *)

Record Timestamp := mkTimestamp { Seconds : Z; Nanos : Z }.

#[export] Instance Timestamp_eq_dec : EqDecision Timestamp.
Proof. solve_decision. Defined.

(** [timestamppb.New]. *)
Definition timestamp_new (t : time) : Timestamp :=
  mkTimestamp (t / 1000000000) (t mod 1000000000).

(** [(Timestamp).AsTime]. *)
Definition AsTime (ts : Timestamp) : time := Seconds ts * 1000000000 + Nanos ts.

(** [(Timestamp).CheckValid() == nil]: years 1 to 9999, normalised nanos. *)
Definition CheckValid (ts : Timestamp) : bool :=
  (-62135596800 <=? Seconds ts) && (Seconds ts <=? 253402300799)
  && (0 <=? Nanos ts) && (Nanos ts <? 1000000000).

Lemma AsTime_new t : AsTime (timestamp_new t) = t.
Proof. unfold AsTime, timestamp_new. simpl. pose proof (Z.div_mod t 1000000000). lia. Qed.

(** ** Actions ([actions.proto]) *)

Record PackageActionParams := { pkg_Name : string; pkg_Version : string }.

Record ShellActionParams := {
  Script : string;
  Interpreter : string;
  WorkingDirectory : string;
  Environment : gmap string string;
  DetectionScript : string;
  IsCompliance : bool;
}.

(** The [oneof params]. *)
Inductive ActionParams :=
| Action_Package (p : PackageActionParams)
| Action_Update
| Action_Shell (p : ShellActionParams).

Record ActionSchedule := { IntervalHours : Z }.

Record Action := {
  Action_Id : option string;
  Action_DesiredState : Z;
  Action_TimeoutSeconds : Z;
  Action_Schedule : option ActionSchedule;
  Action_Params : option ActionParams;
}.

Record CommandOutput := { ExitCode : Z; Stdout : string; Stderr : string }.

Record ActionResult := {
  Result_ActionId : option string;
  Result_Status : Z;
  Result_Output : option CommandOutput;
  Result_DetectionOutput : option CommandOutput;
  Result_CompletedAt : option Timestamp;
  Result_RunId : option string;
  Result_ActionDigest : bytes;
}.

#[export] Instance PackageActionParams_eq_dec : EqDecision PackageActionParams.
Proof. solve_decision. Defined.
#[export] Instance ShellActionParams_eq_dec : EqDecision ShellActionParams.
Proof. solve_decision. Defined.
#[export] Instance ActionParams_eq_dec : EqDecision ActionParams.
Proof. solve_decision. Defined.
#[export] Instance ActionSchedule_eq_dec : EqDecision ActionSchedule.
Proof. solve_decision. Defined.
#[export] Instance Action_eq_dec : EqDecision Action.
Proof. solve_decision. Defined.
#[export] Instance CommandOutput_eq_dec : EqDecision CommandOutput.
Proof. solve_decision. Defined.
#[export] Instance ActionResult_eq_dec : EqDecision ActionResult.
Proof. solve_decision. Defined.

(** [x.GetId().GetValue()] and the like: the zero value of a missing message. *)
Definition GetValue (id : option string) : string := default EmptyString id.

Definition with_action_id (id : string) (a : Action) : Action := {|
  Action_Id := Some id;
  Action_DesiredState := Action_DesiredState a;
  Action_TimeoutSeconds := Action_TimeoutSeconds a;
  Action_Schedule := Action_Schedule a;
  Action_Params := Action_Params a;
|}.

Record DesiredPolicy := {
  RefreshIntervalMinutes : Z;
  Policy_Actions : list Action;
}.

(** ** The protobuf runtime *)

Class ProtoCodec (A : Type) := {
  marshal : A -> option bytes;
  unmarshal : bytes -> option A;
}.

(** A message that marshals is read back, up to [proto.Equal]. *)
Class ProtoLaws (A : Type) `{ProtoCodec A} : Prop :=
  unmarshal_marshal : forall a b, marshal a = Some b -> unmarshal b = Some a.

(** [proto.Marshal] and [proto.Unmarshal] as the Go code calls them. *)
Definition proto_Marshal `{ProtoCodec A} (a : A) : result bytes :=
  match marshal a with Some b => Ok b | None => Err (ErrNew "proto: marshal") end.

Definition proto_Unmarshal `{ProtoCodec A} (b : bytes) : result A :=
  match unmarshal b with Some a => Ok a | None => Err (ErrNew "proto: unmarshal") end.

Lemma proto_Marshal_ok `{ProtoCodec A} (a : A) b : proto_Marshal a = Ok b <-> marshal a = Some b.
Proof. unfold proto_Marshal. destruct (marshal a); naive_solver. Qed.

Lemma proto_Unmarshal_ok `{ProtoCodec A} b (a : A) : proto_Unmarshal b = Ok a <-> unmarshal b = Some a.
Proof. unfold proto_Unmarshal. destruct (unmarshal b); naive_solver. Qed.

(** [proto.MarshalOptions{Deterministic: true}.Marshal]. *)
Class DeterministicMarshal := { marshal_deterministic : Action -> option bytes }.

(** [contract.ActionDigest]. *)
Definition ActionDigest `{DeterministicMarshal} (action : option Action) : result bytes :=
  match action with
  | None => Err (ErrNew "action digest: action is required")
  | Some action =>
      match marshal_deterministic action with
      | None => Err (ErrWrap "action digest: marshal action" (ErrNew "proto: marshal"))
      | Some payload => Ok (Sum256 payload)
      end
  end.

#[global] Arguments ActionDigest : simpl never.

Lemma length_ActionDigest `{DeterministicMarshal} a d :
  ActionDigest a = Ok d -> length d = 32%nat.
Proof.
  unfold ActionDigest. destruct a as [a|]; [|done].
  destruct (marshal_deterministic a); [|done]. intros [= <-]. apply length_Sum256.
Qed.

(** ** A concrete codec

    Any injective encoding satisfies the round trip.  This one, through the
    countability of the message types, is what the examples are evaluated with. *)

Section countable_messages.
#[export] Instance PackageActionParams_countable : Countable PackageActionParams.
Proof.
  refine (inj_countable' (fun p => (pkg_Name p, pkg_Version p))
            (fun '(n, v) => {| pkg_Name := n; pkg_Version := v |}) _).
  by intros [].
Defined.

#[export] Instance ShellActionParams_countable : Countable ShellActionParams.
Proof.
  refine (inj_countable (fun p => [encode (Script p); encode (Interpreter p); encode (WorkingDirectory p);
               encode (Environment p); encode (DetectionScript p); encode (IsCompliance p)])
    (fun l => match l with
      | [x0; x1; x2; x3; x4; x5] =>
          x0 ← decode x0; x1 ← decode x1; x2 ← decode x2; x3 ← decode x3;
          x4 ← decode x4; x5 ← decode x5;
          Some (Build_ShellActionParams x0 x1 x2 x3 x4 x5)
      | _ => None
      end) _).
  intros []. cbv beta iota. repeat (rewrite decode_encode; cbv [mbind option_bind]; cbv beta iota). done.
Defined.

#[export] Instance ActionParams_countable : Countable ActionParams.
Proof.
  refine (inj_countable'
    (fun p => match p with
              | Action_Package p => inl p
              | Action_Update => inr None
              | Action_Shell p => inr (Some p)
              end)
    (fun p => match p with
              | inl p => Action_Package p
              | inr None => Action_Update
              | inr (Some p) => Action_Shell p
              end) _).
  by intros [].
Defined.

#[export] Instance ActionSchedule_countable : Countable ActionSchedule.
Proof.
  refine (inj_countable' IntervalHours (fun h => {| IntervalHours := h |}) _). by intros [].
Defined.

#[export] Instance Action_countable : Countable Action.
Proof.
  refine (inj_countable (fun a => [encode (Action_Id a); encode (Action_DesiredState a);
               encode (Action_TimeoutSeconds a); encode (Action_Schedule a);
               encode (Action_Params a)])
    (fun l => match l with
      | [x0; x1; x2; x3; x4] =>
          x0 ← decode x0; x1 ← decode x1; x2 ← decode x2; x3 ← decode x3;
          x4 ← decode x4;
          Some (Build_Action x0 x1 x2 x3 x4)
      | _ => None
      end) _).
  intros []. cbv beta iota. repeat (rewrite decode_encode; cbv [mbind option_bind]; cbv beta iota). done.
Defined.

#[export] Instance Timestamp_countable : Countable Timestamp.
Proof.
  refine (inj_countable' (fun t => (Seconds t, Nanos t)) (fun '(s, n) => mkTimestamp s n) _).
  by intros [].
Defined.

#[export] Instance CommandOutput_countable : Countable CommandOutput.
Proof.
  refine (inj_countable (fun o => [encode (ExitCode o); encode (Stdout o); encode (Stderr o)])
    (fun l => match l with
      | [x0; x1; x2] =>
          x0 ← decode x0; x1 ← decode x1; x2 ← decode x2;
          Some (Build_CommandOutput x0 x1 x2)
      | _ => None
      end) _).
  intros []. cbv beta iota. repeat (rewrite decode_encode; cbv [mbind option_bind]; cbv beta iota). done.
Defined.

#[export] Instance byte_countable : Countable Byte.byte.
Proof.
  refine (inj_countable' Byte.to_N (fun n => default Byte.x00 (Byte.of_N n)) _).
  intros b. by rewrite Byte.of_to_N.
Defined.

#[export] Instance ActionResult_countable : Countable ActionResult.
Proof.
  refine (inj_countable (fun r => [encode (Result_ActionId r); encode (Result_Status r); encode (Result_Output r);
               encode (Result_DetectionOutput r); encode (Result_CompletedAt r);
               encode (Result_RunId r); encode (Result_ActionDigest r)])
    (fun l => match l with
      | [x0; x1; x2; x3; x4; x5; x6] =>
          x0 ← decode x0; x1 ← decode x1; x2 ← decode x2; x3 ← decode x3;
          x4 ← decode x4; x5 ← decode x5; x6 ← decode x6;
          Some (Build_ActionResult x0 x1 x2 x3 x4 x5 x6)
      | _ => None
      end) _).
  intros []. cbv beta iota. repeat (rewrite decode_encode; cbv [mbind option_bind]; cbv beta iota). done.
Defined.
End countable_messages.

Fixpoint positive_bytes (p : positive) : bytes :=
  match p with
  | xH => []
  | xO p => Byte.x00 :: positive_bytes p
  | xI p => Byte.x01 :: positive_bytes p
  end.

Fixpoint bytes_positive (b : bytes) : option positive :=
  match b with
  | [] => Some xH
  | Byte.x00 :: b => xO <$> bytes_positive b
  | Byte.x01 :: b => xI <$> bytes_positive b
  | _ => None
  end.

Lemma bytes_positive_bytes p : bytes_positive (positive_bytes p) = Some p.
Proof. by induction p as [p IH|p IH|]; simpl; rewrite ?IH. Qed.

Definition example_codec (A : Type) `{Countable A} : ProtoCodec A := {|
  marshal a := Some (positive_bytes (encode a));
  unmarshal b := p ← bytes_positive b; decode p;
|}.

Lemma example_codec_laws (A : Type) `{Countable A} : @ProtoLaws A (example_codec A).
Proof.
  intros a b [= <-]. simpl. rewrite bytes_positive_bytes. simpl. apply decode_encode.
Qed.

Definition example_deterministic : DeterministicMarshal := {|
  marshal_deterministic a := Some (positive_bytes (encode a));
|}.
