(* ===== verification/Schema.v ===== *)
(** * The control plane's database
    ([server/internal/store/migrations/00001_core.sql], [generated/models.go])

    One record per table row, with the field names of [generated/models.go]; a
    table is a finite map from its primary key, or a set of rows when every column
    belongs to the key.  [initial_database] is what the migration inserts. *)

From S2P Require Import Prelude Engine.

Open Scope Z_scope.

(** ** Rows *)

Record IdentityProvider := {
  IdentityProvider_ID : string;
  IdentityProvider_Name : string;
  IdentityProvider_Slug : string;
  IdentityProvider_Enabled : bool;
  IdentityProvider_ClientID : string;
  IdentityProvider_IssuerUrl : string;
  IdentityProvider_ScopesJson : list string;
  IdentityProvider_CreatedAt : time;
  IdentityProvider_UpdatedAt : time;
}.

Record User := {
  User_ID : string;
  User_Email : string;
  User_DisplayName : string;
  User_SessionVersion : Z;
  User_CreatedAt : time;
  User_UpdatedAt : time;
  User_LastLoginAt : time;
}.

Record Role := {
  Role_ID : string;
  Role_Name : string;
  Role_Description : string;
  Role_CreatedAt : time;
  Role_UpdatedAt : time;
}.

Record RegistrationToken := {
  RegistrationToken_ID : string;
  RegistrationToken_ValueHash : string;
  RegistrationToken_Name : string;
  RegistrationToken_MaxUses : Z;
  RegistrationToken_CurrentUses : Z;
  RegistrationToken_ExpiresAt : time;
  RegistrationToken_CreatedAt : time;
  RegistrationToken_UpdatedAt : time;
}.

(** A nullable BLOB reads as a nil slice, so NULL is the empty one. *)
Record Device := {
  Device_ID : string;
  Device_Hostname : string;
  Device_AgentVersion : string;
  Device_IdentityPublicKey : bytes;
  Device_ActiveCertificatePem : bytes;
  Device_ActiveCertSerial : string;
  Device_CertExpiresAt : time;
  Device_PendingCertificatePem : bytes;
  Device_PendingCertSerial : option string;
  Device_PendingCertExpiresAt : option time;
  Device_RegisteredAt : time;
  Device_LastSeenAt : option time;
  Device_CreatedAt : time;
  Device_UpdatedAt : time;
}.

Record ActionRow := {
  ActionRow_ID : string;
  ActionRow_Name : string;
  ActionRow_Description : string;
  ActionRow_ActionBlob : bytes;
  ActionRow_CreatedAt : time;
  ActionRow_UpdatedAt : time;
}.

Record DeviceGroup := {
  DeviceGroup_ID : string;
  DeviceGroup_Name : string;
  DeviceGroup_Description : string;
  DeviceGroup_CreatedAt : time;
  DeviceGroup_UpdatedAt : time;
}.

Record Assignment := {
  Assignment_ID : string;
  Assignment_ActionID : string;
  Assignment_TargetType : Z;
  Assignment_TargetID : string;
  Assignment_CreatedAt : time;
}.

Record ExecutionResult := {
  ExecutionResult_RunID : string;
  ExecutionResult_DeviceID : string;
  ExecutionResult_ActionID : string;
  ExecutionResult_CompletedAt : time;
  ExecutionResult_ResultBlob : bytes;
}.

Record AuditEvent := {
  AuditEvent_ID : string;
  AuditEvent_EventType : Z;
  AuditEvent_StreamType : Z;
  AuditEvent_StreamID : string;
  AuditEvent_ActorType : Z;
  AuditEvent_ActorID : string;
  AuditEvent_OccurredAt : time;
}.

(** ** Tables

    [role_permissions] holds (role_id, permission), [user_roles] (user_id,
    role_id), [identity_links] maps (provider_id, subject) to user_id, and
    [device_group_members] holds (group_id, device_id). *)

Record Database := {
  identity_providers : gmap string IdentityProvider;
  users : gmap string User;
  roles : gmap string Role;
  role_permissions : gset (string * Z);
  user_roles : gset (string * string);
  identity_links : gmap (string * string) string;
  registration_tokens : gmap string RegistrationToken;
  devices : gmap string Device;
  actions : gmap string ActionRow;
  device_groups : gmap string DeviceGroup;
  device_group_members : gset (string * string);
  assignments : gmap string Assignment;
  execution_results : gmap string ExecutionResult;
  audit_events : gmap string AuditEvent;
}.

Definition set_identity_providers (x : gmap string IdentityProvider) (d : Database) : Database := {|
  identity_providers := x;
  users := users d;
  roles := roles d;
  role_permissions := role_permissions d;
  user_roles := user_roles d;
  identity_links := identity_links d;
  registration_tokens := registration_tokens d;
  devices := devices d;
  actions := actions d;
  device_groups := device_groups d;
  device_group_members := device_group_members d;
  assignments := assignments d;
  execution_results := execution_results d;
  audit_events := audit_events d;
|}.

Definition set_users (x : gmap string User) (d : Database) : Database := {|
  identity_providers := identity_providers d;
  users := x;
  roles := roles d;
  role_permissions := role_permissions d;
  user_roles := user_roles d;
  identity_links := identity_links d;
  registration_tokens := registration_tokens d;
  devices := devices d;
  actions := actions d;
  device_groups := device_groups d;
  device_group_members := device_group_members d;
  assignments := assignments d;
  execution_results := execution_results d;
  audit_events := audit_events d;
|}.

Definition set_roles (x : gmap string Role) (d : Database) : Database := {|
  identity_providers := identity_providers d;
  users := users d;
  roles := x;
  role_permissions := role_permissions d;
  user_roles := user_roles d;
  identity_links := identity_links d;
  registration_tokens := registration_tokens d;
  devices := devices d;
  actions := actions d;
  device_groups := device_groups d;
  device_group_members := device_group_members d;
  assignments := assignments d;
  execution_results := execution_results d;
  audit_events := audit_events d;
|}.

Definition set_role_permissions (x : gset (string * Z)) (d : Database) : Database := {|
  identity_providers := identity_providers d;
  users := users d;
  roles := roles d;
  role_permissions := x;
  user_roles := user_roles d;
  identity_links := identity_links d;
  registration_tokens := registration_tokens d;
  devices := devices d;
  actions := actions d;
  device_groups := device_groups d;
  device_group_members := device_group_members d;
  assignments := assignments d;
  execution_results := execution_results d;
  audit_events := audit_events d;
|}.

Definition set_user_roles (x : gset (string * string)) (d : Database) : Database := {|
  identity_providers := identity_providers d;
  users := users d;
  roles := roles d;
  role_permissions := role_permissions d;
  user_roles := x;
  identity_links := identity_links d;
  registration_tokens := registration_tokens d;
  devices := devices d;
  actions := actions d;
  device_groups := device_groups d;
  device_group_members := device_group_members d;
  assignments := assignments d;
  execution_results := execution_results d;
  audit_events := audit_events d;
|}.

Definition set_identity_links (x : gmap (string * string) string) (d : Database) : Database := {|
  identity_providers := identity_providers d;
  users := users d;
  roles := roles d;
  role_permissions := role_permissions d;
  user_roles := user_roles d;
  identity_links := x;
  registration_tokens := registration_tokens d;
  devices := devices d;
  actions := actions d;
  device_groups := device_groups d;
  device_group_members := device_group_members d;
  assignments := assignments d;
  execution_results := execution_results d;
  audit_events := audit_events d;
|}.

Definition set_registration_tokens (x : gmap string RegistrationToken) (d : Database) : Database := {|
  identity_providers := identity_providers d;
  users := users d;
  roles := roles d;
  role_permissions := role_permissions d;
  user_roles := user_roles d;
  identity_links := identity_links d;
  registration_tokens := x;
  devices := devices d;
  actions := actions d;
  device_groups := device_groups d;
  device_group_members := device_group_members d;
  assignments := assignments d;
  execution_results := execution_results d;
  audit_events := audit_events d;
|}.

Definition set_devices (x : gmap string Device) (d : Database) : Database := {|
  identity_providers := identity_providers d;
  users := users d;
  roles := roles d;
  role_permissions := role_permissions d;
  user_roles := user_roles d;
  identity_links := identity_links d;
  registration_tokens := registration_tokens d;
  devices := x;
  actions := actions d;
  device_groups := device_groups d;
  device_group_members := device_group_members d;
  assignments := assignments d;
  execution_results := execution_results d;
  audit_events := audit_events d;
|}.

Definition set_actions (x : gmap string ActionRow) (d : Database) : Database := {|
  identity_providers := identity_providers d;
  users := users d;
  roles := roles d;
  role_permissions := role_permissions d;
  user_roles := user_roles d;
  identity_links := identity_links d;
  registration_tokens := registration_tokens d;
  devices := devices d;
  actions := x;
  device_groups := device_groups d;
  device_group_members := device_group_members d;
  assignments := assignments d;
  execution_results := execution_results d;
  audit_events := audit_events d;
|}.

Definition set_device_groups (x : gmap string DeviceGroup) (d : Database) : Database := {|
  identity_providers := identity_providers d;
  users := users d;
  roles := roles d;
  role_permissions := role_permissions d;
  user_roles := user_roles d;
  identity_links := identity_links d;
  registration_tokens := registration_tokens d;
  devices := devices d;
  actions := actions d;
  device_groups := x;
  device_group_members := device_group_members d;
  assignments := assignments d;
  execution_results := execution_results d;
  audit_events := audit_events d;
|}.

Definition set_device_group_members (x : gset (string * string)) (d : Database) : Database := {|
  identity_providers := identity_providers d;
  users := users d;
  roles := roles d;
  role_permissions := role_permissions d;
  user_roles := user_roles d;
  identity_links := identity_links d;
  registration_tokens := registration_tokens d;
  devices := devices d;
  actions := actions d;
  device_groups := device_groups d;
  device_group_members := x;
  assignments := assignments d;
  execution_results := execution_results d;
  audit_events := audit_events d;
|}.

Definition set_assignments (x : gmap string Assignment) (d : Database) : Database := {|
  identity_providers := identity_providers d;
  users := users d;
  roles := roles d;
  role_permissions := role_permissions d;
  user_roles := user_roles d;
  identity_links := identity_links d;
  registration_tokens := registration_tokens d;
  devices := devices d;
  actions := actions d;
  device_groups := device_groups d;
  device_group_members := device_group_members d;
  assignments := x;
  execution_results := execution_results d;
  audit_events := audit_events d;
|}.

Definition set_execution_results (x : gmap string ExecutionResult) (d : Database) : Database := {|
  identity_providers := identity_providers d;
  users := users d;
  roles := roles d;
  role_permissions := role_permissions d;
  user_roles := user_roles d;
  identity_links := identity_links d;
  registration_tokens := registration_tokens d;
  devices := devices d;
  actions := actions d;
  device_groups := device_groups d;
  device_group_members := device_group_members d;
  assignments := assignments d;
  execution_results := x;
  audit_events := audit_events d;
|}.

Definition set_audit_events (x : gmap string AuditEvent) (d : Database) : Database := {|
  identity_providers := identity_providers d;
  users := users d;
  roles := roles d;
  role_permissions := role_permissions d;
  user_roles := user_roles d;
  identity_links := identity_links d;
  registration_tokens := registration_tokens d;
  devices := devices d;
  actions := actions d;
  device_groups := device_groups d;
  device_group_members := device_group_members d;
  assignments := assignments d;
  execution_results := execution_results d;
  audit_events := x;
|}.

(** ** The migration *)

Definition administratorsRoleID : string := "01J00000000000000000000001".
Definition usersRoleID : string := "01J00000000000000000000002".

Definition empty_database : Database := {|
  identity_providers := ∅; users := ∅; roles := ∅; role_permissions := ∅; user_roles := ∅;
  identity_links := ∅; registration_tokens := ∅; devices := ∅; actions := ∅;
  device_groups := ∅; device_group_members := ∅; assignments := ∅; execution_results := ∅;
  audit_events := ∅;
|}.

(** The two seeded roles: Administrators with every permission, Users with
    GET_CURRENT_USER. *)
Definition initial_database (at_ : time) : Database :=
  let seed id name description := {|
    Role_ID := id; Role_Name := name; Role_Description := description;
    Role_CreatedAt := at_; Role_UpdatedAt := at_ |} in
  set_role_permissions
    (list_to_set ((fun p => (administratorsRoleID, p)) <$> seqZ 1 46) ∪ {[ (usersRoleID, 1) ]})
  (set_roles
    (<[administratorsRoleID := seed administratorsRoleID "Administrators" "Full control-plane access"]>
     {[usersRoleID := seed usersRoleID "Users" "Read current user"]})
   empty_database)%string.

(** ** Referential integrity

    What the schema declares (foreign keys, UNIQUE columns, CHECKs) and the one
    reference it cannot declare: an assignment's target is a device or a device
    group depending on [target_type]. *)

Definition unique {K R V} (f : R -> V) `{Countable K} (m : gmap K R) : Prop :=
  forall k1 k2 r1 r2, m !! k1 = Some r1 -> m !! k2 = Some r2 -> f r1 = f r2 -> k1 = k2.

Definition assignment_target_exists (d : Database) (a : Assignment) : Prop :=
  (Assignment_TargetType a = 1 /\ is_Some (devices d !! Assignment_TargetID a)) \/
  (Assignment_TargetType a = 2 /\ is_Some (device_groups d !! Assignment_TargetID a)).

Record WellFormed (d : Database) : Prop := {
  wf_identity_providers : keyed IdentityProvider_ID (identity_providers d);
  wf_provider_slug : unique IdentityProvider_Slug (identity_providers d);
  wf_users : keyed User_ID (users d);
  wf_roles : keyed Role_ID (roles d);
  wf_role_name : unique Role_Name (roles d);
  wf_role_permissions : forall r p, (r, p) ∈ role_permissions d ->
    is_Some (roles d !! r) /\ 1 <= p <= 46;
  wf_user_roles : forall u r, (u, r) ∈ user_roles d ->
    is_Some (users d !! u) /\ is_Some (roles d !! r);
  wf_identity_links : forall p s u, identity_links d !! (p, s) = Some u ->
    is_Some (identity_providers d !! p) /\ is_Some (users d !! u);
  wf_tokens : keyed RegistrationToken_ID (registration_tokens d);
  wf_token_hash : unique RegistrationToken_ValueHash (registration_tokens d);
  wf_devices : keyed Device_ID (devices d);
  wf_device_key : unique Device_IdentityPublicKey (devices d);
  wf_actions : keyed ActionRow_ID (actions d);
  wf_action_name : unique ActionRow_Name (actions d);
  wf_device_groups : keyed DeviceGroup_ID (device_groups d);
  wf_group_name : unique DeviceGroup_Name (device_groups d);
  wf_members : forall g dev, (g, dev) ∈ device_group_members d ->
    is_Some (device_groups d !! g) /\ is_Some (devices d !! dev);
  wf_assignments : keyed Assignment_ID (assignments d);
  wf_assignment_unique :
    unique (fun a => (Assignment_ActionID a, Assignment_TargetType a, Assignment_TargetID a))
      (assignments d);
  wf_assignment_action : forall k a, assignments d !! k = Some a ->
    is_Some (actions d !! Assignment_ActionID a);
  wf_assignment_target : forall k a, assignments d !! k = Some a -> assignment_target_exists d a;
  wf_results : keyed ExecutionResult_RunID (execution_results d);
  wf_result_refs : forall k r, execution_results d !! k = Some r ->
    is_Some (devices d !! ExecutionResult_DeviceID r) /\
    is_Some (actions d !! ExecutionResult_ActionID r);
  wf_audit : keyed AuditEvent_ID (audit_events d);
  wf_audit_types : forall k e, audit_events d !! k = Some e ->
    1 <= AuditEvent_EventType e <= 19 /\ 1 <= AuditEvent_StreamType e <= 7 /\
    1 <= AuditEvent_ActorType e <= 3;
}.
