(* ===== verification/Queries.v ===== *)
(** * The SQL queries ([server/internal/store/queries/core.sql],
    [generated/core.sql.go])

    One definition per generated query function, under its Go name, with the
    parameters in the order of the generated parameter struct.  Each is one [sql]
    statement: an INSERT checks the CHECKs, then the primary key, then the UNIQUE
    columns, then the foreign keys, the way SQLite reports them; an UPDATE or a
    SELECT by [:one] without a row is [ErrNoRows]; a DELETE cascades where the
    schema says so ([PRAGMA foreign_keys] is on, [store.New]).  A row that is read
    back into a Go struct with an [int32] column fails in [Scan] when the number
    does not fit, after the statement took effect.

    [Store.Transaction] and the helpers shared by the queries come first. *)

From S2P Require Import Prelude Engine Proto Schema.

Open Scope Z_scope.

Abbreviation Queries := (M Database).

(** [Store.Transaction]. *)
Definition Transaction {A} (run : Queries A) : Queries A :=
  transaction (ErrWrap "begin transaction") run.

(** ** Shared statement forms *)

Section forms.
Context {R : Type}.
Variable get : Database -> gmap string R.
Variable set : gmap string R -> Database -> Database.

(** [SELECT * FROM t WHERE id = ?], [:one]. *)
Definition get_row (id : string) : Queries R :=
  query (fun d => match get d !! id with Some r => Ok r | None => Err ErrNoRows end).

(** [SELECT * FROM t WHERE p], [:one] on a UNIQUE column. *)
Definition find_row (p : R -> bool) : Queries R :=
  query (fun d => match select_where p (get d) with r :: _ => Ok r | [] => Err ErrNoRows end).

(** [INSERT INTO t ... RETURNING *]: [id] is the primary key, [dup] the
    UNIQUE columns. *)
Definition insert_row (id : string) (dup : R -> bool) (row : time -> R) : Queries R :=
  sql (fun t d =>
    match get d !! id with
    | Some _ => Err ErrConstraintPrimaryKey
    | None =>
        if exists_row dup (get d) then Err ErrConstraintUnique
        else Ok (row t, set (<[id := row t]> (get d)) d)
    end).

(** [UPDATE t SET ... WHERE id = ? AND p RETURNING *], [:one]; [clash r r']
    says that the new [r'] violates a UNIQUE column against another row [r]. *)
Definition update_row (id : string) (p : R -> bool) (clash : R -> R -> bool)
    (f : time -> R -> R) : Queries R :=
  sql (fun t d =>
    match get d !! id with
    | None => Err ErrNoRows
    | Some r =>
        if negb (p r) then Err ErrNoRows
        else if exists_row (fun r' => clash r' (f t r)) (delete id (get d))
        then Err ErrConstraintUnique
        else Ok (f t r, set (<[id := f t r]> (get d)) d)
    end).

(** The same statement as [:exec] or [:execrows]: the number of rows updated. *)
Definition update_rows (id : string) (p : R -> bool) (f : time -> R -> R) : Queries Z :=
  sql (fun t d =>
    match get d !! id with
    | None => Ok (0, d)
    | Some r => if p r then Ok (1, set (<[id := f t r]> (get d)) d) else Ok (0, d)
    end).

(** [DELETE FROM t WHERE id = ?], [:execrows], with the schema's cascades. *)
Definition delete_row (id : string) (cascade : Database -> Database) : Queries Z :=
  sql (fun _ d =>
    match get d !! id with
    | None => Ok (0, d)
    | Some _ => Ok (1, cascade (set (delete id (get d)) d))
    end).

(** [SELECT * FROM t WHERE id > ? ORDER BY id LIMIT ?]. *)
Definition list_page (key : R -> string) (after : string) (limit : Z) : Queries (list R) :=
  query (fun d =>
    Ok (limit_rows limit (order_by (by_key key)
      (select_where (fun r => str_lt after (key r)) (get d))))).

Definition count_all : Queries Z := query (fun d => Ok (count_rows (fun _ => true) (get d))).
End forms.

Definition always {R} (_ : R) : bool := true.
Definition no_clash {R} (_ _ : R) : bool := false.

(** [rows.Scan] into the [int32] fields of the generated structs. *)
Definition scan_user (u : User) : Queries User :=
  if in_int32 (User_SessionVersion u) then mret u else fail ErrScan.

Definition scan_token (tok : RegistrationToken) : Queries RegistrationToken :=
  if in_int32 (RegistrationToken_MaxUses tok) && in_int32 (RegistrationToken_CurrentUses tok)
  then mret tok else fail ErrScan.

(** ** Identity providers *)

Definition CountIdentityProviders : Queries Z := count_all identity_providers.

Definition CreateIdentityProvider (ID Name Slug : string) (Enabled : bool)
    (ClientID IssuerUrl : string) (ScopesJson : list string) : Queries IdentityProvider :=
  insert_row identity_providers set_identity_providers ID
    (fun r => bool_decide (IdentityProvider_Slug r = Slug))
    (fun t => {|
        IdentityProvider_ID := ID; IdentityProvider_Name := Name; IdentityProvider_Slug := Slug;
        IdentityProvider_Enabled := Enabled; IdentityProvider_ClientID := ClientID;
        IdentityProvider_IssuerUrl := IssuerUrl; IdentityProvider_ScopesJson := ScopesJson;
        IdentityProvider_CreatedAt := t; IdentityProvider_UpdatedAt := t |}).

Definition GetIdentityProvider (id : string) : Queries IdentityProvider :=
  get_row identity_providers id.

Definition GetIdentityProviderBySlug (slug : string) : Queries IdentityProvider :=
  find_row identity_providers (fun r => bool_decide (IdentityProvider_Slug r = slug)).

Definition ListIdentityProviders : Queries (list IdentityProvider) :=
  query (fun d => Ok (order_by (by_key2 IdentityProvider_Name IdentityProvider_ID)
    (select_where always (identity_providers d)))).

Definition ListEnabledIdentityProviders : Queries (list IdentityProvider) :=
  query (fun d => Ok (order_by (by_key2 IdentityProvider_Name IdentityProvider_ID)
    (select_where IdentityProvider_Enabled (identity_providers d)))).

Definition ConfigureIdentityProvider (ClientID IssuerUrl : string) (ScopesJson : list string)
    (ID : string) : Queries IdentityProvider :=
  update_row identity_providers set_identity_providers ID always no_clash
    (fun t r => {|
        IdentityProvider_ID := IdentityProvider_ID r;
        IdentityProvider_Name := IdentityProvider_Name r;
        IdentityProvider_Slug := IdentityProvider_Slug r;
        IdentityProvider_Enabled := IdentityProvider_Enabled r;
        IdentityProvider_ClientID := ClientID; IdentityProvider_IssuerUrl := IssuerUrl;
        IdentityProvider_ScopesJson := ScopesJson;
        IdentityProvider_CreatedAt := IdentityProvider_CreatedAt r;
        IdentityProvider_UpdatedAt := t |}).

Definition RenameIdentityProvider (Name ID : string) : Queries IdentityProvider :=
  update_row identity_providers set_identity_providers ID always no_clash
    (fun t r => {|
        IdentityProvider_ID := IdentityProvider_ID r; IdentityProvider_Name := Name;
        IdentityProvider_Slug := IdentityProvider_Slug r;
        IdentityProvider_Enabled := IdentityProvider_Enabled r;
        IdentityProvider_ClientID := IdentityProvider_ClientID r;
        IdentityProvider_IssuerUrl := IdentityProvider_IssuerUrl r;
        IdentityProvider_ScopesJson := IdentityProvider_ScopesJson r;
        IdentityProvider_CreatedAt := IdentityProvider_CreatedAt r;
        IdentityProvider_UpdatedAt := t |}).

Definition EnableIdentityProvider (id : string) : Queries IdentityProvider :=
  update_row identity_providers set_identity_providers id always no_clash
    (fun t r => {|
        IdentityProvider_ID := IdentityProvider_ID r;
        IdentityProvider_Name := IdentityProvider_Name r;
        IdentityProvider_Slug := IdentityProvider_Slug r; IdentityProvider_Enabled := true;
        IdentityProvider_ClientID := IdentityProvider_ClientID r;
        IdentityProvider_IssuerUrl := IdentityProvider_IssuerUrl r;
        IdentityProvider_ScopesJson := IdentityProvider_ScopesJson r;
        IdentityProvider_CreatedAt := IdentityProvider_CreatedAt r;
        IdentityProvider_UpdatedAt := t |}).

Definition DisableIdentityProvider (id : string) : Queries IdentityProvider :=
  update_row identity_providers set_identity_providers id always no_clash
    (fun t r => {|
        IdentityProvider_ID := IdentityProvider_ID r;
        IdentityProvider_Name := IdentityProvider_Name r;
        IdentityProvider_Slug := IdentityProvider_Slug r; IdentityProvider_Enabled := false;
        IdentityProvider_ClientID := IdentityProvider_ClientID r;
        IdentityProvider_IssuerUrl := IdentityProvider_IssuerUrl r;
        IdentityProvider_ScopesJson := IdentityProvider_ScopesJson r;
        IdentityProvider_CreatedAt := IdentityProvider_CreatedAt r;
        IdentityProvider_UpdatedAt := t |}).

Definition DeleteIdentityProvider (id : string) : Queries Z :=
  delete_row identity_providers set_identity_providers id (fun d =>
    set_identity_links (filter (fun x => x.1.1 <> id) (identity_links d)) d).

(** ** Users and identity links *)

Definition GetUser (id : string) : Queries User := u ← get_row users id; scan_user u.

Definition CreateUser (ID Email DisplayName : string) (LastLoginAt : time) : Queries User :=
  u ← insert_row users set_users ID (fun _ => false)
    (fun t => {|
        User_ID := ID; User_Email := Email; User_DisplayName := DisplayName;
        User_SessionVersion := 1; User_CreatedAt := t; User_UpdatedAt := t;
        User_LastLoginAt := LastLoginAt |});
  scan_user u.

Definition LinkIdentity (ProviderID Subject UserID : string) : Queries unit :=
  sql (fun _ d =>
    match identity_links d !! (ProviderID, Subject) with
    | Some _ => Err ErrConstraintPrimaryKey
    | None =>
        if bool_decide (is_Some (identity_providers d !! ProviderID))
           && bool_decide (is_Some (users d !! UserID))
        then Ok (tt, set_identity_links (<[(ProviderID, Subject) := UserID]> (identity_links d)) d)
        else Err ErrConstraintForeignKey
    end).

Definition UpdateIdentityUserLogin (Email DisplayName : string) (LastLoginAt : time)
    (ProviderID Subject : string) : Queries User :=
  u ← sql (fun t d =>
    match identity_links d !! (ProviderID, Subject) with
    | None => Err ErrNoRows
    | Some id =>
        match users d !! id with
        | None => Err ErrNoRows
        | Some r =>
            let r' := {|
                User_ID := User_ID r; User_Email := Email; User_DisplayName := DisplayName;
                User_SessionVersion := User_SessionVersion r + 1; User_CreatedAt := User_CreatedAt r;
                User_UpdatedAt := t; User_LastLoginAt := LastLoginAt |} in
            Ok (r', set_users (<[id := r']> (users d)) d)
        end
    end);
  scan_user u.

Definition bump_session (t : time) (r : User) : User :=
  {|
      User_ID := User_ID r; User_Email := User_Email r; User_DisplayName := User_DisplayName r;
      User_SessionVersion := User_SessionVersion r + 1; User_CreatedAt := User_CreatedAt r;
      User_UpdatedAt := t; User_LastLoginAt := User_LastLoginAt r |}.

Definition RotateUserSession (ID : string) (SessionVersion : Z) : Queries User :=
  u ← update_row users set_users ID
    (fun r => bool_decide (User_SessionVersion r = SessionVersion)) no_clash bump_session;
  scan_user u.

Definition RotateUserSessionByID (id : string) : Queries User :=
  u ← update_row users set_users id always no_clash bump_session; scan_user u.

Definition BumpSessionsForRole (roleID : string) : Queries unit :=
  sql (fun t d =>
    Ok (tt, set_users
      (map_imap (fun id r =>
         Some (if bool_decide ((id, roleID) ∈ user_roles d) then bump_session t r else r))
         (users d)) d)).

Definition ListUsers (ID : string) (Limit : Z) : Queries (list User) :=
  us ← list_page users User_ID ID Limit; map_m scan_user us.

(** ** Roles *)

Definition CreateRole (ID Name Description : string) : Queries Role :=
  insert_row roles set_roles ID (fun r => bool_decide (Role_Name r = Name))
    (fun t => {|
        Role_ID := ID; Role_Name := Name; Role_Description := Description; Role_CreatedAt := t;
        Role_UpdatedAt := t |}).

Definition GetRole (id : string) : Queries Role := get_row roles id.

Definition GetRoleByName (name : string) : Queries Role :=
  find_row roles (fun r => bool_decide (Role_Name r = name)).

Definition ListRoles (ID : string) (Limit : Z) : Queries (list Role) :=
  list_page roles Role_ID ID Limit.

Definition RenameRole (Name ID : string) : Queries Role :=
  update_row roles set_roles ID always
    (fun r r' => bool_decide (Role_Name r = Role_Name r'))
    (fun t r => {|
        Role_ID := Role_ID r; Role_Name := Name; Role_Description := Role_Description r;
        Role_CreatedAt := Role_CreatedAt r; Role_UpdatedAt := t |}).

Definition SetRoleDescription (Description ID : string) : Queries Role :=
  update_row roles set_roles ID always no_clash
    (fun t r => {|
        Role_ID := Role_ID r; Role_Name := Role_Name r; Role_Description := Description;
        Role_CreatedAt := Role_CreatedAt r; Role_UpdatedAt := t |}).

Definition DeleteRole (id : string) : Queries Z :=
  delete_row roles set_roles id (fun d =>
    set_user_roles (filter (fun x => x.2 <> id) (user_roles d))
      (set_role_permissions (filter (fun x => x.1 <> id) (role_permissions d)) d)).

Definition GrantRolePermission (Permission : Z) (RoleID : string) : Queries string :=
  sql (fun _ d =>
    match roles d !! RoleID with
    | None => Err ErrNoRows
    | Some _ =>
        if negb ((1 <=? Permission) && (Permission <=? 46)) then Err ErrConstraintCheck
        else if bool_decide ((RoleID, Permission) ∈ role_permissions d)
        then Err ErrConstraintPrimaryKey
        else Ok (RoleID, set_role_permissions ({[(RoleID, Permission)]} ∪ role_permissions d) d)
    end).

Definition RevokeRolePermission (RoleID : string) (Permission : Z) : Queries Z :=
  sql (fun _ d =>
    if bool_decide ((RoleID, Permission) ∈ role_permissions d)
    then Ok (1, set_role_permissions (role_permissions d ∖ {[(RoleID, Permission)]}) d)
    else Ok (0, d)).

Definition TouchRole (id : string) : Queries Role :=
  update_row roles set_roles id always no_clash (fun t r => {|
      Role_ID := Role_ID r; Role_Name := Role_Name r; Role_Description := Role_Description r;
      Role_CreatedAt := Role_CreatedAt r; Role_UpdatedAt := t |}).

Definition ListRolePermissions (roleID : string) : Queries (list Z) :=
  query (fun d => Ok (order_by Z.le
    ((filter (fun x => x.1 = roleID) (elements (role_permissions d))).*2))).

Definition ListUserRoles (userID : string) : Queries (list Role) :=
  query (fun d => Ok (order_by (by_key Role_ID)
    (select_where (fun r => bool_decide ((userID, Role_ID r) ∈ user_roles d)) (roles d)))).

Definition ListUserPermissions (userID : string) : Queries (list Z) :=
  query (fun d => Ok (order_by Z.le (elements (C := gset Z) (list_to_set
    ((filter (fun x => (userID, x.1) ∈ user_roles d) (elements (role_permissions d))).*2))))).

Definition AssignInitialRole (UserID AdministratorsRoleID UsersRoleID : string) : Queries unit :=
  sql (fun _ d =>
    let role := if count_rows (fun _ => true) (users d) =? 1 then AdministratorsRoleID
                else UsersRoleID in
    match roles d !! role with
    | None => Ok (tt, d)
    | Some _ =>
        if bool_decide ((UserID, role) ∈ user_roles d) then Err ErrConstraintPrimaryKey
        else if bool_decide (is_Some (users d !! UserID))
        then Ok (tt, set_user_roles ({[(UserID, role)]} ∪ user_roles d) d)
        else Err ErrConstraintForeignKey
    end).

Definition AssignRoleToUser (UserID RoleID : string) : Queries string :=
  sql (fun _ d =>
    match users d !! UserID, roles d !! RoleID with
    | Some _, Some _ =>
        if bool_decide ((UserID, RoleID) ∈ user_roles d) then Err ErrConstraintPrimaryKey
        else Ok (UserID, set_user_roles ({[(UserID, RoleID)]} ∪ user_roles d) d)
    | _, _ => Err ErrNoRows
    end).

Definition RevokeRoleFromUser (UserID RoleID : string) : Queries Z :=
  sql (fun _ d =>
    if bool_decide ((UserID, RoleID) ∈ user_roles d)
    then Ok (1, set_user_roles (user_roles d ∖ {[(UserID, RoleID)]}) d)
    else Ok (0, d)).

(** ** Registration tokens *)

Definition CreateRegistrationToken (ID ValueHash Name : string) (MaxUses : Z) (ExpiresAt : time)
    : Queries RegistrationToken :=
  tok ← insert_row registration_tokens set_registration_tokens ID
    (fun r => bool_decide (RegistrationToken_ValueHash r = ValueHash))
    (fun t => {|
        RegistrationToken_ID := ID; RegistrationToken_ValueHash := ValueHash;
        RegistrationToken_Name := Name; RegistrationToken_MaxUses := MaxUses;
        RegistrationToken_CurrentUses := 0; RegistrationToken_ExpiresAt := ExpiresAt;
        RegistrationToken_CreatedAt := t; RegistrationToken_UpdatedAt := t |});
  scan_token tok.

Definition GetRegistrationToken (id : string) : Queries RegistrationToken :=
  tok ← get_row registration_tokens id; scan_token tok.

(** [expires_at > ? AND (max_uses = 0 OR current_uses < max_uses)]. *)
Definition token_usable (at_ : time) (r : RegistrationToken) : bool :=
  (at_ <? RegistrationToken_ExpiresAt r) &&
  ((RegistrationToken_MaxUses r =? 0)
   || (RegistrationToken_CurrentUses r <? RegistrationToken_MaxUses r)).

Definition GetUsableRegistrationToken (ValueHash : string) (ExpiresAt : time)
    : Queries RegistrationToken :=
  tok ← find_row registration_tokens (fun r =>
    bool_decide (RegistrationToken_ValueHash r = ValueHash) && token_usable ExpiresAt r);
  scan_token tok.

Definition ConsumeRegistrationToken (ID : string) (ExpiresAt : time) : Queries RegistrationToken :=
  tok ← update_row registration_tokens set_registration_tokens ID (token_usable ExpiresAt) no_clash
    (fun t r => {|
        RegistrationToken_ID := RegistrationToken_ID r;
        RegistrationToken_ValueHash := RegistrationToken_ValueHash r;
        RegistrationToken_Name := RegistrationToken_Name r;
        RegistrationToken_MaxUses := RegistrationToken_MaxUses r;
        RegistrationToken_CurrentUses := RegistrationToken_CurrentUses r + 1;
        RegistrationToken_ExpiresAt := RegistrationToken_ExpiresAt r;
        RegistrationToken_CreatedAt := RegistrationToken_CreatedAt r;
        RegistrationToken_UpdatedAt := t |});
  scan_token tok.

Definition ConsumeFinalRegistrationToken (ID : string) (ExpiresAt : time)
    : Queries RegistrationToken :=
  tok ← sql (fun _ d =>
    match registration_tokens d !! ID with
    | None => Err ErrNoRows
    | Some r =>
        if token_usable ExpiresAt r && (0 <? RegistrationToken_MaxUses r)
           && (RegistrationToken_MaxUses r <=? RegistrationToken_CurrentUses r + 1)
        then Ok (r, set_registration_tokens (delete ID (registration_tokens d)) d)
        else Err ErrNoRows
    end);
  scan_token tok.

Definition ListRegistrationTokens (AfterID : string) (PageLimit : Z)
    : Queries (list RegistrationToken) :=
  toks ← list_page registration_tokens RegistrationToken_ID AfterID PageLimit;
  map_m scan_token toks.

Definition CountRegistrationTokens : Queries Z := count_all registration_tokens.

Definition RenameRegistrationToken (Name ID : string) : Queries RegistrationToken :=
  tok ← update_row registration_tokens set_registration_tokens ID always no_clash
    (fun t r => {|
        RegistrationToken_ID := RegistrationToken_ID r;
        RegistrationToken_ValueHash := RegistrationToken_ValueHash r;
        RegistrationToken_Name := Name; RegistrationToken_MaxUses := RegistrationToken_MaxUses r;
        RegistrationToken_CurrentUses := RegistrationToken_CurrentUses r;
        RegistrationToken_ExpiresAt := RegistrationToken_ExpiresAt r;
        RegistrationToken_CreatedAt := RegistrationToken_CreatedAt r;
        RegistrationToken_UpdatedAt := t |});
  scan_token tok.

Definition DeleteRegistrationToken (id : string) : Queries Z :=
  delete_row registration_tokens set_registration_tokens id (fun d => d).

(** ** Devices *)

Definition CreateDevice (ID Hostname AgentVersion : string)
    (IdentityPublicKey ActiveCertificatePem : bytes) (ActiveCertSerial : string)
    (CertExpiresAt RegisteredAt : time) : Queries Device :=
  insert_row devices set_devices ID
    (fun r => bool_decide (Device_IdentityPublicKey r = IdentityPublicKey))
    (fun t => {|
        Device_ID := ID; Device_Hostname := Hostname; Device_AgentVersion := AgentVersion;
        Device_IdentityPublicKey := IdentityPublicKey;
        Device_ActiveCertificatePem := ActiveCertificatePem;
        Device_ActiveCertSerial := ActiveCertSerial; Device_CertExpiresAt := CertExpiresAt;
        Device_PendingCertificatePem := []; Device_PendingCertSerial := None;
        Device_PendingCertExpiresAt := None; Device_RegisteredAt := RegisteredAt;
        Device_LastSeenAt := None; Device_CreatedAt := t; Device_UpdatedAt := t |}).

Definition GetDevice (id : string) : Queries Device := get_row devices id.

Definition FindDeviceByIdentityKey (identityPublicKey : bytes) : Queries Device :=
  find_row devices (fun r => bool_decide (Device_IdentityPublicKey r = identityPublicKey)).

Definition SetPendingDeviceCertificate (PendingCertificatePem : bytes)
    (PendingCertSerial : option string) (PendingCertExpiresAt : option time)
    (ID ActiveCertSerial : string) : Queries Z :=
  update_rows devices set_devices ID
    (fun r => bool_decide (Device_ActiveCertSerial r = ActiveCertSerial))
    (fun t r => {|
        Device_ID := Device_ID r; Device_Hostname := Device_Hostname r;
        Device_AgentVersion := Device_AgentVersion r;
        Device_IdentityPublicKey := Device_IdentityPublicKey r;
        Device_ActiveCertificatePem := Device_ActiveCertificatePem r;
        Device_ActiveCertSerial := Device_ActiveCertSerial r;
        Device_CertExpiresAt := Device_CertExpiresAt r;
        Device_PendingCertificatePem := PendingCertificatePem;
        Device_PendingCertSerial := PendingCertSerial;
        Device_PendingCertExpiresAt := PendingCertExpiresAt;
        Device_RegisteredAt := Device_RegisteredAt r; Device_LastSeenAt := Device_LastSeenAt r;
        Device_CreatedAt := Device_CreatedAt r; Device_UpdatedAt := t |}).

Definition PromotePendingDeviceCertificate (ID : string) (PendingCertSerial : option string)
    : Queries Z :=
  sql (fun t d =>
    match devices d !! ID, PendingCertSerial with
    | Some r, Some serial =>
        if bool_decide (Device_PendingCertSerial r = Some serial)
        then match Device_PendingCertificatePem r, Device_PendingCertExpiresAt r with
             | _ :: _, Some expires =>
                 Ok (1, set_devices (<[ID := {|
                     Device_ID := Device_ID r; Device_Hostname := Device_Hostname r;
                     Device_AgentVersion := Device_AgentVersion r;
                     Device_IdentityPublicKey := Device_IdentityPublicKey r;
                     Device_ActiveCertificatePem := Device_PendingCertificatePem r;
                     Device_ActiveCertSerial := serial; Device_CertExpiresAt := expires;
                     Device_PendingCertificatePem := []; Device_PendingCertSerial := None;
                     Device_PendingCertExpiresAt := None;
                     Device_RegisteredAt := Device_RegisteredAt r;
                     Device_LastSeenAt := Device_LastSeenAt r;
                     Device_CreatedAt := Device_CreatedAt r; Device_UpdatedAt := t |}]> (devices d)) d)
             | _, _ => Err ErrConstraintNotNull
             end
        else Ok (0, d)
    | _, _ => Ok (0, d)
    end).

Definition TouchDevice (Hostname AgentVersion : string) (LastSeenAt : option time) (ID : string)
    : Queries unit :=
  _ ← update_rows devices set_devices ID always
    (fun t r => {|
        Device_ID := Device_ID r; Device_Hostname := Hostname; Device_AgentVersion := AgentVersion;
        Device_IdentityPublicKey := Device_IdentityPublicKey r;
        Device_ActiveCertificatePem := Device_ActiveCertificatePem r;
        Device_ActiveCertSerial := Device_ActiveCertSerial r;
        Device_CertExpiresAt := Device_CertExpiresAt r;
        Device_PendingCertificatePem := Device_PendingCertificatePem r;
        Device_PendingCertSerial := Device_PendingCertSerial r;
        Device_PendingCertExpiresAt := Device_PendingCertExpiresAt r;
        Device_RegisteredAt := Device_RegisteredAt r; Device_LastSeenAt := LastSeenAt;
        Device_CreatedAt := Device_CreatedAt r; Device_UpdatedAt := t |});
  mret tt.

Definition ListDevices (ID : string) (Limit : Z) : Queries (list Device) :=
  list_page devices Device_ID ID Limit.

Definition CountDevices : Queries Z := count_all devices.

Definition DeleteDevice (id : string) : Queries Z :=
  delete_row devices set_devices id (fun d =>
    set_device_group_members (filter (fun x => x.2 <> id) (device_group_members d))
      (set_execution_results
        (filter (fun x => ExecutionResult_DeviceID x.2 <> id) (execution_results d)) d)).

Definition DeleteAssignmentsForTarget (TargetType : Z) (TargetID : string) : Queries unit :=
  sql (fun _ d => Ok (tt, set_assignments
    (filter (fun x => ~ (Assignment_TargetType x.2 = TargetType /\ Assignment_TargetID x.2 = TargetID))
      (assignments d)) d)).

(** ** Actions *)

Definition CreateAction (ID Name Description : string) (ActionBlob : bytes) : Queries ActionRow :=
  insert_row actions set_actions ID (fun r => bool_decide (ActionRow_Name r = Name))
    (fun t => {|
        ActionRow_ID := ID; ActionRow_Name := Name; ActionRow_Description := Description;
        ActionRow_ActionBlob := ActionBlob; ActionRow_CreatedAt := t; ActionRow_UpdatedAt := t |}).

Definition GetAction (id : string) : Queries ActionRow := get_row actions id.

Definition ListActions (AfterID : string) (PageLimit : Z) : Queries (list ActionRow) :=
  list_page actions ActionRow_ID AfterID PageLimit.

Definition CountActions : Queries Z := count_all actions.

Definition RenameAction (Name ID : string) : Queries ActionRow :=
  update_row actions set_actions ID always
    (fun r r' => bool_decide (ActionRow_Name r = ActionRow_Name r'))
    (fun t r => {|
        ActionRow_ID := ActionRow_ID r; ActionRow_Name := Name;
        ActionRow_Description := ActionRow_Description r;
        ActionRow_ActionBlob := ActionRow_ActionBlob r;
        ActionRow_CreatedAt := ActionRow_CreatedAt r; ActionRow_UpdatedAt := t |}).

Definition SetActionDescription (Description ID : string) : Queries ActionRow :=
  update_row actions set_actions ID always no_clash
    (fun t r => {|
        ActionRow_ID := ActionRow_ID r; ActionRow_Name := ActionRow_Name r;
        ActionRow_Description := Description; ActionRow_ActionBlob := ActionRow_ActionBlob r;
        ActionRow_CreatedAt := ActionRow_CreatedAt r; ActionRow_UpdatedAt := t |}).

Definition ConfigureAction (ActionBlob : bytes) (ID : string) : Queries ActionRow :=
  update_row actions set_actions ID always no_clash
    (fun t r => {|
        ActionRow_ID := ActionRow_ID r; ActionRow_Name := ActionRow_Name r;
        ActionRow_Description := ActionRow_Description r; ActionRow_ActionBlob := ActionBlob;
        ActionRow_CreatedAt := ActionRow_CreatedAt r; ActionRow_UpdatedAt := t |}).

Definition DeleteAction (id : string) : Queries Z :=
  delete_row actions set_actions id (fun d =>
    set_assignments (filter (fun x => Assignment_ActionID x.2 <> id) (assignments d))
      (set_execution_results
        (filter (fun x => ExecutionResult_ActionID x.2 <> id) (execution_results d)) d)).

(** ** Device groups *)

(** The rows of [GetDeviceGroup], [ListDeviceGroups] and
    [ListDeviceGroupsForDevice]. *)
Record DeviceGroupRow := { Row_Group : DeviceGroup; MemberCount : Z }.

Definition with_member_count (d : Database) (g : DeviceGroup) : DeviceGroupRow := {|
  Row_Group := g;
  MemberCount := Z.of_nat (size (filter (fun x => x.1 = DeviceGroup_ID g) (device_group_members d)));
|}.

Definition CreateDeviceGroup (ID Name Description : string) : Queries DeviceGroup :=
  insert_row device_groups set_device_groups ID
    (fun r => bool_decide (DeviceGroup_Name r = Name))
    (fun t => {|
        DeviceGroup_ID := ID; DeviceGroup_Name := Name; DeviceGroup_Description := Description;
        DeviceGroup_CreatedAt := t; DeviceGroup_UpdatedAt := t |}).

Definition GetDeviceGroup (id : string) : Queries DeviceGroupRow :=
  query (fun d =>
    match device_groups d !! id with
    | Some g => Ok (with_member_count d g)
    | None => Err ErrNoRows
    end).

Definition ListDeviceGroups (ID : string) (Limit : Z) : Queries (list DeviceGroupRow) :=
  query (fun d => Ok (with_member_count d <$> limit_rows Limit (order_by (by_key DeviceGroup_ID)
    (select_where (fun g => str_lt ID (DeviceGroup_ID g)) (device_groups d))))).

Definition CountDeviceGroups : Queries Z := count_all device_groups.

Definition ListDeviceGroupsForDevice (deviceID : string) : Queries (list DeviceGroupRow) :=
  query (fun d => Ok (with_member_count d <$>
    order_by (by_key2 DeviceGroup_Name DeviceGroup_ID)
      (select_where (fun g => bool_decide ((DeviceGroup_ID g, deviceID) ∈ device_group_members d))
        (device_groups d)))).

Definition ListDeviceGroupMembers (groupID : string) : Queries (list Device) :=
  query (fun d => Ok (order_by (by_key2 Device_Hostname Device_ID)
    (select_where (fun r => bool_decide ((groupID, Device_ID r) ∈ device_group_members d))
      (devices d)))).

Definition RenameDeviceGroup (Name ID : string) : Queries DeviceGroup :=
  update_row device_groups set_device_groups ID always
    (fun r r' => bool_decide (DeviceGroup_Name r = DeviceGroup_Name r'))
    (fun t r => {|
        DeviceGroup_ID := DeviceGroup_ID r; DeviceGroup_Name := Name;
        DeviceGroup_Description := DeviceGroup_Description r;
        DeviceGroup_CreatedAt := DeviceGroup_CreatedAt r; DeviceGroup_UpdatedAt := t |}).

Definition SetDeviceGroupDescription (Description ID : string) : Queries DeviceGroup :=
  update_row device_groups set_device_groups ID always no_clash
    (fun t r => {|
        DeviceGroup_ID := DeviceGroup_ID r; DeviceGroup_Name := DeviceGroup_Name r;
        DeviceGroup_Description := Description; DeviceGroup_CreatedAt := DeviceGroup_CreatedAt r;
        DeviceGroup_UpdatedAt := t |}).

Definition TouchDeviceGroup (id : string) : Queries unit :=
  _ ← update_rows device_groups set_device_groups id always
    (fun t r => {|
        DeviceGroup_ID := DeviceGroup_ID r; DeviceGroup_Name := DeviceGroup_Name r;
        DeviceGroup_Description := DeviceGroup_Description r;
        DeviceGroup_CreatedAt := DeviceGroup_CreatedAt r; DeviceGroup_UpdatedAt := t |});
  mret tt.

Definition DeleteDeviceGroup (id : string) : Queries Z :=
  delete_row device_groups set_device_groups id (fun d =>
    set_device_group_members (filter (fun x => x.1 <> id) (device_group_members d)) d).

Definition AddDeviceToGroup (GroupID DeviceID : string) : Queries unit :=
  sql (fun _ d =>
    if bool_decide ((GroupID, DeviceID) ∈ device_group_members d) then Err ErrConstraintPrimaryKey
    else if bool_decide (is_Some (device_groups d !! GroupID))
            && bool_decide (is_Some (devices d !! DeviceID))
    then Ok (tt, set_device_group_members ({[(GroupID, DeviceID)]} ∪ device_group_members d) d)
    else Err ErrConstraintForeignKey).

Definition RemoveDeviceFromGroup (GroupID DeviceID : string) : Queries Z :=
  sql (fun _ d =>
    if bool_decide ((GroupID, DeviceID) ∈ device_group_members d)
    then Ok (1, set_device_group_members (device_group_members d ∖ {[(GroupID, DeviceID)]}) d)
    else Ok (0, d)).

(** ** Assignments *)

Definition CreateAssignment (ID ActionID : string) (TargetType : Z) (TargetID : string)
    : Queries Assignment :=
  sql (fun t d =>
    let row := {|
        Assignment_ID := ID; Assignment_ActionID := ActionID; Assignment_TargetType := TargetType;
        Assignment_TargetID := TargetID; Assignment_CreatedAt := t |} in
    match assignments d !! ID with
    | Some _ => Err ErrConstraintPrimaryKey
    | None =>
        if exists_row (fun r => bool_decide (Assignment_ActionID r = ActionID)
             && (Assignment_TargetType r =? TargetType)
             && bool_decide (Assignment_TargetID r = TargetID)) (assignments d)
        then Err ErrConstraintUnique
        else if bool_decide (is_Some (actions d !! ActionID))
        then Ok (row, set_assignments (<[ID := row]> (assignments d)) d)
        else Err ErrConstraintForeignKey
    end).

Definition GetAssignment (id : string) : Queries Assignment := get_row assignments id.

Definition DeleteAssignment (id : string) : Queries Z :=
  delete_row assignments set_assignments id (fun d => d).

Record ListAssignmentsRow := {
  Row_Assignment : Assignment;
  Row_ActionName : string;
  Row_TargetName : string;
}.

Definition assignment_target_name (d : Database) (a : Assignment) : string :=
  default EmptyString
    (if Assignment_TargetType a =? 1 then Device_Hostname <$> devices d !! Assignment_TargetID a
     else if Assignment_TargetType a =? 2
     then DeviceGroup_Name <$> device_groups d !! Assignment_TargetID a
     else None).

Definition ListAssignments (ActionFilter : string) (TargetTypeFilter : Z) (TargetFilter : string)
    : Queries (list ListAssignmentsRow) :=
  query (fun d => Ok (omap
    (fun a => act ← actions d !! Assignment_ActionID a;
              Some {| Row_Assignment := a; Row_ActionName := ActionRow_Name act;
                      Row_TargetName := assignment_target_name d a |})
    (order_by (by_time2 Assignment_CreatedAt Assignment_ID)
      (select_where (fun a =>
         (bool_decide (ActionFilter = EmptyString) || bool_decide (Assignment_ActionID a = ActionFilter))
         && ((TargetTypeFilter =? 0) || (Assignment_TargetType a =? TargetTypeFilter))
         && (bool_decide (TargetFilter = EmptyString) || bool_decide (Assignment_TargetID a = TargetFilter)))
        (assignments d))))).

(** The join condition of [ListActionsForDevice] and [ListComplianceResults]. *)
Definition assignment_applies (d : Database) (DeviceID TargetID : string) (a : Assignment) : bool :=
  ((Assignment_TargetType a =? 1) && bool_decide (Assignment_TargetID a = TargetID))
  || ((Assignment_TargetType a =? 2)
      && bool_decide ((Assignment_TargetID a, DeviceID) ∈ device_group_members d)).

Definition action_assigned (d : Database) (DeviceID TargetID : string) (act : ActionRow) : bool :=
  exists_row (fun a => bool_decide (Assignment_ActionID a = ActionRow_ID act)
    && assignment_applies d DeviceID TargetID a) (assignments d).

Definition ListActionsForDevice (DeviceID TargetID : string) : Queries (list ActionRow) :=
  query (fun d => Ok (order_by (by_key ActionRow_ID)
    (select_where (action_assigned d DeviceID TargetID) (actions d)))).

(** ** Execution results *)

Definition CreateExecutionResult (RunID DeviceID ActionID : string) (CompletedAt : time)
    (ResultBlob : bytes) : Queries Z :=
  sql (fun _ d =>
    match execution_results d !! RunID with
    | Some _ => Ok (0, d)
    | None =>
        if bool_decide (is_Some (devices d !! DeviceID))
           && bool_decide (is_Some (actions d !! ActionID))
        then Ok (1, set_execution_results (<[RunID := {|
            ExecutionResult_RunID := RunID; ExecutionResult_DeviceID := DeviceID;
            ExecutionResult_ActionID := ActionID; ExecutionResult_CompletedAt := CompletedAt;
            ExecutionResult_ResultBlob := ResultBlob |}]> (execution_results d)) d)
        else Err ErrConstraintForeignKey
    end).

Definition GetExecutionResult (runID : string) : Queries ExecutionResult :=
  get_row execution_results runID.

Record ListExecutionResultsRow := {
  Row_Result : ExecutionResult;
  ResultRow_ActionName : string;
  ResultRow_ActionBlob : bytes;
}.

(** Newest first. *)
Definition newest : relation ExecutionResult :=
  descending (by_time2 ExecutionResult_CompletedAt ExecutionResult_RunID).

Definition ListExecutionResults (DeviceID : string) (HasCursor : Z) (BeforeCompletedAt : time)
    (BeforeRunID : string) (PageLimit : Z) : Queries (list ListExecutionResultsRow) :=
  query (fun d => Ok (limit_rows PageLimit (omap
    (fun r => act ← actions d !! ExecutionResult_ActionID r;
              Some {| Row_Result := r; ResultRow_ActionName := ActionRow_Name act;
                      ResultRow_ActionBlob := ActionRow_ActionBlob act |})
    (order_by newest
      (select_where (fun r => bool_decide (ExecutionResult_DeviceID r = DeviceID)
         && ((HasCursor =? 0)
             || (ExecutionResult_CompletedAt r <? BeforeCompletedAt)
             || ((ExecutionResult_CompletedAt r =? BeforeCompletedAt)
                 && str_lt (ExecutionResult_RunID r) BeforeRunID)))
        (execution_results d)))))).

Record ListComplianceResultsRow := {
  Compliance_ActionID : string;
  Compliance_ActionName : string;
  Compliance_ActionBlob : bytes;
  Compliance_Latest : option ExecutionResult;
}.

Definition latest_result (d : Database) (deviceID actionID : string) : option ExecutionResult :=
  head (order_by newest (select_where (fun r =>
    bool_decide (ExecutionResult_DeviceID r = deviceID)
    && bool_decide (ExecutionResult_ActionID r = actionID)) (execution_results d))).

Definition ListComplianceResults (deviceID : string) : Queries (list ListComplianceResultsRow) :=
  query (fun d => Ok (
    (fun act => {| Compliance_ActionID := ActionRow_ID act;
                   Compliance_ActionName := ActionRow_Name act;
                   Compliance_ActionBlob := ActionRow_ActionBlob act;
                   Compliance_Latest := latest_result d deviceID (ActionRow_ID act) |}) <$>
    order_by (by_key2 ActionRow_Name ActionRow_ID)
      (select_where (action_assigned d deviceID deviceID) (actions d)))).

(** ** Audit events *)

Definition CreateAuditEvent (ID : string) (EventType StreamType : Z) (StreamID : string)
    (ActorType : Z) (ActorID : string) (OccurredAt : time) : Queries unit :=
  sql (fun _ d =>
    if negb ((1 <=? EventType) && (EventType <=? 19) && (1 <=? StreamType) && (StreamType <=? 7)
             && (1 <=? ActorType) && (ActorType <=? 3))
    then Err ErrConstraintCheck
    else match audit_events d !! ID with
         | Some _ => Err ErrConstraintPrimaryKey
         | None => Ok (tt, set_audit_events (<[ID := {|
             AuditEvent_ID := ID; AuditEvent_EventType := EventType;
             AuditEvent_StreamType := StreamType; AuditEvent_StreamID := StreamID;
             AuditEvent_ActorType := ActorType; AuditEvent_ActorID := ActorID;
             AuditEvent_OccurredAt := OccurredAt |}]> (audit_events d)) d)
         end).

Definition ListAuditEvents (ID : string) (Limit : Z) : Queries (list AuditEvent) :=
  query (fun d => Ok (limit_rows Limit (order_by (descending (by_key AuditEvent_ID))
    (select_where (fun e => str_lt (AuditEvent_ID e) ID) (audit_events d))))).
