(* ===== verification/QueriesFacts.v ===== *)
(** * Every query keeps the database well formed

    For each query of [Queries], the lemma that it preserves [WellFormed],
    registered in the [preserve] hint database: a handler's proof is then
    [preserve].  Three statements need their context, because SQLite does not
    know that an assignment's target is a foreign key: [CreateAssignment],
    [DeleteDevice] and [DeleteDeviceGroup]. *)

From S2P Require Import Prelude Engine Proto Schema Queries.

Open Scope Z_scope.

(** ** Statement forms *)

Section forms.
Context {R : Type}.
Variable get : Database -> gmap string R.
Variable set : gmap string R -> Database -> Database.
Variable I : Database -> Prop.

Lemma preserves_sql {A} (f : time -> Database -> result (A * Database)) :
  (forall t d a d', I d -> f t d = Ok (a, d') -> I d') -> preserves I (sql f).
Proof.
  intros Hf. apply triple_sql; [|done]. intros t d Hd.
  destruct (f t d) as [[a d']|e] eqn:Heq; [|done]. by eapply Hf.
Qed.

Lemma preserves_insert_row id dup row :
  (forall t d, I d -> get d !! id = None -> exists_row dup (get d) = false ->
     I (set (<[id := row t]> (get d)) d)) ->
  preserves I (insert_row get set id dup row).
Proof.
  intros H. apply preserves_sql. intros t d a d' Hd.
  destruct (get d !! id) eqn:Hid; [done|].
  destruct (exists_row dup (get d)) eqn:Hdup; [done|]. intros [= _ <-]. by apply H.
Qed.

Lemma preserves_update_row id p clash f :
  (forall t d r, I d -> get d !! id = Some r ->
     exists_row (fun r' => clash r' (f t r)) (delete id (get d)) = false ->
     I (set (<[id := f t r]> (get d)) d)) ->
  preserves I (update_row get set id p clash f).
Proof.
  intros H. apply preserves_sql. intros t d a d' Hd.
  destruct (get d !! id) as [r|] eqn:Hid; [|done].
  destruct (p r) eqn:Hp; simpl; [|done].
  destruct (exists_row _ _) eqn:Hdup; [done|]. intros [= _ <-]. by apply H.
Qed.

Lemma preserves_update_rows id p f :
  (forall t d r, I d -> get d !! id = Some r -> I (set (<[id := f t r]> (get d)) d)) ->
  preserves I (update_rows get set id p f).
Proof.
  intros H. apply preserves_sql. intros t d a d' Hd.
  destruct (get d !! id) as [r|] eqn:Hid; [|intros [= _ <-]; done].
  destruct (p r) eqn:Hp; intros [= _ <-]; [by apply H|done].
Qed.

Lemma preserves_delete_row id cascade :
  (forall d r, I d -> get d !! id = Some r -> I (cascade (set (delete id (get d)) d))) ->
  preserves I (delete_row get set id cascade).
Proof.
  intros H. apply preserves_sql. intros t d a d' Hd.
  destruct (get d !! id) as [r|] eqn:Hid; intros [= _ <-]; [by eapply H|done].
Qed.
End forms.

(** ** Strongest postconditions of the statement forms *)

Section forward.
Context {R : Type}.
Variable get : Database -> gmap string R.
Variable set : gmap string R -> Database -> Database.
Implicit Types (P : Database -> Prop).

Lemma fwd_get_row P id :
  triple P (get_row get id) (fun r d => P d /\ get d !! id = Some r) (fun _ _ => True).
Proof.
  apply triple_query; [|done]. intros d Hd. by destruct (get d !! id).
Qed.

Lemma fwd_find_row P p :
  triple P (find_row get p) (fun r d => P d /\ r ∈ select_where p (get d))
    (fun e d => P d /\ (IsNotFound e = true -> select_where p (get d) = [])).
Proof.
  apply triple_query; [|by intros d Hd]. intros d Hd.
  destruct (select_where p (get d)) as [|r l] eqn:Hl; [by split|]. split; [done|]. by left.
Qed.

Lemma fwd_insert_row P id dup row :
  triple P (insert_row get set id dup row)
    (fun r d' => exists t d, P d /\ get d !! id = None /\ exists_row dup (get d) = false /\
       r = row t /\ d' = set (<[id := r]> (get d)) d)
    (fun _ _ => True).
Proof.
  apply triple_sql; [|done]. intros t d Hd. destruct (get d !! id) eqn:Hid; [done|].
  destruct (exists_row dup (get d)) eqn:Hdup; [done|]. by exists t, d.
Qed.

Lemma fwd_update_row P id p clash f :
  triple P (update_row get set id p clash f)
    (fun r' d' => exists t d r, P d /\ get d !! id = Some r /\ p r = true /\
       exists_row (fun x => clash x (f t r)) (delete id (get d)) = false /\
       r' = f t r /\ d' = set (<[id := r']> (get d)) d)
    (fun _ _ => True).
Proof.
  apply triple_sql; [|done]. intros t d Hd. destruct (get d !! id) as [r|] eqn:Hid; [|done].
  destruct (p r) eqn:Hp; simpl; [|done]. destruct (exists_row _ _) eqn:Hdup; [done|].
  by exists t, d, r.
Qed.

Lemma fwd_update_rows P id p f :
  triple P (update_rows get set id p f)
    (fun n d' => exists t d, P d /\
       ((n = 1 /\ exists r, get d !! id = Some r /\ p r = true /\
           d' = set (<[id := f t r]> (get d)) d) \/
        (n = 0 /\ d' = d /\ forall r, get d !! id = Some r -> p r = false)))
    (fun _ _ => True).
Proof.
  apply triple_sql; [|done]. intros t d Hd. destruct (get d !! id) as [r|] eqn:Hid.
  - destruct (p r) eqn:Hp; exists t, d; rewrite Hid.
    + split; [done|]. left. eauto.
    + split; [done|]. right. split_and!; [done..|]. by intros ? [= <-].
  - exists t, d. rewrite Hid. split; [done|]. right. split_and!; [done..|]. by intros ? ?.
Qed.

Lemma fwd_delete_row P id cascade :
  triple P (delete_row get set id cascade)
    (fun n d' => exists d, P d /\
       ((n = 1 /\ is_Some (get d !! id) /\ d' = cascade (set (delete id (get d)) d)) \/
        (n = 0 /\ get d !! id = None /\ d' = d)))
    (fun _ _ => True).
Proof.
  apply triple_sql; [|done]. intros t d Hd. destruct (get d !! id) as [r|] eqn:Hid; eauto 10.
Qed.
End forward.

Lemma fwd_scan_user P u :
  triple P (scan_user u)
    (fun u' d => P d /\ u' = u /\ in_int32 (User_SessionVersion u) = true) (fun _ _ => True).
Proof.
  unfold scan_user. destruct (in_int32 _); [by apply triple_ret|by apply triple_fail].
Qed.

Lemma fwd_scan_token P tok :
  triple P (scan_token tok) (fun tok' d => P d /\ tok' = tok) (fun _ _ => True).
Proof.
  unfold scan_token. destruct (_ && _); [by apply triple_ret|by apply triple_fail].
Qed.

(** One step forward. *)
Ltac fwd_leaf :=
  first
    [ apply fwd_get_row | apply fwd_insert_row | apply fwd_update_row | apply fwd_update_rows
    | apply fwd_delete_row | apply fwd_scan_user | apply fwd_scan_token | apply fwd_ret
    | apply fwd_lift | apply fwd_fail | apply fwd_draw | apply fwd_query | apply fwd_sql ].

Ltac fwd_bind := eapply triple_bind; [fwd_leaf|intros ?; cbv beta].
Ltac fwd_last := eapply triple_conseq; [fwd_leaf|intros ? HP; exact HP|cbv beta|done].

(** ** Uniqueness and growth of a table *)

(** [m] has every key of [m0]. *)
Definition grows {R} (m0 m : gmap string R) : Prop :=
  forall k, is_Some (m0 !! k) -> is_Some (m !! k).

Section table_lemmas.
Context {R : Type}.
Implicit Types (m : gmap string R) (r : R).

Lemma grows_insert m k r : grows m (<[k := r]> m).
Proof. intros k' Hk. destruct (decide (k' = k)) as [->|]; [rewrite lookup_insert_eq|rewrite lookup_insert_ne]; eauto. Qed.

Lemma unique_insert {V} (f : R -> V) m k r :
  unique f m -> (forall k' r', m !! k' = Some r' -> k' <> k -> f r' <> f r) ->
  unique f (<[k := r]> m).
Proof.
  intros Hu Hne k1 k2 r1 r2 H1 H2 Heq.
  apply lookup_insert_Some in H1 as [[<- <-]|[Hn1 H1]];
  apply lookup_insert_Some in H2 as [[<- <-]|[Hn2 H2]]; [done|..].
  - exfalso. by eapply Hne.
  - exfalso. by eapply Hne.
  - by eapply Hu.
Qed.

(** An update that keeps the UNIQUE column. *)
Lemma unique_update {V} (f : R -> V) m k r r' :
  unique f m -> m !! k = Some r' -> f r = f r' -> unique f (<[k := r]> m).
Proof.
  intros Hu Hl Hf. apply unique_insert; [done|]. intros k' r'' Hl' Hne Heq.
  apply Hne. eapply Hu; [done..|]. congruence.
Qed.

(** An INSERT whose duplicate check found nothing. *)
Lemma unique_insert_dup {V} `{!EqDecision V} (f : R -> V) m k r (v : V) :
  unique f m -> f r = v ->
  exists_row (fun r' => bool_decide (f r' = v)) m = false -> unique f (<[k := r]> m).
Proof.
  intros Hu <- Hdup. apply unique_insert; [done|]. intros k' r' Hl' _ Heq.
  eapply exists_row_false in Hdup; [|done]. by apply bool_decide_eq_false in Hdup.
Qed.

(** An UPDATE whose clash check found nothing. *)
Lemma unique_update_clash {V} `{!EqDecision V} (f : R -> V) m k r :
  unique f m ->
  exists_row (fun r' => bool_decide (f r' = f r)) (delete k m) = false ->
  unique f (<[k := r]> m).
Proof.
  intros Hu Hdup. apply unique_insert; [done|]. intros k' r' Hl' Hne Heq.
  eapply exists_row_false in Hdup; [|by rewrite lookup_delete_ne].
  by apply bool_decide_eq_false in Hdup.
Qed.

Lemma unique_delete {V} (f : R -> V) m k : unique f m -> unique f (delete k m).
Proof. intros Hu k1 k2 r1 r2 [_ H1]%lookup_delete_Some [_ H2]%lookup_delete_Some. by apply Hu. Qed.

Lemma unique_filter {V} (f : R -> V) (P : string * R -> Prop) `{!forall x, Decision (P x)} m :
  unique f m -> unique f (filter P m).
Proof.
  intros Hu k1 k2 r1 r2 [H1 _]%map_lookup_filter_Some [H2 _]%map_lookup_filter_Some. by apply Hu.
Qed.

Lemma select_where_key (p : R -> bool) m r key :
  keyed key m -> r ∈ select_where p m -> m !! key r = Some r /\ p r = true.
Proof.
  intros Hk [Hp [k Hl]]%elem_of_select_where. split; [|done]. by rewrite (Hk _ _ Hl).
Qed.
End table_lemmas.

#[export] Hint Resolve grows_insert : core.

(** ** One table replaced *)

Ltac wf_split := intros []; split; simpl; try assumption; intros;
  repeat match goal with
  | H : forall _ _, (_, _) ∈ _ -> _, H' : (_, _) ∈ _ |- _ => apply H in H' as [? ?]
  end; auto.

Section set_tables.
Implicit Types (d : Database).

Lemma wf_set_identity_providers d m :
  WellFormed d -> keyed IdentityProvider_ID m -> unique IdentityProvider_Slug m ->
  grows (identity_providers d) m -> WellFormed (set_identity_providers m d).
Proof.
  intros Hwf Hk Hu Hg. revert Hwf. wf_split.
  destruct (wf_identity_links _ _ _ H). auto.
Qed.

Lemma wf_set_users d m :
  WellFormed d -> keyed User_ID m -> grows (users d) m -> WellFormed (set_users m d).
Proof.
  intros Hwf Hk Hg. revert Hwf. wf_split. destruct (wf_identity_links _ _ _ H). auto.
Qed.

Lemma wf_set_roles d m :
  WellFormed d -> keyed Role_ID m -> unique Role_Name m -> grows (roles d) m ->
  WellFormed (set_roles m d).
Proof. intros Hwf Hk Hu Hg. revert Hwf. wf_split. Qed.

Lemma wf_set_tokens d m :
  WellFormed d -> keyed RegistrationToken_ID m -> unique RegistrationToken_ValueHash m ->
  WellFormed (set_registration_tokens m d).
Proof. intros Hwf Hk Hu. revert Hwf. wf_split. Qed.

Lemma wf_set_devices d m :
  WellFormed d -> keyed Device_ID m -> unique Device_IdentityPublicKey m ->
  grows (devices d) m -> WellFormed (set_devices m d).
Proof.
  intros Hwf Hk Hu Hg. revert Hwf. wf_split.
  - destruct (wf_assignment_target _ _ H) as [[? ?]|[? ?]]; [left|right]; auto.
  - destruct (wf_result_refs _ _ H). auto.
Qed.

Lemma wf_set_actions d m :
  WellFormed d -> keyed ActionRow_ID m -> unique ActionRow_Name m ->
  grows (actions d) m -> WellFormed (set_actions m d).
Proof.
  intros Hwf Hk Hu Hg. revert Hwf. wf_split.
  - eauto.
  - destruct (wf_result_refs _ _ H). auto.
Qed.

Lemma wf_set_device_groups d m :
  WellFormed d -> keyed DeviceGroup_ID m -> unique DeviceGroup_Name m ->
  grows (device_groups d) m -> WellFormed (set_device_groups m d).
Proof.
  intros Hwf Hk Hu Hg. revert Hwf. wf_split.
  destruct (wf_assignment_target _ _ H) as [[? ?]|[? ?]]; [left|right]; auto.
Qed.

Lemma wf_set_role_permissions d m :
  WellFormed d ->
  (forall r p, (r, p) ∈ m -> is_Some (roles d !! r) /\ 1 <= p <= 46) ->
  WellFormed (set_role_permissions m d).
Proof. intros Hwf H. revert Hwf. wf_split. Qed.

Lemma wf_set_user_roles d m :
  WellFormed d ->
  (forall u r, (u, r) ∈ m -> is_Some (users d !! u) /\ is_Some (roles d !! r)) ->
  WellFormed (set_user_roles m d).
Proof. intros Hwf H. revert Hwf. wf_split. Qed.

Lemma wf_set_identity_links d m :
  WellFormed d ->
  (forall p s u, m !! (p, s) = Some u ->
     is_Some (identity_providers d !! p) /\ is_Some (users d !! u)) ->
  WellFormed (set_identity_links m d).
Proof. intros Hwf H. revert Hwf. wf_split. Qed.

Lemma wf_set_members d m :
  WellFormed d ->
  (forall g dev, (g, dev) ∈ m -> is_Some (device_groups d !! g) /\ is_Some (devices d !! dev)) ->
  WellFormed (set_device_group_members m d).
Proof. intros Hwf H. revert Hwf. wf_split. Qed.

Lemma wf_set_assignments d m :
  WellFormed d -> keyed Assignment_ID m ->
  unique (fun a => (Assignment_ActionID a, Assignment_TargetType a, Assignment_TargetID a)) m ->
  (forall k a, m !! k = Some a ->
     is_Some (actions d !! Assignment_ActionID a) /\ assignment_target_exists d a) ->
  WellFormed (set_assignments m d).
Proof. intros Hwf Hk Hu H. revert Hwf. wf_split; by destruct (H _ _ H0). Qed.

Lemma wf_set_results d m :
  WellFormed d -> keyed ExecutionResult_RunID m ->
  (forall k r, m !! k = Some r -> is_Some (devices d !! ExecutionResult_DeviceID r) /\
     is_Some (actions d !! ExecutionResult_ActionID r)) ->
  WellFormed (set_execution_results m d).
Proof. intros Hwf Hk H. revert Hwf. wf_split. Qed.

Lemma wf_set_audit d m :
  WellFormed d -> keyed AuditEvent_ID m ->
  (forall k e, m !! k = Some e -> 1 <= AuditEvent_EventType e <= 19 /\
     1 <= AuditEvent_StreamType e <= 7 /\ 1 <= AuditEvent_ActorType e <= 3) ->
  WellFormed (set_audit_events m d).
Proof. intros Hwf Hk H. revert Hwf. wf_split. Qed.
End set_tables.

(** ** The queries *)

Lemma scan_user_wf I u : preserves I (scan_user u).
Proof. unfold scan_user. destruct (in_int32 _); auto with preserve. Qed.

Lemma scan_token_wf I tok : preserves I (scan_token tok).
Proof. unfold scan_token. destruct (_ && _); auto with preserve. Qed.

Lemma get_row_preserves {R} (get : Database -> gmap string R) id I : preserves I (get_row get id).
Proof. apply preserves_query. Qed.

Lemma find_row_preserves {R} (get : Database -> gmap string R) p I : preserves I (find_row get p).
Proof. apply preserves_query. Qed.

Lemma list_page_preserves {R} (get : Database -> gmap string R) key after limit I :
  preserves I (list_page get key after limit).
Proof. apply preserves_query. Qed.

Lemma count_all_preserves {R} (get : Database -> gmap string R) I : preserves I (count_all get).
Proof. apply preserves_query. Qed.

#[export] Hint Resolve scan_user_wf scan_token_wf get_row_preserves find_row_preserves
  list_page_preserves count_all_preserves : preserve.

(** The reads change nothing, whatever the invariant. *)
Ltac read_query := intros; unfold
  CountIdentityProviders, GetIdentityProvider, GetIdentityProviderBySlug, ListIdentityProviders,
  ListEnabledIdentityProviders, GetUser, ListUsers, GetRole, GetRoleByName, ListRoles,
  ListRolePermissions, ListUserRoles, ListUserPermissions, GetRegistrationToken,
  GetUsableRegistrationToken, ListRegistrationTokens, CountRegistrationTokens, GetDevice,
  FindDeviceByIdentityKey, ListDevices, CountDevices, GetAction, ListActions, CountActions,
  GetDeviceGroup, ListDeviceGroups, CountDeviceGroups, ListDeviceGroupsForDevice,
  ListDeviceGroupMembers, GetAssignment, ListAssignments, ListActionsForDevice,
  GetExecutionResult, ListExecutionResults, ListComplianceResults, ListAuditEvents; preserve.

Lemma CountIdentityProviders_read I : preserves I CountIdentityProviders. Proof. read_query. Qed.
Lemma GetIdentityProvider_read I a : preserves I (GetIdentityProvider a). Proof. read_query. Qed.
Lemma GetIdentityProviderBySlug_read I a : preserves I (GetIdentityProviderBySlug a). Proof. read_query. Qed.
Lemma ListIdentityProviders_read I : preserves I ListIdentityProviders. Proof. read_query. Qed.
Lemma ListEnabledIdentityProviders_read I : preserves I ListEnabledIdentityProviders. Proof. read_query. Qed.
Lemma GetUser_read I a : preserves I (GetUser a). Proof. read_query. Qed.
Lemma ListUsers_read I a b : preserves I (ListUsers a b). Proof. read_query. Qed.
Lemma GetRole_read I a : preserves I (GetRole a). Proof. read_query. Qed.
Lemma GetRoleByName_read I a : preserves I (GetRoleByName a). Proof. read_query. Qed.
Lemma ListRoles_read I a b : preserves I (ListRoles a b). Proof. read_query. Qed.
Lemma ListRolePermissions_read I a : preserves I (ListRolePermissions a). Proof. read_query. Qed.
Lemma ListUserRoles_read I a : preserves I (ListUserRoles a). Proof. read_query. Qed.
Lemma ListUserPermissions_read I a : preserves I (ListUserPermissions a). Proof. read_query. Qed.
Lemma GetRegistrationToken_read I a : preserves I (GetRegistrationToken a). Proof. read_query. Qed.
Lemma GetUsableRegistrationToken_read I a b : preserves I (GetUsableRegistrationToken a b). Proof. read_query. Qed.
Lemma ListRegistrationTokens_read I a b : preserves I (ListRegistrationTokens a b). Proof. read_query. Qed.
Lemma CountRegistrationTokens_read I : preserves I CountRegistrationTokens. Proof. read_query. Qed.
Lemma GetDevice_read I a : preserves I (GetDevice a). Proof. read_query. Qed.
Lemma FindDeviceByIdentityKey_read I a : preserves I (FindDeviceByIdentityKey a). Proof. read_query. Qed.
Lemma ListDevices_read I a b : preserves I (ListDevices a b). Proof. read_query. Qed.
Lemma CountDevices_read I : preserves I CountDevices. Proof. read_query. Qed.
Lemma GetAction_read I a : preserves I (GetAction a). Proof. read_query. Qed.
Lemma ListActions_read I a b : preserves I (ListActions a b). Proof. read_query. Qed.
Lemma CountActions_read I : preserves I CountActions. Proof. read_query. Qed.
Lemma GetDeviceGroup_read I a : preserves I (GetDeviceGroup a). Proof. read_query. Qed.
Lemma ListDeviceGroups_read I a b : preserves I (ListDeviceGroups a b). Proof. read_query. Qed.
Lemma CountDeviceGroups_read I : preserves I CountDeviceGroups. Proof. read_query. Qed.
Lemma ListDeviceGroupsForDevice_read I a : preserves I (ListDeviceGroupsForDevice a). Proof. read_query. Qed.
Lemma ListDeviceGroupMembers_read I a : preserves I (ListDeviceGroupMembers a). Proof. read_query. Qed.
Lemma GetAssignment_read I a : preserves I (GetAssignment a). Proof. read_query. Qed.
Lemma ListAssignments_read I a b c : preserves I (ListAssignments a b c). Proof. read_query. Qed.
Lemma ListActionsForDevice_read I a b : preserves I (ListActionsForDevice a b). Proof. read_query. Qed.
Lemma GetExecutionResult_read I a : preserves I (GetExecutionResult a). Proof. read_query. Qed.
Lemma ListExecutionResults_read I a b c d e : preserves I (ListExecutionResults a b c d e). Proof. read_query. Qed.
Lemma ListComplianceResults_read I a : preserves I (ListComplianceResults a). Proof. read_query. Qed.
Lemma ListAuditEvents_read I a b : preserves I (ListAuditEvents a b). Proof. read_query. Qed.

#[export] Hint Resolve CountIdentityProviders_read GetIdentityProvider_read GetIdentityProviderBySlug_read
  ListIdentityProviders_read ListEnabledIdentityProviders_read GetUser_read ListUsers_read
  GetRole_read GetRoleByName_read ListRoles_read ListRolePermissions_read ListUserRoles_read
  ListUserPermissions_read GetRegistrationToken_read GetUsableRegistrationToken_read
  ListRegistrationTokens_read CountRegistrationTokens_read GetDevice_read
  FindDeviceByIdentityKey_read ListDevices_read CountDevices_read GetAction_read
  ListActions_read CountActions_read GetDeviceGroup_read ListDeviceGroups_read
  CountDeviceGroups_read ListDeviceGroupsForDevice_read ListDeviceGroupMembers_read
  GetAssignment_read ListAssignments_read ListActionsForDevice_read GetExecutionResult_read
  ListExecutionResults_read ListComplianceResults_read ListAuditEvents_read : preserve reads.

(** The side conditions of a table that one row was written to. *)
Ltac table_side :=
  match goal with
  | |- WellFormed _ => assumption
  | |- grows _ _ => apply grows_insert
  | |- keyed _ (<[_ := _]> _) =>
      apply keyed_insert; [first [reflexivity | simpl; eauto with nocore]|assumption]
  | |- unique _ (<[_ := _]> _) =>
      first [ eapply unique_update; [eassumption|eassumption|reflexivity]
            | eapply unique_update_clash; [eassumption|eassumption]
            | eapply unique_insert_dup; [eassumption|reflexivity|eassumption] ]
  | |- keyed _ (delete _ _) => apply keyed_delete; assumption
  | |- keyed _ (filter _ _) => apply keyed_filter; assumption
  | |- unique _ (delete _ _) => apply unique_delete; assumption
  | |- unique _ (filter _ _) => apply unique_filter; assumption
  end.

Ltac write_row :=
  let t := fresh "t" in let d := fresh "d" in
  intros t d; intros;
  match goal with Hwf : WellFormed d |- _ => pose proof Hwf as [] end;
  first [ apply wf_set_identity_providers | apply wf_set_users | apply wf_set_roles
        | apply wf_set_tokens | apply wf_set_devices | apply wf_set_actions
        | apply wf_set_device_groups ]; table_side.

Ltac write_query :=
  intros;
  repeat first [ apply preserves_update_row; write_row
               | apply preserves_update_rows; write_row
               | apply preserves_insert_row; write_row
               | solve [eauto 2 with preserve nocore]
               | preserve_step ].

Lemma CreateIdentityProvider_wf a b c d e f g : preserves WellFormed (CreateIdentityProvider a b c d e f g).
Proof. unfold CreateIdentityProvider. write_query. Qed.

Lemma ConfigureIdentityProvider_wf a b c d : preserves WellFormed (ConfigureIdentityProvider a b c d).
Proof. unfold ConfigureIdentityProvider. write_query. Qed.

Lemma RenameIdentityProvider_wf a b : preserves WellFormed (RenameIdentityProvider a b).
Proof. unfold RenameIdentityProvider. write_query. Qed.

Lemma EnableIdentityProvider_wf a : preserves WellFormed (EnableIdentityProvider a).
Proof. unfold EnableIdentityProvider. write_query. Qed.

Lemma DisableIdentityProvider_wf a : preserves WellFormed (DisableIdentityProvider a).
Proof. unfold DisableIdentityProvider. write_query. Qed.

Lemma RotateUserSession_wf a b : preserves WellFormed (RotateUserSession a b).
Proof. unfold RotateUserSession. write_query. Qed.

Lemma RotateUserSessionByID_wf a : preserves WellFormed (RotateUserSessionByID a).
Proof. unfold RotateUserSessionByID. write_query. Qed.

Lemma CreateRole_wf a b c : preserves WellFormed (CreateRole a b c).
Proof. unfold CreateRole. write_query. Qed.

Lemma RenameRole_wf a b : preserves WellFormed (RenameRole a b).
Proof. unfold RenameRole. write_query. Qed.

Lemma SetRoleDescription_wf a b : preserves WellFormed (SetRoleDescription a b).
Proof. unfold SetRoleDescription. write_query. Qed.

Lemma TouchRole_wf a : preserves WellFormed (TouchRole a).
Proof. unfold TouchRole. write_query. Qed.

Lemma CreateRegistrationToken_wf a b c d e : preserves WellFormed (CreateRegistrationToken a b c d e).
Proof. unfold CreateRegistrationToken. write_query. Qed.

Lemma ConsumeRegistrationToken_wf a b : preserves WellFormed (ConsumeRegistrationToken a b).
Proof. unfold ConsumeRegistrationToken. write_query. Qed.

Lemma RenameRegistrationToken_wf a b : preserves WellFormed (RenameRegistrationToken a b).
Proof. unfold RenameRegistrationToken. write_query. Qed.

Lemma CreateDevice_wf a b c d e f g h : preserves WellFormed (CreateDevice a b c d e f g h).
Proof. unfold CreateDevice. write_query. Qed.

Lemma SetPendingDeviceCertificate_wf a b c d e : preserves WellFormed (SetPendingDeviceCertificate a b c d e).
Proof. unfold SetPendingDeviceCertificate. write_query. Qed.

Lemma TouchDevice_wf a b c d : preserves WellFormed (TouchDevice a b c d).
Proof. unfold TouchDevice. write_query. Qed.

Lemma CreateAction_wf a b c d : preserves WellFormed (CreateAction a b c d).
Proof. unfold CreateAction. write_query. Qed.

Lemma RenameAction_wf a b : preserves WellFormed (RenameAction a b).
Proof. unfold RenameAction. write_query. Qed.

Lemma SetActionDescription_wf a b : preserves WellFormed (SetActionDescription a b).
Proof. unfold SetActionDescription. write_query. Qed.

Lemma ConfigureAction_wf a b : preserves WellFormed (ConfigureAction a b).
Proof. unfold ConfigureAction. write_query. Qed.

Lemma CreateDeviceGroup_wf a b c : preserves WellFormed (CreateDeviceGroup a b c).
Proof. unfold CreateDeviceGroup. write_query. Qed.

Lemma RenameDeviceGroup_wf a b : preserves WellFormed (RenameDeviceGroup a b).
Proof. unfold RenameDeviceGroup. write_query. Qed.

Lemma SetDeviceGroupDescription_wf a b : preserves WellFormed (SetDeviceGroupDescription a b).
Proof. unfold SetDeviceGroupDescription. write_query. Qed.

Lemma TouchDeviceGroup_wf a : preserves WellFormed (TouchDeviceGroup a).
Proof. unfold TouchDeviceGroup. write_query. Qed.

Lemma CreateUser_wf a b c t : preserves WellFormed (CreateUser a b c t).
Proof. unfold CreateUser. write_query. Qed.

#[export] Hint Resolve CreateIdentityProvider_wf ConfigureIdentityProvider_wf
  RenameIdentityProvider_wf EnableIdentityProvider_wf DisableIdentityProvider_wf
  RotateUserSession_wf RotateUserSessionByID_wf CreateRole_wf RenameRole_wf
  SetRoleDescription_wf TouchRole_wf CreateRegistrationToken_wf ConsumeRegistrationToken_wf
  RenameRegistrationToken_wf CreateDevice_wf SetPendingDeviceCertificate_wf TouchDevice_wf
  CreateAction_wf RenameAction_wf SetActionDescription_wf ConfigureAction_wf
  CreateDeviceGroup_wf RenameDeviceGroup_wf SetDeviceGroupDescription_wf TouchDeviceGroup_wf
  CreateUser_wf : preserve.

(** *** Users and roles *)

Lemma LinkIdentity_wf p s u : preserves WellFormed (LinkIdentity p s u).
Proof.
  apply preserves_sql. intros _ d a d' Hwf.
  destruct (identity_links d !! (p, s)); [done|].
  destruct (bool_decide _ && bool_decide _) eqn:Hfk; [|done]. intros [= _ <-].
  apply andb_true_iff in Hfk as [Hp%bool_decide_eq_true Hu%bool_decide_eq_true].
  apply wf_set_identity_links; [done|]. intros p' s' u'.
  rewrite lookup_insert_Some. intros [[[= <- <-] <-]|[_ Hl]]; [done|].
  by eapply wf_identity_links.
Qed.

Lemma UpdateIdentityUserLogin_wf a b c p s :
  preserves WellFormed (UpdateIdentityUserLogin a b c p s).
Proof.
  apply preserves_bind; [|auto with preserve]. apply preserves_sql. intros t d x d' Hwf.
  destruct (identity_links d !! (p, s)) as [u|]; simpl; [|done].
  destruct (users d !! u) as [r|] eqn:Hu; simpl; [|done]. intros [= _ <-].
  pose proof (wf_users d Hwf) as Hk. apply wf_set_users; [done| |].
  - apply keyed_insert; [by apply (Hk _ _ Hu)|done].
  - apply grows_insert.
Qed.

Lemma BumpSessionsForRole_wf id : preserves WellFormed (BumpSessionsForRole id).
Proof.
  apply preserves_sql. intros t d a d' Hwf [= _ <-]. pose proof (wf_users d Hwf) as Hk.
  apply wf_set_users; [done| |].
  - intros k r. rewrite map_lookup_imap. destruct (users d !! k) as [r0|] eqn:Hl; [|done].
    simpl. intros [= <-]. case_bool_decide; simpl; by apply Hk.
  - intros k [r Hr]. rewrite map_lookup_imap, Hr. by eexists.
Qed.

Lemma GrantRolePermission_wf p r : preserves WellFormed (GrantRolePermission p r).
Proof.
  apply preserves_sql. intros _ d a d' Hwf. destruct (roles d !! r) eqn:Hr; [|done].
  destruct ((1 <=? p) && (p <=? 46)) eqn:Hp; simpl; [|done].
  case_bool_decide; [done|]. intros [= _ <-]. apply andb_true_iff in Hp as [? ?].
  apply wf_set_role_permissions; [done|]. intros r' p'.
  rewrite elem_of_union, elem_of_singleton. intros [[= -> ->]|Hin].
  - split; [eauto|lia].
  - by apply (wf_role_permissions d Hwf).
Qed.

Lemma RevokeRolePermission_wf r p : preserves WellFormed (RevokeRolePermission r p).
Proof.
  apply preserves_sql. intros _ d a d' Hwf. case_bool_decide; intros [= _ <-]; [|done].
  apply wf_set_role_permissions; [done|]. intros r' p' [Hin _]%elem_of_difference.
  by apply (wf_role_permissions d Hwf).
Qed.

Lemma AssignInitialRole_wf u a b : preserves WellFormed (AssignInitialRole u a b).
Proof.
  apply preserves_sql. intros _ d x d' Hwf. cbv zeta. set (role := if _ =? 1 then a else b).
  destruct (roles d !! role) eqn:Hr; [|by intros [= _ <-]].
  case_bool_decide; [done|]. case_bool_decide as Hu; [|done]. intros [= _ <-].
  apply wf_set_user_roles; [done|]. intros u' r'.
  rewrite elem_of_union, elem_of_singleton. intros [[= -> ->]|Hin]; [eauto|].
  by apply (wf_user_roles d Hwf).
Qed.

Lemma AssignRoleToUser_wf u r : preserves WellFormed (AssignRoleToUser u r).
Proof.
  apply preserves_sql. intros _ d x d' Hwf.
  destruct (users d !! u) eqn:Hu, (roles d !! r) eqn:Hr; try done.
  case_bool_decide; [done|]. intros [= _ <-].
  apply wf_set_user_roles; [done|]. intros u' r'.
  rewrite elem_of_union, elem_of_singleton. intros [[= -> ->]|Hin]; [eauto|].
  by apply (wf_user_roles d Hwf).
Qed.

Lemma RevokeRoleFromUser_wf u r : preserves WellFormed (RevokeRoleFromUser u r).
Proof.
  apply preserves_sql. intros _ d x d' Hwf. case_bool_decide; intros [= _ <-]; [|done].
  apply wf_set_user_roles; [done|]. intros u' r' [Hin _]%elem_of_difference.
  by apply (wf_user_roles d Hwf).
Qed.

(** *** Deletions and their cascades *)

Lemma delete_is_Some {R} (m : gmap string R) k k' :
  is_Some (m !! k') -> k' <> k -> is_Some (delete k m !! k').
Proof. intros H Hne. by rewrite lookup_delete_ne. Qed.

#[local] Hint Resolve delete_is_Some keyed_delete unique_delete : core.

Lemma DeleteIdentityProvider_wf id : preserves WellFormed (DeleteIdentityProvider id).
Proof.
  apply preserves_delete_row. intros d r []. split; simpl; auto.
  intros p s u [Hl Hne]%map_lookup_filter_Some. simpl in *.
  destruct (wf_identity_links _ _ _ Hl). auto.
Qed.

Lemma DeleteRole_wf id : preserves WellFormed (DeleteRole id).
Proof.
  apply preserves_delete_row. intros d r []. split; simpl; auto.
  - intros r' p [Hne Hin]%elem_of_filter. destruct (wf_role_permissions _ _ Hin). auto.
  - intros u r' [Hne Hin]%elem_of_filter. destruct (wf_user_roles _ _ Hin). auto.
Qed.

Lemma DeleteRegistrationToken_wf id : preserves WellFormed (DeleteRegistrationToken id).
Proof. apply preserves_delete_row. intros d r Hwf _. pose proof Hwf as []. apply wf_set_tokens; auto. Qed.

Lemma ConsumeFinalRegistrationToken_wf id t :
  preserves WellFormed (ConsumeFinalRegistrationToken id t).
Proof.
  apply preserves_bind; [|auto with preserve]. apply preserves_sql. intros _ d a d' Hwf.
  destruct (registration_tokens d !! id); [|done].
  destruct (_ && _); [|done]. intros [= _ <-]. pose proof Hwf as []. apply wf_set_tokens; auto.
Qed.

Lemma PromotePendingDeviceCertificate_wf id s :
  preserves WellFormed (PromotePendingDeviceCertificate id s).
Proof.
  apply preserves_sql. intros t d a d' Hwf.
  destruct (devices d !! id) as [r|] eqn:Hl; [|by intros [= _ <-]].
  destruct s as [s|]; [|by intros [= _ <-]].
  case_bool_decide; [|by intros [= _ <-]].
  destruct (Device_PendingCertificatePem r) eqn:?; [done|].
  destruct (Device_PendingCertExpiresAt r) eqn:?; [|done]. intros [= _ <-].
  pose proof Hwf as []. apply wf_set_devices; table_side.
Qed.

Lemma DeleteAction_wf id : preserves WellFormed (DeleteAction id).
Proof.
  apply preserves_delete_row. intros d r []. split; simpl; auto.
  - by apply keyed_filter.
  - by apply unique_filter.
  - intros k a [Hl Hne]%map_lookup_filter_Some. eauto.
  - intros k a [Hl Hne]%map_lookup_filter_Some. by eapply wf_assignment_target.
  - by apply keyed_filter.
  - intros k x [Hl Hne]%map_lookup_filter_Some. destruct (wf_result_refs _ _ Hl). auto.
Qed.

Lemma DeleteAssignment_wf id : preserves WellFormed (DeleteAssignment id).
Proof.
  apply preserves_delete_row. intros d r Hwf _. pose proof Hwf as [].
  apply wf_set_assignments; auto. intros k a [_ Hl]%lookup_delete_Some. eauto.
Qed.

Lemma DeleteAssignmentsForTarget_wf ty id :
  preserves WellFormed (DeleteAssignmentsForTarget ty id).
Proof.
  apply preserves_sql. intros _ d a d' Hwf [= _ <-]. pose proof Hwf as [].
  apply wf_set_assignments; [done|by apply keyed_filter|by apply unique_filter|].
  intros k x [Hl _]%map_lookup_filter_Some. eauto.
Qed.

(** *** Groups, results and the audit log *)

Lemma AddDeviceToGroup_wf g dev : preserves WellFormed (AddDeviceToGroup g dev).
Proof.
  apply preserves_sql. intros _ d a d' Hwf. case_bool_decide; [done|].
  destruct (bool_decide _ && bool_decide _) eqn:Hfk; [|done]. intros [= _ <-].
  apply andb_true_iff in Hfk as [Hg%bool_decide_eq_true Hd%bool_decide_eq_true].
  apply wf_set_members; [done|]. intros g' dev'.
  rewrite elem_of_union, elem_of_singleton. intros [[= -> ->]|Hin]; [done|].
  by apply (wf_members d Hwf).
Qed.

Lemma RemoveDeviceFromGroup_wf g dev : preserves WellFormed (RemoveDeviceFromGroup g dev).
Proof.
  apply preserves_sql. intros _ d x d' Hwf. case_bool_decide; intros [= _ <-]; [|done].
  apply wf_set_members; [done|]. intros u' r' [Hin _]%elem_of_difference.
  by apply (wf_members d Hwf).
Qed.

Lemma CreateExecutionResult_wf a b c t e : preserves WellFormed (CreateExecutionResult a b c t e).
Proof.
  apply preserves_sql. intros _ d x d' Hwf.
  destruct (execution_results d !! a) eqn:Hl; [by intros [= _ <-]|].
  destruct (bool_decide _ && bool_decide _) eqn:Hfk; [|done]. intros [= _ <-].
  apply andb_true_iff in Hfk as [Hg%bool_decide_eq_true Hd%bool_decide_eq_true].
  pose proof Hwf as []. apply wf_set_results; [done|by apply keyed_insert|].
  intros k r. rewrite lookup_insert_Some. intros [[<- <-]|[_ Hk]]; [done|]. eauto.
Qed.

Lemma CreateAuditEvent_wf a b c s e f t : preserves WellFormed (CreateAuditEvent a b c s e f t).
Proof.
  apply preserves_sql. intros _ d x d' Hwf.
  destruct (_ && _) eqn:Hc; simpl; [|done].
  destruct (audit_events d !! a) eqn:Hl; [done|]. intros [= _ <-].
  rewrite !andb_true_iff, !Z.leb_le in Hc.
  pose proof Hwf as []. apply wf_set_audit; [done|by apply keyed_insert|].
  intros k r. rewrite lookup_insert_Some. intros [[<- <-]|[_ Hk]]; simpl; [lia|]. eauto.
Qed.

#[export] Hint Resolve LinkIdentity_wf UpdateIdentityUserLogin_wf BumpSessionsForRole_wf
  GrantRolePermission_wf RevokeRolePermission_wf AssignInitialRole_wf AssignRoleToUser_wf
  RevokeRoleFromUser_wf DeleteIdentityProvider_wf DeleteRole_wf DeleteRegistrationToken_wf
  ConsumeFinalRegistrationToken_wf PromotePendingDeviceCertificate_wf DeleteAction_wf
  DeleteAssignment_wf DeleteAssignmentsForTarget_wf AddDeviceToGroup_wf
  RemoveDeviceFromGroup_wf CreateExecutionResult_wf CreateAuditEvent_wf : preserve.

(** *** Single statements are atomic *)

Lemma CreateIdentityProvider_query_atomic a b c d e f g :
  atomic (CreateIdentityProvider a b c d e f g).
Proof. apply atomic_sql. Qed.

Lemma RenameIdentityProvider_query_atomic a b : atomic (RenameIdentityProvider a b).
Proof. apply atomic_sql. Qed.

Lemma ConfigureIdentityProvider_query_atomic a b c d : atomic (ConfigureIdentityProvider a b c d).
Proof. apply atomic_sql. Qed.

Lemma EnableIdentityProvider_query_atomic a : atomic (EnableIdentityProvider a).
Proof. apply atomic_sql. Qed.

Lemma DisableIdentityProvider_query_atomic a : atomic (DisableIdentityProvider a).
Proof. apply atomic_sql. Qed.

#[export] Hint Resolve CreateIdentityProvider_query_atomic RenameIdentityProvider_query_atomic
  ConfigureIdentityProvider_query_atomic EnableIdentityProvider_query_atomic
  DisableIdentityProvider_query_atomic : atomic.

(** *** What an assignment's target is *)

(** No assignment names this target. *)
Definition no_assignment_to (ty : Z) (id : string) (d : Database) : Prop :=
  forall k a, assignments d !! k = Some a ->
    ~ (Assignment_TargetType a = ty /\ Assignment_TargetID a = id).

Lemma DeleteAssignmentsForTarget_clears ty id I :
  preserves I (DeleteAssignmentsForTarget ty id) ->
  triple I (DeleteAssignmentsForTarget ty id) (fun _ d => I d /\ no_assignment_to ty id d)
    (fun _ => I).
Proof.
  intros HI env w Hw. specialize (HI env w Hw). revert HI.
  unfold DeleteAssignmentsForTarget, sql. destruct (env_fault _ _); simpl; [done|].
  intros HI. split; [done|]. intros k a [_ Hne]%map_lookup_filter_Some. exact Hne.
Qed.

Lemma DeleteDevice_wf id :
  triple (fun d => WellFormed d /\ no_assignment_to 1 id d) (DeleteDevice id)
    (fun _ => WellFormed) (fun _ => WellFormed).
Proof.
  unfold DeleteDevice, delete_row. apply triple_sql; [|by intros ? []]. intros _ d [Hwf Hno].
  destruct (devices d !! id) as [r|] eqn:Hl; [|done]. destruct Hwf. split; simpl; auto.
  - intros g dev [Hne Hin]%elem_of_filter. destruct (wf_members _ _ Hin). auto.
  - intros k a Ha. destruct (wf_assignment_target _ _ Ha) as [[? ?]|[? ?]]; [left|right]; auto.
    split; [done|]. simpl. apply delete_is_Some; [done|]. intros Heq. by eapply Hno.
  - by apply keyed_filter.
  - intros k x [Hk Hne]%map_lookup_filter_Some. destruct (wf_result_refs _ _ Hk). auto.
Qed.

Lemma DeleteDeviceGroup_wf id :
  triple (fun d => WellFormed d /\ no_assignment_to 2 id d) (DeleteDeviceGroup id)
    (fun _ => WellFormed) (fun _ => WellFormed).
Proof.
  unfold DeleteDeviceGroup, delete_row. apply triple_sql; [|by intros ? []]. intros _ d [Hwf Hno].
  destruct (device_groups d !! id) as [r|] eqn:Hl; [|done]. destruct Hwf. split; simpl; auto.
  - intros g dev [Hne Hin]%elem_of_filter. destruct (wf_members _ _ Hin). auto.
  - intros k a Ha. destruct (wf_assignment_target _ _ Ha) as [[? ?]|[? ?]]; [left|right]; auto.
    split; [done|]. simpl. apply delete_is_Some; [done|]. intros Heq. by eapply Hno.
Qed.

(** The target of an assignment about to be created exists. *)
Definition target_exists (ty : Z) (id : string) (d : Database) : Prop :=
  (ty = 1 /\ is_Some (devices d !! id)) \/ (ty = 2 /\ is_Some (device_groups d !! id)).

Lemma CreateAssignment_wf a b ty id :
  triple (fun d => WellFormed d /\ target_exists ty id d) (CreateAssignment a b ty id)
    (fun _ => WellFormed) (fun _ => WellFormed).
Proof.
  unfold CreateAssignment. apply triple_sql; [|by intros ? []]. intros t d [Hwf Ht].
  destruct (assignments d !! a) eqn:Hl; [done|].
  destruct (exists_row _ _) eqn:Hdup; [done|]. case_bool_decide as Hb; [|done].
  pose proof Hwf as []. apply wf_set_assignments; [done|by apply keyed_insert|..].
  - apply unique_insert; [done|]. intros k' r' Hk' _ [= H1 H2 H3].
    eapply exists_row_false in Hdup; [|done]. simpl in *. subst.
    rewrite !bool_decide_true, Z.eqb_refl in Hdup by done. done.
  - intros k x. rewrite lookup_insert_Some. intros [[<- <-]|[_ Hk]]; simpl; [|eauto].
    split; [done|]. destruct Ht as [[-> ?]|[-> ?]]; [left|right]; done.
Qed.
