(* ===== verification/QueriesFrame.v ===== *)
(** * What each query leaves alone

    For each query that writes, the tables it writes to, as a frame lemma: any
    predicate that is stable under replacing those tables is preserved.  A
    predicate that only reads other tables is stable by computation, which the
    [preserve] database discharges, so invariants about one table ignore the
    queries of the others. *)

From S2P Require Import Prelude Engine Proto Schema Queries QueriesFacts.

Open Scope Z_scope.

(** [I] does not depend on the table that [set] replaces. *)
Definition stable {T} (I : Database -> Prop) (set : T -> Database -> Database) : Prop :=
  forall x d, I d -> I (set x d).

(** By computation. *)
Ltac is_stable := intros ? ? HI; exact HI.

#[export] Hint Extern 1 (stable _ _) => is_stable : preserve.

Ltac stable_query :=
  intros; repeat match goal with H : stable _ _ |- _ => unfold stable in H end;
  repeat first
    [ solve [eauto 2 with preserve nocore]
    | apply preserves_update_row; intros; auto
    | apply preserves_update_rows; intros; auto
    | apply preserves_insert_row; intros; auto
    | apply preserves_delete_row; intros; auto 6
    | preserve_step ].

(** A single [sql] statement, case by case. *)
Ltac stable_sql :=
  intros; repeat match goal with H : stable _ _ |- _ => unfold stable in H end;
  apply preserves_sql; intros ? ? ? ? HI; cbv zeta; intros Heq;
  repeat match type of Heq with
  | context [match ?x with _ => _ end] => destruct x; try discriminate Heq
  end; injection Heq as ? <-; auto.

Lemma CreateIdentityProvider_frame I a b c d e f g :
  stable I set_identity_providers ->
  preserves I (CreateIdentityProvider a b c d e f g).
Proof. unfold CreateIdentityProvider. stable_query. Qed.

Lemma ConfigureIdentityProvider_frame I a b c d :
  stable I set_identity_providers ->
  preserves I (ConfigureIdentityProvider a b c d).
Proof. unfold ConfigureIdentityProvider. stable_query. Qed.

Lemma RenameIdentityProvider_frame I a b :
  stable I set_identity_providers ->
  preserves I (RenameIdentityProvider a b).
Proof. unfold RenameIdentityProvider. stable_query. Qed.

Lemma EnableIdentityProvider_frame I a :
  stable I set_identity_providers ->
  preserves I (EnableIdentityProvider a).
Proof. unfold EnableIdentityProvider. stable_query. Qed.

Lemma DisableIdentityProvider_frame I a :
  stable I set_identity_providers ->
  preserves I (DisableIdentityProvider a).
Proof. unfold DisableIdentityProvider. stable_query. Qed.

Lemma DeleteIdentityProvider_frame I a :
  stable I set_identity_providers -> stable I set_identity_links ->
  preserves I (DeleteIdentityProvider a).
Proof. unfold DeleteIdentityProvider. stable_query. Qed.

Lemma CreateUser_frame I a b c d :
  stable I set_users ->
  preserves I (CreateUser a b c d).
Proof. unfold CreateUser. stable_query. Qed.

Lemma LinkIdentity_frame I a b c :
  stable I set_identity_links ->
  preserves I (LinkIdentity a b c).
Proof. unfold LinkIdentity. stable_sql. Qed.

Lemma UpdateIdentityUserLogin_frame I a b c d e :
  stable I set_users ->
  preserves I (UpdateIdentityUserLogin a b c d e).
Proof. unfold UpdateIdentityUserLogin. intros. apply preserves_bind; [stable_sql|auto with preserve]. Qed.

Lemma RotateUserSession_frame I a b :
  stable I set_users ->
  preserves I (RotateUserSession a b).
Proof. unfold RotateUserSession. stable_query. Qed.

Lemma RotateUserSessionByID_frame I a :
  stable I set_users ->
  preserves I (RotateUserSessionByID a).
Proof. unfold RotateUserSessionByID. stable_query. Qed.

Lemma BumpSessionsForRole_frame I a :
  stable I set_users ->
  preserves I (BumpSessionsForRole a).
Proof. unfold BumpSessionsForRole. stable_sql. Qed.

Lemma CreateRole_frame I a b c :
  stable I set_roles ->
  preserves I (CreateRole a b c).
Proof. unfold CreateRole. stable_query. Qed.

Lemma RenameRole_frame I a b :
  stable I set_roles ->
  preserves I (RenameRole a b).
Proof. unfold RenameRole. stable_query. Qed.

Lemma SetRoleDescription_frame I a b :
  stable I set_roles ->
  preserves I (SetRoleDescription a b).
Proof. unfold SetRoleDescription. stable_query. Qed.

Lemma TouchRole_frame I a :
  stable I set_roles ->
  preserves I (TouchRole a).
Proof. unfold TouchRole. stable_query. Qed.

Lemma DeleteRole_frame I a :
  stable I set_roles -> stable I set_role_permissions -> stable I set_user_roles ->
  preserves I (DeleteRole a).
Proof. unfold DeleteRole. stable_query. Qed.

Lemma GrantRolePermission_frame I a b :
  stable I set_role_permissions ->
  preserves I (GrantRolePermission a b).
Proof. unfold GrantRolePermission. stable_sql. Qed.

Lemma RevokeRolePermission_frame I a b :
  stable I set_role_permissions ->
  preserves I (RevokeRolePermission a b).
Proof. unfold RevokeRolePermission. stable_sql. Qed.

Lemma AssignInitialRole_frame I a b c :
  stable I set_user_roles ->
  preserves I (AssignInitialRole a b c).
Proof. unfold AssignInitialRole. stable_sql. Qed.

Lemma AssignRoleToUser_frame I a b :
  stable I set_user_roles ->
  preserves I (AssignRoleToUser a b).
Proof. unfold AssignRoleToUser. stable_sql. Qed.

Lemma RevokeRoleFromUser_frame I a b :
  stable I set_user_roles ->
  preserves I (RevokeRoleFromUser a b).
Proof. unfold RevokeRoleFromUser. stable_sql. Qed.

Lemma CreateRegistrationToken_frame I a b c d e :
  stable I set_registration_tokens ->
  preserves I (CreateRegistrationToken a b c d e).
Proof. unfold CreateRegistrationToken. stable_query. Qed.

Lemma ConsumeRegistrationToken_frame I a b :
  stable I set_registration_tokens ->
  preserves I (ConsumeRegistrationToken a b).
Proof. unfold ConsumeRegistrationToken. stable_query. Qed.

Lemma ConsumeFinalRegistrationToken_frame I a b :
  stable I set_registration_tokens ->
  preserves I (ConsumeFinalRegistrationToken a b).
Proof. unfold ConsumeFinalRegistrationToken. intros. apply preserves_bind; [stable_sql|auto with preserve]. Qed.

Lemma RenameRegistrationToken_frame I a b :
  stable I set_registration_tokens ->
  preserves I (RenameRegistrationToken a b).
Proof. unfold RenameRegistrationToken. stable_query. Qed.

Lemma DeleteRegistrationToken_frame I a :
  stable I set_registration_tokens ->
  preserves I (DeleteRegistrationToken a).
Proof. unfold DeleteRegistrationToken. stable_query. Qed.

Lemma CreateDevice_frame I a b c d e f g h :
  stable I set_devices ->
  preserves I (CreateDevice a b c d e f g h).
Proof. unfold CreateDevice. stable_query. Qed.

Lemma SetPendingDeviceCertificate_frame I a b c d e :
  stable I set_devices ->
  preserves I (SetPendingDeviceCertificate a b c d e).
Proof. unfold SetPendingDeviceCertificate. stable_query. Qed.

Lemma PromotePendingDeviceCertificate_frame I a b :
  stable I set_devices ->
  preserves I (PromotePendingDeviceCertificate a b).
Proof. unfold PromotePendingDeviceCertificate. stable_sql. Qed.

Lemma TouchDevice_frame I a b c d :
  stable I set_devices ->
  preserves I (TouchDevice a b c d).
Proof. unfold TouchDevice. stable_query. Qed.

Lemma DeleteDevice_frame I a :
  stable I set_devices -> stable I set_execution_results -> stable I set_device_group_members ->
  preserves I (DeleteDevice a).
Proof. unfold DeleteDevice. stable_query. Qed.

Lemma DeleteAssignmentsForTarget_frame I a b :
  stable I set_assignments ->
  preserves I (DeleteAssignmentsForTarget a b).
Proof. unfold DeleteAssignmentsForTarget. stable_sql. Qed.

Lemma CreateAction_frame I a b c d :
  stable I set_actions ->
  preserves I (CreateAction a b c d).
Proof. unfold CreateAction. stable_query. Qed.

Lemma RenameAction_frame I a b :
  stable I set_actions ->
  preserves I (RenameAction a b).
Proof. unfold RenameAction. stable_query. Qed.

Lemma SetActionDescription_frame I a b :
  stable I set_actions ->
  preserves I (SetActionDescription a b).
Proof. unfold SetActionDescription. stable_query. Qed.

Lemma ConfigureAction_frame I a b :
  stable I set_actions ->
  preserves I (ConfigureAction a b).
Proof. unfold ConfigureAction. stable_query. Qed.

Lemma DeleteAction_frame I a :
  stable I set_actions -> stable I set_execution_results -> stable I set_assignments ->
  preserves I (DeleteAction a).
Proof. unfold DeleteAction. stable_query. Qed.

Lemma CreateDeviceGroup_frame I a b c :
  stable I set_device_groups ->
  preserves I (CreateDeviceGroup a b c).
Proof. unfold CreateDeviceGroup. stable_query. Qed.

Lemma RenameDeviceGroup_frame I a b :
  stable I set_device_groups ->
  preserves I (RenameDeviceGroup a b).
Proof. unfold RenameDeviceGroup. stable_query. Qed.

Lemma SetDeviceGroupDescription_frame I a b :
  stable I set_device_groups ->
  preserves I (SetDeviceGroupDescription a b).
Proof. unfold SetDeviceGroupDescription. stable_query. Qed.

Lemma TouchDeviceGroup_frame I a :
  stable I set_device_groups ->
  preserves I (TouchDeviceGroup a).
Proof. unfold TouchDeviceGroup. stable_query. Qed.

Lemma DeleteDeviceGroup_frame I a :
  stable I set_device_groups -> stable I set_device_group_members ->
  preserves I (DeleteDeviceGroup a).
Proof. unfold DeleteDeviceGroup. stable_query. Qed.

Lemma AddDeviceToGroup_frame I a b :
  stable I set_device_group_members ->
  preserves I (AddDeviceToGroup a b).
Proof. unfold AddDeviceToGroup. stable_sql. Qed.

Lemma RemoveDeviceFromGroup_frame I a b :
  stable I set_device_group_members ->
  preserves I (RemoveDeviceFromGroup a b).
Proof. unfold RemoveDeviceFromGroup. stable_sql. Qed.

Lemma CreateAssignment_frame I a b c d :
  stable I set_assignments ->
  preserves I (CreateAssignment a b c d).
Proof. unfold CreateAssignment. stable_sql. Qed.

Lemma DeleteAssignment_frame I a :
  stable I set_assignments ->
  preserves I (DeleteAssignment a).
Proof. unfold DeleteAssignment. stable_query. Qed.

Lemma CreateExecutionResult_frame I a b c d e :
  stable I set_execution_results ->
  preserves I (CreateExecutionResult a b c d e).
Proof. unfold CreateExecutionResult. stable_sql. Qed.

Lemma CreateAuditEvent_frame I a b c d e f g :
  stable I set_audit_events ->
  preserves I (CreateAuditEvent a b c d e f g).
Proof. unfold CreateAuditEvent. stable_sql. Qed.

#[export] Hint Resolve CreateIdentityProvider_frame ConfigureIdentityProvider_frame RenameIdentityProvider_frame
  EnableIdentityProvider_frame DisableIdentityProvider_frame DeleteIdentityProvider_frame
  CreateUser_frame LinkIdentity_frame UpdateIdentityUserLogin_frame RotateUserSession_frame
  RotateUserSessionByID_frame BumpSessionsForRole_frame CreateRole_frame RenameRole_frame
  SetRoleDescription_frame TouchRole_frame DeleteRole_frame GrantRolePermission_frame
  RevokeRolePermission_frame AssignInitialRole_frame AssignRoleToUser_frame
  RevokeRoleFromUser_frame CreateRegistrationToken_frame ConsumeRegistrationToken_frame
  ConsumeFinalRegistrationToken_frame RenameRegistrationToken_frame
  DeleteRegistrationToken_frame CreateDevice_frame SetPendingDeviceCertificate_frame
  PromotePendingDeviceCertificate_frame TouchDevice_frame DeleteDevice_frame
  DeleteAssignmentsForTarget_frame CreateAction_frame RenameAction_frame
  SetActionDescription_frame ConfigureAction_frame DeleteAction_frame
  CreateDeviceGroup_frame RenameDeviceGroup_frame SetDeviceGroupDescription_frame
  TouchDeviceGroup_frame DeleteDeviceGroup_frame AddDeviceToGroup_frame
  RemoveDeviceFromGroup_frame CreateAssignment_frame DeleteAssignment_frame
  CreateExecutionResult_frame CreateAuditEvent_frame : preserve.
