(* ===== verification/Service.v ===== *)
(** * What the control plane's handlers share
    ([server/internal/core/service.go], [server/internal/auth/context.go])

    The service's configuration, the caller a request context carries, the error
    mapping helpers, the audit log, pagination and the proto mappings.  A handler
    takes the fields of its request message as arguments, runs in [Queries], and
    returns the fields of its response. *)

From S2P Require Import Prelude Engine Pki Proto Schema Queries QueriesFacts QueriesFrame.

Open Scope Z_scope.

(** ** The service and the request context *)

(** The fields of [Service] that are values: the store is the database of the
    run, the clock is [now], the CA and the JWT manager are the parameters of the
    files that use them. *)
Record Service := {
  publicBaseURL : string;
  agentURL : string;
  caFingerprint : string;
  heartbeatInterval : Z;
}.

(** [New], for a configuration whose store, CA and JWT manager are set. *)
Definition New (config : Service) : Service := {|
  publicBaseURL := publicBaseURL config;
  agentURL := agentURL config;
  caFingerprint := caFingerprint config;
  heartbeatInterval :=
    if heartbeatInterval config <=? 0 then 30 * 1000000000 else heartbeatInterval config;
|}.

(** [net/url.URL], what the checks of addresses read of it, and [strings.EqualFold] on
    hosts. *)
Record WebURL := {
  Url_Scheme : string; Url_Opaque : string; Url_Host : string; Url_HasUser : bool; Url_Path : string;
  Url_RawQuery : string; Url_Fragment : string }.

Class WebAddress := { url_Parse : string -> option WebURL; host_EqualFold : string -> string -> bool }.

Record UserContext := {
  UserContext_ID : string;
  UserContext_Email : string;
  UserContext_SessionVersion : Z;
  UserContext_Permissions : list Z;
}.

(** The values the interceptor and the agent middleware put into the
    [context.Context] of a request. *)
Record Context := {
  context_user : option UserContext;
  context_device : option string;
  context_peer : option X509Certificate;
}.

Definition empty_context : Context :=
  {| context_user := None; context_device := None; context_peer := None |}.

Definition WithUser (ctx : Context) (user : UserContext) : Context := {|
  context_user := Some user; context_device := context_device ctx;
  context_peer := context_peer ctx;
|}.

Definition UserFromContext (ctx : Context) : option UserContext := context_user ctx.

Definition WithDeviceID (ctx : Context) (id : string) : Context := {|
  context_user := context_user ctx; context_device := Some id; context_peer := context_peer ctx;
|}.

Definition DeviceIDFromContext (ctx : Context) : option string :=
  match context_device ctx with
  | Some id => if bool_decide (id = EmptyString) then None else Some id
  | None => None
  end.

Definition WithPeerCertificate (ctx : Context) (cert : X509Certificate) : Context := {|
  context_user := context_user ctx; context_device := context_device ctx;
  context_peer := Some cert;
|}.

Definition PeerCertificateFromContext (ctx : Context) : option X509Certificate :=
  context_peer ctx.

Definition PeerSerialFromContext (ctx : Context) : option string :=
  match PeerCertificateFromContext ctx with
  | None => None
  | Some cert =>
      match Cert_SerialNumber cert with
      | None => None
      | Some serial => if serial <? 0 then None else Some (Text16 serial)
      end
  end.

(** ** Errors *)

(** [service.internal]: logs the error and hides it. *)
Definition internal (operation : string) (err : error) : error :=
  ErrConnect CodeInternal "internal error".

Definition rpcNotFound (name : string) : error :=
  ErrConnect CodeNotFound (name ++ " not found").

Definition rpcConflict (name : string) : error :=
  ErrConnect CodeAlreadyExists (name ++ " already exists").

(** [if rows != 1 { return sql.ErrNoRows }]. *)
Definition require_one (rows : Z) : Queries unit :=
  if rows =? 1 then mret tt else fail ErrNoRows.

(** [if store.IsNotFound(err) { return rpcNotFound(name) }; return
    service.internal(op, err)]. *)
Definition not_found_or_internal {A} (name op : string) (err : error) : Queries A :=
  if IsNotFound err then fail (rpcNotFound name) else fail (internal op err).

(** ** Pagination *)

Definition pageSize (requested : Z) : Z := if requested <=? 0 then 50 else requested.

Definition paginate {T} (rows : list T) (limit : Z) (cursor : T -> string) : list T * string :=
  if Z.of_nat (length rows) <=? limit then (rows, EmptyString)
  else
    let rows := take (Z.to_nat limit) rows in
    (rows, match last rows with Some r => cursor r | None => EmptyString end).

(** ** The audit log *)

Definition AUDIT_EVENT_TYPE_USER_SESSIONS_REVOKED : Z := 1.
Definition AUDIT_EVENT_TYPE_EXECUTION_RESULT_RECEIVED : Z := 2.
Definition AUDIT_EVENT_TYPE_DEVICE_CERTIFICATE_RENEWED : Z := 3.
Definition AUDIT_EVENT_TYPE_DEVICE_REGISTERED : Z := 4.
Definition AUDIT_EVENT_TYPE_DEVICE_DELETED : Z := 5.
Definition AUDIT_EVENT_TYPE_ASSIGNMENT_CREATED : Z := 6.
Definition AUDIT_EVENT_TYPE_ASSIGNMENT_DELETED : Z := 7.
Definition AUDIT_EVENT_TYPE_REGISTRATION_TOKEN_CREATED : Z := 8.
Definition AUDIT_EVENT_TYPE_REGISTRATION_TOKEN_UPDATED : Z := 9.
Definition AUDIT_EVENT_TYPE_REGISTRATION_TOKEN_DELETED : Z := 10.
Definition AUDIT_EVENT_TYPE_DEVICE_GROUP_CREATED : Z := 11.
Definition AUDIT_EVENT_TYPE_DEVICE_GROUP_UPDATED : Z := 12.
Definition AUDIT_EVENT_TYPE_DEVICE_GROUP_DELETED : Z := 13.
Definition AUDIT_EVENT_TYPE_DEVICE_GROUP_MEMBER_ADDED : Z := 14.
Definition AUDIT_EVENT_TYPE_DEVICE_GROUP_MEMBER_REMOVED : Z := 15.
Definition AUDIT_EVENT_TYPE_ACTION_CREATED : Z := 16.
Definition AUDIT_EVENT_TYPE_ACTION_UPDATED : Z := 17.
Definition AUDIT_EVENT_TYPE_ACTION_DELETED : Z := 18.
Definition AUDIT_EVENT_TYPE_IDENTITY_PROVIDER_CREATED : Z := 19.

Definition AUDIT_STREAM_TYPE_USER : Z := 1.
Definition AUDIT_STREAM_TYPE_ACTION : Z := 2.
Definition AUDIT_STREAM_TYPE_DEVICE : Z := 3.
Definition AUDIT_STREAM_TYPE_ASSIGNMENT : Z := 4.
Definition AUDIT_STREAM_TYPE_REGISTRATION_TOKEN : Z := 5.
Definition AUDIT_STREAM_TYPE_DEVICE_GROUP : Z := 6.
Definition AUDIT_STREAM_TYPE_IDENTITY_PROVIDER : Z := 7.

Definition AUDIT_ACTOR_TYPE_USER : Z := 1.
Definition AUDIT_ACTOR_TYPE_DEVICE : Z := 2.
Definition AUDIT_ACTOR_TYPE_REGISTRATION_TOKEN : Z := 3.

Definition auditActor (ctx : Context) : Queries string :=
  match UserFromContext ctx with
  | Some user => mret (UserContext_ID user)
  | None => ulid_make
  end.

Definition audit (ctx : Context) (eventType streamType : Z) (streamID : string)
    (actorType : Z) (actorID : string) : Queries unit :=
  actorID ← (if bool_decide (actorID = EmptyString) then auditActor ctx else mret actorID);
  id ← ulid_make;
  at_ ← now;
  CreateAuditEvent id eventType streamType streamID actorType actorID at_.

(** ** Proto mappings *)

Record IdentityProviderMessage := {
  ProviderMessage_Id : string;
  ProviderMessage_Name : string;
  ProviderMessage_Slug : string;
  ProviderMessage_Enabled : bool;
  ProviderMessage_ClientId : string;
  ProviderMessage_IssuerUrl : string;
  ProviderMessage_Scopes : list string;
  ProviderMessage_CreatedAt : Timestamp;
  ProviderMessage_UpdatedAt : Timestamp;
}.

Definition providerProto (provider : IdentityProvider) : IdentityProviderMessage := {|
  ProviderMessage_Id := IdentityProvider_ID provider;
  ProviderMessage_Name := IdentityProvider_Name provider;
  ProviderMessage_Slug := IdentityProvider_Slug provider;
  ProviderMessage_Enabled := IdentityProvider_Enabled provider;
  ProviderMessage_ClientId := IdentityProvider_ClientID provider;
  ProviderMessage_IssuerUrl := IdentityProvider_IssuerUrl provider;
  ProviderMessage_Scopes := IdentityProvider_ScopesJson provider;
  ProviderMessage_CreatedAt := timestamp_new (IdentityProvider_CreatedAt provider);
  ProviderMessage_UpdatedAt := timestamp_new (IdentityProvider_UpdatedAt provider);
|}.

Record RegistrationTokenMessage := {
  TokenMessage_Id : string;
  TokenMessage_Value : string;
  TokenMessage_Name : string;
  TokenMessage_MaxUses : Z;
  TokenMessage_CurrentUses : Z;
  TokenMessage_ExpiresAt : Timestamp;
  TokenMessage_CreatedAt : Timestamp;
}.

(** [registrationTokenProto], with the [Value] the caller sets afterwards (empty
    when it does not). *)
Definition registrationTokenProto (value : string) (token : RegistrationToken)
    : RegistrationTokenMessage := {|
  TokenMessage_Id := RegistrationToken_ID token;
  TokenMessage_Value := value;
  TokenMessage_Name := RegistrationToken_Name token;
  TokenMessage_MaxUses := RegistrationToken_MaxUses token;
  TokenMessage_CurrentUses := RegistrationToken_CurrentUses token;
  TokenMessage_ExpiresAt := timestamp_new (RegistrationToken_ExpiresAt token);
  TokenMessage_CreatedAt := timestamp_new (RegistrationToken_CreatedAt token);
|}.

(** ** Lemmas *)

Lemma pageSize_pos n : 1 <= pageSize n.
Proof. unfold pageSize. destruct (Z.leb_spec n 0); lia. Qed.

Lemma require_one_wf I rows : preserves I (require_one rows).
Proof. unfold require_one. destruct (rows =? 1); auto with preserve. Qed.

Lemma not_found_or_internal_wf {A} I name op err :
  preserves I (not_found_or_internal (A := A) name op err).
Proof. unfold not_found_or_internal. destruct (IsNotFound err); auto with preserve. Qed.

Lemma auditActor_wf I ctx : preserves I (auditActor ctx).
Proof. unfold auditActor, ulid_make. destruct (UserFromContext ctx); auto with preserve. Qed.

Lemma ulid_make_wf (I : Database -> Prop) : preserves I ulid_make.
Proof. apply preserves_draw. Qed.

Lemma now_wf (I : Database -> Prop) : preserves I now.
Proof. apply preserves_draw. Qed.

Lemma rand_read_wf (I : Database -> Prop) n : preserves I (rand_read n).
Proof. apply preserves_draw. Qed.

#[export] Hint Resolve require_one_wf not_found_or_internal_wf auditActor_wf ulid_make_wf now_wf
  rand_read_wf : preserve.

Lemma audit_wf ctx a b c d e : preserves WellFormed (audit ctx a b c d e).
Proof. unfold audit. case_bool_decide; preserve. Qed.

#[export] Hint Resolve audit_wf : preserve.

(** What an audit record leaves alone: everything but the audit log. *)
Definition same_but_audit (d d' : Database) : Prop :=
  d' = set_audit_events (audit_events d') d.

Lemma same_but_audit_refl d : same_but_audit d d.
Proof. by destruct d. Qed.

Lemma CreateAuditEvent_only_logs id a b c e f t d0 :
  preserves (same_but_audit d0) (CreateAuditEvent id a b c e f t).
Proof.
  apply preserves_sql. intros _ d [] d' Hd.
  destruct (negb _); [done|]. destruct (audit_events d !! id); [done|].
  intros [= <-]. unfold same_but_audit in *. simpl. by rewrite Hd.
Qed.

Lemma audit_only_logs ctx a b c e f d0 :
  preserves (same_but_audit d0) (audit ctx a b c e f).
Proof.
  pose proof CreateAuditEvent_only_logs. unfold audit. case_bool_decide; preserve; auto.
Qed.

Lemma fwd_audit P ctx a b c e f :
  triple P (audit ctx a b c e f) (fun _ d' => exists d, P d /\ same_but_audit d d')
    (fun _ _ => True).
Proof.
  intros env w Hw. pose proof (audit_only_logs ctx a b c e f (w_db w) env w) as H.
  destruct (audit _ _ _ _ _ _ env w) as [[[]|err] w']; [|done].
  exists (w_db w). split; [done|]. apply H, same_but_audit_refl.
Qed.

Lemma fwd_CreateAuditEvent P id a b c e f t :
  triple P (CreateAuditEvent id a b c e f t) (fun _ d' => exists d, P d /\ same_but_audit d d')
    (fun _ _ => True).
Proof.
  intros env w Hw. pose proof (CreateAuditEvent_only_logs id a b c e f t (w_db w) env w) as H.
  destruct (CreateAuditEvent _ _ _ _ _ _ _ env w) as [[[]|err] w']; [|done].
  exists (w_db w). split; [done|]. apply H, same_but_audit_refl.
Qed.

Lemma fwd_require_one P n :
  triple P (require_one n) (fun _ d => P d /\ n = 1) (fun _ _ => True).
Proof.
  unfold require_one. destruct (Z.eqb_spec n 1); [by apply triple_ret|by apply triple_fail].
Qed.

(** One step forward, through the shared helpers too. *)
Ltac service_leaf := first [apply fwd_audit | apply fwd_CreateAuditEvent | apply fwd_require_one | fwd_leaf].
Ltac step := eapply triple_bind; [service_leaf|intros ?; cbv beta].
Ltac last_step := eapply triple_conseq; [service_leaf|intros ? HP; exact HP|cbv beta|done].

Lemma audit_frame I ctx a b c e f : stable I set_audit_events -> preserves I (audit ctx a b c e f).
Proof. intros HI. unfold audit. case_bool_decide; preserve. Qed.

#[export] Hint Resolve audit_frame : preserve.
