(* ===== verification/Demo.v ===== *)
(** * A concrete run

    The migrated database is well formed; an environment without faults, with a
    clock that advances a second per effect and distinct ids.  The witnesses of
    the development's theorems are evaluated in this environment. *)

From S2P Require Import Prelude Hash Engine Proto Schema Queries QueriesFacts Service.

From stdpp Require Import pretty.

Open Scope Z_scope.

Lemma initial_permissions t r p : (r, p) ∈ role_permissions (initial_database t) ->
  (r = administratorsRoleID \/ r = usersRoleID) /\ 1 <= p <= 46.
Proof.
  unfold initial_database, set_role_permissions, role_permissions.
  rewrite elem_of_union, elem_of_list_to_set, list_elem_of_fmap, elem_of_singleton.
  intros [(q & [= -> ->] & Hq%elem_of_seqZ)|[= -> ->]]; (split; [by eauto|lia]).
Qed.

Lemma initial_wf t : WellFormed (initial_database t).
Proof.
  split.
  1-5, 7-25: unfold initial_database, set_role_permissions, set_roles, empty_database; cbv beta zeta iota delta
    [identity_providers users roles user_roles identity_links registration_tokens devices actions
     device_groups device_group_members assignments execution_results audit_events].
  all: try solve [unfold keyed, unique; intros; exfalso; match goal with
    | H : ∅ !! _ = Some _ |- _ => by apply lookup_empty_Some in H
    | H : _ ∈ ∅ |- _ => by apply elem_of_empty in H
    end].
  - intros k r. rewrite lookup_insert_Some, lookup_singleton_Some. naive_solver.
  - intros k1 k2 r1 r2. rewrite !lookup_insert_Some, !lookup_singleton_Some.
    intros [[<- <-]|[? [<- <-]]] [[<- <-]|[? [<- <-]]]; naive_solver.
  - intros r p [[-> | ->] ?]%initial_permissions; (split; [by eexists|lia]).
Qed.

#[export] Hint Resolve initial_wf : core.

Definition demo_env : Env := {|
  env_fault _ := false;
  env_now n := 1700000000 * 1000000000 + Z.of_nat n * 1000000000;
  env_sql_now n := 1700000000 * 1000000000 + Z.of_nat n * 1000000000;
  env_ulid n := ("01JULID" ++ pretty n)%string;
  env_rand n := Some (fun i => byte_of_Z (Z.of_nat (17 * n + i) mod 256));
|}.

Lemma demo_quiet : quiet demo_env.
Proof. done. Qed.

Definition demo_initial : Database := initial_database 0.

Definition demo_ctx : Context := WithUser empty_context {|
  UserContext_ID := "01JADMIN"; UserContext_Email := "admin@example.org";
  UserContext_SessionVersion := 1; UserContext_Permissions := seqZ 1 46 |}%string.

(** The run of a program from [d], with [n] effects before it, and the database
    it ends in. *)
Definition run_at {A} (n : nat) (m : Queries A) (d : Database) : result A * Database :=
  let (r, w) := m demo_env (mkWorld d n) in (r, w_db w).

Definition after {A} (n : nat) (m : Queries A) (d : Database) : Database := (run_at n m d).2.

Lemma after_preserves {A} I n (m : Queries A) d : preserves I m -> I d -> I (after n m d).
Proof.
  intros Hm Hd. unfold after, run_at. specialize (Hm demo_env (mkWorld d n) Hd).
  by destruct (m demo_env (mkWorld d n)) as [[a|e] w'].
Qed.
