(* ===== verification/Roles.v ===== *)
(** * Roles, users and sessions ([server/internal/core/roles.go])

    The RPCs that create, change and delete roles, grant and revoke them, and
    revoke a user's sessions.  A change of what a role allows, or of who has it,
    bumps the [session_version] of the users concerned in the same transaction. *)

From S2P Require Import Prelude Engine Proto Schema Queries QueriesFacts Service.

Open Scope Z_scope.

(** ** Messages *)

Record RoleMessage := {
  RoleMessage_Id : string;
  RoleMessage_Name : string;
  RoleMessage_Description : string;
  RoleMessage_Permissions : list Z;
  RoleMessage_CreatedAt : Timestamp;
  RoleMessage_UpdatedAt : Timestamp;
}.

Record UserMessage := {
  UserMessage_Id : string;
  UserMessage_Email : string;
  UserMessage_DisplayName : string;
  UserMessage_CreatedAt : Timestamp;
  UserMessage_LastLoginAt : Timestamp;
  UserMessage_Roles : list RoleMessage;
  UserMessage_Permissions : list Z;
}.

(** PERMISSION_GET_CURRENT_USER to PERMISSION_REVOKE_USER_SESSIONS. *)
Definition allPermissions : list Z := seqZ 1 46.

Definition roleProto (role : Role) : Queries RoleMessage :=
  permissions ← ListRolePermissions (Role_ID role);
  mret {| RoleMessage_Id := Role_ID role; RoleMessage_Name := Role_Name role;
          RoleMessage_Description := Role_Description role;
          RoleMessage_Permissions := permissions;
          RoleMessage_CreatedAt := timestamp_new (Role_CreatedAt role);
          RoleMessage_UpdatedAt := timestamp_new (Role_UpdatedAt role) |}.

Definition userProto (user : User) : Queries UserMessage :=
  roles ← ListUserRoles (User_ID user);
  permissions ← ListUserPermissions (User_ID user);
  values ← map_m roleProto roles;
  mret {| UserMessage_Id := User_ID user; UserMessage_Email := User_Email user;
          UserMessage_DisplayName := User_DisplayName user;
          UserMessage_CreatedAt := timestamp_new (User_CreatedAt user);
          UserMessage_LastLoginAt := timestamp_new (User_LastLoginAt user);
          UserMessage_Roles := values; UserMessage_Permissions := permissions |}.

(** ** Handlers *)

Definition CreateRole (ctx : Context) (name description : string) (permissions : list Z)
    : Queries RoleMessage :=
  id ← ulid_make;
  on_error
    (Transaction (
      role ← Queries.CreateRole id name description;
      _ ← for_each (fun permission =>
            _ ← Queries.GrantRolePermission permission id; mret tt) permissions;
      roleProto role))
    (fun err =>
      if IsConflict err then fail (rpcConflict "role name")
      else fail (internal "set role permissions" err)).

Definition GetRole (ctx : Context) (id : string) : Queries RoleMessage :=
  role ← on_error (Queries.GetRole id) (not_found_or_internal "role" "get role");
  on_error (roleProto role) (fun err => fail (internal "read role permissions" err)).

Definition ListRoles (ctx : Context) (page_size : Z) (page_token : string)
    : Queries (list RoleMessage * string) :=
  let limit := pageSize page_size in
  roles ← on_error (Queries.ListRoles page_token (limit + 1))
            (fun err => fail (internal "list roles" err));
  let '(roles, next) := paginate roles limit Role_ID in
  values ← on_error (map_m roleProto roles)
             (fun err => fail (internal "read role permissions" err));
  mret (values, next).

Definition roleMutation (ctx : Context) (id operation : string) (mutate : Queries Role)
    : Queries RoleMessage :=
  on_error
    (Transaction (
      role ← mutate;
      _ ← BumpSessionsForRole id;
      roleProto role))
    (fun err =>
      if IsNotFound err then fail (rpcNotFound "role")
      else if IsConflict err
      then if bool_decide (operation = "grant role permission"%string)
           then fail (rpcConflict "role permission") else fail (rpcConflict "role name")
      else fail (internal operation err)).

Definition RenameRole (ctx : Context) (id name : string) : Queries RoleMessage :=
  roleMutation ctx id "rename role" (Queries.RenameRole name id).

Definition SetRoleDescription (ctx : Context) (id description : string) : Queries RoleMessage :=
  roleMutation ctx id "set role description" (Queries.SetRoleDescription description id).

Definition GrantRolePermission (ctx : Context) (id : string) (permission : Z)
    : Queries RoleMessage :=
  roleMutation ctx id "grant role permission" (
    _ ← Queries.GrantRolePermission permission id;
    TouchRole id).

Definition RevokeRolePermission (ctx : Context) (id : string) (permission : Z)
    : Queries RoleMessage :=
  roleMutation ctx id "revoke role permission" (
    rows ← Queries.RevokeRolePermission id permission;
    _ ← require_one rows;
    TouchRole id).

Definition DeleteRole (ctx : Context) (id : string) : Queries unit :=
  on_error
    (Transaction (
      _ ← BumpSessionsForRole id;
      rows ← Queries.DeleteRole id;
      require_one rows))
    (not_found_or_internal "role" "delete role").

Definition AssignRoleToUser (ctx : Context) (user_id role_id : string) : Queries unit :=
  on_error
    (Transaction (
      _ ← Queries.AssignRoleToUser user_id role_id;
      _ ← RotateUserSessionByID user_id;
      mret tt))
    (fun err =>
      if IsNotFound err then fail (rpcNotFound "user or role")
      else if IsConflict err then fail (rpcConflict "role assignment")
      else fail (internal "assign role" err)).

Definition RevokeRoleFromUser (ctx : Context) (user_id role_id : string) : Queries unit :=
  on_error
    (Transaction (
      rows ← Queries.RevokeRoleFromUser user_id role_id;
      _ ← require_one rows;
      _ ← RotateUserSessionByID user_id;
      mret tt))
    (not_found_or_internal "user or role assignment" "revoke role").

Definition ListPermissions (ctx : Context) : Queries (list Z) := mret allPermissions.

Definition ListUsers (ctx : Context) (page_size : Z) (page_token : string)
    : Queries (list UserMessage * string) :=
  let limit := pageSize page_size in
  users ← on_error (Queries.ListUsers page_token (limit + 1))
            (fun err => fail (internal "list users" err));
  let '(users, next) := paginate users limit User_ID in
  values ← on_error (map_m userProto users) (fun err => fail (internal "read user roles" err));
  mret (values, next).

Definition RevokeUserSessions (ctx : Context) (user_id : string) : Queries unit :=
  on_error
    (Transaction (
      _ ← RotateUserSessionByID user_id;
      audit ctx AUDIT_EVENT_TYPE_USER_SESSIONS_REVOKED AUDIT_STREAM_TYPE_USER user_id
        AUDIT_ACTOR_TYPE_USER EmptyString))
    (not_found_or_internal "user" "revoke user sessions").

Lemma roleProto_preserves I role : preserves I (roleProto role).
Proof. unfold roleProto. preserve. Qed.

#[export] Hint Resolve roleProto_preserves : preserve.

Lemma userProto_preserves I user : preserves I (userProto user).
Proof. unfold userProto. preserve. Qed.

#[export] Hint Resolve userProto_preserves : preserve.

Lemma roleMutation_preserves ctx id op mutate :
  preserves WellFormed mutate -> preserves WellFormed (roleMutation ctx id op mutate).
Proof. intros H. unfold roleMutation, Transaction. preserve. Qed.

(** ** Invariant and atomicity, handler by handler *)

Lemma CreateRole_preserves ctx name description permissions : preserves WellFormed (CreateRole ctx name description permissions).
Proof. unfold CreateRole, Transaction. preserve. Qed.

Lemma CreateRole_atomic ctx name description permissions : atomic (CreateRole ctx name description permissions).
Proof. unfold CreateRole, Transaction. atomically. Qed.

Lemma GetRole_preserves ctx id : preserves WellFormed (GetRole ctx id).
Proof. unfold GetRole, Transaction. preserve. Qed.

Lemma GetRole_atomic ctx id : atomic (GetRole ctx id).
Proof. unfold GetRole, Transaction. atomically. Qed.

Lemma ListRoles_preserves ctx page_size page_token : preserves WellFormed (ListRoles ctx page_size page_token).
Proof. unfold ListRoles, Transaction. preserve. Qed.

Lemma ListRoles_atomic ctx page_size page_token : atomic (ListRoles ctx page_size page_token).
Proof. unfold ListRoles, Transaction. atomically. Qed.

Lemma RenameRole_preserves ctx id name : preserves WellFormed (RenameRole ctx id name).
Proof. unfold RenameRole. apply roleMutation_preserves. preserve. Qed.

Lemma RenameRole_atomic ctx id name : atomic (RenameRole ctx id name).
Proof. unfold RenameRole, roleMutation, Transaction. atomically. Qed.

Lemma SetRoleDescription_preserves ctx id description : preserves WellFormed (SetRoleDescription ctx id description).
Proof. unfold SetRoleDescription. apply roleMutation_preserves. preserve. Qed.

Lemma SetRoleDescription_atomic ctx id description : atomic (SetRoleDescription ctx id description).
Proof. unfold SetRoleDescription, roleMutation, Transaction. atomically. Qed.

Lemma GrantRolePermission_preserves ctx id permission : preserves WellFormed (GrantRolePermission ctx id permission).
Proof. unfold GrantRolePermission. apply roleMutation_preserves. preserve. Qed.

Lemma GrantRolePermission_atomic ctx id permission : atomic (GrantRolePermission ctx id permission).
Proof. unfold GrantRolePermission, roleMutation, Transaction. atomically. Qed.

Lemma RevokeRolePermission_preserves ctx id permission : preserves WellFormed (RevokeRolePermission ctx id permission).
Proof. unfold RevokeRolePermission. apply roleMutation_preserves. preserve. Qed.

Lemma RevokeRolePermission_atomic ctx id permission : atomic (RevokeRolePermission ctx id permission).
Proof. unfold RevokeRolePermission, roleMutation, Transaction. atomically. Qed.

Lemma DeleteRole_preserves ctx id : preserves WellFormed (DeleteRole ctx id).
Proof. unfold DeleteRole, Transaction. preserve. Qed.

Lemma DeleteRole_atomic ctx id : atomic (DeleteRole ctx id).
Proof. unfold DeleteRole, Transaction. atomically. Qed.

Lemma AssignRoleToUser_preserves ctx user_id role_id : preserves WellFormed (AssignRoleToUser ctx user_id role_id).
Proof. unfold AssignRoleToUser, Transaction. preserve. Qed.

Lemma AssignRoleToUser_atomic ctx user_id role_id : atomic (AssignRoleToUser ctx user_id role_id).
Proof. unfold AssignRoleToUser, Transaction. atomically. Qed.

Lemma RevokeRoleFromUser_preserves ctx user_id role_id : preserves WellFormed (RevokeRoleFromUser ctx user_id role_id).
Proof. unfold RevokeRoleFromUser, Transaction. preserve. Qed.

Lemma RevokeRoleFromUser_atomic ctx user_id role_id : atomic (RevokeRoleFromUser ctx user_id role_id).
Proof. unfold RevokeRoleFromUser, Transaction. atomically. Qed.

Lemma ListPermissions_preserves ctx : preserves WellFormed (ListPermissions ctx).
Proof. unfold ListPermissions, Transaction. preserve. Qed.

Lemma ListPermissions_atomic ctx : atomic (ListPermissions ctx).
Proof. unfold ListPermissions, Transaction. atomically. Qed.

Lemma ListUsers_preserves ctx page_size page_token : preserves WellFormed (ListUsers ctx page_size page_token).
Proof. unfold ListUsers, Transaction. preserve. Qed.

Lemma ListUsers_atomic ctx page_size page_token : atomic (ListUsers ctx page_size page_token).
Proof. unfold ListUsers, Transaction. atomically. Qed.

Lemma RevokeUserSessions_preserves ctx user_id : preserves WellFormed (RevokeUserSessions ctx user_id).
Proof. unfold RevokeUserSessions, Transaction. preserve. Qed.

Lemma RevokeUserSessions_atomic ctx user_id : atomic (RevokeUserSessions ctx user_id).
Proof. unfold RevokeUserSessions, Transaction. atomically. Qed.

#[export] Hint Resolve CreateRole_preserves GetRole_preserves ListRoles_preserves RenameRole_preserves
  SetRoleDescription_preserves GrantRolePermission_preserves RevokeRolePermission_preserves
  DeleteRole_preserves AssignRoleToUser_preserves RevokeRoleFromUser_preserves
  ListPermissions_preserves ListUsers_preserves RevokeUserSessions_preserves : preserve.
#[export] Hint Resolve CreateRole_atomic GetRole_atomic ListRoles_atomic RenameRole_atomic
  SetRoleDescription_atomic GrantRolePermission_atomic RevokeRolePermission_atomic
  DeleteRole_atomic AssignRoleToUser_atomic RevokeRoleFromUser_atomic ListPermissions_atomic
  ListUsers_atomic RevokeUserSessions_atomic : atomic.
