(* ===== verification/Actions.v ===== *)
(** * Managed actions ([server/internal/core/actions.go])

    Actions are stored as marshalled protobuf blobs next to their metadata.
    [validateAction] is the gate every stored action passed; [executableAction]
    is the decoder every reader goes through.  [StoredActions] is the invariant
    that connects them: every stored blob decodes, carries its row's id, and
    satisfies [action_ok]. *)

From S2P Require Import Prelude Engine Proto Schema Queries QueriesFacts QueriesFrame Service.
From S2P Require Import Demo.

Open Scope Z_scope.

(** [validateAction]: its errors are all [errors.New], so a failure is the text. *)
Definition validateAction (desiredState timeoutSeconds : Z) (schedule : option ActionSchedule)
    (packageParams : option PackageActionParams) (updateParams : option unit)
    (shellParams : option ShellActionParams) : string + Action :=
  let action params := {|
    Action_Id := None; Action_DesiredState := desiredState;
    Action_TimeoutSeconds := timeoutSeconds; Action_Schedule := schedule;
    Action_Params := Some params |} in
  match packageParams, updateParams, shellParams with
  | Some package, updateParams, shellParams =>
      if bool_decide (is_Some updateParams) || bool_decide (is_Some shellParams)
      then inl "package action requires package parameters"%string
      else if negb (desiredState =? DESIRED_STATE_PRESENT)
              && negb (desiredState =? DESIRED_STATE_ABSENT)
      then inl "package action requires present or absent desired state"%string
      else inr (action (Action_Package package))
  | None, Some _, shellParams =>
      if bool_decide (is_Some shellParams)
      then inl "update action requires update parameters"%string
      else if negb (desiredState =? DESIRED_STATE_PRESENT)
      then inl "update action requires present desired state"%string
      else inr (action Action_Update)
  | None, None, Some shell =>
      if negb (desiredState =? DESIRED_STATE_PRESENT)
      then inl "shell action requires present desired state"%string
      else if IsCompliance shell && bool_decide (DetectionScript shell = EmptyString)
      then inl "compliance action requires a detection script"%string
      else if bool_decide (Script shell = EmptyString)
              && bool_decide (DetectionScript shell = EmptyString)
      then inl "shell action requires a script or detection script"%string
      else inr (action (Action_Shell shell))
  | None, None, None => inl "action parameters are required"%string
  end.

Definition sameActionKind (left right : Action) : bool :=
  match Action_Params left, Action_Params right with
  | Some (Action_Package _), Some (Action_Package _) => true
  | Some Action_Update, Some Action_Update => true
  | Some (Action_Shell _), Some (Action_Shell _) => true
  | _, _ => false
  end.

(** The [ManagedAction] message. *)
Record ManagedAction := {
  Managed_Id : option string;
  Managed_Name : string;
  Managed_Description : string;
  Managed_DesiredState : Z;
  Managed_TimeoutSeconds : Z;
  Managed_Schedule : option ActionSchedule;
  Managed_Params : ActionParams;
  Managed_CreatedAt : Timestamp;
  Managed_UpdatedAt : Timestamp;
}.

(** What every accepted action satisfies. *)
Definition action_ok (a : Action) : Prop :=
  match Action_Params a with
  | Some (Action_Package _) =>
      Action_DesiredState a = DESIRED_STATE_PRESENT \/ Action_DesiredState a = DESIRED_STATE_ABSENT
  | Some Action_Update => Action_DesiredState a = DESIRED_STATE_PRESENT
  | Some (Action_Shell p) =>
      Action_DesiredState a = DESIRED_STATE_PRESENT /\
      (IsCompliance p = true -> DetectionScript p <> EmptyString) /\
      ~ (Script p = EmptyString /\ DetectionScript p = EmptyString)
  | None => False
  end.

(** The parameters of [a] are the only ones of the request. *)
Definition only_params (a : Action) (package : option PackageActionParams)
    (update : option unit) (shell : option ShellActionParams) : Prop :=
  match Action_Params a with
  | Some (Action_Package x) => package = Some x /\ update = None /\ shell = None
  | Some Action_Update => package = None /\ update = Some tt /\ shell = None
  | Some (Action_Shell x) => package = None /\ update = None /\ shell = Some x
  | None => False
  end.

Lemma bool_decide_is_Some {A} (x : option A) :
  bool_decide (is_Some x) = match x with Some _ => true | None => false end.
Proof. destruct x; [apply bool_decide_true; eauto|apply bool_decide_false; by intros []]. Qed.

Lemma validateAction_iff ds timeout sched package update shell a :
  validateAction ds timeout sched package update shell = inr a <->
  Action_Id a = None /\ Action_DesiredState a = ds /\ Action_TimeoutSeconds a = timeout /\
  Action_Schedule a = sched /\ action_ok a /\ only_params a package update shell.
Proof.
  unfold validateAction, action_ok, only_params. rewrite !bool_decide_is_Some.
  destruct (Z.eqb_spec ds DESIRED_STATE_PRESENT) as [->|Hp].
  all: try (destruct (Z.eqb_spec ds DESIRED_STATE_ABSENT) as [->|Ha]).
  all: destruct package as [pk|], update as [[]|], shell as [sh|]; simpl.
  all: destruct a as [id ds' to' sc' [[p| |p]|]]; simpl.
  all: try (case_bool_decide as Hd); try (case_bool_decide as Hs); try destruct (IsCompliance sh) eqn:Hc; simpl.
  all: split; [intros Heq; simplify_eq|intros (? & ? & ? & ? & ? & ?); simplify_eq; try intuition congruence].
  all: try (intuition congruence).
  all: intuition (try congruence); exfalso; simplify_eq; eauto.
Qed.

(** What [validateAction] accepts, and what it makes of it: exactly a request
    with the parameters of one kind, a desired state that kind allows, and for a
    shell action something to run, with a detection script if it is a compliance
    check; the action has the request's fields and no id. *)
Theorem validateAction_exact ds timeout sched package update shell a :
  validateAction ds timeout sched package update shell = inr a <->
  Action_Id a = None /\ Action_DesiredState a = ds /\ Action_TimeoutSeconds a = timeout /\
  Action_Schedule a = sched /\ action_ok a /\ only_params a package update shell.
Proof. apply validateAction_iff. Qed.



Section actions.
  Context `{ProtoCodec Action}.

  (** Reads the blob of a row, given its id and blob. *)
Definition executableAction (id : string) (blob : bytes) : result Action :=
  match proto_Unmarshal blob with
  | Err e => Err e
  | Ok result =>
      if bool_decide (GetValue (Action_Id result) = id) then Ok result
      else Err (ErrNew "stored action metadata does not match action blob")
  end.

Definition actionProto (action : ActionRow) : result ManagedAction :=
  match executableAction (ActionRow_ID action) (ActionRow_ActionBlob action) with
  | Err e => Err e
  | Ok executable =>
      match Action_Params executable with
      | None => Err (ErrNew "stored action parameters are missing")
      | Some params => Ok {|
          Managed_Id := Action_Id executable; Managed_Name := ActionRow_Name action;
          Managed_Description := ActionRow_Description action;
          Managed_DesiredState := Action_DesiredState executable;
          Managed_TimeoutSeconds := Action_TimeoutSeconds executable;
          Managed_Schedule := Action_Schedule executable; Managed_Params := params;
          Managed_CreatedAt := timestamp_new (ActionRow_CreatedAt action);
          Managed_UpdatedAt := timestamp_new (ActionRow_UpdatedAt action) |}
      end
  end.

(** The request fields that describe the action, the same in CreateAction and
    ConfigureAction. *)
Record ActionRequest := {
  Req_DesiredState : Z;
  Req_TimeoutSeconds : Z;
  Req_Schedule : option ActionSchedule;
  Req_Package : option PackageActionParams;
  Req_Update : option unit;
  Req_Shell : option ShellActionParams;
}.

Definition validateRequest (request : ActionRequest) : string + Action :=
  validateAction (Req_DesiredState request) (Req_TimeoutSeconds request) (Req_Schedule request)
    (Req_Package request) (Req_Update request) (Req_Shell request).

(** The id and the blob of a new row. *)
Definition createActionParams (action : Action) : Queries (string * bytes) :=
  id ← ulid_make;
  blob ← lift (proto_Marshal (with_action_id id action));
  mret (id, blob).

Definition CreateAction (ctx : Context) (name description : string) (request : ActionRequest)
    : Queries ManagedAction :=
  match validateRequest request with
  | inl msg => fail (ErrConnect CodeInvalidArgument msg)
  | inr actionValue =>
      params ← on_error (createActionParams actionValue)
                 (fun err => fail (internal "encode action" err));
      on_error
        (Transaction (
          action ← Queries.CreateAction params.1 name description params.2;
          _ ← audit ctx AUDIT_EVENT_TYPE_ACTION_CREATED AUDIT_STREAM_TYPE_ACTION
                (ActionRow_ID action) AUDIT_ACTOR_TYPE_USER EmptyString;
          lift (actionProto action)))
        (fun err =>
          if IsConflict err then fail (rpcConflict "action")
          else fail (internal "create action" err))
  end.

Definition GetAction (ctx : Context) (id : string) : Queries ManagedAction :=
  action ← on_error (Queries.GetAction id) (not_found_or_internal "action" "get action");
  on_error (lift (actionProto action)) (fun err => fail (internal "map action" err)).

(** The response's [Actions], [TotalCount] and [NextPageToken]. *)
Definition ListActions (ctx : Context) (page_size : Z) (page_token : string)
    : Queries (list ManagedAction * Z * string) :=
  let limit := pageSize page_size in
  actions ← on_error (Queries.ListActions page_token (limit + 1))
              (fun err => fail (internal "list actions" err));
  total ← on_error CountActions (fun err => fail (internal "count actions" err));
  let '(actions, next) := paginate actions limit ActionRow_ID in
  mapped ← on_error (map_m (fun a => lift (actionProto a)) actions)
             (fun err => fail (internal "map action" err));
  mret (mapped, int32 total, next).

Definition actionMutation (ctx : Context) (id operation : string) (mutate : Queries ActionRow)
    : Queries ManagedAction :=
  on_error
    (Transaction (
      action ← mutate;
      _ ← audit ctx AUDIT_EVENT_TYPE_ACTION_UPDATED AUDIT_STREAM_TYPE_ACTION id
            AUDIT_ACTOR_TYPE_USER EmptyString;
      lift (actionProto action)))
    (fun err =>
      match as_connect err with
      | Some (c, msg) => fail (ErrConnect c msg)
      | None =>
          if IsNotFound err then fail (rpcNotFound "action")
          else if IsConflict err then fail (rpcConflict "action")
          else fail (internal operation err)
      end).

Definition RenameAction (ctx : Context) (id name : string) : Queries ManagedAction :=
  actionMutation ctx id "rename action" (Queries.RenameAction name id).

Definition SetActionDescription (ctx : Context) (id description : string) : Queries ManagedAction :=
  actionMutation ctx id "set action description" (Queries.SetActionDescription description id).

Definition ConfigureAction (ctx : Context) (id : string) (request : ActionRequest)
    : Queries ManagedAction :=
  match validateRequest request with
  | inl msg => fail (ErrConnect CodeInvalidArgument msg)
  | inr actionValue =>
      actionMutation ctx id "configure action" (
        current ← Queries.GetAction id;
        stored ← lift (executableAction (ActionRow_ID current) (ActionRow_ActionBlob current));
        if negb (sameActionKind stored actionValue)
        then fail (ErrConnect CodeInvalidArgument "action kind cannot change")
        else
          blob ← lift (proto_Marshal (with_action_id (ActionRow_ID current) actionValue));
          Queries.ConfigureAction blob (ActionRow_ID current))
  end.

Definition DeleteAction (ctx : Context) (id : string) : Queries unit :=
  on_error
    (Transaction (
      rows ← Queries.DeleteAction id;
      _ ← require_one rows;
      audit ctx AUDIT_EVENT_TYPE_ACTION_DELETED AUDIT_STREAM_TYPE_ACTION id
        AUDIT_ACTOR_TYPE_USER EmptyString))
    (not_found_or_internal "action" "delete action").

Lemma createActionParams_preserves I action : preserves I (createActionParams action).
Proof. unfold createActionParams, ulid_make. preserve. Qed.

Hint Resolve createActionParams_preserves : preserve.

Lemma actionMutation_preserves ctx id op mutate :
  preserves WellFormed mutate -> preserves WellFormed (actionMutation ctx id op mutate).
Proof. intros Hm. unfold actionMutation, Transaction. preserve. Qed.

(** ** Invariant and atomicity, handler by handler *)

Lemma CreateAction_preserves ctx name description request : preserves WellFormed (CreateAction ctx name description request).
Proof. unfold CreateAction. destruct (validateRequest request) as [|v]; unfold Transaction; preserve. Qed.

Lemma CreateAction_atomic ctx name description request : atomic (CreateAction ctx name description request).
Proof. unfold CreateAction, Transaction. atomically. Qed.

Lemma GetAction_preserves ctx id : preserves WellFormed (GetAction ctx id).
Proof. unfold GetAction, Transaction. preserve. Qed.

Lemma GetAction_atomic ctx id : atomic (GetAction ctx id).
Proof. unfold GetAction, Transaction. atomically. Qed.

Lemma ListActions_preserves ctx page_size page_token : preserves WellFormed (ListActions ctx page_size page_token).
Proof. unfold ListActions, Transaction. preserve. Qed.

Lemma ListActions_atomic ctx page_size page_token : atomic (ListActions ctx page_size page_token).
Proof. unfold ListActions, Transaction. atomically. Qed.

Lemma RenameAction_preserves ctx id name : preserves WellFormed (RenameAction ctx id name).
Proof. unfold RenameAction. apply actionMutation_preserves. preserve. Qed.

Lemma RenameAction_atomic ctx id name : atomic (RenameAction ctx id name).
Proof. unfold RenameAction, actionMutation, Transaction. atomically. Qed.

Lemma SetActionDescription_preserves ctx id description : preserves WellFormed (SetActionDescription ctx id description).
Proof. unfold SetActionDescription. apply actionMutation_preserves. preserve. Qed.

Lemma SetActionDescription_atomic ctx id description : atomic (SetActionDescription ctx id description).
Proof. unfold SetActionDescription, actionMutation, Transaction. atomically. Qed.

Lemma ConfigureAction_preserves ctx id request : preserves WellFormed (ConfigureAction ctx id request).
Proof. unfold ConfigureAction. destruct (validateRequest request); [preserve|]. apply actionMutation_preserves. preserve. Qed.

Lemma ConfigureAction_atomic ctx id request : atomic (ConfigureAction ctx id request).
Proof. unfold ConfigureAction, actionMutation, Transaction. atomically. Qed.

Lemma DeleteAction_preserves ctx id : preserves WellFormed (DeleteAction ctx id).
Proof. unfold DeleteAction, Transaction. preserve. Qed.

Lemma DeleteAction_atomic ctx id : atomic (DeleteAction ctx id).
Proof. unfold DeleteAction, Transaction. atomically. Qed.

(** ** Stored actions *)

(** Every stored blob decodes to an acceptable action that carries its row's
    id. *)
Definition StoredActions (d : Database) : Prop :=
  forall k r, actions d !! k = Some r ->
    exists a, unmarshal (ActionRow_ActionBlob r) = Some a /\ Action_Id a = Some k /\ action_ok a.

Lemma validateRequest_ok req a : validateRequest req = inr a -> action_ok a.
Proof. unfold validateRequest. rewrite validateAction_iff. tauto. Qed.

Lemma action_ok_with_id id a : action_ok a -> action_ok (with_action_id id a).
Proof. done. Qed.

Lemma initial_stored t : StoredActions (initial_database t).
Proof.
  intros k r Hl. change (actions (initial_database t)) with (∅ : gmap string ActionRow) in Hl.
  by apply lookup_empty_Some in Hl.
Qed.

Context `{!ProtoLaws Action}.

Lemma stored_insert d k r a :
  StoredActions d -> unmarshal (ActionRow_ActionBlob r) = Some a -> Action_Id a = Some k ->
  action_ok a -> StoredActions (set_actions (<[k := r]> (actions d)) d).
Proof.
  intros Hd Hr Hid Hok k' r'. simpl. rewrite lookup_insert_Some. intros [[<- <-]|[_ Hl]]; eauto.
Qed.

Lemma stored_update d k r r' :
  StoredActions d -> actions d !! k = Some r -> ActionRow_ActionBlob r' = ActionRow_ActionBlob r ->
  StoredActions (set_actions (<[k := r']> (actions d)) d).
Proof.
  intros Hd Hl Hb. destruct (Hd _ _ Hl) as (a & Hu & Hid & Hok).
  eapply stored_insert; [done| |done|done]. by rewrite Hb.
Qed.

Lemma RenameAction_stored a b : preserves StoredActions (Queries.RenameAction a b).
Proof. apply preserves_update_row. intros t d r Hd Hl _. by eapply stored_update. Qed.

Lemma SetActionDescription_stored a b : preserves StoredActions (Queries.SetActionDescription a b).
Proof. apply preserves_update_row. intros t d r Hd Hl _. by eapply stored_update. Qed.

Lemma DeleteAction_stored a : preserves StoredActions (Queries.DeleteAction a).
Proof.
  apply preserves_delete_row. intros d r Hd _ k r'. simpl.
  intros [_ Hl]%lookup_delete_Some. eauto.
Qed.

Lemma CreateAction_stored id name desc blob a :
  unmarshal blob = Some a -> Action_Id a = Some id -> action_ok a ->
  preserves StoredActions (Queries.CreateAction id name desc blob).
Proof.
  intros Hu Hid Hok. apply preserves_insert_row. intros t d Hd _ _. by eapply stored_insert.
Qed.

Lemma ConfigureAction_stored id blob a :
  unmarshal blob = Some a -> Action_Id a = Some id -> action_ok a ->
  preserves StoredActions (Queries.ConfigureAction blob id).
Proof.
  intros Hu Hid Hok. apply preserves_update_row. intros t d r Hd _ _. by eapply stored_insert.
Qed.

Hint Resolve RenameAction_stored SetActionDescription_stored DeleteAction_stored : preserve.

Lemma actionMutation_stored ctx id op mutate :
  preserves StoredActions mutate -> preserves StoredActions (actionMutation ctx id op mutate).
Proof. intros Hm. unfold actionMutation, Transaction. preserve. Qed.

Lemma createActionParams_ok v : action_ok v ->
  triple StoredActions (createActionParams v)
    (fun p d => (exists x, unmarshal p.2 = Some x /\ Action_Id x = Some p.1 /\ action_ok x) /\
                StoredActions d)
    (fun _ => StoredActions).
Proof.
  intros Hv. eapply triple_bind; [apply preserves_draw|]. intros id.
  eapply (triple_bind _ _ _ (fun blob d =>
    proto_Marshal (with_action_id id v) = Ok blob /\ StoredActions d)); [by apply triple_lift|].
  intros blob. apply triple_ret. intros d [Hm%proto_Marshal_ok Hd]. split; [|done].
  exists (with_action_id id v). split; [by apply unmarshal_marshal|done].
Qed.

Lemma CreateAction_preserves_stored ctx name description request :
  preserves StoredActions (CreateAction ctx name description request).
Proof.
  unfold CreateAction. destruct (validateRequest request) as [|v] eqn:Hv; [preserve|].
  apply validateRequest_ok in Hv.
  apply (preserves_bind_val (fun p =>
    exists x, unmarshal p.2 = Some x /\ Action_Id x = Some p.1 /\ action_ok x)).
  - apply triple_on_error with (E' := fun _ => StoredActions); [|intros e; by apply triple_fail].
    by apply createActionParams_ok.
  - intros [id blob] (x & Hu & Hid & Hok). simpl. unfold Transaction.
    pose proof (CreateAction_stored id name description blob x Hu Hid Hok). preserve; auto.
Qed.

Lemma RenameAction_preserves_stored ctx id name : preserves StoredActions (RenameAction ctx id name).
Proof. apply actionMutation_stored. preserve. Qed.

Lemma SetActionDescription_preserves_stored ctx id description :
  preserves StoredActions (SetActionDescription ctx id description).
Proof. apply actionMutation_stored. preserve. Qed.

Lemma ConfigureAction_preserves_stored ctx id request :
  preserves StoredActions (ConfigureAction ctx id request).
Proof.
  unfold ConfigureAction. destruct (validateRequest request) as [|v] eqn:Hv; [preserve|].
  apply validateRequest_ok in Hv. apply actionMutation_stored. preserve.
  match goal with Hm : proto_Marshal _ = Ok _ |- _ => apply proto_Marshal_ok in Hm end.
  eapply ConfigureAction_stored; [by apply unmarshal_marshal|done|done].
Qed.

Lemma DeleteAction_preserves_stored ctx id : preserves StoredActions (DeleteAction ctx id).
Proof. unfold DeleteAction, Transaction. preserve. Qed.

(** ** Reconfiguring an action *)

(** The row [id] gets the blob of [a] and nothing else changes. *)
Definition reconfigured (id : string) (a : Action) (d d' : Database) : Prop :=
  exists r r', actions d !! id = Some r /\ actions d' = <[id := r']> (actions d) /\
    ActionRow_ID r' = ActionRow_ID r /\ ActionRow_Name r' = ActionRow_Name r /\
    ActionRow_Description r' = ActionRow_Description r /\
    unmarshal (ActionRow_ActionBlob r') = Some (with_action_id id a) /\
    exists a0, unmarshal (ActionRow_ActionBlob r) = Some a0 /\ sameActionKind a0 a = true.

Lemma actionMutation_triple ctx id op mutate P Q (E : error -> Database -> Prop) :
  triple P mutate Q (fun _ _ => True) ->
  (forall e d, P d -> E e d) ->
  triple P (actionMutation ctx id op mutate)
    (fun m d' => exists r d, Q r d /\ same_but_audit d d' /\ actionProto r = Ok m) E.
Proof.
  intros Hm HE. unfold actionMutation, Transaction. apply triple_handler.
  - eapply triple_bind; [apply Hm|]. intros r. step. last_step.
    intros m d' [(d & HQ & Ha) Hp]. eauto.
  - intros e. destruct (as_connect e) as [[c msg]|]; [apply triple_fail; eauto|].
    destruct (IsNotFound e); [|destruct (IsConflict e)]; apply triple_fail; eauto.
Qed.

Lemma ConfigureAction_mutate id v d0 :
  StoredActions d0 -> WellFormed d0 ->
  triple (fun d => d = d0)
    (current ← Queries.GetAction id;
     stored ← lift (executableAction (ActionRow_ID current) (ActionRow_ActionBlob current));
     if negb (sameActionKind stored v)
     then fail (ErrConnect CodeInvalidArgument "action kind cannot change")
     else
       blob ← lift (proto_Marshal (with_action_id (ActionRow_ID current) v));
       Queries.ConfigureAction blob (ActionRow_ID current))
    (fun _ d => reconfigured id v d0 d) (fun _ _ => True).
Proof.
  intros Hst Hwf. step. step.
  match goal with |- context [sameActionKind ?x v] => rename x into stored end.
  destruct (sameActionKind stored v) eqn:Hk; simpl; [|by apply triple_fail].
  step. last_step. intros _ d (t & d1 & r & [[[-> Hl] Hex] Hm%proto_Marshal_ok] & Hl' & _ & _ & -> & ->).
  rewrite (wf_actions d0 Hwf _ _ Hl) in *. rewrite Hl in Hl'. injection Hl' as <-.
  eexists _, _. split_and!; [done..|simpl; by apply unmarshal_marshal|]. exists stored.
  unfold executableAction, proto_Unmarshal in Hex.
  destruct (unmarshal _) as [a'|]; [|done]. by case_bool_decide; simplify_eq.
Qed.

(** [ConfigureAction] replaces exactly the definition of the action it names.
    When it succeeds, the row's blob decodes to the request's action under the
    row's id, the old action was of the same kind, name, description and every
    other action are unchanged; when it fails, nothing changed. *)
Theorem ConfigureAction_replaces ctx id req d0 :
  StoredActions d0 -> WellFormed d0 ->
  triple (fun d => d = d0) (ConfigureAction ctx id req)
    (fun _ d => exists v, validateRequest req = inr v /\ reconfigured id v d0 d)
    (fun _ d => d = d0).
Proof.
  intros Hst Hwf. unfold ConfigureAction. destruct (validateRequest req) as [|v]; [apply triple_fail; eauto|].
  eapply (triple_conseq _ _ _ _ _ _ (fun _ d => d = d0));
    [apply actionMutation_triple; [by apply ConfigureAction_mutate|done]|done| |done].
  intros m d (r & d1 & Hr & Ha & _). exists v. split; [done|].
  unfold same_but_audit in Ha. rewrite Ha. done.
Qed.
End actions.

#[export] Hint Resolve CreateAction_preserves GetAction_preserves ListActions_preserves RenameAction_preserves
  SetActionDescription_preserves ConfigureAction_preserves DeleteAction_preserves
  actionMutation_preserves createActionParams_preserves RenameAction_stored SetActionDescription_stored
  DeleteAction_stored CreateAction_preserves_stored RenameAction_preserves_stored
  SetActionDescription_preserves_stored ConfigureAction_preserves_stored
  DeleteAction_preserves_stored : preserve.
#[export] Hint Resolve CreateAction_atomic GetAction_atomic ListActions_atomic RenameAction_atomic
  SetActionDescription_atomic ConfigureAction_atomic DeleteAction_atomic : atomic.

(** ** An example *)

#[local] Existing Instance example_codec.
#[local] Existing Instance example_codec_laws.

Definition demo_package (version : string) : ActionRequest := {|
  Req_DesiredState := 1; Req_TimeoutSeconds := 60; Req_Schedule := None;
  Req_Package := Some {| pkg_Name := "vim"; pkg_Version := version |};
  Req_Update := None; Req_Shell := None;
|}%string.

Definition demo_actions : Database :=
  after 0 (CreateAction demo_ctx "editor" "an editor" (demo_package "9.0")) demo_initial.

Lemma demo_actions_stored : StoredActions demo_actions.
Proof.
  apply (after_preserves StoredActions); [apply CreateAction_preserves_stored|apply initial_stored].
Qed.

Lemma demo_actions_wf : WellFormed demo_actions.
Proof.
  apply (after_preserves WellFormed); [apply CreateAction_preserves|apply initial_wf].
Qed.

Lemma ConfigureAction_replaces_witness :
  triple (fun d => d = demo_actions) (ConfigureAction demo_ctx "01JULID0" (demo_package "9.1"))
    (fun _ d => exists v, validateRequest (demo_package "9.1") = inr v /\
       reconfigured "01JULID0" v demo_actions d)
    (fun _ d => d = demo_actions) /\
  bool_decide
    (ActionRow_ActionBlob <$>
       actions (after 100 (ConfigureAction demo_ctx "01JULID0" (demo_package "9.1")) demo_actions)
         !! "01JULID0"%string
     = ActionRow_ActionBlob <$> actions demo_actions !! "01JULID0"%string) = false.
Proof.
  split; [apply ConfigureAction_replaces; [apply demo_actions_stored|apply demo_actions_wf]|].
  vm_compute. reflexivity.
Defined.
