(* ===== verification/Assignments.v ===== *)
(** * Assignments, compliance, execution results and the audit log
    ([server/internal/core/assignments.go])

    Which actions a device runs, what their latest results say about its
    compliance, and the paged views of the results and of the audit log. *)

From Stdlib Require Import Ascii.
From S2P Require Import Prelude Hash Base64 Engine Proto Schema Queries QueriesFacts QueriesFrame.
From S2P Require Import Service Demo Actions.

Open Scope Z_scope.

(** ** Messages *)

Record AssignmentMessage := {
  AssignmentMessage_Id : string;
  AssignmentMessage_ActionId : string;
  AssignmentMessage_ActionName : string;
  AssignmentMessage_TargetType : Z;
  AssignmentMessage_TargetId : string;
  AssignmentMessage_TargetName : string;
  AssignmentMessage_CreatedAt : Timestamp;
}.

Definition assignmentProto (assignment : ListAssignmentsRow) : AssignmentMessage :=
  let a := Row_Assignment assignment in {|
  AssignmentMessage_Id := Assignment_ID a;
  AssignmentMessage_ActionId := Assignment_ActionID a;
  AssignmentMessage_ActionName := Row_ActionName assignment;
  AssignmentMessage_TargetType := Assignment_TargetType a;
  AssignmentMessage_TargetId := Assignment_TargetID a;
  AssignmentMessage_TargetName := Row_TargetName assignment;
  AssignmentMessage_CreatedAt := timestamp_new (Assignment_CreatedAt a);
|}.

Record ComplianceCheckResult := {
  Check_ActionId : string;
  Check_ActionName : string;
  Check_Status : ComplianceStatus;
  Check_DetectionOutput : option CommandOutput;
  Check_CheckedAt : option Timestamp;
}.

Record ExecutionResultMessage := {
  ResultMessage_RunId : option string;
  ResultMessage_ActionId : option string;
  ResultMessage_ActionName : string;
  ResultMessage_Status : Z;
  ResultMessage_Output : option CommandOutput;
  ResultMessage_CompletedAt : option Timestamp;
  ResultMessage_ComplianceStatus : ComplianceStatus;
  ResultMessage_DetectionOutput : option CommandOutput;
}.

Record AuditEventMessage := {
  EventMessage_Id : string;
  EventMessage_EventType : Z;
  EventMessage_StreamType : Z;
  EventMessage_StreamId : string;
  EventMessage_ActorType : Z;
  EventMessage_ActorId : string;
  EventMessage_OccurredAt : Timestamp;
}.

Definition auditEventProto (event : AuditEvent) : AuditEventMessage := {|
  EventMessage_Id := AuditEvent_ID event;
  EventMessage_EventType := AuditEvent_EventType event;
  EventMessage_StreamType := AuditEvent_StreamType event;
  EventMessage_StreamId := AuditEvent_StreamID event;
  EventMessage_ActorType := AuditEvent_ActorType event;
  EventMessage_ActorId := AuditEvent_ActorID event;
  EventMessage_OccurredAt := timestamp_new (AuditEvent_OccurredAt event);
|}.

(** ** Assignments *)

(** The name of the target; an assignment to a missing target is refused here,
    the schema cannot. *)
Definition assignmentTargetName (targetType : Z) (targetID : string) : Queries string :=
  if targetType =? ASSIGNMENT_TARGET_TYPE_DEVICE then
    device ← on_error (Queries.GetDevice targetID)
      (not_found_or_internal "device" "get assignment device");
    mret (Device_Hostname device)
  else if targetType =? ASSIGNMENT_TARGET_TYPE_DEVICE_GROUP then
    group ← on_error (Queries.GetDeviceGroup targetID)
      (not_found_or_internal "device group" "get assignment device group");
    mret (DeviceGroup_Name (Row_Group group))
  else fail (ErrConnect CodeInvalidArgument "unsupported assignment target type").

Definition CreateAssignment (ctx : Context) (actionID : string) (targetType : Z)
    (targetID : string) : Queries AssignmentMessage :=
  on_error
    (Transaction (
      action ← on_error (Queries.GetAction actionID) (fun err =>
        if IsNotFound err then fail (rpcNotFound "action")
        else fail (ErrWrap "get assignment action" err));
      targetName ← assignmentTargetName targetType targetID;
      id ← ulid_make;
      assignment ← Queries.CreateAssignment id actionID targetType targetID;
      _ ← audit ctx AUDIT_EVENT_TYPE_ASSIGNMENT_CREATED AUDIT_STREAM_TYPE_ASSIGNMENT
            (Assignment_ID assignment) AUDIT_ACTOR_TYPE_USER EmptyString;
      mret (assignmentProto {| Row_Assignment := assignment;
              Row_ActionName := ActionRow_Name action; Row_TargetName := targetName |})))
    (fun err =>
      match as_connect err with
      | Some (c, msg) => fail (ErrConnect c msg)
      | None =>
          if IsConflict err then fail (rpcConflict "assignment")
          else fail (internal "create assignment" err)
      end).

Definition DeleteAssignment (ctx : Context) (id : string) : Queries unit :=
  on_error
    (Transaction (
      rows ← Queries.DeleteAssignment id;
      _ ← require_one rows;
      audit ctx AUDIT_EVENT_TYPE_ASSIGNMENT_DELETED AUDIT_STREAM_TYPE_ASSIGNMENT id
        AUDIT_ACTOR_TYPE_USER EmptyString))
    (not_found_or_internal "assignment" "delete assignment").

Definition ListAssignments (ctx : Context) (actionID : string) (targetType : Z) (targetID : string)
    : Queries (list AssignmentMessage) :=
  assignments ← on_error (Queries.ListAssignments actionID targetType targetID)
    (fun err => fail (internal "list assignments" err));
  mret (assignmentProto <$> assignments).

(** ** Compliance *)

Definition isComplianceAction (action : Action) : bool :=
  match Action_Params action with
  | Some (Action_Shell shell) => IsCompliance shell
  | _ => false
  end.

Record deviceComplianceSummary := {
  summary_status : ComplianceStatus;
  summary_passing : Z;
  summary_checks : list ComplianceCheckResult;
}.

Section compliance.
  Context `{ProtoCodec Action, ProtoCodec ActionResult, DeterministicMarshal}.

Definition GetDeviceAssignments (ctx : Context) (deviceID : string) : Queries (list ManagedAction) :=
  _ ← on_error (Queries.GetDevice deviceID)
        (not_found_or_internal "device" "get assignment device");
  actions ← on_error (ListActionsForDevice deviceID deviceID)
    (fun err => fail (internal "list device actions" err));
  on_error (map_m (fun a => lift (actionProto a)) actions)
    (fun err => fail (internal "map assigned action" err)).

Definition executionResultProto (runID actionID : string) (completedAt : time) (resultBlob : bytes)
    : result ActionResult :=
  result ← proto_Unmarshal resultBlob;
  if negb (bool_decide (GetValue (Result_RunId result) = runID))
     || negb (bool_decide (GetValue (Result_ActionId result) = actionID))
     || match Result_CompletedAt result with
        | None => true
        | Some ts => negb (AsTime ts =? completedAt)
        end
  then Err (ErrNew "stored execution result metadata does not match result blob")
  else Ok result.

(** What a result says about a compliance action.  A result of another version
    of the action (its digest differs) says nothing. *)
Definition complianceStatus (action : Action) (result : option ActionResult)
    : Engine.result ComplianceStatus :=
  if negb (isComplianceAction action) then Ok COMPLIANCE_STATUS_UNSPECIFIED
  else match result with
  | None => Ok COMPLIANCE_STATUS_PENDING
  | Some result =>
      digest ← ActionDigest (Some action);
      if negb (bool_decide (digest = Result_ActionDigest result))
      then Ok COMPLIANCE_STATUS_PENDING
      else if (Result_Status result =? EXECUTION_STATUS_SUCCESS)
              && match Result_DetectionOutput result with
                 | Some output => ExitCode output =? 0
                 | None => false
                 end
      then Ok COMPLIANCE_STATUS_COMPLIANT
      else Ok COMPLIANCE_STATUS_NON_COMPLIANT
  end.

(** The status of the device so far, and of one more check. *)
Definition combine_status (status check : ComplianceStatus) : ComplianceStatus :=
  match check with
  | COMPLIANCE_STATUS_NON_COMPLIANT => check
  | COMPLIANCE_STATUS_PENDING =>
      match status with COMPLIANCE_STATUS_NON_COMPLIANT => status | _ => check end
  | COMPLIANCE_STATUS_COMPLIANT =>
      match status with COMPLIANCE_STATUS_UNSPECIFIED => check | _ => status end
  | COMPLIANCE_STATUS_UNSPECIFIED => status
  end.

(** The check of one row: [None] when its action is not a compliance action. *)
Definition complianceCheck (row : ListComplianceResultsRow)
    : Engine.result (option ComplianceCheckResult) :=
  action ← executableAction (Compliance_ActionID row) (Compliance_ActionBlob row);
  if negb (isComplianceAction action) then Ok None
  else
    result ← match Compliance_Latest row with
             | None => Ok None
             | Some r =>
                 result ← executionResultProto (ExecutionResult_RunID r) (Compliance_ActionID row)
                            (ExecutionResult_CompletedAt r) (ExecutionResult_ResultBlob r);
                 Ok (Some result)
             end;
    checkStatus ← complianceStatus action result;
    Ok (Some {| Check_ActionId := Compliance_ActionID row;
                Check_ActionName := Compliance_ActionName row; Check_Status := checkStatus;
                Check_DetectionOutput := result ≫= Result_DetectionOutput;
                Check_CheckedAt := result ≫= Result_CompletedAt |}).

(** The loop of [deviceCompliance]. *)
Fixpoint complianceLoop (rows : list ListComplianceResultsRow) (status : ComplianceStatus)
    (passing : Z) (checks : list ComplianceCheckResult) : Engine.result deviceComplianceSummary :=
  match rows with
  | [] => Ok {| summary_status := status; summary_passing := passing; summary_checks := checks |}
  | row :: rows =>
      check ← complianceCheck row;
      match check with
      | None => complianceLoop rows status passing checks
      | Some check =>
          complianceLoop rows (combine_status status (Check_Status check))
            (match Check_Status check with
             | COMPLIANCE_STATUS_COMPLIANT => int32 (passing + 1)
             | _ => passing
             end)
            (checks ++ [check])
      end
  end.

Definition deviceCompliance (deviceID : string) : Queries deviceComplianceSummary :=
  rows ← ListComplianceResults deviceID;
  lift (complianceLoop rows COMPLIANCE_STATUS_UNSPECIFIED 0 []).

Definition GetDeviceCompliance (ctx : Context) (deviceID : string)
    : Queries (ComplianceStatus * list ComplianceCheckResult) :=
  _ ← on_error (Queries.GetDevice deviceID)
        (not_found_or_internal "device" "get compliance device");
  compliance ← on_error (deviceCompliance deviceID)
    (fun err => fail (internal "compute device compliance" err));
  mret (summary_status compliance, summary_checks compliance).
End compliance.

(** ** Execution results *)

(** [time.RFC3339Nano] in UTC, and [ulid.ParseStrict]. *)
Class PageTokenText := {
  format_time : time -> string;
  parse_time : string -> option time;
  ulid_ParseStrict : string -> bool;
}.

(** An instant of the years 1 to 9999 reads back as itself; the text is one line. *)
Class PageTokenLaws `{PageTokenText} : Prop := {
  parse_format_time : forall t, CheckValid (timestamp_new t) = true ->
    parse_time (format_time t) = Some t;
  format_time_one_line : forall t, "010"%char ∉ String.list_ascii_of_string (format_time t);
}.

(** [strings.SplitN(s, newline, 2)], when it has two parts. *)
Fixpoint cut_newline (s : string) : option (string * string) :=
  match s with
  | EmptyString => None
  | String c s =>
      if Ascii.eqb c "010"%char then Some (EmptyString, s)
      else match cut_newline s with Some (a, b) => Some (String c a, b) | None => None end
  end.

Section results.
  Context `{ProtoCodec Action, ProtoCodec ActionResult, DeterministicMarshal, PageTokenText}.

Definition executionPageToken (completedAt : time) (runID : string) : string :=
  EncodeToString (string_bytes (format_time completedAt ++ String "010" runID)).

(** The zero time for the empty token. *)
Definition parseExecutionPageToken (value : string) : result (time * string) :=
  if bool_decide (value = EmptyString) then Ok (-62135596800 * 1000000000, EmptyString)
  else match DecodeString value with
  | None => Err (ErrNew "illegal base64 data")
  | Some decoded =>
      match cut_newline (bytes_string decoded) with
      | None => Err (ErrNew "page token fields are missing")
      | Some (text, runID) =>
          match parse_time text with
          | None => Err (ErrNew "parsing time")
          | Some completedAt =>
              if ulid_ParseStrict runID then Ok (completedAt, runID)
              else Err (ErrNew "ulid: bad data")
          end
      end
  end.

Definition executionResultMessage (row : ListExecutionResultsRow) : result ExecutionResultMessage :=
  let r := Row_Result row in
  payload ← executionResultProto (ExecutionResult_RunID r) (ExecutionResult_ActionID r)
              (ExecutionResult_CompletedAt r) (ExecutionResult_ResultBlob r);
  action ← executableAction (ExecutionResult_ActionID r) (ResultRow_ActionBlob row);
  status ← complianceStatus action (Some payload);
  Ok {| ResultMessage_RunId := Result_RunId payload;
        ResultMessage_ActionId := Result_ActionId payload;
        ResultMessage_ActionName := ResultRow_ActionName row;
        ResultMessage_Status := Result_Status payload;
        ResultMessage_Output := Result_Output payload;
        ResultMessage_CompletedAt := Result_CompletedAt payload;
        ResultMessage_ComplianceStatus := status;
        ResultMessage_DetectionOutput := Result_DetectionOutput payload |}.

(** The error of each of the three mapping steps is the same internal error. *)
Definition ListExecutionResults (ctx : Context) (deviceID page_token : string) (page_size : Z)
    : Queries (list ExecutionResultMessage * string) :=
  _ ← on_error (Queries.GetDevice deviceID)
        (not_found_or_internal "device" "get execution result device");
  match parseExecutionPageToken page_token with
  | Err _ => fail (ErrConnect CodeInvalidArgument "invalid execution results page token")
  | Ok (completedBefore, runBefore) =>
      let hasCursor := if bool_decide (page_token = EmptyString) then 0 else 1 in
      let limit := pageSize page_size in
      results ← on_error
        (Queries.ListExecutionResults deviceID hasCursor completedBefore runBefore (limit + 1))
        (fun err => fail (internal "list execution results" err));
      let '(results, next) := paginate results limit (fun row =>
        executionPageToken (ExecutionResult_CompletedAt (Row_Result row))
          (ExecutionResult_RunID (Row_Result row))) in
      mapped ← on_error (map_m (fun row => lift (executionResultMessage row)) results)
        (fun err => fail (internal "decode execution result" err));
      mret (mapped, next)
  end.

Definition ListAuditEvents (ctx : Context) (page_token : string) (page_size : Z)
    : Queries (list AuditEventMessage * string) :=
  let before := if bool_decide (page_token = EmptyString) then "~"%string else page_token in
  let limit := pageSize page_size in
  events ← on_error (Queries.ListAuditEvents before (limit + 1))
    (fun err => fail (internal "list audit events" err));
  let '(events, next) := paginate events limit AuditEvent_ID in
  mret (auditEventProto <$> events, next).
End results.

(** ** Invariant and atomicity, handler by handler *)

Section handlers.
  Context `{ProtoCodec Action, ProtoCodec ActionResult, DeterministicMarshal, PageTokenText}.

Lemma assignmentTargetName_read I ty id : preserves I (assignmentTargetName ty id).
Proof. unfold assignmentTargetName. preserve. Qed.

Lemma deviceCompliance_read I deviceID : preserves I (deviceCompliance deviceID).
Proof. unfold deviceCompliance. preserve. Qed.

Hint Resolve assignmentTargetName_read deviceCompliance_read : preserve.

(** The handler checks the target the schema cannot check. *)
Lemma assignmentTargetName_exists ty id :
  triple WellFormed (assignmentTargetName ty id)
    (fun _ d => WellFormed d /\ target_exists ty id d) (fun _ _ => True).
Proof.
  unfold assignmentTargetName, ASSIGNMENT_TARGET_TYPE_DEVICE, ASSIGNMENT_TARGET_TYPE_DEVICE_GROUP.
  destruct (Z.eqb_spec ty 1) as [->|]; [|destruct (Z.eqb_spec ty 2) as [->|]; [|by apply triple_fail]].
  - eapply triple_bind.
    + eapply triple_on_error; [apply fwd_get_row|]. intros e.
      unfold not_found_or_internal. destruct (IsNotFound e); by apply triple_fail.
    + intros r. apply triple_ret. intros d [Hwf Hl]. split; [done|]. left. eauto.
  - eapply triple_bind.
    + eapply triple_on_error; [apply fwd_query|]. intros e.
      unfold not_found_or_internal. destruct (IsNotFound e); by apply triple_fail.
    + intros r. apply triple_ret. intros d [Hwf Hl]. split; [done|]. right.
      destruct (device_groups d !! id) eqn:Hg; [eauto|done].
Qed.

Lemma CreateAssignment_preserves ctx actionID targetType targetID :
  preserves WellFormed (CreateAssignment ctx actionID targetType targetID).
Proof.
  apply preserves_handler; [|intros e; preserve].
  eapply triple_bind; [apply fwd_preserved; preserve|]. intros action.
  eapply triple_bind; [apply assignmentTargetName_exists|]. intros name.
  eapply triple_bind; [apply fwd_draw|]. intros id.
  eapply triple_bind.
  - eapply triple_conseq; [apply CreateAssignment_wf|done|intros ? ? Hd; exact Hd|done].
  - intros a. apply preserves_weak. preserve.
Qed.

Lemma CreateAssignment_atomic ctx actionID targetType targetID :
  atomic (CreateAssignment ctx actionID targetType targetID).
Proof. unfold CreateAssignment, Transaction. atomically. Qed.

Lemma DeleteAssignment_preserves ctx id : preserves WellFormed (DeleteAssignment ctx id).
Proof. unfold DeleteAssignment, Transaction. preserve. Qed.

Lemma DeleteAssignment_atomic ctx id : atomic (DeleteAssignment ctx id).
Proof. unfold DeleteAssignment, Transaction. atomically. Qed.

Lemma ListAssignments_preserves ctx actionID targetType targetID : preserves WellFormed (ListAssignments ctx actionID targetType targetID).
Proof. unfold ListAssignments, Transaction. preserve. Qed.

Lemma ListAssignments_atomic ctx actionID targetType targetID : atomic (ListAssignments ctx actionID targetType targetID).
Proof. unfold ListAssignments, Transaction. atomically. Qed.

Lemma GetDeviceAssignments_preserves ctx deviceID : preserves WellFormed (GetDeviceAssignments ctx deviceID).
Proof. unfold GetDeviceAssignments, Transaction. preserve. Qed.

Lemma GetDeviceAssignments_atomic ctx deviceID : atomic (GetDeviceAssignments ctx deviceID).
Proof. unfold GetDeviceAssignments, Transaction. atomically. Qed.

Lemma GetDeviceCompliance_preserves ctx deviceID : preserves WellFormed (GetDeviceCompliance ctx deviceID).
Proof. unfold GetDeviceCompliance, Transaction. preserve. Qed.

Lemma GetDeviceCompliance_atomic ctx deviceID : atomic (GetDeviceCompliance ctx deviceID).
Proof. unfold GetDeviceCompliance, Transaction. atomically. Qed.

Lemma ListExecutionResults_preserves ctx deviceID page_token page_size : preserves WellFormed (ListExecutionResults ctx deviceID page_token page_size).
Proof. unfold ListExecutionResults, Transaction. preserve. Qed.

Lemma ListExecutionResults_atomic ctx deviceID page_token page_size : atomic (ListExecutionResults ctx deviceID page_token page_size).
Proof. unfold ListExecutionResults, Transaction. atomically. Qed.

Lemma ListAuditEvents_preserves ctx page_token page_size : preserves WellFormed (ListAuditEvents ctx page_token page_size).
Proof. unfold ListAuditEvents, Transaction. preserve. Qed.

Lemma ListAuditEvents_atomic ctx page_token page_size : atomic (ListAuditEvents ctx page_token page_size).
Proof. unfold ListAuditEvents, Transaction. atomically. Qed.

End handlers.

#[export] Hint Resolve assignmentTargetName_read deviceCompliance_read CreateAssignment_preserves
  DeleteAssignment_preserves ListAssignments_preserves GetDeviceAssignments_preserves
  GetDeviceCompliance_preserves ListExecutionResults_preserves ListAuditEvents_preserves : preserve.
#[export] Hint Resolve CreateAssignment_atomic DeleteAssignment_atomic ListAssignments_atomic GetDeviceAssignments_atomic
  GetDeviceCompliance_atomic ListExecutionResults_atomic ListAuditEvents_atomic : atomic.

(** ** What the compliance of a device means *)

Section compliance_facts.
  Context `{ProtoCodec Action, ProtoCodec ActionResult, DeterministicMarshal}.

(** The status of a device from the statuses of its checks: the worst one. *)
Definition overall (ss : list ComplianceStatus) : ComplianceStatus :=
  if bool_decide (COMPLIANCE_STATUS_NON_COMPLIANT ∈ ss) then COMPLIANCE_STATUS_NON_COMPLIANT
  else if bool_decide (COMPLIANCE_STATUS_PENDING ∈ ss) then COMPLIANCE_STATUS_PENDING
  else if bool_decide (COMPLIANCE_STATUS_COMPLIANT ∈ ss) then COMPLIANCE_STATUS_COMPLIANT
  else COMPLIANCE_STATUS_UNSPECIFIED.

(** The number of compliant checks. *)
Definition count_compliant (checks : list ComplianceCheckResult) : Z :=
  Z.of_nat (length (filter (fun c => Check_Status c = COMPLIANCE_STATUS_COMPLIANT) checks)).

Lemma overall_snoc ss s : overall (ss ++ [s]) = combine_status (overall ss) s.
Proof.
  unfold overall. repeat case_bool_decide; destruct s; simpl; try done;
    rewrite ?elem_of_app, ?list_elem_of_singleton in *; naive_solver.
Qed.

(** The checks of the rows, in order. *)
Fixpoint checks_of (rows : list ListComplianceResultsRow)
    : result (list ComplianceCheckResult) :=
  match rows with
  | [] => Ok []
  | row :: rows =>
      check ← complianceCheck row;
      checks ← checks_of rows;
      Ok (option_list check ++ checks)
  end.

(** The loop is a fold over the checks. *)
Lemma complianceLoop_spec rows checks0 s :
  complianceLoop rows (overall (Check_Status <$> checks0)) (int32 (count_compliant checks0)) checks0
    = Ok s ->
  exists checks, checks_of rows = Ok checks /\ summary_checks s = checks0 ++ checks /\
    summary_status s = overall (Check_Status <$> summary_checks s) /\
    summary_passing s = int32 (count_compliant (summary_checks s)).
Proof.
  revert checks0. induction rows as [|row rows IH]; simpl; intros checks0.
  - intros [= <-]. exists []. simpl. by rewrite app_nil_r.
  - destruct (complianceCheck row) as [[check|]|e]; simpl; [| |done].
    + intros Hloop.
      assert (complianceLoop rows (overall (Check_Status <$> (checks0 ++ [check])))
        (int32 (count_compliant (checks0 ++ [check]))) (checks0 ++ [check]) = Ok s) as Hloop'.
      { rewrite <- Hloop. f_equal.
        - by rewrite fmap_app, <- overall_snoc.
        - unfold count_compliant. rewrite filter_app, length_app, Nat2Z.inj_add.
          unfold filter at 2, list_filter. case_decide as Hc; simpl.
          + rewrite Hc, int32_add_l. done.
          + rewrite Z.add_0_r. by destruct (Check_Status check). }
      apply IH in Hloop' as (checks & -> & Hs & Hst & Hp). exists (check :: checks).
      rewrite <- app_assoc in Hs. done.
    + intros (checks & -> & Hs)%IH. exists checks. done.
Qed.

(** [res] shows that [a] is compliant: it ran this very definition of the action,
    succeeded, and its detection script exited with 0. *)
Definition shows_compliant (a : Action) (res : ActionResult) : Prop :=
  ActionDigest (Some a) = Ok (Result_ActionDigest res) /\
  Result_Status res = EXECUTION_STATUS_SUCCESS /\
  exists output, Result_DetectionOutput res = Some output /\ ExitCode output = 0.

(** The latest result of the row shows compliance. *)
Definition row_compliant (a : Action) (row : ListComplianceResultsRow) : Prop :=
  exists r res, Compliance_Latest row = Some r /\
    unmarshal (ExecutionResult_ResultBlob r) = Some res /\ shows_compliant a res.

Lemma executableAction_ok id blob a : executableAction id blob = Ok a -> unmarshal blob = Some a.
Proof.
  unfold executableAction. destruct (proto_Unmarshal blob) eqn:Hu; [|done].
  case_bool_decide; [|done]. intros [= <-]. by apply proto_Unmarshal_ok.
Qed.

Lemma executionResultProto_ok a b c blob res :
  executionResultProto a b c blob = Ok res -> unmarshal blob = Some res.
Proof.
  unfold executionResultProto. destruct (proto_Unmarshal blob) eqn:Hu; simpl; [|done].
  destruct (_ || _); [done|]. intros [= <-]. by apply proto_Unmarshal_ok.
Qed.

Lemma complianceStatus_spec a res st :
  isComplianceAction a = true -> complianceStatus a res = Ok st ->
  st <> COMPLIANCE_STATUS_UNSPECIFIED /\
  (st = COMPLIANCE_STATUS_COMPLIANT <-> exists r, res = Some r /\ shows_compliant a r).
Proof.
  unfold complianceStatus, shows_compliant. intros ->. simpl.
  destruct res as [r|]; [|intros [= <-]; naive_solver].
  destruct (ActionDigest (Some a)) as [digest|e]; simpl; [|done].
  case_bool_decide as Hd; simpl.
  2: { intros [= <-]. split; [done|]. split; [done|]. intros (r' & [= <-] & [= ->] & _). done. }
  destruct (Z.eqb_spec (Result_Status r) EXECUTION_STATUS_SUCCESS) as [Hs|Hs]; simpl.
  2: { intros [= <-]. split; [done|]. split; [done|]. by intros (r' & [= <-] & _ & ? & _). }
  destruct (Result_DetectionOutput r) as [o|] eqn:Ho; simpl.
  2: { intros [= <-]. split; [done|]. split; [done|]. intros (r' & [= <-] & _ & _ & o' & ? & _).
       congruence. }
  destruct (Z.eqb_spec (ExitCode o) 0) as [He|He]; intros [= <-]; (split; [done|]).
  - split; [|done]. intros _. exists r. rewrite Hd. eauto 10.
  - split; [done|]. intros (r' & [= <-] & _ & _ & o' & Ho' & He'). congruence.
Qed.

Lemma complianceCheck_spec row c a :
  complianceCheck row = Ok c -> unmarshal (Compliance_ActionBlob row) = Some a ->
  if isComplianceAction a
  then exists check, c = Some check /\ Check_Status check <> COMPLIANCE_STATUS_UNSPECIFIED /\
    (Check_Status check = COMPLIANCE_STATUS_COMPLIANT <-> row_compliant a row)
  else c = None.
Proof.
  unfold complianceCheck. destruct (executableAction _ _) as [a'|] eqn:Ha; simpl; [|done].
  apply executableAction_ok in Ha. rewrite Ha. intros Hc [= ->]. revert Hc.
  destruct (isComplianceAction a) eqn:Hia; simpl; [|by intros [= <-]].
  assert (forall res st, complianceStatus a res = Ok st ->
    (forall r, Compliance_Latest row = Some r -> exists x, res = Some x /\
       unmarshal (ExecutionResult_ResultBlob r) = Some x) ->
    (Compliance_Latest row = None -> res = None) ->
    st <> COMPLIANCE_STATUS_UNSPECIFIED /\ (st = COMPLIANCE_STATUS_COMPLIANT <-> row_compliant a row)).
  { intros res st [Hne Hiff]%complianceStatus_spec Hs Hn; [|done]. split; [done|].
    rewrite Hiff. unfold row_compliant. destruct (Compliance_Latest row) as [r|].
    - destruct (Hs r eq_refl) as (x & -> & Hx). naive_solver.
    - rewrite Hn by done. naive_solver. }
  destruct (Compliance_Latest row) as [r|] eqn:Hl; simpl.
  - destruct (executionResultProto _ _ _ _) as [x|] eqn:Hx; simpl; [|done].
    apply executionResultProto_ok in Hx.
    destruct (complianceStatus a (Some x)) as [st|] eqn:Hst; simpl; [|done]. intros [= <-].
    eexists. split; [done|]. simpl. apply (H2 _ _ Hst); naive_solver.
  - destruct (complianceStatus a None) as [st|] eqn:Hst; simpl; [|done]. intros [= <-].
    eexists. split; [done|]. simpl. apply (H2 _ _ Hst); naive_solver.
Qed.

Lemma complianceCheck_decodes row c :
  complianceCheck row = Ok c -> exists a : Action, unmarshal (Compliance_ActionBlob row) = Some a.
Proof.
  unfold complianceCheck. destruct (executableAction _ _) as [a|] eqn:Ha; simpl; [|done].
  intros _. exists a. by apply executableAction_ok in Ha.
Qed.

Lemma checks_of_elem rows checks :
  checks_of rows = Ok checks ->
  (forall c, c ∈ checks <-> exists row, row ∈ rows /\ complianceCheck row = Ok (Some c)) /\
  (forall row, row ∈ rows -> exists c, complianceCheck row = Ok c).
Proof.
  revert checks. induction rows as [|row rows IH]; simpl; intros checks.
  - intros [= <-]. split; [|by intros ? ?%not_elem_of_nil]. intros c. split; [by intros ?%not_elem_of_nil|].
    by intros (? & ?%not_elem_of_nil & _).
  - destruct (complianceCheck row) as [check|] eqn:Hc; simpl; [|done].
    destruct (checks_of rows) as [rest|]; simpl; [|done]. intros [= <-].
    destruct (IH rest eq_refl) as [Hin Hall]. split.
    + intros c. rewrite elem_of_app, Hin. split.
      * intros [Hc'|(row' & Hr & Hc')]; [|exists row'; split; [by right|done]].
        exists row. split; [by left|]. rewrite Hc. destruct check as [c'|]; simpl in Hc'.
        -- by apply list_elem_of_singleton in Hc' as ->.
        -- by apply not_elem_of_nil in Hc'.
      * intros (row' & [->|Hr]%elem_of_cons & Hc'); [left|right; eauto].
        rewrite Hc in Hc'. injection Hc' as ->. by left.
    + intros row' [->|Hr]%elem_of_cons; eauto.
Qed.

Lemma overall_compliant ss :
  COMPLIANCE_STATUS_UNSPECIFIED ∉ ss ->
  overall ss = COMPLIANCE_STATUS_COMPLIANT <->
  ss <> [] /\ forall st, st ∈ ss -> st = COMPLIANCE_STATUS_COMPLIANT.
Proof.
  intros Hu. unfold overall. destruct ss as [|st0 ss]; [by split; [|intros []]|].
  case_bool_decide as Hn; [split; [done|]; intros [_ Hall]; by specialize (Hall _ Hn)|].
  case_bool_decide as Hp; [split; [done|]; intros [_ Hall]; by specialize (Hall _ Hp)|].
  case_bool_decide as Hc.
  - split; [|done]. intros _. split; [done|]. intros st Hin. by destruct st.
  - split; [done|]. intros [_ Hall]. destruct Hc. rewrite <- (Hall st0) by by left. by left.
Qed.

(** [act] is assigned to the device, directly or through one of its groups. *)
Definition assigned_to (d : Database) (deviceID : string) (act : ActionRow) : Prop :=
  actions d !! ActionRow_ID act = Some act /\
  exists k a, assignments d !! k = Some a /\ Assignment_ActionID a = ActionRow_ID act /\
    ((Assignment_TargetType a = 1 /\ Assignment_TargetID a = deviceID) \/
     (Assignment_TargetType a = 2 /\ (Assignment_TargetID a, deviceID) ∈ device_group_members d)).

Lemma action_assigned_iff d dev act :
  action_assigned d dev dev act = true <->
  exists k a, assignments d !! k = Some a /\ Assignment_ActionID a = ActionRow_ID act /\
    ((Assignment_TargetType a = 1 /\ Assignment_TargetID a = dev) \/
     (Assignment_TargetType a = 2 /\ (Assignment_TargetID a, dev) ∈ device_group_members d)).
Proof.
  unfold action_assigned, assignment_applies. rewrite exists_row_true.
  split; intros (k & a & Hl & Ha); exists k, a; (split; [done|]); revert Ha;
    rewrite ?andb_true_iff, ?orb_true_iff, ?andb_true_iff, !Z.eqb_eq, !bool_decide_eq_true; done.
Qed.

Lemma elem_of_assigned d dev act :
  WellFormed d ->
  (act ∈ select_where (action_assigned d dev dev) (actions d) <-> assigned_to d dev act).
Proof.
  intros Hwf. rewrite elem_of_select_where, action_assigned_iff. unfold assigned_to. split.
  - intros [Ha [k Hk]]. split; [|done]. by rewrite (wf_actions d Hwf _ _ Hk).
  - intros [Hl Ha]. eauto.
Qed.

(** [r] is the newest result of the action on the device. *)
Definition is_latest (d : Database) (deviceID actionID : string) (r : ExecutionResult) : Prop :=
  execution_results d !! ExecutionResult_RunID r = Some r /\
  ExecutionResult_DeviceID r = deviceID /\ ExecutionResult_ActionID r = actionID /\
  forall k r', execution_results d !! k = Some r' -> ExecutionResult_DeviceID r' = deviceID ->
    ExecutionResult_ActionID r' = actionID -> newest r r'.

Lemma latest_result_head d dev act r :
  WellFormed d -> latest_result d dev act = Some r -> is_latest d dev act r.
Proof.
  intros Hwf. unfold latest_result. set (p := fun x : ExecutionResult => _).
  pose proof (order_by_sorted newest (select_where p (execution_results d))) as Hs.
  assert (forall x, x ∈ order_by newest (select_where p (execution_results d)) <->
            p x = true /\ execution_results d !! ExecutionResult_RunID x = Some x) as Hin.
  { intros x. rewrite elem_of_order_by, elem_of_select_where.
    split; [|intros [? ?]; eauto]. intros [? [k Hk]]. by rewrite (wf_results d Hwf _ _ Hk). }
  destruct (order_by newest _) as [|x l]; [done|]. intros [= ->].
  destruct (Hin r) as [Hr _]. destruct Hr as [Hp Hl]; [by left|].
  unfold p in Hp. apply andb_true_iff in Hp as [Hd%bool_decide_eq_true Ha%bool_decide_eq_true].
  split_and!; [done..|]. intros k r' Hk Hd' Ha'.
  assert (r' ∈ r :: l) as Hr'.
  { apply Hin. split; [|by rewrite (wf_results d Hwf _ _ Hk)].
    unfold p. by rewrite !bool_decide_true. }
  apply elem_of_cons in Hr' as [->|Hr'].
  - unfold newest, descending, by_time2. right. done.
  - apply StronglySorted_inv in Hs as [_ Hf]. rewrite Forall_forall in Hf. by apply Hf.
Qed.

Lemma latest_result_exists d dev act r :
  WellFormed d -> is_latest d dev act r -> latest_result d dev act = Some r.
Proof.
  intros Hwf (Hl & Hd & Ha & Hmax).
  destruct (latest_result d dev act) as [r0|] eqn:Hr0.
  - apply latest_result_head in Hr0 as (Hl0 & Hd0 & Ha0 & Hmax0); [|done].
    specialize (Hmax _ _ Hl0 Hd0 Ha0). specialize (Hmax0 _ _ Hl Hd Ha).
    unfold newest, descending, by_time2 in *.
    assert (ExecutionResult_RunID r = ExecutionResult_RunID r0) as Heq.
    { destruct Hmax as [?|[? ?]], Hmax0 as [?|[? ?]]; try lia. by apply (anti_symm String.le). }
    congruence.
  - exfalso. revert Hr0. unfold latest_result. set (p := fun x : ExecutionResult => _).
    assert (r ∈ order_by newest (select_where p (execution_results d))) as Hin.
    { apply elem_of_order_by, elem_of_select_where. split; [|eauto].
      unfold p. by rewrite !bool_decide_true. }
    destruct (order_by newest _); [by apply not_elem_of_nil in Hin|done].
Qed.

(** The latest result of the action on the device shows compliance. *)
Definition has_compliant_result (d : Database) (deviceID actionID : string) (a : Action) : Prop :=
  exists r res, is_latest d deviceID actionID r /\
    unmarshal (ExecutionResult_ResultBlob r) = Some res /\ shows_compliant a res.

(** The row of an action in [ListComplianceResults]. *)
Definition compliance_row (d : Database) (deviceID : string) (act : ActionRow)
    : ListComplianceResultsRow := {|
  Compliance_ActionID := ActionRow_ID act; Compliance_ActionName := ActionRow_Name act;
  Compliance_ActionBlob := ActionRow_ActionBlob act;
  Compliance_Latest := latest_result d deviceID (ActionRow_ID act);
|}.

Lemma ListComplianceResults_rows d0 dev :
  WellFormed d0 ->
  triple (fun d => d = d0) (ListComplianceResults dev)
    (fun rows d => d = d0 /\ forall row, row ∈ rows <->
       exists act, assigned_to d0 dev act /\ row = compliance_row d0 dev act)
    (fun _ d => d = d0).
Proof.
  intros Hwf. apply triple_query; [|done]. intros d ->. split; [done|]. intros row.
  rewrite list_elem_of_fmap. setoid_rewrite elem_of_order_by.
  setoid_rewrite (elem_of_assigned d0 dev _ Hwf). split; intros (act & ? & ?); eauto.
Qed.

(** A check that says "compliant" is backed by its action's newest result. *)
Lemma row_compliant_iff d dev act a :
  WellFormed d ->
  (row_compliant a (compliance_row d dev act) <-> has_compliant_result d dev (ActionRow_ID act) a).
Proof.
  intros Hwf. unfold row_compliant, has_compliant_result. simpl.
  split; intros (r & res & Hr & ?); exists r, res; (split; [|done]).
  - by apply latest_result_head.
  - by apply latest_result_exists.
Qed.

(** The rows' checks are all compliant when every compliance action is. *)
Lemma checks_all_compliant d dev rows checks :
  WellFormed d -> checks_of rows = Ok checks ->
  (forall row, row ∈ rows <-> exists act, assigned_to d dev act /\ row = compliance_row d dev act) ->
  (COMPLIANCE_STATUS_UNSPECIFIED ∉ Check_Status <$> checks) /\
  ((forall c, c ∈ checks -> Check_Status c = COMPLIANCE_STATUS_COMPLIANT) <->
   (forall act a, assigned_to d dev act -> unmarshal (ActionRow_ActionBlob act) = Some a ->
      isComplianceAction a = true -> has_compliant_result d dev (ActionRow_ID act) a)).
Proof.
  intros Hwf Hc Hrows. destruct (checks_of_elem _ _ Hc) as [Hin Hall].
  assert (forall c, c ∈ checks -> exists act a, assigned_to d dev act /\
    unmarshal (ActionRow_ActionBlob act) = Some a /\ isComplianceAction a = true /\
    Check_Status c <> COMPLIANCE_STATUS_UNSPECIFIED /\
    (Check_Status c = COMPLIANCE_STATUS_COMPLIANT <-> has_compliant_result d dev (ActionRow_ID act) a))
    as Hcheck.
  { intros c (row & Hr & Hcc)%Hin. apply Hrows in Hr as (act & Hact & ->).
    pose proof (complianceCheck_decodes _ _ Hcc) as [a Ha].
    pose proof (complianceCheck_spec _ _ _ Hcc Ha) as Hs.
    destruct (isComplianceAction a) eqn:Hia; [|done].
    destruct Hs as (? & [= <-] & Hne & Hiff). rewrite row_compliant_iff in Hiff by done.
    exists act, a. done. }
  split; [|split].
  - intros (c & Heq & Hcin)%list_elem_of_fmap. by destruct (Hcheck c Hcin) as (? & ? & ? & ? & ? & ? & ?).
  - intros Hcomp act a Hact Ha Hia.
    destruct (Hall (compliance_row d dev act)) as [c Hcc]; [apply Hrows; eauto|].
    pose proof (complianceCheck_spec _ _ _ Hcc Ha) as Hs. rewrite Hia in Hs.
    destruct Hs as (check & -> & _ & Hiff). rewrite row_compliant_iff in Hiff by done.
    apply Hiff, Hcomp, Hin. exists (compliance_row d dev act). split; [apply Hrows; eauto|done].
  - intros Hcomp c Hcin. destruct (Hcheck c Hcin) as (act & a & ? & ? & ? & _ & Hiff).
    apply Hiff. by apply Hcomp.
Qed.

(** C31: What a device's compliance status means.  Whenever the summary can be
    computed, its status is the worst status of its checks and its count is the
    number of compliant ones; and the device is COMPLIANT exactly when it has a
    check and, for every compliance action assigned to it directly or through a
    group, the newest result of that action on that device ran the action's
    current definition, succeeded, and its detection script exited with 0. *)
Theorem deviceCompliance_meaning d0 dev :
  WellFormed d0 ->
  triple (fun d => d = d0) (deviceCompliance dev)
    (fun s d => d = d0 /\
       summary_status s = overall (Check_Status <$> summary_checks s) /\
       summary_passing s = int32 (count_compliant (summary_checks s)) /\
       (summary_status s = COMPLIANCE_STATUS_COMPLIANT <->
        summary_checks s <> [] /\
        forall act a, assigned_to d0 dev act -> unmarshal (ActionRow_ActionBlob act) = Some a ->
          isComplianceAction a = true -> has_compliant_result d0 dev (ActionRow_ID act) a))
    (fun _ d => d = d0).
Proof.
  intros Hwf. unfold deviceCompliance.
  eapply triple_bind; [by apply ListComplianceResults_rows|].
  intros rows. apply triple_lift; [|by intros ? ? _ [-> _]].
  intros s d Hloop [-> Hrows]. split; [done|].
  destruct (complianceLoop_spec rows [] s) as (checks & Hc & Hs & Hst & Hp); [done|].
  simpl in Hs. rewrite Hs in *. split_and!; [done..|].
  destruct (checks_all_compliant d0 dev rows checks) as [Hu Hiff]; [done..|].
  rewrite Hst, overall_compliant, <- Hiff by done.
  setoid_rewrite list_elem_of_fmap. split; intros [Hne Hcs].
  - split; [by intros ->|]. intros c Hcin. eauto.
  - split; [by destruct checks|]. intros st (c & -> & Hcin). eauto.
Qed.
End compliance_facts.

(** ** Page tokens of execution results *)

Section page_tokens.
Context `{!PageTokenText, !PageTokenLaws}.

Lemma cut_newline_app a b :
  "010"%char ∉ String.list_ascii_of_string a -> cut_newline (a ++ String "010" b) = Some (a, b).
Proof.
  induction a as [|c a IH]; [done|]. simpl. rewrite not_elem_of_cons. intros [Hc Ha].
  destruct (Ascii.eqb_spec c "010"%char) as [->|_]; [done|]. by rewrite IH.
Qed.

(** The token of a page of execution results names exactly the result it was
    made from: reading it back gives the completion time and the run id. *)
Theorem executionPageToken_roundtrip t runID :
  CheckValid (timestamp_new t) = true -> ulid_ParseStrict runID = true ->
  parseExecutionPageToken (executionPageToken t runID) = Ok (t, runID).
Proof.
  intros Ht Hid. unfold parseExecutionPageToken, executionPageToken.
  rewrite decode_EncodeToString, bytes_string_bytes, cut_newline_app by apply format_time_one_line.
  rewrite parse_format_time, Hid by done. case_bool_decide as He; [|done].
  apply (f_equal DecodeString) in He. rewrite decode_EncodeToString in He.
  apply (f_equal (fmap (M := option) bytes_string)) in He. simpl in He. rewrite bytes_string_bytes in He.
  by destruct (format_time t).
Qed.
End page_tokens.
