(* ===== verification/Devices.v ===== *)
(** * Devices, registration tokens and device groups
    ([server/internal/core/devices.go])

    The views of devices with their liveness and compliance, the registration
    tokens an administrator hands out, and the groups assignments target.
    Deleting a device or a group deletes the assignments that name it first: the
    schema has no foreign key for an assignment's target. *)

From S2P Require Import Prelude Hash Base64 Engine Proto Schema Queries QueriesFacts QueriesFrame.
From S2P Require Import Service Demo Actions Assignments.

Open Scope Z_scope.

(** ** Messages *)

Record DeviceMessage := {
  DeviceMessage_Id : string;
  DeviceMessage_Hostname : string;
  DeviceMessage_AgentVersion : string;
  DeviceMessage_Status : DeviceStatus;
  DeviceMessage_RegisteredAt : Timestamp;
  DeviceMessage_CertExpiresAt : Timestamp;
  DeviceMessage_LastSeenAt : option Timestamp;
  DeviceMessage_ComplianceStatus : ComplianceStatus;
  DeviceMessage_ComplianceTotal : Z;
  DeviceMessage_CompliancePassing : Z;
}.

Record DeviceGroupMessage := {
  GroupMessage_Id : string;
  GroupMessage_Name : string;
  GroupMessage_Description : string;
  GroupMessage_MemberCount : Z;
  GroupMessage_CreatedAt : Timestamp;
}.

Definition groupProto (id name description : string) (memberCount : Z) (createdAt : time)
    : DeviceGroupMessage := {|
  GroupMessage_Id := id; GroupMessage_Name := name; GroupMessage_Description := description;
  GroupMessage_MemberCount := int32 memberCount; GroupMessage_CreatedAt := timestamp_new createdAt;
|}.

(** [groupProto] of a row with its member count. *)
Definition groupRowProto (row : DeviceGroupRow) : DeviceGroupMessage :=
  let g := Row_Group row in
  groupProto (DeviceGroup_ID g) (DeviceGroup_Name g) (DeviceGroup_Description g) (MemberCount row)
    (DeviceGroup_CreatedAt g).

Record DeviceGroupMember := {
  Member_DeviceId : string;
  Member_Hostname : string;
  Member_AgentVersion : string;
  Member_LastSeenAt : option Timestamp;
}.

Definition memberProto (member : Device) : DeviceGroupMember := {|
  Member_DeviceId := Device_ID member; Member_Hostname := Device_Hostname member;
  Member_AgentVersion := Device_AgentVersion member;
  Member_LastSeenAt := timestamp_new <$> Device_LastSeenAt member;
|}.

(** [time.Time.Sub]: the difference, clamped to a [time.Duration]. *)
Definition time_Sub (t u : time) : Z :=
  Z.max (-9223372036854775808) (Z.min 9223372036854775807 (t - u)).

Definition tokenHash (value : string) : string := hex_encode (Sum256 (string_bytes value)).

(** The token, its digest, or the failure of [rand.Read]. *)
Definition registrationToken : Queries (string * string) :=
  raw ← rand_read 32;
  match raw with
  | None => fail (ErrNew "rand.Read")
  | Some raw => let value := EncodeToString raw in mret (value, tokenHash value)
  end.

Section devices.
  Context (service : Service).
  Context `{ProtoCodec Action, ProtoCodec ActionResult, DeterministicMarshal}.

(** ** Devices *)

Definition deviceStatus (device : Device) : Queries DeviceStatus :=
  match Device_LastSeenAt device with
  | None => mret DEVICE_STATUS_OFFLINE
  | Some last =>
      at_ ← now;
      mret (if time_Sub at_ last <=? int64 (2 * heartbeatInterval service)
            then DEVICE_STATUS_ONLINE else DEVICE_STATUS_OFFLINE)
  end.

Definition deviceProto (device : Device) : Queries DeviceMessage :=
  compliance ← deviceCompliance (Device_ID device);
  status ← deviceStatus device;
  mret {| DeviceMessage_Id := Device_ID device; DeviceMessage_Hostname := Device_Hostname device;
          DeviceMessage_AgentVersion := Device_AgentVersion device; DeviceMessage_Status := status;
          DeviceMessage_RegisteredAt := timestamp_new (Device_RegisteredAt device);
          DeviceMessage_CertExpiresAt := timestamp_new (Device_CertExpiresAt device);
          DeviceMessage_LastSeenAt := timestamp_new <$> Device_LastSeenAt device;
          DeviceMessage_ComplianceStatus := summary_status compliance;
          DeviceMessage_ComplianceTotal := int32 (Z.of_nat (length (summary_checks compliance)));
          DeviceMessage_CompliancePassing := summary_passing compliance |}.

Definition ListDevices (ctx : Context) (page_size : Z) (page_token : string)
    : Queries (list DeviceMessage * Z * string) :=
  let limit := pageSize page_size in
  devices ← on_error (Queries.ListDevices page_token (limit + 1))
    (fun err => fail (internal "list devices" err));
  total ← on_error CountDevices (fun err => fail (internal "count devices" err));
  let '(devices, next) := paginate devices limit Device_ID in
  mapped ← on_error (map_m deviceProto devices) (fun err => fail (internal "map device" err));
  mret (mapped, int32 total, next).

Definition GetDevice (ctx : Context) (id : string) : Queries DeviceMessage :=
  device ← on_error (Queries.GetDevice id) (not_found_or_internal "device" "get device");
  on_error (deviceProto device) (fun err => fail (internal "map device" err)).

Definition DeleteDevice (ctx : Context) (id : string) : Queries unit :=
  on_error
    (Transaction (
      _ ← DeleteAssignmentsForTarget ASSIGNMENT_TARGET_TYPE_DEVICE id;
      rows ← Queries.DeleteDevice id;
      _ ← require_one rows;
      audit ctx AUDIT_EVENT_TYPE_DEVICE_DELETED AUDIT_STREAM_TYPE_DEVICE id
        AUDIT_ACTOR_TYPE_USER EmptyString))
    (not_found_or_internal "device" "delete device").

(** ** Registration tokens *)

(** The response's [Token] and [CaFingerprintPin]. *)
Definition CreateToken (ctx : Context) (name : string) (max_uses : Z)
    (expires_at : option Timestamp) : Queries (RegistrationTokenMessage * string) :=
  at_ ← (match expires_at with None => mret 0 | Some _ => now end);
  match expires_at with
  | None => fail (ErrConnect CodeInvalidArgument "token expiration must be in the future")
  | Some expires_at =>
      if negb (at_ <? AsTime expires_at)
      then fail (ErrConnect CodeInvalidArgument "token expiration must be in the future")
      else
        token ← on_error registrationToken
          (fun err => fail (internal "generate registration token" err));
        let '(value, digest) := token in
        mapped ← on_error
          (Transaction (
            id ← ulid_make;
            token ← CreateRegistrationToken id digest name max_uses (AsTime expires_at);
            _ ← audit ctx AUDIT_EVENT_TYPE_REGISTRATION_TOKEN_CREATED
                  AUDIT_STREAM_TYPE_REGISTRATION_TOKEN (RegistrationToken_ID token)
                  AUDIT_ACTOR_TYPE_USER EmptyString;
            mret (registrationTokenProto value token)))
          (fun err => fail (internal "create registration token" err));
        mret (mapped, caFingerprint service)
  end.

Definition ListTokens (ctx : Context) (page_size : Z) (page_token : string)
    : Queries (list RegistrationTokenMessage * Z * string) :=
  let limit := pageSize page_size in
  tokens ← on_error (ListRegistrationTokens page_token (limit + 1))
    (fun err => fail (internal "list registration tokens" err));
  total ← on_error CountRegistrationTokens
    (fun err => fail (internal "count registration tokens" err));
  let '(tokens, next) := paginate tokens limit RegistrationToken_ID in
  mret (registrationTokenProto EmptyString <$> tokens, int32 total, next).

Definition RenameToken (ctx : Context) (id name : string) : Queries RegistrationTokenMessage :=
  on_error
    (Transaction (
      token ← RenameRegistrationToken name id;
      _ ← audit ctx AUDIT_EVENT_TYPE_REGISTRATION_TOKEN_UPDATED
            AUDIT_STREAM_TYPE_REGISTRATION_TOKEN (RegistrationToken_ID token)
            AUDIT_ACTOR_TYPE_USER EmptyString;
      mret (registrationTokenProto EmptyString token)))
    (not_found_or_internal "registration token" "rename registration token").

Definition DeleteToken (ctx : Context) (id : string) : Queries unit :=
  on_error
    (Transaction (
      rows ← DeleteRegistrationToken id;
      _ ← require_one rows;
      audit ctx AUDIT_EVENT_TYPE_REGISTRATION_TOKEN_DELETED AUDIT_STREAM_TYPE_REGISTRATION_TOKEN
        id AUDIT_ACTOR_TYPE_USER EmptyString))
    (not_found_or_internal "registration token" "delete registration token").

(** ** Device groups *)

Definition CreateDeviceGroup (ctx : Context) (name description : string)
    : Queries DeviceGroupMessage :=
  on_error
    (Transaction (
      id ← ulid_make;
      group ← Queries.CreateDeviceGroup id name description;
      _ ← audit ctx AUDIT_EVENT_TYPE_DEVICE_GROUP_CREATED AUDIT_STREAM_TYPE_DEVICE_GROUP
            (DeviceGroup_ID group) AUDIT_ACTOR_TYPE_USER EmptyString;
      mret (groupProto (DeviceGroup_ID group) (DeviceGroup_Name group)
              (DeviceGroup_Description group) 0 (DeviceGroup_CreatedAt group))))
    (fun err =>
      if IsConflict err then fail (rpcConflict "device group")
      else fail (internal "create device group" err)).

Definition GetDeviceGroup (ctx : Context) (id : string)
    : Queries (DeviceGroupMessage * list DeviceGroupMember) :=
  group ← on_error (Queries.GetDeviceGroup id)
    (not_found_or_internal "device group" "get device group");
  members ← on_error (ListDeviceGroupMembers id)
    (fun err => fail (internal "list device group members" err));
  mret (groupRowProto group, memberProto <$> members).

Definition ListDeviceGroups (ctx : Context) (page_size : Z) (page_token : string)
    : Queries (list DeviceGroupMessage * Z * string) :=
  let limit := pageSize page_size in
  groups ← on_error (Queries.ListDeviceGroups page_token (limit + 1))
    (fun err => fail (internal "list device groups" err));
  total ← on_error CountDeviceGroups (fun err => fail (internal "count device groups" err));
  let '(groups, next) := paginate groups limit (fun row => DeviceGroup_ID (Row_Group row)) in
  mret (groupRowProto <$> groups, int32 total, next).

Definition ListDeviceGroupsForDevice (ctx : Context) (deviceID : string)
    : Queries (list DeviceGroupMessage) :=
  _ ← on_error (Queries.GetDevice deviceID)
        (not_found_or_internal "device" "get device for groups");
  groups ← on_error (Queries.ListDeviceGroupsForDevice deviceID)
    (fun err => fail (internal "list groups for device" err));
  mret (groupRowProto <$> groups).

Definition groupMutation (ctx : Context) (id operation : string) (mutate : Queries unit)
    : Queries DeviceGroupMessage :=
  on_error
    (Transaction (
      _ ← mutate;
      group ← Queries.GetDeviceGroup id;
      _ ← audit ctx AUDIT_EVENT_TYPE_DEVICE_GROUP_UPDATED AUDIT_STREAM_TYPE_DEVICE_GROUP id
            AUDIT_ACTOR_TYPE_USER EmptyString;
      mret (groupRowProto group)))
    (fun err =>
      if IsNotFound err then fail (rpcNotFound "device group")
      else if IsConflict err then fail (rpcConflict "device group")
      else fail (internal operation err)).

Definition RenameDeviceGroup (ctx : Context) (id name : string) : Queries DeviceGroupMessage :=
  groupMutation ctx id "rename device group" (_ ← Queries.RenameDeviceGroup name id; mret tt).

Definition SetDeviceGroupDescription (ctx : Context) (id description : string)
    : Queries DeviceGroupMessage :=
  groupMutation ctx id "set device group description"
    (_ ← Queries.SetDeviceGroupDescription description id; mret tt).

Definition DeleteDeviceGroup (ctx : Context) (id : string) : Queries unit :=
  on_error
    (Transaction (
      _ ← DeleteAssignmentsForTarget ASSIGNMENT_TARGET_TYPE_DEVICE_GROUP id;
      rows ← Queries.DeleteDeviceGroup id;
      _ ← require_one rows;
      audit ctx AUDIT_EVENT_TYPE_DEVICE_GROUP_DELETED AUDIT_STREAM_TYPE_DEVICE_GROUP id
        AUDIT_ACTOR_TYPE_USER EmptyString))
    (not_found_or_internal "device group" "delete device group").

Definition requireDeviceAndGroup (deviceID groupID : string) : Queries unit :=
  _ ← on_error (Queries.GetDeviceGroup groupID)
        (not_found_or_internal "device group" "get device group");
  _ ← on_error (Queries.GetDevice deviceID) (not_found_or_internal "device" "get device");
  mret tt.

Definition AddDeviceToGroup (ctx : Context) (groupID deviceID : string)
    : Queries DeviceGroupMessage :=
  on_error
    (Transaction (
      _ ← requireDeviceAndGroup deviceID groupID;
      _ ← Queries.AddDeviceToGroup groupID deviceID;
      _ ← TouchDeviceGroup groupID;
      group ← Queries.GetDeviceGroup groupID;
      _ ← audit ctx AUDIT_EVENT_TYPE_DEVICE_GROUP_MEMBER_ADDED AUDIT_STREAM_TYPE_DEVICE_GROUP
            groupID AUDIT_ACTOR_TYPE_USER EmptyString;
      mret (groupRowProto group)))
    (fun err =>
      match as_connect err with
      | Some (c, msg) => fail (ErrConnect c msg)
      | None =>
          if IsConflict err then fail (rpcConflict "device group member")
          else fail (internal "add device to group" err)
      end).

Definition RemoveDeviceFromGroup (ctx : Context) (groupID deviceID : string)
    : Queries DeviceGroupMessage :=
  on_error
    (Transaction (
      rows ← Queries.RemoveDeviceFromGroup groupID deviceID;
      _ ← require_one rows;
      _ ← TouchDeviceGroup groupID;
      group ← Queries.GetDeviceGroup groupID;
      _ ← audit ctx AUDIT_EVENT_TYPE_DEVICE_GROUP_MEMBER_REMOVED AUDIT_STREAM_TYPE_DEVICE_GROUP
            groupID AUDIT_ACTOR_TYPE_USER EmptyString;
      mret (groupRowProto group)))
    (not_found_or_internal "device group member" "remove device from group").

(** ** Invariant and atomicity, handler by handler *)

Lemma registrationToken_preserves I : preserves I registrationToken.
Proof. unfold registrationToken. preserve. Qed.

Lemma deviceStatus_preserves I device : preserves I (deviceStatus device).
Proof. unfold deviceStatus. preserve. Qed.

Hint Resolve registrationToken_preserves deviceStatus_preserves : preserve.

Lemma deviceProto_preserves I device : preserves I (deviceProto device).
Proof. unfold deviceProto. preserve. Qed.

Lemma requireDeviceAndGroup_preserves I a b : preserves I (requireDeviceAndGroup a b).
Proof. unfold requireDeviceAndGroup. preserve. Qed.

Hint Resolve deviceProto_preserves requireDeviceAndGroup_preserves : preserve.

Lemma groupMutation_preserves ctx id op mutate :
  preserves WellFormed mutate -> preserves WellFormed (groupMutation ctx id op mutate).
Proof. intros Hm. unfold groupMutation, Transaction. preserve. Qed.

(** The assignments that name the device are gone before the device is. *)
Lemma DeleteDevice_preserves ctx id : preserves WellFormed (DeleteDevice ctx id).
Proof.
  apply preserves_handler; [|intros e; preserve].
  eapply triple_bind; [eapply triple_conseq;
    [apply DeleteAssignmentsForTarget_clears; preserve|done|intros ? ? Hd; exact Hd|done]|].
  intros u. eapply triple_bind.
  - eapply triple_conseq; [apply DeleteDevice_wf|done|intros ? ? Hd; exact Hd|done].
  - intros rows. apply preserves_weak. preserve.
Qed.

Lemma DeleteDevice_atomic ctx id : atomic (DeleteDevice ctx id).
Proof. unfold DeleteDevice, Transaction. atomically. Qed.

Lemma DeleteDeviceGroup_preserves ctx id : preserves WellFormed (DeleteDeviceGroup ctx id).
Proof.
  apply preserves_handler; [|intros e; preserve].
  eapply triple_bind; [eapply triple_conseq;
    [apply DeleteAssignmentsForTarget_clears; preserve|done|intros ? ? Hd; exact Hd|done]|].
  intros u. eapply triple_bind.
  - eapply triple_conseq; [apply DeleteDeviceGroup_wf|done|intros ? ? Hd; exact Hd|done].
  - intros rows. apply preserves_weak. preserve.
Qed.

Lemma DeleteDeviceGroup_atomic ctx id : atomic (DeleteDeviceGroup ctx id).
Proof. unfold DeleteDeviceGroup, Transaction. atomically. Qed.

Lemma ListDevices_preserves ctx page_size page_token : preserves WellFormed (ListDevices ctx page_size page_token).
Proof. unfold ListDevices, Transaction. preserve. Qed.

Lemma ListDevices_atomic ctx page_size page_token : atomic (ListDevices ctx page_size page_token).
Proof. unfold ListDevices, Transaction. atomically. Qed.

Lemma GetDevice_preserves ctx id : preserves WellFormed (GetDevice ctx id).
Proof. unfold GetDevice, Transaction. preserve. Qed.

Lemma GetDevice_atomic ctx id : atomic (GetDevice ctx id).
Proof. unfold GetDevice, Transaction. atomically. Qed.

Lemma CreateToken_preserves ctx name max_uses expires_at : preserves WellFormed (CreateToken ctx name max_uses expires_at).
Proof. unfold CreateToken, Transaction. preserve. Qed.

Lemma CreateToken_atomic ctx name max_uses expires_at : atomic (CreateToken ctx name max_uses expires_at).
Proof. unfold CreateToken, Transaction. atomically. Qed.

Lemma ListTokens_preserves ctx page_size page_token : preserves WellFormed (ListTokens ctx page_size page_token).
Proof. unfold ListTokens, Transaction. preserve. Qed.

Lemma ListTokens_atomic ctx page_size page_token : atomic (ListTokens ctx page_size page_token).
Proof. unfold ListTokens, Transaction. atomically. Qed.

Lemma RenameToken_preserves ctx id name : preserves WellFormed (RenameToken ctx id name).
Proof. unfold RenameToken, Transaction. preserve. Qed.

Lemma RenameToken_atomic ctx id name : atomic (RenameToken ctx id name).
Proof. unfold RenameToken, Transaction. atomically. Qed.

Lemma DeleteToken_preserves ctx id : preserves WellFormed (DeleteToken ctx id).
Proof. unfold DeleteToken, Transaction. preserve. Qed.

Lemma DeleteToken_atomic ctx id : atomic (DeleteToken ctx id).
Proof. unfold DeleteToken, Transaction. atomically. Qed.

Lemma CreateDeviceGroup_preserves ctx name description : preserves WellFormed (CreateDeviceGroup ctx name description).
Proof. unfold CreateDeviceGroup, Transaction. preserve. Qed.

Lemma CreateDeviceGroup_atomic ctx name description : atomic (CreateDeviceGroup ctx name description).
Proof. unfold CreateDeviceGroup, Transaction. atomically. Qed.

Lemma GetDeviceGroup_preserves ctx id : preserves WellFormed (GetDeviceGroup ctx id).
Proof. unfold GetDeviceGroup, Transaction. preserve. Qed.

Lemma GetDeviceGroup_atomic ctx id : atomic (GetDeviceGroup ctx id).
Proof. unfold GetDeviceGroup, Transaction. atomically. Qed.

Lemma ListDeviceGroups_preserves ctx page_size page_token : preserves WellFormed (ListDeviceGroups ctx page_size page_token).
Proof. unfold ListDeviceGroups, Transaction. preserve. Qed.

Lemma ListDeviceGroups_atomic ctx page_size page_token : atomic (ListDeviceGroups ctx page_size page_token).
Proof. unfold ListDeviceGroups, Transaction. atomically. Qed.

Lemma ListDeviceGroupsForDevice_preserves ctx deviceID : preserves WellFormed (ListDeviceGroupsForDevice ctx deviceID).
Proof. unfold ListDeviceGroupsForDevice, Transaction. preserve. Qed.

Lemma ListDeviceGroupsForDevice_atomic ctx deviceID : atomic (ListDeviceGroupsForDevice ctx deviceID).
Proof. unfold ListDeviceGroupsForDevice, Transaction. atomically. Qed.

Lemma RenameDeviceGroup_preserves ctx id name : preserves WellFormed (RenameDeviceGroup ctx id name).
Proof. unfold RenameDeviceGroup. apply groupMutation_preserves. preserve. Qed.

Lemma RenameDeviceGroup_atomic ctx id name : atomic (RenameDeviceGroup ctx id name).
Proof. unfold RenameDeviceGroup, groupMutation, Transaction. atomically. Qed.

Lemma SetDeviceGroupDescription_preserves ctx id description : preserves WellFormed (SetDeviceGroupDescription ctx id description).
Proof. unfold SetDeviceGroupDescription. apply groupMutation_preserves. preserve. Qed.

Lemma SetDeviceGroupDescription_atomic ctx id description : atomic (SetDeviceGroupDescription ctx id description).
Proof. unfold SetDeviceGroupDescription, groupMutation, Transaction. atomically. Qed.

Lemma AddDeviceToGroup_preserves ctx groupID deviceID : preserves WellFormed (AddDeviceToGroup ctx groupID deviceID).
Proof. unfold AddDeviceToGroup, Transaction. preserve. Qed.

Lemma AddDeviceToGroup_atomic ctx groupID deviceID : atomic (AddDeviceToGroup ctx groupID deviceID).
Proof. unfold AddDeviceToGroup, Transaction. atomically. Qed.

Lemma RemoveDeviceFromGroup_preserves ctx groupID deviceID : preserves WellFormed (RemoveDeviceFromGroup ctx groupID deviceID).
Proof. unfold RemoveDeviceFromGroup, Transaction. preserve. Qed.

Lemma RemoveDeviceFromGroup_atomic ctx groupID deviceID : atomic (RemoveDeviceFromGroup ctx groupID deviceID).
Proof. unfold RemoveDeviceFromGroup, Transaction. atomically. Qed.

End devices.

#[export] Hint Resolve registrationToken_preserves deviceStatus_preserves deviceProto_preserves
  requireDeviceAndGroup_preserves groupMutation_preserves DeleteDevice_preserves
  DeleteDeviceGroup_preserves ListDevices_preserves GetDevice_preserves CreateToken_preserves ListTokens_preserves
  RenameToken_preserves DeleteToken_preserves CreateDeviceGroup_preserves
  GetDeviceGroup_preserves ListDeviceGroups_preserves ListDeviceGroupsForDevice_preserves
  RenameDeviceGroup_preserves SetDeviceGroupDescription_preserves AddDeviceToGroup_preserves
  RemoveDeviceFromGroup_preserves : preserve.
#[export] Hint Resolve DeleteDevice_atomic DeleteDeviceGroup_atomic ListDevices_atomic GetDevice_atomic CreateToken_atomic ListTokens_atomic
  RenameToken_atomic DeleteToken_atomic CreateDeviceGroup_atomic GetDeviceGroup_atomic
  ListDeviceGroups_atomic ListDeviceGroupsForDevice_atomic RenameDeviceGroup_atomic
  SetDeviceGroupDescription_atomic AddDeviceToGroup_atomic RemoveDeviceFromGroup_atomic : atomic.

(** ** Deleting a device *)

(** The device and everything that names it are gone; nothing else is, and the audit
    log has grown. *)
Definition device_erased (id : string) (d d' : Database) : Prop :=
  is_Some (devices d !! id) /\ devices d' = delete id (devices d) /\
  (forall k a, assignments d' !! k = Some a <-> assignments d !! k = Some a /\
     ~ (Assignment_TargetType a = ASSIGNMENT_TARGET_TYPE_DEVICE /\ Assignment_TargetID a = id)) /\
  (forall g x, (g, x) ∈ device_group_members d' <-> (g, x) ∈ device_group_members d /\ x <> id) /\
  (forall k r, execution_results d' !! k = Some r <->
     execution_results d !! k = Some r /\ ExecutionResult_DeviceID r <> id) /\
  d' = set_audit_events (audit_events d') (set_devices (devices d') (set_assignments (assignments d')
         (set_device_group_members (device_group_members d')
           (set_execution_results (execution_results d') d)))).

(** Deleting a device erases it: the device, its own assignments, its group
    memberships and its results are gone, every other row stays, and the deletion
    is in the audit log.  If it fails nothing changed. *)
Theorem DeleteDevice_erases ctx id d0 :
  triple (fun d => d = d0) (DeleteDevice ctx id) (fun _ d => device_erased id d0 d) (fun _ d => d = d0).
Proof.
  unfold DeleteDevice, Transaction. apply triple_handler.
  - step. step. step.
    last_step. intros _ d' (d & [(d1 & (t & d2 & -> & [=]) & Hdel) ->] & Ha). subst d1.
    destruct Hdel as [(_ & Hdev & ->)|[? _]]; [|done]. unfold same_but_audit in Ha.
    rewrite Ha. unfold device_erased. simpl in *. split_and!; [done|done| | | |done].
    + intros k asn. by rewrite map_lookup_filter_Some.
    + intros g x. rewrite elem_of_filter. simpl. tauto.
    + intros k row. by rewrite map_lookup_filter_Some.
  - intros e. unfold not_found_or_internal. destruct (IsNotFound e); by apply triple_fail.
Qed.
