(* ===== verification/Enrollment.v ===== *)
(** * Enrollment and certificate renewal ([server/internal/core/enrollment.go])

    A device registers with a registration token and a certificate request; its
    identity is the request's Ed25519 key.  Later it renews its certificate over
    its authenticated connection: the new certificate stays pending until the
    device connects with it ([AgentStream.authenticateAgent]). *)

From S2P Require Import Prelude Hash Engine Pki Proto Schema Queries QueriesFacts QueriesFrame.
From S2P Require Import Service Demo Devices.

Open Scope Z_scope.

Definition errCertificateNotRecognized : error := ErrVar "certificate not recognized".
Definition errInvalidCertificateRequest : error := ErrVar "invalid certificate signing request".

(** The response of [Register]. *)
Record RegisterResponse := {
  Register_DeviceId : string;
  Register_CaCert : bytes;
  Register_Certificate : bytes;
  Register_ControlUrl : string;
}.

(** [if store.IsNotFound(err) { return errors.New(...) }]. *)
Definition consumed_concurrently {A} (err : error) : Queries A :=
  if IsNotFound err then fail (ErrNew "registration token was consumed concurrently")
  else fail err.

(** Spends one use of the token, whose row was read before the transaction
    began. *)
Definition consumeRegistrationToken (token : RegistrationToken) (now : time) : Queries unit :=
  if (0 <? RegistrationToken_MaxUses token)
     && (RegistrationToken_MaxUses token <=? int32 (RegistrationToken_CurrentUses token + 1))
  then
    _ ← on_error (ConsumeFinalRegistrationToken (RegistrationToken_ID token) now)
          consumed_concurrently;
    mret tt
  else
    consumed ← on_error (ConsumeRegistrationToken (RegistrationToken_ID token) now)
                 consumed_concurrently;
    if (0 <? RegistrationToken_MaxUses consumed)
       && (RegistrationToken_MaxUses consumed <=? RegistrationToken_CurrentUses consumed)
    then _ ← DeleteRegistrationToken (RegistrationToken_ID consumed); mret tt
    else mret tt.

(** The transaction of [Register]: the token's use, the device, the audit record. *)
Definition registerTransaction (token : RegistrationToken) (now : time)
    (deviceID hostname agent_version : string) (identityKey certificate : bytes) (serial : string)
    (notAfter : time) : Queries unit :=
  _ ← consumeRegistrationToken token now;
  _ ← CreateDevice deviceID hostname agent_version identityKey certificate serial notAfter now;
  id ← ulid_make;
  CreateAuditEvent id AUDIT_EVENT_TYPE_DEVICE_REGISTERED AUDIT_STREAM_TYPE_DEVICE
    deviceID AUDIT_ACTOR_TYPE_REGISTRATION_TOKEN (RegistrationToken_ID token) now.

Section enrollment.
  Context (service : Service) (ca : CA).
  Context `{X509}.

Definition Register (ctx : Context) (token : string) (csr : bytes) (hostname agent_version : string)
    : Queries RegisterResponse :=
  let response id certificate := {|
    Register_DeviceId := id; Register_CaCert := CACertPEM ca;
    Register_Certificate := certificate; Register_ControlUrl := agentURL service |} in
  match EnrollmentIdentityFromCSR csr with
  | Err _ => fail (ErrConnect CodeInvalidArgument "invalid certificate signing request")
  | Ok identityKey =>
      existing ← attempt (FindDeviceByIdentityKey identityKey);
      match existing with
      | Ok existing => mret (response (Device_ID existing) (Device_ActiveCertificatePem existing))
      | Err err =>
          if negb (IsNotFound err) then fail (internal "find enrollment device" err)
          else
            at_ ← now;
            token ← on_error (GetUsableRegistrationToken (tokenHash token) at_) (fun err =>
              if IsNotFound err
              then fail (ErrConnect CodePermissionDenied "invalid registration token")
              else fail (internal "get registration token" err));
            deviceID ← ulid_make;
            certificate ← on_error (IssueCertificateFromCSR ca deviceID csr) (fun _ =>
              fail (ErrConnect CodeInvalidArgument "invalid certificate signing request"));
            serial ← on_error (lift (SerialFromPEM (CertPEM certificate)))
              (fun err => fail (internal "read issued certificate" err));
            _ ← on_error
              (Transaction (registerTransaction token at_ deviceID hostname agent_version
                 identityKey (CertPEM certificate) serial (NotAfter certificate)))
              (fun err =>
                if IsConflict err
                then fail (ErrConnect CodePermissionDenied "invalid registration token")
                else fail (internal "register device" err));
            mret (response deviceID (CertPEM certificate))
      end
  end.

(** The transaction of [RenewCertificate]. *)
Definition renewTransaction (ctx : Context) (deviceID peerSerial : string) (csr : bytes)
    : Queries bytes :=
  device ← on_error (Queries.GetDevice deviceID) (fun err =>
    if IsNotFound err then fail errCertificateNotRecognized
    else fail (ErrWrap "get renewal device" err));
  if negb (bool_decide (Device_ActiveCertSerial device = peerSerial))
  then fail errCertificateNotRecognized
  else match Device_PendingCertSerial device with
  | Some _ =>
      match Device_PendingCertExpiresAt device, Device_PendingCertificatePem device with
      | Some _, _ :: _ => mret (Device_PendingCertificatePem device)
      | _, _ => fail (ErrNew "pending certificate is incomplete")
      end
  | None =>
      issued ← on_error (IssueCertificateFromCSR ca deviceID csr)
        (fun _ => fail errInvalidCertificateRequest);
      serial ← on_error (lift (SerialFromPEM (CertPEM issued)))
        (fun err => fail (ErrWrap "read renewed certificate" err));
      rows ← on_error
        (SetPendingDeviceCertificate (CertPEM issued) (Some serial) (Some (NotAfter issued))
           deviceID peerSerial)
        (fun err => fail (ErrWrap "store renewed certificate" err));
      _ ← (if rows =? 1 then mret tt else fail errCertificateNotRecognized);
      _ ← audit ctx AUDIT_EVENT_TYPE_DEVICE_CERTIFICATE_RENEWED AUDIT_STREAM_TYPE_DEVICE deviceID
            AUDIT_ACTOR_TYPE_DEVICE deviceID;
      mret (CertPEM issued)
  end.

Definition RenewCertificate (ctx : Context) (csr : bytes) : Queries bytes :=
  let refused := fail (ErrConnect CodePermissionDenied "certificate not recognized") in
  match PeerCertificateFromContext ctx, DeviceIDFromContext ctx with
  | Some peer, Some deviceID =>
      match PeerClassFromCert peer, AssertCSRMatchesCert peer csr with
      | Ok peerClass, Ok _ =>
          if negb (bool_decide (peerClass = PeerClassAgent)) then refused
          else match SerialFromCert peer with
          | Err _ => refused
          | Ok peerSerial =>
              on_error (Transaction (renewTransaction ctx deviceID peerSerial csr))
                (fun err =>
                  if errors_is errCertificateNotRecognized err
                  then fail (ErrConnect CodePermissionDenied "certificate not recognized")
                  else if errors_is errInvalidCertificateRequest err
                  then fail (ErrConnect CodeInvalidArgument "invalid certificate signing request")
                  else fail (internal "renew certificate" err))
          end
      | _, _ => refused
      end
  | _, _ => refused
  end.
End enrollment.

(** ** Invariant and atomicity *)

Lemma consumed_concurrently_preserves {A} I err : preserves I (consumed_concurrently (A := A) err).
Proof. unfold consumed_concurrently. preserve. Qed.

#[export] Hint Resolve consumed_concurrently_preserves : preserve.

Lemma consumeRegistrationToken_preserves tok at_ :
  preserves WellFormed (consumeRegistrationToken tok at_).
Proof. unfold consumeRegistrationToken. preserve. Qed.

Lemma consumeRegistrationToken_frame I tok at_ :
  stable I set_registration_tokens -> preserves I (consumeRegistrationToken tok at_).
Proof. intros HI. unfold consumeRegistrationToken. preserve. Qed.

#[export] Hint Resolve consumeRegistrationToken_preserves consumeRegistrationToken_frame : preserve.

Section handlers.
Context (service : Service) (ca : CA).
Context `{X509}.

Lemma Register_preserves ctx token csr hostname version :
  preserves WellFormed (Register service ca ctx token csr hostname version).
Proof. unfold Register, registerTransaction, Transaction. cbv zeta. preserve. Qed.

Lemma Register_atomic ctx token csr hostname version :
  atomic (Register service ca ctx token csr hostname version).
Proof. unfold Register, Transaction. cbv zeta. atomically. Qed.

Lemma RenewCertificate_preserves ctx csr : preserves WellFormed (RenewCertificate ca ctx csr).
Proof. unfold RenewCertificate, renewTransaction, Transaction. cbv zeta. preserve. Qed.

Lemma RenewCertificate_atomic ctx csr : atomic (RenewCertificate ca ctx csr).
Proof. unfold RenewCertificate, Transaction. cbv zeta. atomically. Qed.
End handlers.

#[export] Hint Resolve Register_preserves RenewCertificate_preserves : preserve.
#[export] Hint Resolve Register_atomic RenewCertificate_atomic : atomic.

(** ** The uses of a registration token *)

(** How many more devices the token admits: [None] for a token without limit. *)
Definition remaining (d : Database) (id : string) : option Z :=
  match registration_tokens d !! id with
  | None => Some 0
  | Some r =>
      if RegistrationToken_MaxUses r =? 0 then None
      else Some (Z.max 0 (RegistrationToken_MaxUses r - RegistrationToken_CurrentUses r))
  end.

(** One use of the usable token [id] was spent, at instant [at_]; a token without
    a use left is gone.  Nothing else changed. *)
Definition spent (id : string) (at_ : time) (d d' : Database) : Prop :=
  exists r m, registration_tokens d !! id = Some r /\ token_usable at_ r = true /\
    d' = set_registration_tokens m d /\
    (forall k, k <> id -> m !! k = registration_tokens d !! k) /\
    match m !! id with
    | None => 0 < RegistrationToken_MaxUses r <= RegistrationToken_CurrentUses r + 1
    | Some r' =>
        RegistrationToken_CurrentUses r' = RegistrationToken_CurrentUses r + 1 /\
        RegistrationToken_MaxUses r' = RegistrationToken_MaxUses r /\
        ~ (0 < RegistrationToken_MaxUses r <= RegistrationToken_CurrentUses r + 1)
    end.

Lemma spent_remaining id at_ d d' :
  spent id at_ d d' ->
  match remaining d id with
  | None => True
  | Some n => 1 <= n /\ remaining d' id = Some (n - 1)
  end.
Proof.
  intros (r & m & Hr & Hu & -> & _ & Hm). unfold remaining. simpl. rewrite Hr.
  unfold token_usable in Hu. apply andb_true_iff in Hu as [_ Hu].
  destruct (Z.eqb_spec (RegistrationToken_MaxUses r) 0) as [|Hne]; [done|].
  simpl in Hu. apply Z.ltb_lt in Hu. destruct (m !! id) as [r'|].
  - destruct Hm as (Hc & -> & Hn). destruct (Z.eqb_spec (RegistrationToken_MaxUses r) 0); [done|].
    split; [lia|]. f_equal. lia.
  - split; [lia|]. f_equal. lia.
Qed.

Lemma spent_final P id at_ :
  triple P (on_error (ConsumeFinalRegistrationToken id at_) consumed_concurrently)
    (fun _ d' => exists d, P d /\ spent id at_ d d') (fun _ _ => True).
Proof.
  apply triple_on_error with (E' := fun _ _ => True); [|intros e env w _; unfold consumed_concurrently;
    by destruct (IsNotFound e)].
  eapply triple_bind; [apply fwd_sql|]. intros tok. cbv beta.
  eapply triple_conseq; [apply fwd_scan_token|intros ? Hd; exact Hd| |done]. cbv beta.
  intros _ d' [(t & d & HP & Hf) ->]. exists d. split; [done|]. revert Hf.
  destruct (registration_tokens d !! id) as [r|] eqn:Hl; [|done].
  destruct (token_usable at_ r) eqn:Hu; simpl; [|done].
  destruct (Z.ltb_spec 0 (RegistrationToken_MaxUses r)); simpl; [|done].
  destruct (Z.leb_spec (RegistrationToken_MaxUses r) (RegistrationToken_CurrentUses r + 1)); [|done].
  intros [= _ <-]. exists r, (delete id (registration_tokens d)).
  split_and!; [done..| |].
  - intros k Hk. by rewrite lookup_delete_ne.
  - rewrite lookup_delete_eq. lia.
Qed.

(** Whatever snapshot of the token the caller read before its transaction, a
    consumption that succeeds spends exactly one use of the token as it is now. *)
Lemma consume_spends P tok at_ :
  (forall d, P d -> keyed RegistrationToken_ID (registration_tokens d)) ->
  triple P (consumeRegistrationToken tok at_)
    (fun _ d' => exists d, P d /\ spent (RegistrationToken_ID tok) at_ d d') (fun _ _ => True).
Proof.
  intros Hkeyed. unfold consumeRegistrationToken. destruct (_ && _).
  - eapply triple_bind; [apply spent_final|]. intros u. by apply triple_ret.
  - eapply (triple_bind _ _ _ (fun r' d' => exists t d r, P d /\
      registration_tokens d !! RegistrationToken_ID tok = Some r /\ token_usable at_ r = true /\
      r' = {| RegistrationToken_ID := RegistrationToken_ID r;
              RegistrationToken_ValueHash := RegistrationToken_ValueHash r;
              RegistrationToken_Name := RegistrationToken_Name r;
              RegistrationToken_MaxUses := RegistrationToken_MaxUses r;
              RegistrationToken_CurrentUses := RegistrationToken_CurrentUses r + 1;
              RegistrationToken_ExpiresAt := RegistrationToken_ExpiresAt r;
              RegistrationToken_CreatedAt := RegistrationToken_CreatedAt r;
              RegistrationToken_UpdatedAt := t |} /\
      d' = set_registration_tokens (<[RegistrationToken_ID tok := r']> (registration_tokens d)) d)).
    { apply triple_on_error with (E' := fun _ _ => True); [|intros e env w _;
        unfold consumed_concurrently; by destruct (IsNotFound e)].
      eapply triple_bind; [apply fwd_update_row|]. intros tok'. cbv beta.
      eapply triple_conseq; [apply fwd_scan_token|intros ? Hd; exact Hd| |done]. cbv beta.
      intros ? d' [(t & d & r & HP & Hl & Hu & _ & -> & ->) ->]. by exists t, d, r. }
    intros r'. cbv beta.
    destruct ((0 <? RegistrationToken_MaxUses r') &&
              (RegistrationToken_MaxUses r' <=? RegistrationToken_CurrentUses r')) eqn:Hfull.
    + eapply triple_bind; [apply fwd_delete_row|]. intros n. apply triple_ret.
      intros d' (d1 & (t & d & r & HP & Hl & Hu & Hr' & ->) & Hdel). exists d. split; [done|].
      assert (RegistrationToken_ID r' = RegistrationToken_ID tok) as Hid.
      { rewrite Hr'. simpl. by apply (Hkeyed d HP). }
      rewrite Hid in Hdel. simpl in Hdel. rewrite lookup_insert_eq in Hdel.
      destruct Hdel as [(_ & _ & ->)|(_ & Hno & _)]; [|done].
      exists r, (delete (RegistrationToken_ID tok) (registration_tokens d)). rewrite delete_insert_eq.
      split_and!; [done|done|done| |].
      * intros k Hk. by rewrite lookup_delete_ne.
      * rewrite lookup_delete_eq. subst r'. simpl in Hfull.
        apply andb_true_iff in Hfull as [?%Z.ltb_lt ?%Z.leb_le]. lia.
    + apply triple_ret. intros d' (t & d & r & HP & Hl & Hu & Hr' & ->). exists d. split; [done|].
      exists r, (<[RegistrationToken_ID tok := r']> (registration_tokens d)).
      split_and!; [done|done|done| |].
      * intros k Hk. by rewrite lookup_insert_ne.
      * rewrite lookup_insert_eq. subst r'. simpl in *. split_and!; [done|done|].
        apply andb_false_iff in Hfull as [?%Z.ltb_ge|?%Z.leb_gt]; lia.
Qed.

(** What a successful registration did. *)
Definition registered (token : RegistrationToken) (at_ : time) (deviceID : string)
    (identityKey certificate : bytes) (serial : string) (d d' : Database) : Prop :=
  exists d1 dev, spent (RegistrationToken_ID token) at_ d d1 /\
    devices d !! deviceID = None /\
    devices d' = <[deviceID := dev]> (devices d) /\
    registration_tokens d' = registration_tokens d1 /\
    Device_ID dev = deviceID /\ Device_IdentityPublicKey dev = identityKey /\
    Device_ActiveCertificatePem dev = certificate /\ Device_ActiveCertSerial dev = serial /\
    Device_PendingCertSerial dev = None.

Lemma registerTransaction_spec P tok at_ deviceID host version key cert serial na :
  (forall d, P d -> keyed RegistrationToken_ID (registration_tokens d)) ->
  triple P (registerTransaction tok at_ deviceID host version key cert serial na)
    (fun _ d' => exists d, P d /\ registered tok at_ deviceID key cert serial d d') (fun _ _ => True).
Proof.
  intros Hk. unfold registerTransaction.
  eapply triple_bind; [by apply consume_spends|]. intros u. cbv beta.
  eapply triple_bind; [apply fwd_insert_row|]. intros dev. cbv beta.
  apply triple_bind_draw. intros id.
  last_step.
  intros _ d' (d2 & (t & d1 & (d & HP & Hs) & Hnone & _ & Hdev & ->) & Ha).
  exists d. split; [done|]. exists d1, dev. pose proof Hs as (r & m & _ & _ & Hd1 & _).
  unfold same_but_audit in Ha. rewrite Ha, Hd1 in *. simpl in *. subst dev. by split_and!.
Qed.

(** At most [n] uses of the token remain. *)
Definition at_most (id : string) (n : Z) (d : Database) : Prop :=
  WellFormed d /\ exists k, remaining d id = Some k /\ k <= n.

(** The enrollment transactions of one token, and everything else. *)
Inductive event :=
| Enroll (tok : RegistrationToken) (at_ : time) (deviceID host version : string)
    (key cert : bytes) (serial : string) (na : time)
| Other (m : Queries unit).

(** Runs the events one after the other, as SQLite serialises them, and counts the
    enrollments that succeeded. *)
Fixpoint run_events (evs : list event) (env : Env) (w : World Database) : Z * World Database :=
  match evs with
  | [] => (0, w)
  | Enroll tok at_ deviceID host version key cert serial na :: evs =>
      match Transaction (registerTransaction tok at_ deviceID host version key cert serial na) env w with
      | (Ok _, w') => let (n, w'') := run_events evs env w' in (n + 1, w'')
      | (Err _, w') => run_events evs env w'
      end
  | Other m :: evs => run_events evs env (m env w).2
  end.

Lemma remaining_nonneg d id n : remaining d id = Some n -> 0 <= n.
Proof.
  unfold remaining. destruct (registration_tokens d !! id) as [r|]; [|intros [= <-]; lia].
  destruct (_ =? 0); [done|]. intros [= <-]. lia.
Qed.

Lemma enroll_at_most id n tok at_ deviceID host version key cert serial na :
  RegistrationToken_ID tok = id ->
  triple (at_most id n)
    (Transaction (registerTransaction tok at_ deviceID host version key cert serial na))
    (fun _ => at_most id (n - 1)) (fun _ => at_most id n).
Proof.
  intros Hid. eapply (triple_transaction _ _ _ _ _ (fun _ _ => True)); [|done].
  eapply triple_conseq.
  - apply (triple_and (at_most id n) WellFormed).
    + apply (registerTransaction_spec (at_most id n)). intros d [Hwf _]. apply Hwf.
    + assert (preserves WellFormed
        (registerTransaction tok at_ deviceID host version key cert serial na)) as Hp
        by (unfold registerTransaction; preserve). exact Hp.
  - intros d Hd. split; [done|apply Hd].
  - intros u d [(d0 & [_ (k & Hk & Hle)] & (d1 & dev & Hs & _ & _ & Htok & _)) Hwf].
    split; [done|]. apply spent_remaining in Hs. rewrite Hid, Hk in Hs. destruct Hs as [? Hs].
    exists (k - 1). split; [|lia]. unfold remaining in *. by rewrite Htok.
  - done.
Qed.

(** C2: No interleaving of enrollments lets a limited registration token admit
    more devices than its uses.  Each enrollment runs its transaction with any
    snapshot of the token row, read at any earlier time; between them run any
    other transactions that do not give the token uses back.  The number of
    successful enrollments and what remains of the token never exceed what
    remained at the start. *)
Theorem registration_token_never_overused id n evs env w :
  (forall tok at_ deviceID host version key cert serial na,
     Enroll tok at_ deviceID host version key cert serial na ∈ evs ->
     RegistrationToken_ID tok = id) ->
  (forall m, Other m ∈ evs -> forall k, preserves (at_most id k) m) ->
  at_most id n (w_db w) ->
  let (enrolled, w') := run_events evs env w in
  at_most id (n - enrolled) (w_db w') /\ 0 <= enrolled <= n.
Proof.
  revert n w. induction evs as [|ev evs IH]; simpl; intros n w Henr Hoth Hw.
  - rewrite Z.sub_0_r. destruct Hw as [? (k & Hk & ?)]. pose proof (remaining_nonneg _ _ _ Hk).
    split; [by split; eauto|lia].
  - destruct ev as [tok at_ deviceID host version key cert serial na|m].
    + assert (RegistrationToken_ID tok = id) as Hid by (eapply Henr; by left).
      pose proof (enroll_at_most id n _ at_ deviceID host version key cert serial na Hid env w Hw) as Ht.
      destruct (Transaction _ env w) as [[u|e] w1].
      * specialize (IH (n - 1) w1). destruct (run_events evs env w1) as [c w2].
        destruct IH as [[Hwf (k & Hk & Hle)] Hc]; [intros; eapply Henr; by right|
          intros; apply Hoth; by right|done|].
        split; [|lia]. split; [done|]. exists k. split; [done|lia].
      * apply IH; [intros; eapply Henr; by right|intros; apply Hoth; by right|done].
    + apply IH; [intros; eapply Henr; by right|intros; apply Hoth; by right|].
      assert (preserves (at_most id n) m) as Hm by (apply Hoth; by left).
      specialize (Hm env w Hw). by destruct (m env w) as [[]].
Qed.

(** ** Registration *)

Section registration.
Context (service : Service) (ca : CA).
Context `{!X509, !X509Laws}.

(** A device that is already enrolled gets its certificate again. *)
Definition answered_again (key : bytes) (resp : RegisterResponse) (d : Database) : Prop :=
  exists dev, devices d !! Register_DeviceId resp = Some dev /\
    Device_IdentityPublicKey dev = key /\
    Register_Certificate resp = Device_ActiveCertificatePem dev.

(** A new device is enrolled with a token whose value the caller knows. *)
Definition newly_enrolled (key : bytes) (token : string) (resp : RegisterResponse)
    (d d' : Database) : Prop :=
  exists tok at_ cert serial,
    (forall id dev, devices d !! id = Some dev -> Device_IdentityPublicKey dev <> key) /\
    registration_tokens d !! RegistrationToken_ID tok = Some tok /\
    RegistrationToken_ValueHash tok = tokenHash token /\
    issued_for (Register_DeviceId resp) key cert /\ SerialFromPEM (CertPEM cert) = Ok serial /\
    Register_Certificate resp = CertPEM cert /\
    registered tok at_ (Register_DeviceId resp) key (CertPEM cert) serial d d'.

Lemma find_token_spec d0 hash at_ :
  WellFormed d0 ->
  triple (fun d => d = d0) (GetUsableRegistrationToken hash at_)
    (fun tok d => (registration_tokens d0 !! RegistrationToken_ID tok = Some tok /\
       RegistrationToken_ValueHash tok = hash) /\ d = d0) (fun _ d => d = d0).
Proof.
  intros Hwf. eapply triple_bind.
  - eapply triple_conseq; [apply (fwd_find_row _ (fun d => d = d0))|done|intros ? ? Hd; exact Hd|by intros ? ? [-> _]].
  - intros tok. unfold scan_token. destruct (_ && _); [apply triple_ret|apply triple_fail]; [|by intros ? [-> _]].
    intros d [-> Hin]. split; [|done]. apply elem_of_select_where in Hin as [Hp [k Hk]].
    apply andb_true_iff in Hp as [Hh%bool_decide_eq_true _].
    by rewrite (wf_tokens d0 Hwf _ _ Hk).
Qed.

Lemma Register_spec ctx token csr host version key d0 :
  WellFormed d0 -> EnrollmentIdentityFromCSR csr = Ok key ->
  triple (fun d => d = d0) (Register service ca ctx token csr host version)
    (fun resp d => (answered_again key resp d0 /\ d = d0) \/ newly_enrolled key token resp d0 d)
    (fun _ d => d = d0).
Proof.
  intros Hwf Hkey. unfold Register. cbv zeta. rewrite Hkey.
  eapply triple_bind.
  { eapply (triple_attempt _ _ (fun r d => match r with
      | Ok dev => answered_again key (Build_RegisterResponse (Device_ID dev) (CACertPEM ca)
                    (Device_ActiveCertificatePem dev) (agentURL service)) d0
      | Err e => IsNotFound e = true -> forall id dev, devices d0 !! id = Some dev ->
                    Device_IdentityPublicKey dev <> key
      end /\ d = d0)); [|intros ? ? Hd; exact Hd].
    eapply triple_conseq; [apply (fwd_find_row _ (fun d => d = d0))|done|..].
    - intros dev d [-> Hin]. split; [|done]. apply elem_of_select_where in Hin as [Hp [k Hk]].
      apply bool_decide_eq_true in Hp. exists dev. simpl. by rewrite (wf_devices d0 Hwf _ _ Hk).
    - intros e d [-> Hno]. split; [|done]. intros He id dev Hl Hdk.
      assert (dev ∈ select_where (fun r => bool_decide (Device_IdentityPublicKey r = key)) (devices d0))
        as Hin by (apply elem_of_select_where; rewrite bool_decide_true by done; eauto).
      rewrite (Hno He) in Hin. by apply not_elem_of_nil in Hin. }
  intros [dev|e]; [apply triple_ret; intros d [? ->]; by left|].
  apply triple_pure. intros Hno.
  destruct (IsNotFound e); simpl; [|by apply triple_fail]. specialize (Hno eq_refl).
  apply triple_bind_draw. intros at_.
  eapply triple_bind.
  { eapply triple_on_error; [by apply find_token_spec|]. intros e'.
    destruct (IsNotFound e'); by apply triple_fail. }
  intros tok. apply triple_pure. intros [Htok Hhash].
  apply triple_bind_draw. intros deviceID.
  eapply triple_bind.
  { eapply triple_on_error; [by apply IssueCertificateFromCSR_issues|].
    intros e'. by apply triple_fail. }
  intros cert. apply triple_pure. intros (key' & Hkey' & Hcert).
  assert (key' = key) as -> by congruence.
  eapply triple_bind.
  { apply triple_on_error with (E' := fun _ d => d = d0); [|intros e'; by apply triple_fail].
    by apply (triple_lift _ _ (fun serial d => SerialFromPEM (CertPEM cert) = Ok serial /\ d = d0)). }
  intros serial. apply triple_pure. intros Hserial.
  eapply triple_bind.
  { apply triple_handler.
    - apply (registerTransaction_spec (fun d => d = d0)). intros d ->. apply Hwf.
    - intros e'. destruct (IsConflict e'); by apply triple_fail. }
  intros u. apply triple_ret. intros d (d' & -> & Hreg). right.
  exists tok, at_, cert, serial. by split_and!.
Qed.

(** What [Register] does with a valid certificate request.  A known identity
    key gets its device id and its current certificate, whatever token it sends,
    and nothing changes.  An unknown one must send the value of a stored token:
    one use of that token is spent, a device appears under a fresh id with that
    key, and the certificate returned is a client certificate for exactly that
    device and key.  On an error nothing changed. *)
Theorem Register_enrolls ctx token csr host version key d0 :
  WellFormed d0 -> EnrollmentIdentityFromCSR csr = Ok key ->
  triple (fun d => d = d0) (Register service ca ctx token csr host version)
    (fun resp d => (answered_again key resp d0 /\ d = d0) \/ newly_enrolled key token resp d0 d)
    (fun _ d => d = d0).
Proof. apply Register_spec. Qed.
End registration.
