(* ===== verification/AgentStream.v ===== *)
(** * The agent connection ([server/internal/core/agent.go], [mtls/mtls.go])

    The middleware that identifies a device by its client certificate, the
    authentication of its stream (which promotes a pending certificate), and the
    frames of the stream: heartbeats, requests for the desired policy, and action
    results, each stored at most once. *)

From S2P Require Import Prelude Hash Engine Pki Proto Schema Queries QueriesFacts QueriesFrame.
From S2P Require Import Service Demo Actions Assignments.

Open Scope Z_scope.

Definition errResultRejected : error := ErrVar "action result rejected".

(** ** The middleware *)

(** The parts of [http.Request] the middleware reads: [TLS] is [nil] or holds the
    peer's certificates. *)
Record HttpRequest := { Request_Path : string; Request_TLS : option (list X509Certificate) }.

Definition DeviceIDFromRequest (r : HttpRequest) : result string :=
  match Request_TLS r with
  | None => Err (ErrNew "no TLS connection")
  | Some [] => Err (ErrNew "no client certificate")
  | Some (cert :: _) =>
      if bool_decide (Cert_CommonName cert = EmptyString)
      then Err (ErrNew "certificate CN is empty") else Ok (Cert_CommonName cert)
  end.

Definition PeerClassFromTLS (state : option (list X509Certificate)) : result string :=
  match state with
  | None => Err (ErrNew "no TLS connection state")
  | Some [] => Err (ErrNew "no peer certificate")
  | Some (cert :: _) => PeerClassFromCert cert
  end.

(** The request is passed on with its context, or answered with a status. *)
Definition AgentMiddleware (ctx : Context) (request : HttpRequest) : Z + Context :=
  if bool_decide (Request_Path request = "/health"%string)
     || bool_decide (Request_Path request = "/ready"%string)
  then inr ctx
  else match DeviceIDFromRequest request with
  | Err _ => inl 401
  | Ok deviceID =>
      match PeerClassFromTLS (Request_TLS request), Request_TLS request with
      | Ok peerClass, Some (cert :: _) =>
          if negb (bool_decide (peerClass = PeerClassAgent)) then inl 403
          else inr (WithPeerCertificate (WithDeviceID ctx deviceID) cert)
      | _, _ => inl 403
      end
  end.

(** The agent listener admits a request, outside its two health paths, exactly
    when the first certificate of its TLS connection is an agent's and names a
    device; the handler then runs as that device, with that certificate. *)
Theorem AgentMiddleware_admits ctx request ctx' :
  Request_Path request <> "/health"%string -> Request_Path request <> "/ready"%string ->
  AgentMiddleware ctx request = inr ctx' <->
  exists cert rest, Request_TLS request = Some (cert :: rest) /\
    Cert_CommonName cert <> EmptyString /\ PeerClassFromCert cert = Ok PeerClassAgent /\
    ctx' = WithPeerCertificate (WithDeviceID ctx (Cert_CommonName cert)) cert.
Proof.
  intros Hh Hr. unfold AgentMiddleware, DeviceIDFromRequest, PeerClassFromTLS.
  rewrite !bool_decide_false by done. simpl.
  destruct (Request_TLS request) as [[|cert rest]|] eqn:Ht.
  1, 3: split; [done|by intros (? & ? & ? & _)].
  case_bool_decide as Hcn; [split; [done|by intros (? & ? & [= <- <-] & ? & _)]|].
  destruct (PeerClassFromCert cert) as [class|] eqn:Hc;
    [|split; [done|intros (? & ? & [= <- <-] & _ & ? & _); congruence]].
  case_bool_decide as Ha; simpl; [subst class|]; split.
  - intros [= <-]. by exists cert, rest.
  - intros (? & ? & [= <- <-] & _ & _ & ->). done.
  - done.
  - intros (? & ? & [= <- <-] & _ & ? & _). congruence.
Qed.

(** A certificate counts as an agent's exactly when it carries the agent URI
    [spiffe://cadestro/agent] (with or without the slash that [TrimPrefix] drops)
    and no other class under the same scheme and host. *)
Theorem PeerClassFromCert_agent cert :
  PeerClassFromCert cert = Ok PeerClassAgent <->
  (exists u, u ∈ Cert_URIs cert /\ class_of u = Some PeerClassAgent) /\
  (forall u c, u ∈ Cert_URIs cert -> class_of u = Some c -> c = PeerClassAgent).
Proof. apply peer_class_agent. Qed.

(** ** Frames *)

Record Hello := { Hello_DeviceId : option string; Hello_Hostname : string; Hello_AgentVersion : string }.

Inductive AgentPayload :=
| AgentMessage_Hello (hello : Hello)
| AgentMessage_Heartbeat
| AgentMessage_DesiredPolicyRequest
| AgentMessage_ActionResult (result : option ActionResult)
| AgentMessage_None.

Record AgentMessage := { AgentMessage_Id : option string; AgentMessage_Payload : AgentPayload }.

Inductive ServerPayload :=
| ServerMessage_Welcome (heartbeat_interval : Z)
| ServerMessage_DesiredPolicy (policy : DesiredPolicy)
| ServerMessage_ResultAck (code : ResultAckCode).

Record ServerMessage := { ServerMessage_Id : option string; ServerMessage_Payload : ServerPayload }.

Section stream.
  Context (service : Service).
  Context `{ProtoCodec Action, ProtoCodec ActionResult}.

(** ** Authentication *)

Definition authenticateAgent (ctx : Context) (hello : Hello) : Queries string :=
  let refused := fail (ErrConnect CodeUnauthenticated "authenticated device identity required") in
  match DeviceIDFromContext ctx, PeerSerialFromContext ctx with
  | Some deviceID, Some serial =>
      if negb (bool_decide (GetValue (Hello_DeviceId hello) = deviceID)) then refused
      else
        device ← on_error (Queries.GetDevice deviceID) (fun err =>
          if IsNotFound err then fail (ErrConnect CodePermissionDenied "device is not registered")
          else fail (internal "authenticate agent" err));
        if bool_decide (Device_ActiveCertSerial device = serial) then mret deviceID
        else if bool_decide (Device_PendingCertSerial device = Some serial) then
          rows ← on_error (PromotePendingDeviceCertificate deviceID (Some serial))
            (fun err => fail (internal "promote agent certificate" err));
          if rows =? 1 then mret deviceID
          else fail (ErrConnect CodePermissionDenied "device certificate is not current")
        else fail (ErrConnect CodePermissionDenied "device certificate is not current")
  | _, _ => refused
  end.

Definition touchAgent (ctx : Context) (deviceID : string) (hello : Hello) : Queries unit :=
  at_ ← now;
  on_error (TouchDevice (Hello_Hostname hello) (Hello_AgentVersion hello) (Some at_) deviceID)
    (fun err => fail (internal "record agent heartbeat" err)).

(** ** The desired policy *)

Definition desiredPolicy (ctx : Context) (deviceID : string) : Queries DesiredPolicy :=
  actions ← on_error (ListActionsForDevice deviceID deviceID)
    (fun err => fail (internal "compile desired policy" err));
  executables ← on_error
    (map_m (fun a => lift (executableAction (ActionRow_ID a) (ActionRow_ActionBlob a))) actions)
    (fun err => fail (internal "map desired action" err));
  mret {| RefreshIntervalMinutes := 5; Policy_Actions := executables |}.

(** ** Results *)

(** The transaction of [storeActionResult]. *)
Definition storeTransaction (deviceID : string) (result : ActionResult) (actionID : string)
    (completedAt : time) (resultBlob : bytes) : Queries unit :=
  let runID := GetValue (Result_RunId result) in
  found ← attempt (GetExecutionResult runID);
  match found with
  | Ok existing =>
      match executionResultProto (ExecutionResult_RunID existing) (ExecutionResult_ActionID existing)
              (ExecutionResult_CompletedAt existing) (ExecutionResult_ResultBlob existing) with
      | Err decodeErr => fail (ErrWrap "decode stored duplicate result" decodeErr)
      | Ok payload =>
          if bool_decide (ExecutionResult_DeviceID existing = deviceID)
             && bool_decide (payload = result)
          then mret tt
          else fail (ErrWrap "conflicting run id" errResultRejected)
      end
  | Err err =>
      if negb (IsNotFound err) then fail (ErrWrap "load existing result" err)
      else
        actions ← on_error (ListActionsForDevice deviceID deviceID)
          (fun err => fail (ErrWrap "list assigned actions" err));
        match List.find (fun a => bool_decide (ActionRow_ID a = actionID)) actions with
        | None => fail (ErrWrap "action is not assigned to device" errResultRejected)
        | Some assigned =>
            match executableAction (ActionRow_ID assigned) (ActionRow_ActionBlob assigned) with
            | Err err => fail (ErrWrap "decode assigned action" err)
            | Ok _ =>
                inserted ← on_error
                  (CreateExecutionResult runID deviceID actionID completedAt resultBlob)
                  (fun err => fail (ErrWrap "store action result" err));
                if negb (inserted =? 1) then fail (ErrWrap "conflicting run id" errResultRejected)
                else
                  id ← ulid_make;
                  at_ ← now;
                  CreateAuditEvent id AUDIT_EVENT_TYPE_EXECUTION_RESULT_RECEIVED
                    AUDIT_STREAM_TYPE_ACTION actionID AUDIT_ACTOR_TYPE_DEVICE deviceID at_
            end
        end
  end.

Definition storeActionResult (ctx : Context) (deviceID : string) (result : option ActionResult)
    : Queries unit :=
  let malformed := fail (ErrWrap "malformed action result" errResultRejected) in
  match result with
  | None => malformed
  | Some result =>
      match Result_CompletedAt result with
      | None => malformed
      | Some ts =>
          if negb (bool_decide (length (Result_ActionDigest result) = 32%nat)) then malformed
          else if negb (CheckValid ts) then fail (ErrWrap "invalid completion time" errResultRejected)
          else match proto_Marshal result with
          | Err err => fail (ErrWrap "encode action result" err)
          | Ok resultBlob =>
              Transaction (storeTransaction deviceID result (GetValue (Result_ActionId result))
                (AsTime ts) resultBlob)
          end
      end
  end.

(** ** The stream *)

(** The reply to send, if any. *)
Definition handleAgentMessage (ctx : Context) (deviceID : string) (hello : Hello)
    (message : AgentMessage) : Queries (option ServerMessage) :=
  let reply payload := mret (Some {|
    ServerMessage_Id := AgentMessage_Id message; ServerMessage_Payload := payload |}) in
  match AgentMessage_Payload message with
  | AgentMessage_Heartbeat => _ ← touchAgent ctx deviceID hello; mret None
  | AgentMessage_DesiredPolicyRequest =>
      policy ← desiredPolicy ctx deviceID;
      reply (ServerMessage_DesiredPolicy policy)
  | AgentMessage_ActionResult result =>
      stored ← attempt (storeActionResult ctx deviceID result);
      match stored with
      | Ok _ => reply (ServerMessage_ResultAck RESULT_ACK_CODE_ACCEPTED)
      | Err err =>
          if errors_is errResultRejected err
          then reply (ServerMessage_ResultAck RESULT_ACK_CODE_REJECTED)
          else fail (internal "store agent result" err)
      end
  | AgentMessage_Hello _ =>
      fail (ErrConnect CodeInvalidArgument "hello is only valid as the first frame")
  | AgentMessage_None => fail (ErrConnect CodeInvalidArgument "unsupported agent frame")
  end.

(** What the peer does: the frames it sends, [Err] when receiving one fails and
    the end of the list for io.EOF; and which of the server's sends fail. *)
Record Peer := { peer_frames : list (result AgentMessage); peer_send : nat -> option error }.

(** The loop of [Stream], with the frames sent so far; the frames sent and how the
    stream ended. *)
Fixpoint streamLoop (ctx : Context) (deviceID : string) (hello : Hello)
    (send : nat -> option error) (frames : list (result AgentMessage))
    (sent : list ServerMessage) : Queries (list ServerMessage * result unit) :=
  match frames with
  | [] => mret (sent, Ok tt)
  | Err err :: _ => mret (sent, Err err)
  | Ok message :: frames =>
      handled ← attempt (handleAgentMessage ctx deviceID hello message);
      match handled with
      | Err err => mret (sent, Err err)
      | Ok None => streamLoop ctx deviceID hello send frames sent
      | Ok (Some reply) =>
          match send (length sent) with
          | Some err => mret (sent, Err err)
          | None => streamLoop ctx deviceID hello send frames (sent ++ [reply])
          end
      end
  end.

Definition Stream (ctx : Context) (peer : Peer) : Queries (list ServerMessage * result unit) :=
  match peer_frames peer with
  | [] => mret ([], Ok tt)
  | Err err :: _ => mret ([], Err err)
  | Ok first :: frames =>
      match AgentMessage_Payload first with
      | AgentMessage_Hello hello =>
          opened ← attempt (deviceID ← authenticateAgent ctx hello;
                            _ ← touchAgent ctx deviceID hello; mret deviceID);
          match opened with
          | Err err => mret ([], Err err)
          | Ok deviceID =>
              id ← ulid_make;
              match peer_send peer 0%nat with
              | Some err => mret ([], Err (ErrWrap "send welcome" err))
              | None =>
                  streamLoop ctx deviceID hello (peer_send peer) frames
                    [{| ServerMessage_Id := Some id;
                        ServerMessage_Payload := ServerMessage_Welcome (heartbeatInterval service) |}]
              end
          end
      | _ => mret ([], Err (ErrConnect CodeInvalidArgument "first frame must be hello"))
      end
  end.

(** ** Invariant *)

Lemma authenticateAgent_preserves ctx hello : preserves WellFormed (authenticateAgent ctx hello).
Proof. unfold authenticateAgent. cbv zeta. preserve. Qed.

Lemma touchAgent_preserves ctx deviceID hello : preserves WellFormed (touchAgent ctx deviceID hello).
Proof. unfold touchAgent. preserve. Qed.

Lemma desiredPolicy_preserves I ctx deviceID : preserves I (desiredPolicy ctx deviceID).
Proof. unfold desiredPolicy. preserve. Qed.

Lemma storeActionResult_preserves ctx deviceID result :
  preserves WellFormed (storeActionResult ctx deviceID result).
Proof. unfold storeActionResult, storeTransaction, Transaction. cbv zeta. preserve. Qed.

Hint Resolve authenticateAgent_preserves touchAgent_preserves desiredPolicy_preserves
  storeActionResult_preserves : preserve.

Lemma handleAgentMessage_preserves ctx deviceID hello message :
  preserves WellFormed (handleAgentMessage ctx deviceID hello message).
Proof. unfold handleAgentMessage. cbv zeta. preserve. Qed.

Lemma streamLoop_preserves I ctx deviceID hello send frames sent :
  (forall message, preserves I (handleAgentMessage ctx deviceID hello message)) ->
  preserves I (streamLoop ctx deviceID hello send frames sent).
Proof.
  intros Hm. revert sent.
  induction frames as [|[message|e] frames IH]; simpl; intros sent; [preserve| |preserve].
  apply preserves_bind; [by apply preserves_attempt|]. intros [[reply|]|e]; [|apply IH|preserve].
  destruct (send (length sent)); [preserve|apply IH].
Qed.

Lemma Stream_preserves ctx peer : preserves WellFormed (Stream ctx peer).
Proof.
  unfold Stream. pose proof handleAgentMessage_preserves. preserve. by apply streamLoop_preserves.
Qed.
End stream.

#[export] Hint Resolve authenticateAgent_preserves touchAgent_preserves desiredPolicy_preserves
  storeActionResult_preserves handleAgentMessage_preserves Stream_preserves : preserve.

(** ** Results are stored exactly once *)

Section result_facts.
Context `{!ProtoCodec Action, !ProtoCodec ActionResult, !ProtoLaws ActionResult}.

(** [d'] is [d] with one more result. *)
Definition result_added (deviceID : string) (result : ActionResult) (d d' : Database) : Prop :=
  let runID := GetValue (Result_RunId result) in
  exists row act, execution_results d !! runID = None /\
    execution_results d' = <[runID := row]> (execution_results d) /\
    assigned_to d deviceID act /\ ActionRow_ID act = GetValue (Result_ActionId result) /\
    same_but_audit (set_execution_results (execution_results d') d) d'.

Lemma find_action_Some (l : list ActionRow) id a :
  List.find (fun a => bool_decide (ActionRow_ID a = id)) l = Some a -> a ∈ l /\ ActionRow_ID a = id.
Proof.
  intros Hf. apply find_some in Hf as [Hin Hid%bool_decide_eq_true].
  split; [by apply list_elem_of_In|done].
Qed.

Lemma fwd_assigned d0 deviceID :
  WellFormed d0 ->
  triple (fun d => d = d0) (ListActionsForDevice deviceID deviceID)
    (fun l d => (StronglySorted (fun a b => str_lt (ActionRow_ID a) (ActionRow_ID b) = true) l /\
       forall a, a ∈ l <-> assigned_to d0 deviceID a) /\ d = d0) (fun _ d => d = d0).
Proof.
  intros Hwf. apply triple_query; [|done]. intros d ->. split; [|done]. split.
  - apply order_by_key_strict. apply select_where_NoDup. apply Hwf.
  - intros a. by rewrite elem_of_order_by, elem_of_assigned.
Qed.

Lemma storeTransaction_spec deviceID result completedAt blob d0 :
  WellFormed d0 -> marshal result = Some blob ->
  triple (fun d => d = d0)
    (storeTransaction deviceID result (GetValue (Result_ActionId result)) completedAt blob)
    (fun _ d => (d = d0 \/ result_added deviceID result d0 d) /\
       exists row, execution_results d !! GetValue (Result_RunId result) = Some row /\
         ExecutionResult_DeviceID row = deviceID /\
         unmarshal (ExecutionResult_ResultBlob row) = Some result)
    (fun _ _ => True).
Proof.
  intros Hwf Hblob. unfold storeTransaction. cbv zeta.
  eapply triple_bind.
  { apply (triple_attempt _ _ (fun r d => match r with
      | Ok row => execution_results d0 !! GetValue (Result_RunId result) = Some row
      | Err e => IsNotFound e = true -> execution_results d0 !! GetValue (Result_RunId result) = None
      end /\ d = d0) _ (fun r d => match r with
      | Ok row => execution_results d0 !! GetValue (Result_RunId result) = Some row
      | Err e => IsNotFound e = true -> execution_results d0 !! GetValue (Result_RunId result) = None
      end /\ d = d0)); [|done].
    apply triple_query; [|by intros d ->]. intros d ->.
    by destruct (execution_results d0 !! _). }
  intros [row|e]; apply triple_pure; intros Hrow.
  - destruct (executionResultProto _ _ _ _) as [payload|e] eqn:Hp; [|by apply triple_fail].
    apply executionResultProto_ok in Hp.
    destruct (bool_decide _ && bool_decide _) eqn:Hb; [|by apply triple_fail].
    apply andb_true_iff in Hb as [Hdev%bool_decide_eq_true ->%bool_decide_eq_true].
    apply triple_ret. intros d ->. split; [by left|]. by exists row.
  - destruct (IsNotFound e); simpl; [|by apply triple_fail]. specialize (Hrow eq_refl).
    eapply triple_bind.
    { apply triple_on_error with (E' := fun _ d => d = d0); [by apply fwd_assigned|].
      intros e'. by apply triple_fail. }
    intros acts. apply triple_pure. intros [_ Hacts].
    destruct (List.find _ acts) as [act|] eqn:Hfind; [|by apply triple_fail].
    apply find_action_Some in Hfind as [Hin Hid]. apply Hacts in Hin.
    destruct (executableAction _ _); [|by apply triple_fail].
    eapply (triple_bind _ _ _ (fun n d => (n = 0 \/ exists row,
       ExecutionResult_DeviceID row = deviceID /\ ExecutionResult_ResultBlob row = blob /\
       d = set_execution_results (<[GetValue (Result_RunId result) := row]> (execution_results d0)) d0))).
    { apply triple_on_error with (E' := fun _ _ => True); [|intros e'; by apply triple_fail].
      apply triple_sql; [|done]. intros t d ->. rewrite Hrow. destruct (_ && _); [|done].
      right. eexists. split_and!; [..|reflexivity]; reflexivity. }
    intros n. destruct (Z.eqb_spec n 1) as [->|]; simpl; [|by apply triple_fail].
    apply triple_bind_draw. intros id. apply triple_bind_draw. intros at_.
    last_step. intros _ d' (d & [?|(row & Hdev & Hb & ->)] & Ha); [done|].
    assert (execution_results d' = <[GetValue (Result_RunId result) := row]> (execution_results d0))
      as Hres by (by rewrite Ha).
    split.
    + right. exists row, act. split_and!; [done..|]. unfold same_but_audit in *. by rewrite Hres.
    + exists row. rewrite Hres, lookup_insert_eq, Hb. split_and!; [done..|].
      by apply unmarshal_marshal.
Qed.

Lemma storeActionResult_stores ctx deviceID result d0 :
  WellFormed d0 ->
  triple (fun d => d = d0) (storeActionResult ctx deviceID (Some result))
    (fun _ d => (d = d0 \/ result_added deviceID result d0 d) /\
       exists row, execution_results d !! GetValue (Result_RunId result) = Some row /\
         ExecutionResult_DeviceID row = deviceID /\
         unmarshal (ExecutionResult_ResultBlob row) = Some result)
    (fun _ d => d = d0).
Proof.
  intros Hwf. unfold storeActionResult. cbv zeta.
  destruct (Result_CompletedAt result) as [ts|]; [|by apply triple_fail].
  destruct (negb _); [by apply triple_fail|]. destruct (negb _); [by apply triple_fail|].
  destruct (proto_Marshal result) as [blob|e] eqn:Hm; [|by apply triple_fail].
  apply proto_Marshal_ok in Hm. unfold Transaction.
  eapply triple_transaction; [by apply storeTransaction_spec|done].
Qed.

(** C30: An action result is accepted at most once, and never lost.  When
    [storeActionResult] accepts a result, the database holds under its run id
    exactly this result of this device, whether it was stored now or by an earlier
    delivery; storing it now adds that one row and an audit record, for an action
    that is assigned to the device; a repeated delivery changes nothing; and a
    result that is not accepted changes nothing. *)
Theorem storeActionResult_exactly_once ctx deviceID result d0 :
  WellFormed d0 ->
  triple (fun d => d = d0) (storeActionResult ctx deviceID (Some result))
    (fun _ d => (d = d0 \/ result_added deviceID result d0 d) /\
       exists row, execution_results d !! GetValue (Result_RunId result) = Some row /\
         ExecutionResult_DeviceID row = deviceID /\
         unmarshal (ExecutionResult_ResultBlob row) = Some result)
    (fun _ d => d = d0).
Proof. apply storeActionResult_stores. Qed.

Lemma desiredPolicy_spec ctx deviceID d0 :
  WellFormed d0 -> StoredActions d0 ->
  triple (fun d => d = d0) (desiredPolicy ctx deviceID)
    (fun p d => d = d0 /\
       StronglySorted (fun a b => str_lt (GetValue (Action_Id a)) (GetValue (Action_Id b)) = true)
         (Policy_Actions p) /\
       forall a, a ∈ Policy_Actions p <->
         exists act, assigned_to d0 deviceID act /\ unmarshal (ActionRow_ActionBlob act) = Some a)
    (fun _ d => d = d0).
Proof.
  intros Hwf Hst. unfold desiredPolicy.
  eapply triple_bind.
  { eapply triple_on_error; [by apply fwd_assigned|]. intros e. by apply triple_fail. }
  intros acts. apply triple_pure. intros [Hsorted Hacts].
  eapply triple_bind.
  { apply triple_on_error with (E' := fun _ d => d = d0); [apply triple_map_m_lift|].
    intros e. by apply triple_fail. }
  intros es. apply triple_ret. intros d [Hes ->]. split; [done|]. simpl. split.
  - eapply StronglySorted_Forall2; [|exact Hes|exact Hsorted]. cbv beta.
    unfold executableAction. intros act a act' a' Ha Ha'.
    destruct (proto_Unmarshal (ActionRow_ActionBlob act)); [|done].
    destruct (proto_Unmarshal (ActionRow_ActionBlob act')); [|done].
    repeat case_bool_decide; simplify_eq. congruence.
  - intros a. split.
    + intros [i Hi]%list_elem_of_lookup.
      destruct (Forall2_lookup_r _ _ _ _ _ Hes Hi) as (act & Hact & Hex).
      exists act. split; [|by apply executableAction_ok in Hex].
      apply Hacts. by eapply list_elem_of_lookup_2.
    + intros (act & Hact & Hu). apply Hacts in Hact as [i Hi]%list_elem_of_lookup.
      destruct (Forall2_lookup_l _ _ _ _ _ Hes Hi) as (a' & Ha' & Hex).
      apply executableAction_ok in Hex. assert (a' = a) as -> by congruence.
      by eapply list_elem_of_lookup_2.
Qed.

(** The desired policy of a device is exactly what is assigned to it: one
    entry per action assigned directly or through a group, decoded from its
    stored definition, in strictly increasing order of the ids, and nothing else;
    computing it changes nothing. *)
Theorem desiredPolicy_exact ctx deviceID d0 :
  WellFormed d0 -> StoredActions d0 ->
  triple (fun d => d = d0) (desiredPolicy ctx deviceID)
    (fun p d => d = d0 /\
       StronglySorted (fun a b => str_lt (GetValue (Action_Id a)) (GetValue (Action_Id b)) = true)
         (Policy_Actions p) /\
       forall a, a ∈ Policy_Actions p <->
         exists act, assigned_to d0 deviceID act /\ unmarshal (ActionRow_ActionBlob act) = Some a)
    (fun _ d => d = d0).
Proof. apply desiredPolicy_spec. Qed.
End result_facts.
