(* ===== verification/Rotation.v ===== *)
(** * Certificate rotation

    [RenewCertificate] ([server/internal/core/enrollment.go]) and
    [authenticateAgent] ([server/internal/core/agent.go]) together move a device
    from one certificate to the next: renewing leaves the active certificate in
    force and makes a pending one, connecting with the pending one makes it the
    active one.  This file states the two steps on the state of one device and
    shows that the protocol they form neither locks a device out nor keeps a
    superseded certificate alive. *)

From S2P Require Import Prelude Hash Engine Pair Quiet Pki Proto Schema Queries QueriesFacts.
From S2P Require Import QueriesFrame.
From S2P Require Import Service Demo Devices Enrollment AgentStream.

Open Scope Z_scope.

(** ** The two steps *)

(** The pending certificate [serial] of the device became its active one. *)
Definition promoted (id serial : string) (d d' : Database) : Prop :=
  exists dev dev', devices d !! id = Some dev /\ Device_ActiveCertSerial dev <> serial /\
    Device_PendingCertSerial dev = Some serial /\ devices d' = <[id := dev']> (devices d) /\
    d' = set_devices (devices d') d /\
    Device_ActiveCertSerial dev' = serial /\
    Device_ActiveCertificatePem dev' = Device_PendingCertificatePem dev /\
    Device_IdentityPublicKey dev' = Device_IdentityPublicKey dev /\
    Device_PendingCertSerial dev' = None.

(** The certificate of the connection is the active one of the device it names. *)
Definition is_active (id serial : string) (d : Database) : Prop :=
  exists dev, devices d !! id = Some dev /\ Device_ActiveCertSerial dev = serial.

(** No renewal of the device is under way. *)
Definition no_pending (id : string) (d : Database) : Prop :=
  exists dev, devices d !! id = Some dev /\ Device_PendingCertSerial dev = None.

(** [cert], with serial [serial], is the pending certificate of the device. *)
Definition is_pending (id serial : string) (cert : bytes) (d : Database) : Prop :=
  exists dev, devices d !! id = Some dev /\ Device_PendingCertSerial dev = Some serial /\
    Device_PendingCertificatePem dev = cert /\ cert <> [] /\
    is_Some (Device_PendingCertExpiresAt dev).

Lemma fwd_PromotePending P id serial :
  triple P (PromotePendingDeviceCertificate id (Some serial))
    (fun n d' => exists d, P d /\ ((n = 0 /\ d' = d) \/ exists dev dev',
       n = 1 /\ devices d !! id = Some dev /\ Device_PendingCertSerial dev = Some serial /\
       d' = set_devices (<[id := dev']> (devices d)) d /\ Device_ActiveCertSerial dev' = serial /\
       Device_ActiveCertificatePem dev' = Device_PendingCertificatePem dev /\
       Device_IdentityPublicKey dev' = Device_IdentityPublicKey dev /\
       Device_PendingCertSerial dev' = None))
    (fun _ => P).
Proof.
  apply triple_sql; [|done]. intros t d Hd.
  destruct (devices d !! id) as [dev|] eqn:Hl; [|by exists d; split; [|left]].
  case_bool_decide as Hs; [|by exists d; split; [|left]].
  destruct (Device_PendingCertificatePem dev) eqn:Hpem; [done|].
  destruct (Device_PendingCertExpiresAt dev); [|done].
  exists d. split; [done|]. right. exists dev. eexists.
  split_and!; [done|done|done|reflexivity|done|by rewrite Hpem|done|done].
Qed.

Lemma authenticateAgent_spec ctx hello d0 :
  triple (fun d => d = d0) (authenticateAgent ctx hello)
    (fun id d => exists serial, DeviceIDFromContext ctx = Some id /\
       PeerSerialFromContext ctx = Some serial /\ GetValue (Hello_DeviceId hello) = id /\
       ((is_active id serial d0 /\ d = d0) \/ promoted id serial d0 d))
    (fun _ d => d = d0).
Proof.
  unfold authenticateAgent. cbv zeta.
  destruct (DeviceIDFromContext ctx) as [id|]; [|by apply triple_fail].
  destruct (PeerSerialFromContext ctx) as [serial|]; [|by apply triple_fail].
  case_bool_decide as Hhello; simpl; [|by apply triple_fail].
  eapply triple_bind.
  { apply triple_on_error with (E' := fun _ d => d = d0); [|intros e; destruct (IsNotFound e); by apply triple_fail].
    apply triple_query with (Q := fun dev d => devices d0 !! id = Some dev /\ d = d0); [|done].
    intros d ->. by destruct (devices d0 !! id). }
  intros dev. apply triple_pure. intros Hdev. case_bool_decide as Ha.
  { apply triple_ret. intros d ->. exists serial. split_and!; [done..|]. left. split; [by exists dev|done]. }
  case_bool_decide as Hp; [|by apply triple_fail].
  eapply triple_bind.
  { apply triple_on_error with (E' := fun _ d => d = d0); [apply (fwd_PromotePending (fun d => d = d0))|].
    intros e. by apply triple_fail. }
  intros n. destruct (Z.eqb_spec n 1) as [->|].
  - apply triple_ret. intros d (d1 & -> & [[? _]|(r & r' & _ & Hr & Hps & -> & ? & ? & ? & ?)]); [done|].
    exists serial. split_and!; [done..|]. right. assert (r = dev) as -> by congruence.
    exists dev, r'. by split_and!.
  - apply triple_fail. by intros d (d1 & -> & [[_ ?]|(? & ? & ? & _)]).
Qed.

(** A connection is authenticated exactly by a certificate that is current.
    The device named by the peer's certificate must be the one in the hello
    frame, and the certificate's serial must be the device's active one, in which
    case nothing changes, or its pending one, which then becomes the active one
    and is no longer pending.  A refused connection changes nothing. *)
Theorem authenticateAgent_current ctx hello d0 :
  triple (fun d => d = d0) (authenticateAgent ctx hello)
    (fun id d => exists serial, DeviceIDFromContext ctx = Some id /\
       PeerSerialFromContext ctx = Some serial /\ GetValue (Hello_DeviceId hello) = id /\
       ((is_active id serial d0 /\ d = d0) \/ promoted id serial d0 d))
    (fun _ d => d = d0).
Proof. apply authenticateAgent_spec. Qed.

(** ** Renewing *)

Section renewal.
Context (ca : CA).
Context `{!X509, !X509Laws}.

(** The connection is an agent's, with the key of the request. *)
Definition renewing_peer (ctx : Context) (id serial : string) (csr : bytes) : Prop :=
  exists peer, PeerCertificateFromContext ctx = Some peer /\ DeviceIDFromContext ctx = Some id /\
    PeerClassFromCert peer = Ok PeerClassAgent /\ AssertCSRMatchesCert peer csr = Ok tt /\
    SerialFromCert peer = Ok serial.

(** A new certificate became pending; the active one and everything else but the
    audit log stay. *)
Definition renewal_started (id serial : string) (key cert : bytes) (d d' : Database) : Prop :=
  no_pending id d /\ is_active id serial d' /\
  exists issued s, cert = CertPEM issued /\ issued_for id key issued /\
    SerialFromPEM cert = Ok s /\ is_pending id s cert d' /\
    (forall k, k <> id -> devices d' !! k = devices d !! k) /\
    same_but_audit (set_devices (devices d') d) d'.

(** What a renewal of the certificate with that serial returns and leaves. *)
Definition renewal_answered (id serial : string) (csr cert : bytes) (d d' : Database) : Prop :=
  is_active id serial d /\
  ((d' = d /\ exists s, is_pending id s cert d) \/
   exists key, EnrollmentIdentityFromCSR csr = Ok key /\ renewal_started id serial key cert d d').

Lemma renewTransaction_spec ctx id serial csr d0 :
  triple (fun d => d = d0) (renewTransaction ca ctx id serial csr)
    (fun cert d => renewal_answered id serial csr cert d0 d) (fun _ _ => True).
Proof.
  unfold renewTransaction.
  eapply triple_bind.
  { apply triple_on_error with (E' := fun _ d => d = d0);
      [|intros e; destruct (IsNotFound e); by apply triple_fail].
    apply triple_query with (Q := fun dev d => devices d0 !! id = Some dev /\ d = d0); [|done].
    intros d ->. by destruct (devices d0 !! id). }
  intros dev. apply triple_pure. intros Hdev.
  case_bool_decide as Ha; simpl; [|by apply triple_fail].
  destruct (Device_PendingCertSerial dev) as [s|] eqn:Hp.
  - destruct (Device_PendingCertExpiresAt dev) eqn:He; [|by apply triple_fail].
    destruct (Device_PendingCertificatePem dev) as [|b l] eqn:Hpem; [by apply triple_fail|].
    apply triple_ret. intros d ->. split; [by exists dev|]. left. split; [done|]. exists s, dev.
    rewrite Hp, Hpem, He. split_and!; [done..|by eexists].
  - eapply triple_bind.
    { eapply triple_on_error; [by apply (IssueCertificateFromCSR_issues (fun d => d = d0))|].
      intros e. by apply triple_fail. }
    intros issued. apply triple_pure. intros (key & Hkey & Hissued).
    eapply triple_bind.
    { apply triple_on_error with (E' := fun _ _ => True); [|intros e; by apply triple_fail].
      by apply (triple_lift _ _ (fun s d => SerialFromPEM (CertPEM issued) = Ok s /\ d = d0)). }
    intros s. apply triple_pure. intros Hs.
    eapply triple_bind.
    { eapply triple_on_error; [apply fwd_update_rows|]. intros e. by apply triple_fail. }
    intros n. destruct (Z.eqb_spec n 1) as [->|].
    2: { eapply triple_bind; [by apply triple_fail with (Q := fun _ _ => False)|].
         intros u env w []. }
    eapply triple_bind; [apply fwd_ret|]. intros u. step. apply triple_ret.
    intros d' (d & [(t & d1 & -> & [(_ & r & Hr & _ & ->)|[? _]]) _] & Haudit); [|done].
    assert (r = dev) as -> by congruence. split; [by exists dev|]. right. exists key.
    split; [done|]. unfold renewal_started, same_but_audit in *. rewrite Haudit. simpl.
    split; [by exists dev|]. split; [eexists; split; [apply lookup_insert_eq|done]|].
    exists issued, s. split_and!; [done|done|done| | |done].
    + eexists. split; [apply lookup_insert_eq|]. simpl. destruct Hissued as (? & ? & _ & _ & _ & _ & _ & _ & ?).
      by split_and!.
    + intros k Hk. by rewrite lookup_insert_ne.
Qed.

Lemma RenewCertificate_spec ctx csr d0 :
  triple (fun d => d = d0) (RenewCertificate ca ctx csr)
    (fun cert d => exists id serial, renewing_peer ctx id serial csr /\
       renewal_answered id serial csr cert d0 d) (fun _ d => d = d0).
Proof.
  unfold RenewCertificate. cbv zeta.
  destruct (PeerCertificateFromContext ctx) as [peer|] eqn:Hp; [|by apply triple_fail].
  destruct (DeviceIDFromContext ctx) as [id|] eqn:Hid; [|by apply triple_fail].
  destruct (PeerClassFromCert peer) as [class|] eqn:Hc; [|by apply triple_fail].
  destruct (AssertCSRMatchesCert peer csr) as [[]|] eqn:Hm; [|by apply triple_fail].
  case_bool_decide as Ha; simpl; [subst class|by apply triple_fail].
  destruct (SerialFromCert peer) as [serial|] eqn:Hs; [|by apply triple_fail].
  apply triple_handler.
  - eapply triple_conseq; [apply renewTransaction_spec| |intros cert d Hd; cbv beta|intros ? ? _; exact I].
    { intros d Hd. exact Hd. }
    exists id, serial. split; [by exists peer|done].
  - intros e. destruct (errors_is _ e); [by apply triple_fail|].
    destruct (errors_is _ e); by apply triple_fail.
Qed.

Lemma renewing_peer_unique ctx csr id1 s1 id2 s2 :
  renewing_peer ctx id1 s1 csr -> renewing_peer ctx id2 s2 csr -> id1 = id2 /\ s1 = s2.
Proof.
  intros (? & ? & ? & _ & _ & ?) (? & ? & ? & _ & _ & ?). split; congruence.
Qed.

(** ** Runs without faults *)

Lemma quiet_renew_pending ctx id serial s csr cert d env n :
  quiet env -> renewing_peer ctx id serial csr -> is_active id serial d -> is_pending id s cert d ->
  exists n', RenewCertificate ca ctx csr env (mkWorld d n) = (Ok cert, mkWorld d n').
Proof.
  intros Hq (peer & Hp & Hid & Hc & Hm & Hs) (dev & Hdev & Ha) (dev' & Hdev' & Hps & Hpem & Hne & [e He]).
  assert (dev' = dev) as -> by congruence.
  unfold RenewCertificate. cbv zeta. rewrite Hp, Hid, Hc, Hm, Hs, bool_decide_true by done. simpl.
  unfold on_error at 1. unfold Transaction. rewrite quiet_transaction by done.
  unfold renewTransaction. unfold mbind at 1, M_bind at 1. unfold on_error at 1.
  unfold Queries.GetDevice, get_row. rewrite quiet_query by done. rewrite Hdev. simpl.
  rewrite bool_decide_true by done. simpl. rewrite Hps, He.
  destruct (Device_PendingCertificatePem dev) as [|b l] eqn:Hb; [by subst cert|].
  subst cert. simpl. by eexists.
Qed.

Lemma quiet_authenticate_pending ctx hello id serial cert d env n :
  quiet env -> DeviceIDFromContext ctx = Some id -> PeerSerialFromContext ctx = Some serial ->
  GetValue (Hello_DeviceId hello) = id -> is_pending id serial cert d ->
  exists d' n', authenticateAgent ctx hello env (mkWorld d n) = (Ok id, mkWorld d' n') /\
    is_active id serial d'.
Proof.
  intros Hq Hid Hs Hh (dev & Hdev & Hps & Hpem & Hne & [e He]).
  unfold authenticateAgent. cbv zeta. rewrite Hid, Hs, bool_decide_true by done. simpl.
  unfold mbind at 1, M_bind at 1. unfold on_error at 1.
  unfold Queries.GetDevice, get_row. rewrite quiet_query by done. rewrite Hdev. simpl.
  case_bool_decide as Ha; [exists d, (S n); split; [done|by exists dev]|].
  rewrite bool_decide_true by done.
  unfold mbind at 1, M_bind at 1. unfold on_error at 1, PromotePendingDeviceCertificate.
  rewrite quiet_sql by done. rewrite Hdev, bool_decide_true, He by done.
  destruct (Device_PendingCertificatePem dev) as [|b l] eqn:Hb; [by subst cert|]. simpl.
  eexists _, _. split; [reflexivity|]. eexists. split; [apply lookup_insert_eq|done].
Qed.

Lemma quietly_authenticate ctx hello id serial d0 :
  DeviceIDFromContext ctx = Some id -> PeerSerialFromContext ctx = Some serial ->
  GetValue (Hello_DeviceId hello) = id ->
  is_active id serial d0 \/ (exists cert, is_pending id serial cert d0) ->
  quietly (fun d => d = d0) (authenticateAgent ctx hello) (fun id' _ => id' = id).
Proof.
  intros Hid Hs Hh Hcur env [d n] Hq Hd. simpl in Hd. subst d. destruct Hcur as [(dev & Hdev & Ha)|[cert Hp]].
  - unfold authenticateAgent. cbv zeta. rewrite Hid, Hs, bool_decide_true by done. simpl.
    unfold mbind at 1, M_bind at 1. unfold on_error at 1.
    unfold Queries.GetDevice, get_row. rewrite quiet_query by done. rewrite Hdev. simpl.
    rewrite bool_decide_true by done. by eexists _, _.
  - destruct (quiet_authenticate_pending ctx hello id serial cert d0 env n) as (d' & n' & Hrun & _);
      [done..|]. by exists id, (mkWorld d' n').
Qed.

(** A certificate that is neither active nor pending is refused. *)
Lemma superseded_refused ctx hello id s1 s2 d env n :
  DeviceIDFromContext ctx = Some id -> PeerSerialFromContext ctx = Some s1 ->
  is_active id s2 d -> no_pending id d -> s1 <> s2 ->
  exists e n', authenticateAgent ctx hello env (mkWorld d n) = (Err e, mkWorld d n').
Proof.
  intros Hid Hs (dev & Hdev & Ha) (dev' & Hdev' & Hp) Hne.
  pose proof (authenticateAgent_spec ctx hello d env (mkWorld d n) eq_refl) as Hau.
  destruct (authenticateAgent ctx hello env (mkWorld d n)) as [[id'|e] [d' n']].
  - exfalso. destruct Hau as (s & Hid' & Hs' & _ & [[(x & Hx & Hxs) _]|(x & ? & Hx & _ & Hxp & _)]); congruence.
  - simpl in Hau. subst d'. by exists e, n'.
Qed.

(** C3: Rotating a certificate neither locks a device out nor keeps the old
    certificate alive.  Once [RenewCertificate] has answered a device whose active
    certificate has serial [s1] with a new certificate of serial [s2]: the old one
    is still active, asking again returns the same certificate and changes nothing
    (so a lost answer is harmless), connecting with the new certificate succeeds
    and makes it the active one, and from then on a connection with the old one
    is refused. *)
Theorem certificate_rotation ctx id s1 csr key env w cert w1 :
  EnrollmentIdentityFromCSR csr = Ok key -> renewing_peer ctx id s1 csr -> no_pending id (w_db w) ->
  RenewCertificate ca ctx csr env w = (Ok cert, w1) ->
  exists s2, SerialFromPEM cert = Ok s2 /\ is_active id s1 (w_db w1) /\
    (forall env' n, quiet env' -> exists n',
       RenewCertificate ca ctx csr env' (mkWorld (w_db w1) n) = (Ok cert, mkWorld (w_db w1) n')) /\
    (forall ctx2 hello env' n, quiet env' ->
       DeviceIDFromContext ctx2 = Some id -> PeerSerialFromContext ctx2 = Some s2 ->
       GetValue (Hello_DeviceId hello) = id ->
       exists d2 n', authenticateAgent ctx2 hello env' (mkWorld (w_db w1) n) = (Ok id, mkWorld d2 n') /\
         is_active id s2 d2 /\
         (s1 <> s2 -> forall ctx3 hello3 env3 n3,
            DeviceIDFromContext ctx3 = Some id -> PeerSerialFromContext ctx3 = Some s1 ->
            exists e n3', authenticateAgent ctx3 hello3 env3 (mkWorld d2 n3) = (Err e, mkWorld d2 n3'))).
Proof.
  intros Hkey Hpeer Hno Hrun.
  pose proof (RenewCertificate_spec ctx csr (w_db w) env w eq_refl) as Hspec.
  rewrite Hrun in Hspec. destruct Hspec as (id' & s1' & Hpeer' & Hspec).
  destruct (renewing_peer_unique _ _ _ _ _ _ Hpeer' Hpeer) as [-> ->].
  destruct Hspec as [_ [[_ (s & Hpend)]|Hr]].
  { exfalso. destruct Hno as (? & ? & ?), Hpend as (? & ? & ? & _). congruence. }
  destruct Hr as (_ & _ & _ & Hact & issued & s2 & _ & _ & Hs2 & Hpend & _).
  exists s2. split_and!; [done|done| |].
  - intros env' n Hq. by eapply quiet_renew_pending.
  - intros ctx2 hello env' n Hq Hid Hs Hh.
    destruct (quiet_authenticate_pending ctx2 hello id s2 cert (w_db w1) env' n) as (d2 & n' & Hrun2 & Ha2);
      [done..|].
    exists d2, n'. split_and!; [done|done|]. intros Hne ctx3 hello3 env3 n3 Hid3 Hs3.
    eapply superseded_refused; [done|done|done| |done].
    pose proof (authenticateAgent_spec ctx2 hello (w_db w1) env' (mkWorld (w_db w1) n) eq_refl) as Hau.
    rewrite Hrun2 in Hau. destruct Hau as (s & Hid2' & Hs' & _ & [[(x & Hx & Hxs) _]|Hpr]).
    + exfalso. destruct Hact as (? & ? & ?). congruence.
    + destruct Hpr as (? & dev' & ? & ? & ? & Hd & _ & ? & _ & _ & ?). exists dev'. simpl in Hd. rewrite Hd, lookup_insert_eq. by split.
Qed.
End renewal.
