(* ===== verification/Auth.v ===== *)
(** * Sessions and the authorization of requests
    ([server/internal/auth/jwt.go], [server/internal/auth/interceptor.go])

    The session tokens, their validation, and the interceptor that stands before
    every procedure of the control service: it lets a public procedure through,
    and any other one only for an access token that carries the procedure's
    permission.  The JWT library is outside the repository: [Jwt] is the part the
    code calls, [JwtLaws] what it documents. *)

From Stdlib Require Import Ascii.
From S2P Require Import Prelude Hash Engine Service.

Open Scope Z_scope.

(** ** Tokens *)

Definition TokenTypeAccess : string := "access".
Definition TokenTypeRefresh : string := "refresh".

(** [jwt.RegisteredClaims]; a [NumericDate] counts seconds. *)
Record RegisteredClaims := {
  Claims_ID : string;
  Claims_Issuer : string;
  Claims_Subject : string;
  Claims_IssuedAt : option Z;
  Claims_ExpiresAt : option Z;
}.

Record Claims := {
  Claims_Registered : RegisteredClaims;
  Claims_UserID : string;
  Claims_Email : string;
  Claims_TokenType : string;
  Claims_SessionVersion : Z;
  Claims_Permissions : list Z;
}.

Record OIDCTransactionClaims := {
  OIDC_Registered : RegisteredClaims;
  OIDC_State : string;
  OIDC_ProviderID : string;
  OIDC_Nonce : string;
  OIDC_CodeVerifier : string;
  OIDC_RedirectURL : string;
}.

(** [jwt.NewNumericDate]: truncated to seconds. *)
Definition NewNumericDate (t : time) : Z := t / 1000000000.

(** Encoding to JSON replaces what is not UTF-8 ([utf8.ValidString]). *)
Definition continuation (z : Z) : bool := (128 <=? z) && (z <=? 191).

Fixpoint valid_utf8 (l : list Z) : bool :=
  match l with
  | [] => true
  | a :: l =>
      if a <? 128 then valid_utf8 l
      else match l with
      | [] => false
      | b :: l =>
          if (194 <=? a) && (a <=? 223) then continuation b && valid_utf8 l
          else match l with
          | [] => false
          | c :: l =>
              if (224 <=? a) && (a <=? 239)
              then continuation b && continuation c && ((160 <=? b) || negb (a =? 224))
                   && ((b <=? 159) || negb (a =? 237)) && valid_utf8 l
              else match l with
              | [] => false
              | d :: l =>
                  (240 <=? a) && (a <=? 244) && continuation b && continuation c && continuation d
                  && ((144 <=? b) || negb (a =? 240)) && ((b <=? 143) || negb (a =? 244))
                  && valid_utf8 l
              end
          end
      end
  end.

Definition ValidString (s : string) : bool := valid_utf8 (byte_to_Z <$> string_bytes s).

Definition text_claims (c : Claims) : Prop :=
  let r := Claims_Registered c in
  Forall (fun s => ValidString s = true)
    [Claims_ID r; Claims_Issuer r; Claims_Subject r; Claims_UserID c; Claims_Email c; Claims_TokenType c].

(** [jwt.NewWithClaims(EdDSA, claims).SignedString(key)] and
    [jwt.ParseWithClaims] with the key's public half, EdDSA only, an issuer, a
    required expiry and a clock. *)
Class Jwt := {
  SignClaims : bytes -> Claims -> option string;
  SignOIDC : bytes -> OIDCTransactionClaims -> option string;
  ParseClaims : bytes -> string -> time -> string -> option Claims;
  ParseOIDC : bytes -> string -> time -> string -> option OIDCTransactionClaims;
}.

(** A token that was signed is read back until it expires; what is read has the
    issuer and has not expired, and does not depend on the clock; a field that the
    signed claims do not have is empty. *)
Class JwtLaws `{Jwt} : Prop := {
  parse_signed : forall key c v e at_, SignClaims key c = Some v -> text_claims c ->
    Claims_ExpiresAt (Claims_Registered c) = Some e -> at_ < e * 1000000000 ->
    ParseClaims key (Claims_Issuer (Claims_Registered c)) at_ v = Some c;
  parse_unexpired : forall key issuer at_ v c, ParseClaims key issuer at_ v = Some c ->
    Claims_Issuer (Claims_Registered c) = issuer /\
    exists e, Claims_ExpiresAt (Claims_Registered c) = Some e /\ at_ < e * 1000000000;
  parse_oidc_as_claims : forall key key' issuer at_ v o c,
    SignOIDC key o = Some v -> ParseClaims key' issuer at_ v = Some c -> Claims_UserID c = EmptyString;
  parse_claims_as_oidc : forall key key' issuer at_ v o c,
    SignClaims key c = Some v -> ParseOIDC key' issuer at_ v = Some o -> OIDC_State o = EmptyString;
  parse_same : forall key issuer at1 at2 v c1 c2, ParseClaims key issuer at1 v = Some c1 ->
    ParseClaims key issuer at2 v = Some c2 -> c1 = c2;
  parse_signed_same : forall key issuer at_ v c c',
    SignClaims key c = Some v -> text_claims c -> ParseClaims key issuer at_ v = Some c' -> c' = c;
}.

(** [JWTConfig], whose clock is [now]. *)
Record JWTManager := {
  PrivateKey : bytes;
  AccessTokenExpiry : Z;
  RefreshTokenExpiry : Z;
  Issuer : string;
}.

Record TokenPair := { AccessToken : string; RefreshToken : string; ExpiresAt : time }.

Definition NewJWTManager (config : JWTManager) : result JWTManager :=
  if negb (bool_decide (length (PrivateKey config) = 64%nat))
  then Err (ErrNew "auth: Ed25519 session signing key is required")
  else Ok {|
    PrivateKey := PrivateKey config;
    AccessTokenExpiry := if AccessTokenExpiry config =? 0 then 5 * 60 * 1000000000
                         else AccessTokenExpiry config;
    RefreshTokenExpiry := if RefreshTokenExpiry config =? 0 then 7 * 24 * 3600 * 1000000000
                          else RefreshTokenExpiry config;
    Issuer := if bool_decide (Issuer config = EmptyString) then "cadestro"%string else Issuer config;
  |}.

(** [ulid.New(timestamp, rand.Reader)], which fails when the reader does. *)
Definition ulid_new {D} : M D (option string) :=
  draw (fun env n => match env_rand env n with Some _ => Some (env_ulid env n) | None => None end).

Section jwt.
Context `{Jwt}.
Context (manager : JWTManager).

Definition sign {D} (userID email : string) (sessionVersion : Z) (permissions : list Z)
    (tokenType : string) (expires : time) : M D string :=
  at_ ← now;
  id ← ulid_new;
  match id with
  | None => fail (ErrWrap "mint token id" (ErrNew "rand.Read"))
  | Some id =>
      match SignClaims (PrivateKey manager) {|
        Claims_Registered := {| Claims_ID := id; Claims_Issuer := Issuer manager;
          Claims_Subject := userID; Claims_IssuedAt := Some (NewNumericDate at_);
          Claims_ExpiresAt := Some (NewNumericDate expires) |};
        Claims_UserID := userID; Claims_Email := email; Claims_TokenType := tokenType;
        Claims_SessionVersion := sessionVersion; Claims_Permissions := permissions |} with
      | None => fail (ErrWrap "sign token" (ErrNew "jwt: sign"))
      | Some value => mret value
      end
  end.

Definition GenerateTokens {D} (userID email : string) (sessionVersion : Z) (permissions : list Z)
    : M D TokenPair :=
  at_ ← now;
  let accessExpiry := at_ + AccessTokenExpiry manager in
  access ← sign userID email sessionVersion permissions TokenTypeAccess accessExpiry;
  refresh ← sign userID email sessionVersion [] TokenTypeRefresh (at_ + RefreshTokenExpiry manager);
  mret {| AccessToken := access; RefreshToken := refresh; ExpiresAt := accessExpiry |}.

(** [ValidateToken] at an instant. *)
Definition validate (at_ : time) (value tokenType : string) : result Claims :=
  match ParseClaims (PrivateKey manager) (Issuer manager) at_ value with
  | None => Err (ErrWrap "parse token" (ErrNew "jwt: parse"))
  | Some claims =>
      if bool_decide (Claims_UserID claims = EmptyString)
         || negb (bool_decide (Claims_TokenType claims = tokenType))
      then Err (ErrNew "invalid token") else Ok claims
  end.

Definition ValidateToken {D} (value tokenType : string) : M D Claims :=
  at_ ← now; lift (validate at_ value tokenType).

Definition SignOIDCTransaction {D} (state providerID nonce codeVerifier redirectURL : string)
    (expires : time) : M D string :=
  if existsb (fun s => bool_decide (s = EmptyString)) [state; providerID; nonce; codeVerifier; redirectURL]
  then fail (ErrNew "invalid OIDC transaction claims")
  else
    at_ ← now;
    match SignOIDC (PrivateKey manager) {|
      OIDC_Registered := {| Claims_ID := EmptyString; Claims_Issuer := Issuer manager;
        Claims_Subject := EmptyString; Claims_IssuedAt := Some (NewNumericDate at_);
        Claims_ExpiresAt := Some (NewNumericDate expires) |};
      OIDC_State := state; OIDC_ProviderID := providerID; OIDC_Nonce := nonce;
      OIDC_CodeVerifier := codeVerifier; OIDC_RedirectURL := redirectURL |} with
    | None => fail (ErrWrap "sign OIDC transaction" (ErrNew "jwt: sign"))
    | Some value => mret value
    end.

Definition ValidateOIDCTransaction {D} (value : string) : M D OIDCTransactionClaims :=
  at_ ← now;
  match ParseOIDC (PrivateKey manager) (Issuer manager) at_ value with
  | None => fail (ErrWrap "parse OIDC transaction" (ErrNew "jwt: parse"))
  | Some claims =>
      if existsb (fun s => bool_decide (s = EmptyString))
           [OIDC_State claims; OIDC_ProviderID claims; OIDC_Nonce claims; OIDC_CodeVerifier claims;
            OIDC_RedirectURL claims]
      then fail (ErrNew "invalid OIDC transaction") else mret claims
  end.
End jwt.

(** ** The interceptor *)

(** The procedures of [cadestro.v1.ControlService], and any other path. *)
Inductive Procedure :=
| RefreshTokenProcedure | LogoutProcedure | GetCurrentUserProcedure | ListAuthMethodsProcedure
| GetSSOLoginURLProcedure | SSOCallbackProcedure | CreateIdentityProviderProcedure
| GetIdentityProviderProcedure | ListIdentityProvidersProcedure
| RenameIdentityProviderProcedure | ConfigureIdentityProviderProcedure
| EnableIdentityProviderProcedure | DisableIdentityProviderProcedure
| DeleteIdentityProviderProcedure | RegisterProcedure | RenewCertificateProcedure
| ListDevicesProcedure | GetDeviceProcedure | DeleteDeviceProcedure | CreateTokenProcedure
| ListTokensProcedure | RenameTokenProcedure | DeleteTokenProcedure | CreateActionProcedure
| GetActionProcedure | ListActionsProcedure | RenameActionProcedure
| SetActionDescriptionProcedure | ConfigureActionProcedure | DeleteActionProcedure
| CreateDeviceGroupProcedure | GetDeviceGroupProcedure | ListDeviceGroupsProcedure
| ListDeviceGroupsForDeviceProcedure | RenameDeviceGroupProcedure
| SetDeviceGroupDescriptionProcedure | DeleteDeviceGroupProcedure | AddDeviceToGroupProcedure
| RemoveDeviceFromGroupProcedure | CreateAssignmentProcedure | DeleteAssignmentProcedure
| ListAssignmentsProcedure | GetDeviceAssignmentsProcedure | GetDeviceComplianceProcedure
| ListExecutionResultsProcedure | ListAuditEventsProcedure | CreateRoleProcedure
| GetRoleProcedure | ListRolesProcedure | RenameRoleProcedure | SetRoleDescriptionProcedure
| GrantRolePermissionProcedure | RevokeRolePermissionProcedure | DeleteRoleProcedure
| AssignRoleToUserProcedure | RevokeRoleFromUserProcedure | ListPermissionsProcedure
| ListUsersProcedure | RevokeUserSessionsProcedure
| OtherProcedure (path : string).

Definition PERMISSION_UNSPECIFIED : Z := 0.
Definition PERMISSION_GET_CURRENT_USER : Z := 1.
Definition PERMISSION_CREATE_IDENTITY_PROVIDER : Z := 2.
Definition PERMISSION_GET_IDENTITY_PROVIDER : Z := 3.
Definition PERMISSION_LIST_IDENTITY_PROVIDERS : Z := 4.
Definition PERMISSION_UPDATE_IDENTITY_PROVIDER : Z := 5.
Definition PERMISSION_DELETE_IDENTITY_PROVIDER : Z := 6.
Definition PERMISSION_LIST_DEVICES : Z := 7.
Definition PERMISSION_GET_DEVICE : Z := 8.
Definition PERMISSION_DELETE_DEVICE : Z := 9.
Definition PERMISSION_CREATE_TOKEN : Z := 10.
Definition PERMISSION_LIST_TOKENS : Z := 11.
Definition PERMISSION_RENAME_TOKEN : Z := 12.
Definition PERMISSION_DELETE_TOKEN : Z := 13.
Definition PERMISSION_CREATE_ACTION : Z := 14.
Definition PERMISSION_GET_ACTION : Z := 15.
Definition PERMISSION_LIST_ACTIONS : Z := 16.
Definition PERMISSION_RENAME_ACTION : Z := 17.
Definition PERMISSION_UPDATE_ACTION_DESCRIPTION : Z := 18.
Definition PERMISSION_UPDATE_ACTION_PARAMS : Z := 19.
Definition PERMISSION_DELETE_ACTION : Z := 20.
Definition PERMISSION_CREATE_DEVICE_GROUP : Z := 21.
Definition PERMISSION_GET_DEVICE_GROUP : Z := 22.
Definition PERMISSION_LIST_DEVICE_GROUPS : Z := 23.
Definition PERMISSION_LIST_DEVICE_GROUPS_FOR_DEVICE : Z := 24.
Definition PERMISSION_RENAME_DEVICE_GROUP : Z := 25.
Definition PERMISSION_UPDATE_DEVICE_GROUP_DESCRIPTION : Z := 26.
Definition PERMISSION_DELETE_DEVICE_GROUP : Z := 27.
Definition PERMISSION_ADD_DEVICE_TO_GROUP : Z := 28.
Definition PERMISSION_REMOVE_DEVICE_FROM_GROUP : Z := 29.
Definition PERMISSION_CREATE_ASSIGNMENT : Z := 30.
Definition PERMISSION_DELETE_ASSIGNMENT : Z := 31.
Definition PERMISSION_LIST_ASSIGNMENTS : Z := 32.
Definition PERMISSION_GET_DEVICE_ASSIGNMENTS : Z := 33.
Definition PERMISSION_GET_DEVICE_COMPLIANCE : Z := 34.
Definition PERMISSION_LIST_EXECUTION_RESULTS : Z := 35.
Definition PERMISSION_LIST_AUDIT_EVENTS : Z := 36.
Definition PERMISSION_CREATE_ROLE : Z := 37.
Definition PERMISSION_GET_ROLE : Z := 38.
Definition PERMISSION_LIST_ROLES : Z := 39.
Definition PERMISSION_UPDATE_ROLE : Z := 40.
Definition PERMISSION_DELETE_ROLE : Z := 41.
Definition PERMISSION_ASSIGN_ROLE_TO_USER : Z := 42.
Definition PERMISSION_REVOKE_ROLE_FROM_USER : Z := 43.
Definition PERMISSION_LIST_PERMISSIONS : Z := 44.
Definition PERMISSION_LIST_USERS : Z := 45.
Definition PERMISSION_REVOKE_USER_SESSIONS : Z := 46.

Definition PermissionForProcedure (procedure : Procedure) : option Z :=
  match procedure with
  | GetCurrentUserProcedure => Some PERMISSION_GET_CURRENT_USER
  | CreateIdentityProviderProcedure => Some PERMISSION_CREATE_IDENTITY_PROVIDER
  | GetIdentityProviderProcedure => Some PERMISSION_GET_IDENTITY_PROVIDER
  | ListIdentityProvidersProcedure => Some PERMISSION_LIST_IDENTITY_PROVIDERS
  | RenameIdentityProviderProcedure | ConfigureIdentityProviderProcedure
  | EnableIdentityProviderProcedure | DisableIdentityProviderProcedure =>
      Some PERMISSION_UPDATE_IDENTITY_PROVIDER
  | DeleteIdentityProviderProcedure => Some PERMISSION_DELETE_IDENTITY_PROVIDER
  | ListDevicesProcedure => Some PERMISSION_LIST_DEVICES
  | GetDeviceProcedure => Some PERMISSION_GET_DEVICE
  | DeleteDeviceProcedure => Some PERMISSION_DELETE_DEVICE
  | CreateTokenProcedure => Some PERMISSION_CREATE_TOKEN
  | ListTokensProcedure => Some PERMISSION_LIST_TOKENS
  | RenameTokenProcedure => Some PERMISSION_RENAME_TOKEN
  | DeleteTokenProcedure => Some PERMISSION_DELETE_TOKEN
  | CreateActionProcedure => Some PERMISSION_CREATE_ACTION
  | GetActionProcedure => Some PERMISSION_GET_ACTION
  | ListActionsProcedure => Some PERMISSION_LIST_ACTIONS
  | RenameActionProcedure => Some PERMISSION_RENAME_ACTION
  | SetActionDescriptionProcedure => Some PERMISSION_UPDATE_ACTION_DESCRIPTION
  | ConfigureActionProcedure => Some PERMISSION_UPDATE_ACTION_PARAMS
  | DeleteActionProcedure => Some PERMISSION_DELETE_ACTION
  | CreateDeviceGroupProcedure => Some PERMISSION_CREATE_DEVICE_GROUP
  | GetDeviceGroupProcedure => Some PERMISSION_GET_DEVICE_GROUP
  | ListDeviceGroupsProcedure => Some PERMISSION_LIST_DEVICE_GROUPS
  | ListDeviceGroupsForDeviceProcedure => Some PERMISSION_LIST_DEVICE_GROUPS_FOR_DEVICE
  | RenameDeviceGroupProcedure => Some PERMISSION_RENAME_DEVICE_GROUP
  | SetDeviceGroupDescriptionProcedure => Some PERMISSION_UPDATE_DEVICE_GROUP_DESCRIPTION
  | DeleteDeviceGroupProcedure => Some PERMISSION_DELETE_DEVICE_GROUP
  | AddDeviceToGroupProcedure => Some PERMISSION_ADD_DEVICE_TO_GROUP
  | RemoveDeviceFromGroupProcedure => Some PERMISSION_REMOVE_DEVICE_FROM_GROUP
  | CreateAssignmentProcedure => Some PERMISSION_CREATE_ASSIGNMENT
  | DeleteAssignmentProcedure => Some PERMISSION_DELETE_ASSIGNMENT
  | ListAssignmentsProcedure => Some PERMISSION_LIST_ASSIGNMENTS
  | GetDeviceAssignmentsProcedure => Some PERMISSION_GET_DEVICE_ASSIGNMENTS
  | GetDeviceComplianceProcedure => Some PERMISSION_GET_DEVICE_COMPLIANCE
  | ListExecutionResultsProcedure => Some PERMISSION_LIST_EXECUTION_RESULTS
  | ListAuditEventsProcedure => Some PERMISSION_LIST_AUDIT_EVENTS
  | CreateRoleProcedure => Some PERMISSION_CREATE_ROLE
  | GetRoleProcedure => Some PERMISSION_GET_ROLE
  | ListRolesProcedure => Some PERMISSION_LIST_ROLES
  | RenameRoleProcedure | SetRoleDescriptionProcedure
  | GrantRolePermissionProcedure | RevokeRolePermissionProcedure =>
      Some PERMISSION_UPDATE_ROLE
  | DeleteRoleProcedure => Some PERMISSION_DELETE_ROLE
  | AssignRoleToUserProcedure => Some PERMISSION_ASSIGN_ROLE_TO_USER
  | RevokeRoleFromUserProcedure => Some PERMISSION_REVOKE_ROLE_FROM_USER
  | ListPermissionsProcedure => Some PERMISSION_LIST_PERMISSIONS
  | ListUsersProcedure => Some PERMISSION_LIST_USERS
  | RevokeUserSessionsProcedure => Some PERMISSION_REVOKE_USER_SESSIONS
  | _ => None
  end.

Definition publicProcedure (procedure : Procedure) : bool :=
  match procedure with
  | RefreshTokenProcedure | LogoutProcedure | ListAuthMethodsProcedure | GetSSOLoginURLProcedure
  | SSOCallbackProcedure | RegisterProcedure | RenewCertificateProcedure => true
  | _ => false
  end.
(** [strings.Cut(s, " ")]. *)
Fixpoint Cut_space (s : string) : option (string * string) :=
  match s with
  | EmptyString => None
  | String " "%char after => Some (EmptyString, after)
  | String c s => match Cut_space s with
                  | Some (before, after) => Some (String c before, after)
                  | None => None
                  end
  end.

(** [strings.EqualFold] with a word whose letters have no case variant outside
    ASCII, as those of "Bearer". *)
Definition lower (c : ascii) : ascii :=
  let n := nat_of_ascii c in
  if (65 <=? n)%nat && (n <=? 90)%nat then ascii_of_nat (n + 32) else c.

Fixpoint EqualFold (s t : string) : bool :=
  match s, t with
  | EmptyString, EmptyString => true
  | String a s, String b t => Ascii.eqb (lower a) (lower b) && EqualFold s t
  | _, _ => false
  end.

Definition userHasPermission (permissions : list Z) (required : Z) : bool :=
  existsb (fun permission => permission =? required) permissions.

Definition unauthenticated {D A} (msg : string) : M D A := fail (ErrConnect CodeUnauthenticated msg).

(** The request is refused with one of the two codes. *)
Ltac refuses :=
  try match goal with w : World _ |- _ => destruct w end;
  match goal with H : ?run = _ |- context [?run] =>
    eexists _, _, _; split; [|etrans; [exact H|reflexivity]] end; first [by left|by right].

Section interceptor.
Context `{Jwt}.
Context (manager : JWTManager).

Definition WrapUnary {D A} (next : Context -> M D A) (procedure : Procedure) (authorization : string)
    (ctx : Context) : M D A :=
  if publicProcedure procedure then next ctx
  else
    match Cut_space authorization with
    | None => unauthenticated "authentication required"
    | Some (prefix, token) =>
        if negb (EqualFold prefix "Bearer") || bool_decide (token = EmptyString)
        then unauthenticated "authentication required"
        else
          claims ← on_error (ValidateToken manager token TokenTypeAccess)
                     (fun _ => unauthenticated "invalid access token");
          match PermissionForProcedure procedure with
          | Some permission =>
              if userHasPermission (Claims_Permissions claims) permission
              then next (WithUser ctx {|
                     UserContext_ID := Claims_UserID claims; UserContext_Email := Claims_Email claims;
                     UserContext_SessionVersion := Claims_SessionVersion claims;
                     UserContext_Permissions := Claims_Permissions claims |})
              else fail (ErrConnect CodePermissionDenied "permission denied")
          | None => fail (ErrConnect CodePermissionDenied "permission denied")
          end
    end.

(** ** What the interceptor admits *)

Lemma WrapUnary_atomic {D A} (next : Context -> M D A) procedure authorization ctx :
  (forall ctx, atomic (next ctx)) -> atomic (WrapUnary next procedure authorization ctx).
Proof.
  intros Hn. unfold WrapUnary, unauthenticated.
  destruct (publicProcedure _); [done|]. destruct (Cut_space _) as [[prefix token]|]; [|atomically].
  destruct (_ || _); [atomically|]. apply atomic_bind_read.
  - unfold ValidateToken, now. reads.
  - intros claims. destruct (PermissionForProcedure _); [|atomically].
    destruct (userHasPermission _ _); [done|atomically].
Qed.

Lemma ValidateToken_run {D} value ty env (w : World D) :
  ValidateToken manager value ty env w =
    (validate manager (env_now env (w_step w)) value ty, mkWorld (w_db w) (S (w_step w))).
Proof. reflexivity. Qed.

(** The header carries an access token, valid at [at_], with the permission of
    the procedure; [user] is what the token says. *)
Definition authorized (procedure : Procedure) (authorization : string) (at_ : time)
    (user : UserContext) : Prop :=
  exists prefix token permission claims,
    authorization = (prefix ++ " " ++ token)%string /\ EqualFold prefix "Bearer" = true /\
    token <> EmptyString /\
    ParseClaims (PrivateKey manager) (Issuer manager) at_ token = Some claims /\
    Claims_UserID claims <> EmptyString /\ Claims_TokenType claims = TokenTypeAccess /\
    PermissionForProcedure procedure = Some permission /\ permission ∈ Claims_Permissions claims /\
    user = {| UserContext_ID := Claims_UserID claims; UserContext_Email := Claims_Email claims;
              UserContext_SessionVersion := Claims_SessionVersion claims;
              UserContext_Permissions := Claims_Permissions claims |}.

Lemma Cut_space_spec s before after :
  Cut_space s = Some (before, after) ->
  s = (before ++ " " ++ after)%string /\ Cut_space before = None.
Proof.
  revert before. induction s as [|c s IH]; intros before; [done|].
  assert (Cut_space (String c s) = if Ascii.eqb c " "%char then Some (EmptyString, s) else
    match Cut_space s with Some (b, a) => Some (String c b, a) | None => None end) as Heq.
  { by destruct c as [[] [] [] [] [] [] [] []]. }
  rewrite Heq. destruct (Ascii.eqb_spec c " "%char) as [->|Hc]; [by intros [= <- <-]|].
  destruct (Cut_space s) as [[b a]|]; [|done]. intros [= <- <-].
  destruct (IH b eq_refl) as [-> Hb]. split; [done|].
  assert (Cut_space (String c b) = if Ascii.eqb c " "%char then Some (EmptyString, b) else
    match Cut_space b with Some (b', a) => Some (String c b', a) | None => None end) as ->
    by by destruct c as [[] [] [] [] [] [] [] []].
  rewrite Hb. by destruct (Ascii.eqb_spec c " "%char).
Qed.

Lemma Cut_space_app before after :
  Cut_space before = None -> Cut_space (before ++ " " ++ after) = Some (before, after).
Proof.
  induction before as [|c b IH]; [done|]. 
  assert (forall s, Cut_space (String c s) = if Ascii.eqb c " "%char then Some (EmptyString, s) else
    match Cut_space s with Some (b, a) => Some (String c b, a) | None => None end) as Heq
    by (intros s; by destruct c as [[] [] [] [] [] [] [] []]).
  change (String c b ++ " " ++ after)%string with (String c (b ++ " " ++ after))%string. rewrite !Heq. destruct (Ascii.eqb_spec c " "%char); [done|].
  destruct (Cut_space b) as [[]|]; [done|]. intros _. by rewrite IH.
Qed.

(** No word equal to "Bearer" up to case has a space. *)
Lemma bearer_no_space prefix : EqualFold prefix "Bearer" = true -> Cut_space prefix = None.
Proof.
  assert (forall w p, Cut_space w = None -> EqualFold p w = true -> Cut_space p = None) as Hf;
    [|by apply Hf].
  assert (forall c s, Cut_space (String c s) = if Ascii.eqb c " "%char then Some (EmptyString, s) else
    match Cut_space s with Some (b, a) => Some (String c b, a) | None => None end) as Heq
    by (intros c s; by destruct c as [[] [] [] [] [] [] [] []]).
  induction w as [|b w IH]; intros [|a p] Hw He; [done..|]. simpl in He.
  rewrite Heq in *. apply andb_true_iff in He as [Hab%Ascii.eqb_eq He].
  destruct (Ascii.eqb_spec b " "%char) as [->|Hb]; [done|].
  destruct (Cut_space w) as [[]|]; [done|]. rewrite (IH p eq_refl He).
  destruct (Ascii.eqb_spec a " "%char) as [->|]; [|done].
  exfalso. apply Hb. revert Hab. by destruct b as [[] [] [] [] [] [] [] []].
Qed.

Lemma userHasPermission_iff l p : userHasPermission l p = true <-> p ∈ l.
Proof.
  unfold userHasPermission. rewrite existsb_exists, list_elem_of_In. split.
  - intros (q & Hq & ->%Z.eqb_eq). done.
  - intros Hp. exists p. by rewrite Z.eqb_refl.
Qed.

(** C33: A procedure that is not public runs exactly for the holder of its
    permission.  When the Authorization header carries an access token that is
    valid now and has the permission the procedure needs, the handler runs, with
    the token's user in its context; otherwise the caller gets Unauthenticated or
    PermissionDenied and the handler does not run: nothing changes. *)
Theorem WrapUnary_authorizes {D A} (next : Context -> M D A) procedure authorization ctx env w :
  publicProcedure procedure = false ->
  let at_ := env_now env (w_step w) in
  (exists user, authorized procedure authorization at_ user /\
     WrapUnary next procedure authorization ctx env w =
       next (WithUser ctx user) env (mkWorld (w_db w) (S (w_step w)))) \/
  ((forall user, ~ authorized procedure authorization at_ user) /\
   exists c msg n, (c = CodeUnauthenticated \/ c = CodePermissionDenied) /\
     WrapUnary next procedure authorization ctx env w = (Err (ErrConnect c msg), mkWorld (w_db w) n)).
Proof.
  intros Hpub at_. remember (WrapUnary next procedure authorization ctx env w) as run eqn:Hrun.
  revert Hrun. unfold WrapUnary. rewrite Hpub.
  destruct (Cut_space authorization) as [[prefix token]|] eqn:Hcut.
  2: { intros Hrun. right. split; [|refuses].
       intros user (p & t & _ & _ & -> & Hp & _). by rewrite Cut_space_app in Hcut by by apply bearer_no_space. }
  apply Cut_space_spec in Hcut as [-> Hpre].
  assert (forall user, authorized procedure (prefix ++ " " ++ token) at_ user ->
    EqualFold prefix "Bearer" = true /\ token <> EmptyString /\
    exists permission claims, ParseClaims (PrivateKey manager) (Issuer manager) at_ token = Some claims /\
    Claims_UserID claims <> EmptyString /\ Claims_TokenType claims = TokenTypeAccess /\
    PermissionForProcedure procedure = Some permission /\ permission ∈ Claims_Permissions claims) as Hinv.
  { intros user (p & t & permission & claims & Heq & Hp & Ht & Hrest).
    assert (Some (prefix, token) = Some (p, t)) as [= -> ->].
    { rewrite <- (Cut_space_app prefix), Heq by done. apply Cut_space_app. by apply bearer_no_space. }
    split_and!; [done..|]. exists permission, claims. tauto. }
  destruct (EqualFold prefix "Bearer") eqn:Hb; simpl.
  2: { intros Hrun. right. split; [|refuses]. intros user [? _]%Hinv. done. }
  case_bool_decide as Ht.
  { intros Hrun. right. split; [|refuses]. intros user (_ & ? & _)%Hinv. done. }
  unfold mbind at 1, M_bind at 1, on_error. rewrite ValidateToken_run. fold at_. unfold validate.
  destruct (ParseClaims _ _ at_ token) as [claims|] eqn:Hparse.
  2: { intros Hrun. right. split; [|refuses]. intros user (_ & _ & ? & ? & ? & _)%Hinv. done. }
  case_bool_decide as Hid; simpl.
  { intros Hrun. right. split; [|refuses]. intros user (_ & _ & ? & ? & [= <-] & ? & _)%Hinv. done. }
  case_bool_decide as Hty; simpl.
  2: { intros Hrun. right. split; [|refuses]. intros user (_ & _ & ? & ? & [= <-] & _ & ? & _)%Hinv. done. }
  destruct (PermissionForProcedure procedure) as [permission|] eqn:Hperm.
  2: { intros Hrun. right. split; [|refuses]. intros user (_ & _ & ? & ? & _ & _ & _ & ? & _)%Hinv. done. }
  destruct (userHasPermission (Claims_Permissions claims) permission) eqn:Hhas.
  - intros Hrun. left. eexists. split; [|exact Hrun]. apply userHasPermission_iff in Hhas.
    exists prefix, token, permission, claims. by split_and!.
  - intros Hrun. right. split; [|refuses]. intros user (_ & _ & ? & ? & [= <-] & _ & _ & [= <-] & Hin)%Hinv.
    apply userHasPermission_iff in Hin. congruence.
Qed.

(** Every procedure of the control service is either public or gated by one
    permission that exists, so no procedure is open by omission and none is
    unreachable. *)
Theorem procedure_gated procedure :
  (forall path, procedure <> OtherProcedure path) ->
  (publicProcedure procedure = true /\ PermissionForProcedure procedure = None) \/
  (publicProcedure procedure = false /\
   exists p, PermissionForProcedure procedure = Some p /\ 1 <= p <= 46).
Proof.
  intros Hother. destruct procedure; try (by destruct (Hother path));
    first [by left|right; split; [done|eexists; split; [reflexivity|]]];
    by split; apply Z.leb_le.
Qed.
End interceptor.

(** ** What a minted pair is good for *)

Section pairs.
Context `{!Jwt, !JwtLaws}.
Context (manager : JWTManager).

(** The claims of a token minted by [sign]. *)
Definition minted (token userID email : string) (v : Z) (ps : list Z) (ty : string) (expires : time)
    (c : Claims) : Prop :=
  SignClaims (PrivateKey manager) c = Some token /\ text_claims c /\
  Claims_Issuer (Claims_Registered c) = Issuer manager /\
  Claims_ExpiresAt (Claims_Registered c) = Some (NewNumericDate expires) /\
  Claims_UserID c = userID /\ Claims_Email c = email /\ Claims_TokenType c = ty /\
  Claims_SessionVersion c = v /\ Claims_Permissions c = ps.

Lemma sign_mints {D} userID email v ps ty expires env (w : World D) token w' :
  (forall n, ValidString (env_ulid env n) = true) -> ValidString (Issuer manager) = true ->
  ValidString userID = true -> ValidString email = true -> ValidString ty = true ->
  sign manager userID email v ps ty expires env w = (Ok token, w') ->
  exists c, minted token userID email v ps ty expires c.
Proof.
  intros Hu Hi Hid Hem Hty. unfold sign, now, ulid_new, draw, mbind, M_bind. simpl.
  destruct (env_rand env _); [|done].
  match goal with |- context [SignClaims ?k ?c] => destruct (SignClaims k c) as [t|] eqn:Hs;
    [|done]; intros [= <- _]; exists c end.
  split_and!; try done. unfold text_claims. simpl. by repeat constructor.
Qed.

(** A minted token is valid for its type, for what it says, until it expires, and
    never for another type. *)
Lemma minted_validates token userID email v ps ty expires c at_ ty' :
  minted token userID email v ps ty expires c -> userID <> EmptyString ->
  validate manager at_ token ty' = Ok c <-> ty' = ty /\ at_ < NewNumericDate expires * 1000000000.
Proof.
  intros (Hs & Ht & Hi & He & Hu & _ & Hty & _) Hne. unfold validate.
  destruct (ParseClaims _ _ at_ token) as [c'|] eqn:Hp.
  - rewrite <- Hi in Hp. pose proof (parse_signed_same _ _ _ _ _ _ Hs Ht Hp) as ->.
    apply parse_unexpired in Hp as [_ (e & He' & Hlt)]. rewrite He in He'. injection He' as <-.
    rewrite Hu, Hty, bool_decide_false by done. simpl. case_bool_decide; simpl; naive_solver.
  - split; [done|]. intros [_ Hlt]. rewrite <- Hi in Hp.
    by rewrite (parse_signed _ _ _ _ _ Hs Ht He Hlt) in Hp.
Qed.

Lemma minted_only token userID email v ps ty expires c at_ ty' c' :
  minted token userID email v ps ty expires c -> userID <> EmptyString ->
  validate manager at_ token ty' = Ok c' -> c' = c.
Proof.
  intros (Hs & Ht & Hi & _) _. unfold validate.
  destruct (ParseClaims _ _ at_ token) as [c1|] eqn:Hp; [|done].
  destruct (_ || _); [done|]. intros [= ->]. by eapply parse_signed_same.
Qed.

(** C38: A minted pair of tokens is good for exactly what it says.  Until the
    second its expiry falls in, and no longer, the access token validates as an
    access token and yields the user, the session version and the permissions it
    was minted for; the refresh token validates as a refresh token only, and
    carries no permission. *)
Theorem GenerateTokens_validate {D} userID email v ps env (w : World D) pair w' :
  (forall n, ValidString (env_ulid env n) = true) -> ValidString (Issuer manager) = true ->
  ValidString userID = true -> ValidString email = true -> userID <> EmptyString ->
  GenerateTokens manager userID email v ps env w = (Ok pair, w') ->
  let at_ := env_now env (w_step w) in
  ExpiresAt pair = at_ + AccessTokenExpiry manager /\
  exists a r,
    (Claims_UserID a = userID /\ Claims_Email a = email /\ Claims_SessionVersion a = v /\
     Claims_Permissions a = ps) /\
    (Claims_UserID r = userID /\ Claims_SessionVersion r = v /\ Claims_Permissions r = []) /\
    (forall t ty c, validate manager t (AccessToken pair) ty = Ok c <->
       c = a /\ ty = TokenTypeAccess /\ t < ExpiresAt pair / 1000000000 * 1000000000) /\
    (forall t ty c, validate manager t (RefreshToken pair) ty = Ok c <->
       c = r /\ ty = TokenTypeRefresh /\
       t < (at_ + RefreshTokenExpiry manager) / 1000000000 * 1000000000).
Proof.
  intros Hul Hi Hu He Hne Hrun. unfold GenerateTokens, now, draw, mbind, M_bind in Hrun.
  destruct (sign _ _ _ _ _ TokenTypeAccess _ env _) as [[access|e] w1] eqn:Ha; [|done].
  destruct (sign _ _ _ _ _ TokenTypeRefresh _ env _) as [[refresh|e] w2] eqn:Hr; [|done].
  injection Hrun as <- _. simpl. split; [done|].
  apply sign_mints in Ha as [a Ha]; [|done..]. apply sign_mints in Hr as [r Hr]; [|done..].
  exists a, r. split; [by destruct Ha as (_ & _ & _ & _ & ? & ? & _ & ? & ?)|].
  split; [by destruct Hr as (_ & _ & _ & _ & ? & _ & _ & ? & ?)|].
  split; intros t ty c; split.
  - intros Hv. pose proof (minted_only _ _ _ _ _ _ _ _ _ _ _ Ha Hne Hv) as ->.
    split; [done|]. by apply (minted_validates _ _ _ _ _ _ _ _ _ _ Ha Hne).
  - intros [-> ?]. by apply (minted_validates _ _ _ _ _ _ _ _ _ _ Ha Hne).
  - intros Hv. pose proof (minted_only _ _ _ _ _ _ _ _ _ _ _ Hr Hne Hv) as ->.
    split; [done|]. by apply (minted_validates _ _ _ _ _ _ _ _ _ _ Hr Hne).
  - intros [-> ?]. by apply (minted_validates _ _ _ _ _ _ _ _ _ _ Hr Hne).
Qed.

(** The cookie of a login in progress is never accepted as a session token,
    nor a session token as the cookie, whatever the key. *)
Theorem token_kinds_separate {D} key value :
  (forall o, SignOIDC key o = Some value ->
     forall ty env (w : World D) c w', ValidateToken manager value ty env w <> (Ok c, w')) /\
  (forall c, SignClaims key c = Some value ->
     forall env (w : World D) o w', ValidateOIDCTransaction manager value env w <> (Ok o, w')).
Proof.
  split.
  - intros o Hs ty env w c w'. unfold ValidateToken, now, draw, mbind, M_bind, lift, validate.
    destruct (ParseClaims _ _ _ value) as [c'|] eqn:Hp; [|done].
    by rewrite (parse_oidc_as_claims _ _ _ _ _ _ _ Hs Hp).
  - intros c Hs env w o w'. unfold ValidateOIDCTransaction, now, draw, mbind, M_bind.
    destruct (ParseOIDC _ _ _ value) as [o'|] eqn:Hp; [|done].
    by rewrite (parse_claims_as_oidc _ _ _ _ _ _ _ Hs Hp).
Qed.
End pairs.
