(* ===== verification/Idp.v ===== *)
(** * OpenID Connect providers ([server/internal/idp/])

    The claims taken from a verified id token, the random values of a login, and
    the guard that keeps the server's OIDC client off internal addresses.  The
    OIDC and OAuth2 libraries and the network behind them are [OIDC]; what they
    answer may differ from one call to the next, so it depends on the step of the
    run. *)

From S2P Require Import Prelude Hash Base64 Engine.

Open Scope Z_scope.

(** ** The client *)

(** A value of the id token's JSON; what the code does not tell apart is
    [JsonOther]. *)
Inductive Json := JsonNull | JsonBool (b : bool) | JsonString (s : string) | JsonOther.

#[export] Instance Json_eq_dec : EqDecision Json.
Proof. solve_decision. Defined.

Record ProviderConfig := {
  Config_IssuerURL : string;
  Config_ClientID : string;
  Config_Scopes : list string;
  Config_RedirectURL : string;
}.

(** [OIDCProvider]: its OAuth2 configuration, with the discovered endpoint. *)
Record OIDCProvider := {
  OAuth2_ClientID : string;
  OAuth2_Endpoint : string;
  OAuth2_Scopes : list string;
  OAuth2_RedirectURL : string;
}.

(** [oidc.IDToken]; its claims, when they decode as an object. *)
Record IDToken := {
  IDToken_Subject : string;
  IDToken_Nonce : string;
  IDToken_Claims : option (gmap string Json);
}.

Record UserClaims := { Subject : string; Email : string; Name : string }.

(** [oidc.NewProvider], [(oauth2.Config).AuthCodeURL] with the nonce and the S256
    challenge of the verifier, [Exchange] (the token's [id_token] when it is a
    string), and [(oidc.IDTokenVerifier).Verify]. *)
Class OIDC := {
  oidc_NewProvider : nat -> string -> option string;
  oauth2_AuthCodeURL : OIDCProvider -> string -> string -> string -> string;
  oauth2_Exchange : nat -> OIDCProvider -> string -> string -> option (option string);
  oidc_Verify : nat -> OIDCProvider -> string -> option IDToken;
}.

Definition defaultScopes : list string := ["openid"; "profile"; "email"]%string.

(** The claim's raw JSON is empty when the claim is missing. *)
Definition claimString (v : option Json) : option string :=
  match v with Some (JsonString s) => Some s | _ => None end.

(** Decoding [null] into a [bool] leaves it false without an error. *)
Definition claimIsTrue (v : option Json) : bool :=
  match v with
  | Some (JsonBool b) => b
  | Some (JsonString s) => bool_decide (s = "true"%string)
  | _ => false
  end.

Section oidc.
Context `{OIDC}.

Definition NewOIDCProvider {D} (cfg : ProviderConfig) : M D OIDCProvider :=
  endpoint ← draw (fun _ n => oidc_NewProvider n (Config_IssuerURL cfg));
  match endpoint with
  | None => fail (ErrWrap "oidc discovery" (ErrNew "oidc"))
  | Some endpoint =>
      mret {| OAuth2_ClientID := Config_ClientID cfg; OAuth2_Endpoint := endpoint;
              OAuth2_Scopes := match Config_Scopes cfg with [] => defaultScopes | s => s end;
              OAuth2_RedirectURL := Config_RedirectURL cfg |}
  end.

Definition AuthCodeURL (p : OIDCProvider) (state nonce codeVerifier : string) : string :=
  oauth2_AuthCodeURL p state nonce codeVerifier.

Definition ExchangeCode {D} (p : OIDCProvider) (code codeVerifier : string) : M D (option string) :=
  token ← draw (fun _ n => oauth2_Exchange n p code codeVerifier);
  match token with Some token => mret token | None => fail (ErrNew "oauth2: exchange") end.

(** The claims the program uses. *)
Definition user_claims (subject : string) (claims : gmap string Json) : UserClaims := {|
  Subject := subject;
  Email := match claimString (claims !! "email"%string) with
           | Some email => if claimIsTrue (claims !! "email_verified"%string) then email else EmptyString
           | None => EmptyString
           end;
  Name := default EmptyString (claimString (claims !! "name"%string));
|}.

Definition VerifyIDToken {D} (p : OIDCProvider) (rawIDToken expectedNonce : string) : M D UserClaims :=
  idToken ← draw (fun _ n => oidc_Verify n p rawIDToken);
  match idToken with
  | None => fail (ErrWrap "verify id_token" (ErrNew "oidc"))
  | Some idToken =>
      if negb (bool_decide (IDToken_Nonce idToken = expectedNonce)) then fail (ErrNew "nonce mismatch")
      else match IDToken_Claims idToken with
      | None => fail (ErrWrap "extract claims" (ErrNew "json"))
      | Some claims => mret (user_claims (IDToken_Subject idToken) claims)
      end
  end.

Definition VerifyAndExtractClaims {D} (p : OIDCProvider) (oauth2Token : option string)
    (expectedNonce : string) : M D UserClaims :=
  match oauth2Token with
  | None => fail (ErrNew "no id_token in token response")
  | Some rawIDToken => VerifyIDToken p rawIDToken expectedNonce
  end.
End oidc.

(** ** The values of a login ([state.go]) *)

Definition GenerateTransactionValues {D} : M D (string * string * string) :=
  b ← rand_read 96;
  match b with
  | None => fail (ErrWrap "generate OIDC transaction values" (ErrNew "rand.Read"))
  | Some b =>
      mret (EncodeToString (take 32 b), EncodeToString (take 32 (drop 32 b)),
            EncodeToString (drop 64 b))
  end.

(** ** The guard on outgoing connections *)

(** [net.IP]: four or sixteen bytes. *)
Abbreviation IP := (list Z) (only parsing).

(** [net.SplitHostPort] (the host) and [net.ParseIP]. *)
Class Net := { SplitHostPort : string -> option string; ParseIP : string -> option IP }.

Definition To4 (ip : IP) : option IP :=
  match ip with
  | [_; _; _; _] => Some ip
  | _ => match ip with
         | [0; 0; 0; 0; 0; 0; 0; 0; 0; 0; 255; 255; a; b; c; d] => Some [a; b; c; d]
         | _ => None
         end
  end.

Definition byte_at (ip : IP) (i : nat) : Z := default 0 (ip !! i).

Definition IPv6unspecified : IP := replicate 16 0.
Definition IPv6loopback : IP := replicate 15 0 ++ [1].

Definition IsUnspecified (ip : IP) : bool :=
  match To4 ip with
  | Some ip4 => bool_decide (ip4 = [0; 0; 0; 0])
  | None => bool_decide (ip = IPv6unspecified)
  end.

Definition IsLoopback (ip : IP) : bool :=
  match To4 ip with
  | Some ip4 => byte_at ip4 0 =? 127
  | None => bool_decide (ip = IPv6loopback)
  end.

Definition IsPrivate (ip : IP) : bool :=
  match To4 ip with
  | Some ip4 =>
      (byte_at ip4 0 =? 10)
      || ((byte_at ip4 0 =? 172) && (Z.land (byte_at ip4 1) 240 =? 16))
      || ((byte_at ip4 0 =? 192) && (byte_at ip4 1 =? 168))
  | None => (length ip =? 16)%nat && (Z.land (byte_at ip 0) 254 =? 252)
  end.

Definition IsLinkLocalMulticast (ip : IP) : bool :=
  match To4 ip with
  | Some ip4 => (byte_at ip4 0 =? 224) && (byte_at ip4 1 =? 0) && (byte_at ip4 2 =? 0)
  | None => (length ip =? 16)%nat && (byte_at ip 0 =? 255) && (Z.land (byte_at ip 1) 15 =? 2)
  end.

Definition IsLinkLocalUnicast (ip : IP) : bool :=
  match To4 ip with
  | Some ip4 => (byte_at ip4 0 =? 169) && (byte_at ip4 1 =? 254)
  | None => (length ip =? 16)%nat && (byte_at ip 0 =? 254) && (Z.land (byte_at ip 1) 192 =? 128)
  end.

(** [cgnatNet.Contains]: 100.64.0.0 under the mask 255.192.0.0. *)
Definition cgnat_Contains (ip : IP) : bool :=
  match To4 ip with
  | Some ip4 => (byte_at ip4 0 =? 100) && (Z.land (byte_at ip4 1) 192 =? 64)
  | None => false
  end.

Definition ssrfSafeDialControl `{Net} (address : string) : result unit :=
  match SplitHostPort address with
  | None => Err (ErrWrap "ssrf guard: cannot parse dial address" (ErrNew "net"))
  | Some host =>
      match ParseIP host with
      | None => Err (ErrNew "ssrf guard: dial address is not an IP")
      | Some ip =>
          if IsLoopback ip || IsPrivate ip || IsLinkLocalUnicast ip || IsLinkLocalMulticast ip
             || IsUnspecified ip || cgnat_Contains ip
          then Err (ErrNew "ssrf guard: refusing to dial internal address") else Ok tt
      end
  end.

(** ** What the guard refuses *)

(** The internal IPv4 networks: 127.0.0.0/8, 10.0.0.0/8, 172.16.0.0/12,
    192.168.0.0/16, 169.254.0.0/16, 224.0.0.0/24, 100.64.0.0/10 and 0.0.0.0. *)
Definition internal4 (a b c d : Z) : Prop :=
  a = 127 \/ a = 10 \/ (a = 172 /\ 16 <= b <= 31) \/ (a = 192 /\ b = 168) \/ (a = 169 /\ b = 254) \/
  (a = 224 /\ b = 0 /\ c = 0) \/ (a = 100 /\ 64 <= b <= 127) \/ (a = 0 /\ b = 0 /\ c = 0 /\ d = 0).

(** The internal IPv6 addresses: the unspecified and the loopback address,
    fc00::/7, fe80::/10, and ffx2::/16. *)
Definition internal6 (ip : IP) : Prop :=
  ip = IPv6unspecified \/ ip = IPv6loopback \/ 252 <= byte_at ip 0 <= 253 \/
  (byte_at ip 0 = 254 /\ 128 <= byte_at ip 1 <= 191) \/
  (byte_at ip 0 = 255 /\ byte_at ip 1 mod 16 = 2).

(** A property of bytes is checked by trying them all. *)
Lemma all_bytes (f : Z -> bool) :
  forallb f (seqZ 0 256) = true -> forall x, 0 <= x < 256 -> f x = true.
Proof. rewrite forallb_forall. intros Hf x Hx. apply Hf, list_elem_of_In, elem_of_seqZ. lia. Qed.

Lemma mask_172 x : 0 <= x < 256 -> (Z.land x 240 =? 16) = (16 <=? x) && (x <=? 31).
Proof.
  intros Hx. apply eqb_prop.
  by apply (all_bytes (fun x => eqb (Z.land x 240 =? 16) ((16 <=? x) && (x <=? 31)))).
Qed.

Lemma mask_100 x : 0 <= x < 256 -> (Z.land x 192 =? 64) = (64 <=? x) && (x <=? 127).
Proof.
  intros Hx. apply eqb_prop.
  by apply (all_bytes (fun x => eqb (Z.land x 192 =? 64) ((64 <=? x) && (x <=? 127)))).
Qed.

Lemma mask_fe x : 0 <= x < 256 -> (Z.land x 192 =? 128) = (128 <=? x) && (x <=? 191).
Proof.
  intros Hx. apply eqb_prop.
  by apply (all_bytes (fun x => eqb (Z.land x 192 =? 128) ((128 <=? x) && (x <=? 191)))).
Qed.

Lemma mask_fc x : 0 <= x < 256 -> (Z.land x 254 =? 252) = (252 <=? x) && (x <=? 253).
Proof.
  intros Hx. apply eqb_prop.
  by apply (all_bytes (fun x => eqb (Z.land x 254 =? 252) ((252 <=? x) && (x <=? 253)))).
Qed.

Lemma mask_ff x : 0 <= x < 256 -> (Z.land x 15 =? 2) = (x mod 16 =? 2).
Proof.
  intros Hx. apply eqb_prop.
  by apply (all_bytes (fun x => eqb (Z.land x 15 =? 2) (x mod 16 =? 2))).
Qed.

(** The condition of the guard. *)
Definition refused (ip : IP) : bool :=
  IsLoopback ip || IsPrivate ip || IsLinkLocalUnicast ip || IsLinkLocalMulticast ip
  || IsUnspecified ip || cgnat_Contains ip.

Lemma refused_four ip a b c d :
  To4 ip = Some [a; b; c; d] -> 0 <= b < 256 -> refused ip = true <-> internal4 a b c d.
Proof.
  intros Hip Hb. unfold refused, IsLoopback, IsPrivate, IsLinkLocalUnicast, IsLinkLocalMulticast,
    IsUnspecified, cgnat_Contains, internal4, byte_at. rewrite Hip. simpl.
  rewrite mask_172, mask_100 by done.
  rewrite !orb_true_iff, !andb_true_iff, !Z.eqb_eq, !Z.leb_le, bool_decide_eq_true.
  split; [|intuition congruence]. intuition simplify_eq; tauto.
Qed.

Lemma refused_sixteen ip :
  To4 ip = None -> length ip = 16%nat -> 0 <= byte_at ip 0 < 256 -> 0 <= byte_at ip 1 < 256 ->
  refused ip = true <-> internal6 ip.
Proof.
  intros Hip Hl H0 H1. unfold refused, IsLoopback, IsPrivate, IsLinkLocalUnicast,
    IsLinkLocalMulticast, IsUnspecified, cgnat_Contains, internal6. rewrite Hip, Hl. simpl.
  rewrite mask_fc, mask_fe, mask_ff by done.
  rewrite !orb_true_iff, !andb_true_iff, !Z.eqb_eq, !Z.leb_le, !bool_decide_eq_true.
  intuition congruence.
Qed.

(** An address outside the internal networks. *)
Definition external (ip : IP) : Prop :=
  match To4 ip with
  | Some [a; b; c; d] => ~ internal4 a b c d
  | _ => ~ internal6 ip
  end.

(** The guard on the OIDC client's connections lets exactly the addresses
    through that are not internal.  An IPv4 address is judged by its four bytes
    whether it is written as such or mapped into IPv6; any other IPv6 address by
    the unspecified, loopback, unique-local and link-local ranges; and an address
    that cannot be read is refused. *)
Theorem ssrfSafeDialControl_exact `{!Net} address :
  (SplitHostPort address ≫= ParseIP = None -> ssrfSafeDialControl address <> Ok tt) /\
  (forall ip, SplitHostPort address ≫= ParseIP = Some ip ->
     Forall (fun x => 0 <= x < 256) ip -> length ip = 4%nat \/ length ip = 16%nat ->
     (ssrfSafeDialControl address = Ok tt <-> external ip)).
Proof.
  unfold ssrfSafeDialControl.
  destruct (SplitHostPort address) as [host|]; simpl; [|by split].
  destruct (ParseIP host) as [ip|]; [|by split]. split; [done|]. intros ? [= <-] Hb Hl. fold (refused ip).
  assert (forall i, 0 <= byte_at ip i < 256) as Hbyte.
  { intros i. unfold byte_at. destruct (ip !! i) eqn:Hi; simpl; [|lia].
    rewrite Forall_forall in Hb. apply Hb. by eapply list_elem_of_lookup_2. }
  unfold external. destruct (To4 ip) as [ip4|] eqn:H4.
  - assert (exists a b c d, ip4 = [a; b; c; d] /\ 0 <= b < 256) as (a & b & c & d & -> & Hb4).
    { revert H4 Hb. clear. unfold To4. intros H4 Hb. repeat case_match; simplify_eq;
        eexists _, _, _, _; (split; [reflexivity|]); rewrite !Forall_cons in Hb; intuition. }
    pose proof (refused_four ip a b c d H4 Hb4). destruct (refused ip); split; naive_solver.
  - assert (length ip = 16%nat) as H16.
    { destruct Hl as [Hl|]; [|done]. by destruct ip as [|? [|? [|? [|? [|]]]]]. }
    pose proof (refused_sixteen ip H4 H16 (Hbyte 0%nat) (Hbyte 1%nat)).
    destruct (refused ip); split; naive_solver.
Qed.

(** C40: The identity a login yields is the verified token's, and its e-mail
    address is one the provider vouches for.  The token's nonce is the one of this
    login; an address whose [email_verified] is not true is not used. *)
Theorem VerifyIDToken_verified `{!OIDC} {D} p raw nonce (P : D -> Prop) :
  triple P (VerifyIDToken p raw nonce)
    (fun c d => P d /\ exists n token claims, oidc_Verify n p raw = Some token /\
       IDToken_Nonce token = nonce /\ IDToken_Subject token = Subject c /\
       IDToken_Claims token = Some claims /\
       (Email c <> EmptyString -> claims !! "email"%string = Some (JsonString (Email c)) /\
          (claims !! "email_verified"%string = Some (JsonBool true) \/
           claims !! "email_verified"%string = Some (JsonString "true"))))
    (fun _ => P).
Proof.
  intros env w Hw. unfold VerifyIDToken, draw, mbind, M_bind. simpl.
  destruct (oidc_Verify (w_step w) p raw) as [token|] eqn:Hv; [|done].
  case_bool_decide as Hn; [|done]. simpl.
  destruct (IDToken_Claims token) as [claims|] eqn:Hc; [|done].
  split; [done|]. exists (w_step w), token, claims. split_and!; [done..|]. simpl.
  destruct (claims !! "email"%string) as [[| |e|]|]; simpl; [done..| |done|done].
  destruct (claims !! "email_verified"%string) as [[|[]|v|]|]; simpl; try done.
  - by split; [|left].
  - case_bool_decide as Ht; [|done]. subst v. by split; [|right].
Qed.
