(* ===== verification/Login.v ===== *)
(** * Logins, sessions and identity providers ([server/internal/core/auth.go])

    A login goes to an OpenID Connect provider and comes back with an identity,
    which is linked to a user; a session is a refresh token that is good for one
    [session_version] of its user, and refreshing, logging out or revoking moves
    the user to the next. *)

From S2P Require Import Prelude Hash Engine Pki Proto Schema Queries QueriesFacts QueriesFrame.
From S2P Require Import Service.
From S2P Require Import Demo Roles Auth Idp.

Open Scope Z_scope.

Definition authStateTTL : Z := 10 * 60 * 1000000000.
Definition oidcTransactionCookieName : string := "__Host-cadestro-oidc".
Definition errLastIdentityProvider : error := ErrVar "cannot delete the last identity provider".

Record BootstrapProvider := {
  Bootstrap_Name : string;
  Bootstrap_Slug : string;
  Bootstrap_ClientID : string;
  Bootstrap_IssuerURL : string;
  Bootstrap_Scopes : list string;
}.

(** The fields of [http.Cookie] the code sets; SameSite is None on each. *)
Record Cookie := {
  Cookie_Name : string;
  Cookie_Value : string;
  Cookie_Path : string;
  Cookie_Secure : bool;
  Cookie_HttpOnly : bool;
  Cookie_MaxAge : Z;
}.

(** The session tokens of [RefreshTokenResponse] and [SSOCallbackResponse]. *)
Record SessionMessage := {
  Session_AccessToken : string;
  Session_RefreshToken : string;
  Session_ExpiresAt : Timestamp;
}.

Record AuthMethodProvider := { Method_Slug : string; Method_Name : string }.

Definition oidcTransactionCookie (value : string) (maxAge : Z) : Cookie := {|
  Cookie_Name := oidcTransactionCookieName; Cookie_Value := value; Cookie_Path := "/";
  Cookie_Secure := true; Cookie_HttpOnly := true;
  Cookie_MaxAge := if maxAge <? 0 then -1 else Z.quot maxAge 1000000000 |}.

Section login.
Context (service : Service) (jwt : JWTManager).
Context `{Jwt, OIDC, WebAddress}.

(** ** Providers *)

Definition newOIDCProvider (clientID issuerURL : string) (scopes : list string) (redirectURL : string)
    : Queries OIDCProvider :=
  NewOIDCProvider {| Config_IssuerURL := issuerURL; Config_ClientID := clientID;
                     Config_Scopes := scopes; Config_RedirectURL := redirectURL |}.

Definition providerClient (provider : IdentityProvider) (redirectURL : string) : Queries OIDCProvider :=
  newOIDCProvider (IdentityProvider_ClientID provider) (IdentityProvider_IssuerUrl provider)
    (IdentityProvider_ScopesJson provider) redirectURL.

Definition validateRedirect (raw : string) : result unit :=
  match url_Parse (publicBaseURL service) with
  | None => Err (ErrNew "server public URL is invalid")
  | Some base =>
      let refused := Err (ErrNew "redirect URL must use the configured Cadestro origin") in
      match url_Parse raw with
      | None => refused
      | Some redirect =>
          if negb (bool_decide (Url_Scheme redirect = Url_Scheme base))
             || negb (host_EqualFold (Url_Host redirect) (Url_Host base))
             || Url_HasUser redirect || negb (bool_decide (Url_Fragment redirect = EmptyString))
          then refused else Ok tt
      end
  end.

Definition EnsureBootstrapProvider (config : BootstrapProvider) : Queries unit :=
  count ← CountIdentityProviders;
  if 0 <? count then mret tt
  else if bool_decide (Bootstrap_IssuerURL config = EmptyString)
          || bool_decide (Bootstrap_ClientID config = EmptyString)
  then fail (ErrNew "bootstrap OIDC issuer and client ID are required for a new database")
  else
    let name := if bool_decide (Bootstrap_Name config = EmptyString) then "Company SSO"%string
                else Bootstrap_Name config in
    let slug := if bool_decide (Bootstrap_Slug config = EmptyString) then "sso"%string
                else Bootstrap_Slug config in
    id ← ulid_make;
    _ ← newOIDCProvider (Bootstrap_ClientID config) (Bootstrap_IssuerURL config)
          (Bootstrap_Scopes config) (publicBaseURL service);
    _ ← Queries.CreateIdentityProvider id name slug true (Bootstrap_ClientID config)
          (Bootstrap_IssuerURL config) (Bootstrap_Scopes config);
    mret tt.

(** [if err != nil] after a discovery made on behalf of an administrator. *)
Definition discovery_failed {A} (err : error) : Queries A :=
  fail (ErrConnect CodeInvalidArgument "identity provider discovery failed").

Definition CreateIdentityProvider (ctx : Context) (name slug client_id issuer_url : string)
    (scopes : list string) : Queries IdentityProviderMessage :=
  id ← ulid_make;
  _ ← on_error (newOIDCProvider client_id issuer_url scopes (publicBaseURL service)) discovery_failed;
  on_error
    (Transaction (
      provider ← Queries.CreateIdentityProvider id name slug true client_id issuer_url scopes;
      _ ← audit ctx AUDIT_EVENT_TYPE_IDENTITY_PROVIDER_CREATED AUDIT_STREAM_TYPE_IDENTITY_PROVIDER id
            AUDIT_ACTOR_TYPE_USER EmptyString;
      mret (providerProto provider)))
    (fun err =>
      if IsConflict err then fail (rpcConflict "identity provider slug")
      else fail (internal "create identity provider" err)).

Definition GetIdentityProvider (ctx : Context) (id : string) : Queries IdentityProviderMessage :=
  provider ← on_error (Queries.GetIdentityProvider id)
               (not_found_or_internal "identity provider" "get identity provider");
  mret (providerProto provider).

Definition ListIdentityProviders (ctx : Context) : Queries (list IdentityProviderMessage) :=
  providers ← on_error Queries.ListIdentityProviders
                (fun err => fail (internal "list identity providers" err));
  mret (map providerProto providers).

Definition RenameIdentityProvider (ctx : Context) (id name : string) : Queries IdentityProviderMessage :=
  provider ← on_error (Queries.RenameIdentityProvider name id)
               (not_found_or_internal "identity provider" "rename identity provider");
  mret (providerProto provider).

Definition ConfigureIdentityProvider (ctx : Context) (id client_id issuer_url : string)
    (scopes : list string) : Queries IdentityProviderMessage :=
  _ ← on_error (Queries.GetIdentityProvider id)
        (not_found_or_internal "identity provider" "get provider for configure");
  _ ← on_error (newOIDCProvider client_id issuer_url scopes (publicBaseURL service)) discovery_failed;
  provider ← on_error (Queries.ConfigureIdentityProvider client_id issuer_url scopes id)
               (not_found_or_internal "identity provider" "configure identity provider");
  mret (providerProto provider).

Definition EnableIdentityProvider (ctx : Context) (id : string) : Queries IdentityProviderMessage :=
  current ← on_error (Queries.GetIdentityProvider id)
              (not_found_or_internal "identity provider" "get provider for enable");
  _ ← on_error (newOIDCProvider (IdentityProvider_ClientID current) (IdentityProvider_IssuerUrl current)
                  (IdentityProvider_ScopesJson current) (publicBaseURL service)) discovery_failed;
  provider ← on_error (Queries.EnableIdentityProvider id)
               (not_found_or_internal "identity provider" "enable identity provider");
  mret (providerProto provider).

Definition DisableIdentityProvider (ctx : Context) (id : string) : Queries IdentityProviderMessage :=
  provider ← on_error (Queries.DisableIdentityProvider id)
               (not_found_or_internal "identity provider" "disable identity provider");
  mret (providerProto provider).

Definition DeleteIdentityProvider (ctx : Context) (id : string) : Queries unit :=
  on_error
    (Transaction (
      _ ← Queries.GetIdentityProvider id;
      count ← CountIdentityProviders;
      if count <=? 1 then fail errLastIdentityProvider
      else
        rows ← Queries.DeleteIdentityProvider id;
        require_one rows))
    (fun err =>
      if IsNotFound err then fail (rpcNotFound "identity provider")
      else if errors_is errLastIdentityProvider err
      then fail (ErrConnect CodeFailedPrecondition "cannot delete the last identity provider")
      else fail (internal "delete identity provider" err)).

Definition ListAuthMethods (ctx : Context) : Queries (list AuthMethodProvider) :=
  providers ← on_error ListEnabledIdentityProviders (fun err => fail (internal "list auth methods" err));
  mret (map (fun p => {| Method_Slug := IdentityProvider_Slug p; Method_Name := IdentityProvider_Name p |})
          providers).

(** ** Sessions *)

(** [err != nil || claims.ID == "" || claims.ExpiresAt == nil]. *)
Definition refresh_claims (refresh_token : string) : Queries Claims :=
  let refused := fail (ErrConnect CodeUnauthenticated "invalid refresh token") in
  claims ← on_error (ValidateToken jwt refresh_token TokenTypeRefresh) (fun _ => refused);
  if bool_decide (Claims_ID (Claims_Registered claims) = EmptyString)
     || bool_decide (Claims_ExpiresAt (Claims_Registered claims) = None)
  then fail (ErrConnect CodeUnauthenticated "invalid refresh token") else mret claims.

(** [if store.IsNotFound(err) { ... }; return service.internal(op, err)]. *)
Definition refresh_refused {A} (op : string) (err : error) : Queries A :=
  if IsNotFound err then fail (ErrConnect CodeUnauthenticated "invalid refresh token")
  else fail (internal op err).

Definition sessionMessage (pair : TokenPair) : SessionMessage := {|
  Session_AccessToken := AccessToken pair; Session_RefreshToken := RefreshToken pair;
  Session_ExpiresAt := timestamp_new (ExpiresAt pair) |}.

Definition RefreshToken (ctx : Context) (refresh_token : string) : Queries SessionMessage :=
  claims ← refresh_claims refresh_token;
  user ← on_error (RotateUserSession (Claims_UserID claims) (Claims_SessionVersion claims))
           (refresh_refused "rotate refresh session");
  permissions ← on_error (ListUserPermissions (User_ID user))
                  (fun err => fail (internal "load session permissions" err));
  pair ← on_error (GenerateTokens jwt (User_ID user) (User_Email user) (User_SessionVersion user) permissions)
           (fun err => fail (internal "mint session" err));
  mret (sessionMessage pair).

Definition Logout (ctx : Context) (refresh_token : string) : Queries unit :=
  claims ← refresh_claims refresh_token;
  _ ← on_error (RotateUserSession (Claims_UserID claims) (Claims_SessionVersion claims))
        (refresh_refused "rotate logout session");
  mret tt.

Definition GetCurrentUser (ctx : Context) : Queries UserMessage :=
  match UserFromContext ctx with
  | None => fail (ErrConnect CodeUnauthenticated "authentication required")
  | Some principal =>
      user ← on_error (GetUser (UserContext_ID principal))
               (not_found_or_internal "user" "get current user");
      on_error (userProto user) (fun err => fail (internal "read current user roles" err))
  end.

(** ** Logins *)

Definition GetSSOLoginURL (ctx : Context) (slug redirect_url : string) : Queries (string * Cookie) :=
  match validateRedirect redirect_url with
  | Err (ErrNew msg) => fail (ErrConnect CodeInvalidArgument msg)
  | Err _ => fail (ErrConnect CodeInvalidArgument EmptyString)
  | Ok _ =>
      provider ← on_error (GetIdentityProviderBySlug slug)
                   (not_found_or_internal "identity provider" "get login provider");
      if negb (IdentityProvider_Enabled provider)
      then fail (ErrConnect CodeFailedPrecondition "identity provider is disabled")
      else
        oidcProvider ← on_error (providerClient provider redirect_url)
                         (fun err => fail (internal "initialize OIDC provider" err));
        values ← on_error GenerateTransactionValues
                   (fun err => fail (internal "generate OIDC transaction values" err));
        let '(state, nonce, verifier) := values in
        at_ ← now;
        transaction ← on_error
          (SignOIDCTransaction jwt state (IdentityProvider_ID provider) nonce verifier redirect_url
             (at_ + authStateTTL))
          (fun err => fail (internal "sign OIDC transaction" err));
        mret (AuthCodeURL oidcProvider state nonce verifier,
              oidcTransactionCookie transaction authStateTTL)
  end.

(** The transaction of [linkIdentity]. *)
Definition linkTransaction (providerID : string) (claims : UserClaims) : Queries User :=
  at_ ← now;
  linked ← attempt (UpdateIdentityUserLogin (Email claims) (Name claims) at_ providerID (Subject claims));
  match linked with
  | Ok user => mret user
  | Err err =>
      if negb (IsNotFound err) then fail err
      else
        at_ ← now;
        let displayName := if bool_decide (Name claims = EmptyString) then Email claims else Name claims in
        id ← ulid_make;
        user ← CreateUser id (Email claims) displayName at_;
        _ ← LinkIdentity providerID (Subject claims) (User_ID user);
        _ ← AssignInitialRole (User_ID user) administratorsRoleID usersRoleID;
        mret user
  end.

Definition linkIdentity (providerID : string) (claims : UserClaims) : Queries User :=
  Transaction (linkTransaction providerID claims).

(** The part of [SSOCallback] after the state was checked. *)
Definition finishCallback (ctx : Context) (provider : IdentityProvider)
    (transaction : OIDCTransactionClaims) (code : string) : Queries SessionMessage :=
  oidcProvider ← on_error (providerClient provider (OIDC_RedirectURL transaction))
                   (fun err => fail (internal "initialize callback provider" err));
  oauthToken ← on_error (ExchangeCode oidcProvider code (OIDC_CodeVerifier transaction))
                 (fun _ => fail (ErrConnect CodeUnauthenticated "SSO exchange failed"));
  claims ← on_error (VerifyAndExtractClaims oidcProvider oauthToken (OIDC_Nonce transaction))
             (fun _ => fail (ErrConnect CodeUnauthenticated "SSO identity verification failed"));
  if bool_decide (Subject claims = EmptyString)
  then fail (ErrConnect CodeUnauthenticated "SSO identity verification failed")
  else
    user ← on_error (linkIdentity (IdentityProvider_ID provider) claims)
             (fun err => fail (internal "link OIDC identity" err));
    permissions ← on_error (ListUserPermissions (User_ID user))
                    (fun err => fail (internal "load OIDC permissions" err));
    pair ← on_error (GenerateTokens jwt (User_ID user) (User_Email user) (User_SessionVersion user) permissions)
             (fun err => fail (internal "mint OIDC session" err));
    mret (sessionMessage pair).

(** [cookie] is the request's cookie of the login, if it has one.  The result is
    the cookies set and the response: once the state is checked the cookie is
    cleared, whatever happens next. *)
Definition SSOCallback (ctx : Context) (slug state code : string) (cookie : option string)
    : Queries (list Cookie * result SessionMessage) :=
  let refused := mret ([], Err (ErrConnect CodeUnauthenticated "SSO state is invalid or expired")) in
  match cookie with
  | None => refused
  | Some cookie =>
      transaction ← attempt (ValidateOIDCTransaction jwt cookie);
      match transaction with
      | Err _ => refused
      | Ok transaction =>
          if negb (bool_decide (OIDC_State transaction = state)) then refused
          else
            provider ← attempt (Queries.GetIdentityProvider (OIDC_ProviderID transaction));
            match provider with
            | Err _ => refused
            | Ok provider =>
                if negb (bool_decide (IdentityProvider_Slug provider = slug))
                   || negb (IdentityProvider_Enabled provider)
                then refused
                else
                  response ← attempt (finishCallback ctx provider transaction code);
                  mret ([oidcTransactionCookie EmptyString (-1)], response)
            end
      end
  end.
End login.

(** ** Invariants and atomicity *)

Lemma NewOIDCProvider_preserves `{OIDC} {D} (I : D -> Prop) cfg : preserves I (NewOIDCProvider cfg).
Proof. unfold NewOIDCProvider. preserve. Qed.

Lemma ExchangeCode_preserves `{OIDC} {D} (I : D -> Prop) p code v : preserves I (ExchangeCode p code v).
Proof. unfold ExchangeCode. preserve. Qed.

Lemma VerifyAndExtractClaims_preserves `{OIDC} {D} (I : D -> Prop) p t n :
  preserves I (VerifyAndExtractClaims p t n).
Proof. unfold VerifyAndExtractClaims, VerifyIDToken. preserve. Qed.

Lemma GenerateTransactionValues_preserves {D} (I : D -> Prop) : preserves I GenerateTransactionValues.
Proof. unfold GenerateTransactionValues, rand_read. preserve. Qed.

Lemma discovery_failed_preserves {A} I err : preserves I (discovery_failed (A := A) err).
Proof. unfold discovery_failed. preserve. Qed.

Lemma refresh_refused_preserves {A} I op err : preserves I (refresh_refused (A := A) op err).
Proof. unfold refresh_refused. preserve. Qed.

Lemma sign_preserves `{Jwt} m {D} (I : D -> Prop) a b c e f g : preserves I (sign m a b c e f g).
Proof. unfold sign, now, ulid_new. preserve. Qed.

#[export] Hint Resolve NewOIDCProvider_preserves ExchangeCode_preserves sign_preserves
  VerifyAndExtractClaims_preserves GenerateTransactionValues_preserves discovery_failed_preserves
  refresh_refused_preserves : preserve.

Lemma GenerateTokens_preserves `{Jwt} m {D} (I : D -> Prop) a b c e : preserves I (GenerateTokens m a b c e).
Proof. unfold GenerateTokens, now. preserve. Qed.

Lemma SignOIDCTransaction_preserves `{Jwt} m {D} (I : D -> Prop) a b c e f g :
  preserves I (SignOIDCTransaction m a b c e f g).
Proof. unfold SignOIDCTransaction, now. preserve. Qed.

Lemma ValidateOIDCTransaction_preserves `{Jwt} m {D} (I : D -> Prop) v :
  preserves I (ValidateOIDCTransaction m v).
Proof. unfold ValidateOIDCTransaction, now. preserve. Qed.

Lemma refresh_claims_preserves `{Jwt} m I t : preserves I (refresh_claims m t).
Proof. unfold refresh_claims, ValidateToken, now. preserve. Qed.

#[export] Hint Resolve GenerateTokens_preserves SignOIDCTransaction_preserves
  ValidateOIDCTransaction_preserves refresh_claims_preserves : preserve.

Lemma linkIdentity_preserves pid claims : preserves WellFormed (linkIdentity pid claims).
Proof. unfold linkIdentity, linkTransaction, Transaction. cbv zeta. preserve. Qed.

#[export] Hint Resolve linkIdentity_preserves : preserve.

Section handlers.
Context (service : Service) (jwt : JWTManager).
Context `{Jwt, OIDC, WebAddress}.

Lemma EnsureBootstrapProvider_preserves config : preserves WellFormed (EnsureBootstrapProvider service config).
Proof. unfold EnsureBootstrapProvider, providerClient, newOIDCProvider, finishCallback, Transaction, now. cbv zeta. preserve. Qed.

Lemma EnsureBootstrapProvider_atomic config : atomic (EnsureBootstrapProvider service config).
Proof. unfold EnsureBootstrapProvider, providerClient, newOIDCProvider, Transaction, now. cbv zeta. atomically. Qed.

Lemma CreateIdentityProvider_preserves ctx name slug client_id issuer_url scopes : preserves WellFormed (CreateIdentityProvider service ctx name slug client_id issuer_url scopes).
Proof. unfold CreateIdentityProvider, providerClient, newOIDCProvider, finishCallback, Transaction, now. cbv zeta. preserve. Qed.

Lemma CreateIdentityProvider_atomic ctx name slug client_id issuer_url scopes : atomic (CreateIdentityProvider service ctx name slug client_id issuer_url scopes).
Proof. unfold CreateIdentityProvider, providerClient, newOIDCProvider, Transaction, now. cbv zeta. atomically. Qed.

Lemma GetIdentityProvider_preserves ctx id : preserves WellFormed (GetIdentityProvider ctx id).
Proof. unfold GetIdentityProvider, providerClient, newOIDCProvider, finishCallback, Transaction, now. cbv zeta. preserve. Qed.

Lemma GetIdentityProvider_atomic ctx id : atomic (GetIdentityProvider ctx id).
Proof. unfold GetIdentityProvider, providerClient, newOIDCProvider, Transaction, now. cbv zeta. atomically. Qed.

Lemma ListIdentityProviders_preserves ctx : preserves WellFormed (ListIdentityProviders ctx).
Proof. unfold ListIdentityProviders, providerClient, newOIDCProvider, finishCallback, Transaction, now. cbv zeta. preserve. Qed.

Lemma ListIdentityProviders_atomic ctx : atomic (ListIdentityProviders ctx).
Proof. unfold ListIdentityProviders, providerClient, newOIDCProvider, Transaction, now. cbv zeta. atomically. Qed.

Lemma RenameIdentityProvider_preserves ctx id name : preserves WellFormed (RenameIdentityProvider ctx id name).
Proof. unfold RenameIdentityProvider, providerClient, newOIDCProvider, finishCallback, Transaction, now. cbv zeta. preserve. Qed.

Lemma RenameIdentityProvider_atomic ctx id name : atomic (RenameIdentityProvider ctx id name).
Proof. unfold RenameIdentityProvider, providerClient, newOIDCProvider, Transaction, now. cbv zeta. atomically. Qed.

Lemma ConfigureIdentityProvider_preserves ctx id client_id issuer_url scopes : preserves WellFormed (ConfigureIdentityProvider service ctx id client_id issuer_url scopes).
Proof. unfold ConfigureIdentityProvider, providerClient, newOIDCProvider, finishCallback, Transaction, now. cbv zeta. preserve. Qed.

Lemma ConfigureIdentityProvider_atomic ctx id client_id issuer_url scopes : atomic (ConfigureIdentityProvider service ctx id client_id issuer_url scopes).
Proof. unfold ConfigureIdentityProvider, providerClient, newOIDCProvider, Transaction, now. cbv zeta. atomically. Qed.

Lemma EnableIdentityProvider_preserves ctx id : preserves WellFormed (EnableIdentityProvider service ctx id).
Proof. unfold EnableIdentityProvider, providerClient, newOIDCProvider, finishCallback, Transaction, now. cbv zeta. preserve. Qed.

Lemma EnableIdentityProvider_atomic ctx id : atomic (EnableIdentityProvider service ctx id).
Proof. unfold EnableIdentityProvider, providerClient, newOIDCProvider, Transaction, now. cbv zeta. atomically. Qed.

Lemma DisableIdentityProvider_preserves ctx id : preserves WellFormed (DisableIdentityProvider ctx id).
Proof. unfold DisableIdentityProvider, providerClient, newOIDCProvider, finishCallback, Transaction, now. cbv zeta. preserve. Qed.

Lemma DisableIdentityProvider_atomic ctx id : atomic (DisableIdentityProvider ctx id).
Proof. unfold DisableIdentityProvider, providerClient, newOIDCProvider, Transaction, now. cbv zeta. atomically. Qed.

Lemma DeleteIdentityProvider_preserves ctx id : preserves WellFormed (DeleteIdentityProvider ctx id).
Proof. unfold DeleteIdentityProvider, providerClient, newOIDCProvider, finishCallback, Transaction, now. cbv zeta. preserve. Qed.

Lemma DeleteIdentityProvider_atomic ctx id : atomic (DeleteIdentityProvider ctx id).
Proof. unfold DeleteIdentityProvider, providerClient, newOIDCProvider, Transaction, now. cbv zeta. atomically. Qed.

Lemma ListAuthMethods_preserves ctx : preserves WellFormed (ListAuthMethods ctx).
Proof. unfold ListAuthMethods, providerClient, newOIDCProvider, finishCallback, Transaction, now. cbv zeta. preserve. Qed.

Lemma ListAuthMethods_atomic ctx : atomic (ListAuthMethods ctx).
Proof. unfold ListAuthMethods, providerClient, newOIDCProvider, Transaction, now. cbv zeta. atomically. Qed.

Lemma RefreshToken_preserves ctx refresh_token : preserves WellFormed (RefreshToken jwt ctx refresh_token).
Proof. unfold RefreshToken, providerClient, newOIDCProvider, finishCallback, Transaction, now. cbv zeta. preserve. Qed.

Lemma Logout_preserves ctx refresh_token : preserves WellFormed (Logout jwt ctx refresh_token).
Proof. unfold Logout, providerClient, newOIDCProvider, finishCallback, Transaction, now. cbv zeta. preserve. Qed.

Lemma GetCurrentUser_preserves ctx : preserves WellFormed (GetCurrentUser ctx).
Proof. unfold GetCurrentUser, providerClient, newOIDCProvider, finishCallback, Transaction, now. cbv zeta. preserve. Qed.

Lemma GetCurrentUser_atomic ctx : atomic (GetCurrentUser ctx).
Proof. unfold GetCurrentUser, providerClient, newOIDCProvider, Transaction, now. cbv zeta. atomically. Qed.

Lemma GetSSOLoginURL_preserves ctx slug redirect_url : preserves WellFormed (GetSSOLoginURL service jwt ctx slug redirect_url).
Proof. unfold GetSSOLoginURL, providerClient, newOIDCProvider, finishCallback, Transaction, now. cbv zeta. preserve. Qed.

Lemma GetSSOLoginURL_atomic ctx slug redirect_url : atomic (GetSSOLoginURL service jwt ctx slug redirect_url).
Proof. unfold GetSSOLoginURL, providerClient, newOIDCProvider, Transaction, now. cbv zeta. atomically. Qed.

Lemma SSOCallback_preserves ctx slug state code cookie : preserves WellFormed (SSOCallback jwt ctx slug state code cookie).
Proof. unfold SSOCallback, providerClient, newOIDCProvider, finishCallback, Transaction, now. cbv zeta. preserve. Qed.

End handlers.

#[export] Hint Resolve EnsureBootstrapProvider_preserves CreateIdentityProvider_preserves
  GetIdentityProvider_preserves ListIdentityProviders_preserves
  RenameIdentityProvider_preserves ConfigureIdentityProvider_preserves
  EnableIdentityProvider_preserves DisableIdentityProvider_preserves
  DeleteIdentityProvider_preserves ListAuthMethods_preserves RefreshToken_preserves
  Logout_preserves GetCurrentUser_preserves GetSSOLoginURL_preserves SSOCallback_preserves : preserve.
#[export] Hint Resolve EnsureBootstrapProvider_atomic CreateIdentityProvider_atomic GetIdentityProvider_atomic
  ListIdentityProviders_atomic RenameIdentityProvider_atomic
  ConfigureIdentityProvider_atomic EnableIdentityProvider_atomic
  DisableIdentityProvider_atomic DeleteIdentityProvider_atomic ListAuthMethods_atomic
  GetCurrentUser_atomic GetSSOLoginURL_atomic : atomic.
