(* ===== verification/Sessions.v ===== *)
(** * What ends a session

    A refresh token is good for one [session_version] of its user.  This file
    specifies the operations that move a user to the next version: refreshing,
    logging out, revoking the sessions, and every change of what the user may do.
    [session_over] is the state in which a token is dead; [Server.v] shows that
    nothing brings it back. *)

From S2P Require Import Prelude Hash Engine Pki Proto Schema Queries QueriesFacts QueriesFrame.
From S2P Require Import Service.
From S2P Require Import Demo Roles Auth Idp Login.

Open Scope Z_scope.

(** ** Sessions and permissions of a database *)

(** The user went on to a version after [v]. *)
Definition session_over (id : string) (v : Z) (d : Database) : Prop :=
  exists u, users d !! id = Some u /\ v < User_SessionVersion u.

(** [d'] is [d] with the user moved to the next version. *)
Definition session_bumped (id : string) (d d' : Database) : Prop :=
  exists u t, users d !! id = Some u /\ d' = set_users (<[id := bump_session t u]> (users d)) d.

(** The user may do [p]: one of its roles has the permission. *)
Definition allowed (d : Database) (id : string) (p : Z) : Prop :=
  exists role, (id, role) ∈ user_roles d /\ (role, p) ∈ role_permissions d.

Lemma session_bumped_over id d d' u :
  session_bumped id d d' -> users d !! id = Some u -> session_over id (User_SessionVersion u) d'.
Proof.
  intros (u' & t & Hu' & ->) Hu. assert (u' = u) as -> by congruence.
  eexists. split; [apply lookup_insert_eq|]. simpl. lia.
Qed.

(** ** The queries *)

Lemma RotateUserSession_spec id v d0 :
  triple (fun d => d = d0) (RotateUserSession id v)
    (fun u d => exists u0 t, users d0 !! id = Some u0 /\ User_SessionVersion u0 = v /\
       u = bump_session t u0 /\ d = set_users (<[id := u]> (users d0)) d0)
    (fun e d => d = d0 \/ (IsNotFound e = false /\ session_bumped id d0 d /\
       exists u0, users d0 !! id = Some u0 /\ User_SessionVersion u0 = v)).
Proof.
  unfold RotateUserSession, update_row.
  eapply (triple_bind _ _ _ (fun u d => exists u0 t, users d0 !! id = Some u0 /\
    User_SessionVersion u0 = v /\ u = bump_session t u0 /\ d = set_users (<[id := u]> (users d0)) d0)).
  - apply triple_sql; [|by left]. intros t d ->. destruct (users d0 !! id) as [u0|] eqn:Hu; [|by left].
    case_bool_decide; simpl; [|by left]. destruct (exists_row _ _); [by left|].
    exists u0, t. by split_and!.
  - intros u. unfold scan_user. destruct (in_int32 _); [by apply triple_ret|apply triple_fail].
    intros d (u0 & t & Hu & Hv & -> & ->). right. split; [done|]. split; [by exists u0, t|by exists u0].
Qed.

Lemma ListUserPermissions_spec id d0 :
  triple (fun d => d = d0) (ListUserPermissions id)
    (fun ps d => (forall p, p ∈ ps <-> allowed d0 id p) /\ d = d0) (fun _ d => d = d0).
Proof.
  apply triple_query; [|done]. intros d ->. split; [|done]. intros p.
  rewrite elem_of_order_by, elem_of_elements, elem_of_list_to_set, list_elem_of_fmap. split.
  - intros ([r q] & -> & [Hur Hrp%elem_of_elements]%list_elem_of_filter). by exists r.
  - intros (r & Hur & Hrp). exists (r, p). split; [done|]. apply list_elem_of_filter.
    split; [done|by apply elem_of_elements].
Qed.

(** ** Refreshing and logging out *)

Section refresh.
Context (jwt : JWTManager).
Context `{!Jwt, !JwtLaws}.

(** At [at_], [token] is a refresh token with these claims. *)
Definition refreshes (at_ : time) (token : string) (claims : Claims) : Prop :=
  validate jwt at_ token TokenTypeRefresh = Ok claims /\
  Claims_ID (Claims_Registered claims) <> EmptyString /\
  Claims_ExpiresAt (Claims_Registered claims) <> None.

Lemma refreshes_same at1 at2 token c1 c2 :
  refreshes at1 token c1 -> refreshes at2 token c2 -> c1 = c2.
Proof.
  intros [H1 _] [H2 _]. unfold validate in *.
  destruct (ParseClaims _ _ at1 token) as [c|] eqn:Hc1; [|done].
  destruct (ParseClaims _ _ at2 token) as [c'|] eqn:Hc2; [|done].
  pose proof (parse_same _ _ _ _ _ _ _ Hc1 Hc2) as ->.
  destruct (_ || _) in H1; [done|]. destruct (_ || _) in H2; [done|]. congruence.
Qed.

Lemma refresh_claims_spec token d0 :
  triple (fun d => d = d0) (refresh_claims jwt token)
    (fun claims d => (exists at_, refreshes at_ token claims) /\ d = d0)
    (fun e d => e = ErrConnect CodeUnauthenticated "invalid refresh token" /\ d = d0).
Proof.
  unfold refresh_claims. cbv zeta.
  eapply (triple_bind _ _ _ (fun c d => (exists at_, validate jwt at_ token TokenTypeRefresh = Ok c) /\ d = d0)).
  - apply triple_on_error with (E' := fun _ d => d = d0); [|intros e; by apply triple_fail].
    apply triple_bind_draw. intros at_. apply triple_lift; [|done]. intros c d Hc ->.
    split; [by exists at_|done].
  - intros c. apply triple_pure. intros [at_ Hc]. do 2 case_bool_decide; simpl.
    1-3: by apply triple_fail. apply triple_ret. intros d ->. split; [|done]. by exists at_.
Qed.

(** A refresh that succeeds ends the session of its token. *)
Lemma RefreshToken_ends ctx token d0 :
  triple (fun d => d = d0) (RefreshToken jwt ctx token)
    (fun _ d => exists at_ claims, refreshes at_ token claims /\
       session_over (Claims_UserID claims) (Claims_SessionVersion claims) d) (fun _ _ => True).
Proof.
  unfold RefreshToken.
  eapply triple_bind.
  { eapply triple_conseq; [apply (refresh_claims_spec token d0)|done|intros ? ? Hd; exact Hd|done]. }
  intros claims. apply triple_pure. intros [at_ Hat].
  eapply triple_bind.
  { apply triple_on_error with (E' := fun _ _ => True);
      [eapply triple_conseq; [apply (RotateUserSession_spec _ _ d0)|done|intros ? ? Hd; exact Hd|done]|].
    intros e. unfold refresh_refused. destruct (IsNotFound e); by apply triple_fail. }
  intros u. cbv beta. apply preserves_weak_post with
    (I := fun d => exists at_ claims, refreshes at_ token claims /\
       session_over (Claims_UserID claims) (Claims_SessionVersion claims) d).
  - intros d (u0 & t & Hu & Hv & -> & ->). exists at_, claims. split; [done|].
    eexists. split; [apply lookup_insert_eq|]. simpl. lia.
  - pose proof GenerateTokens_preserves. preserve.
Qed.

(** A refresh moves its user to the next session version, once.  It succeeds
    only for a refresh token that is valid now and names the user's current
    version; then the user has the next version, nothing else changed, and the
    new pair is minted for that version with exactly the permissions the user's
    roles have.  A refused token changes nothing; a refresh that fails later has
    at most moved the user on. *)
Theorem RefreshToken_rotates ctx token d0 :
  WellFormed d0 ->
  triple (fun d => d = d0) (RefreshToken jwt ctx token)
    (fun resp d => exists at_ claims u ps pair,
       refreshes at_ token claims /\ users d0 !! Claims_UserID claims = Some u /\
       User_SessionVersion u = Claims_SessionVersion claims /\
       session_bumped (Claims_UserID claims) d0 d /\
       (forall p, p ∈ ps <-> allowed d0 (Claims_UserID claims) p) /\
       (exists env w w', GenerateTokens (D := Database) jwt (User_ID u) (User_Email u)
          (User_SessionVersion u + 1) ps env w = (Ok pair, w')) /\
       resp = sessionMessage pair)
    (fun e d => d = d0 \/ exists id, session_bumped id d0 d).
Proof.
  intros Hwf. unfold RefreshToken.
  eapply triple_bind.
  { eapply triple_conseq; [apply (refresh_claims_spec token d0)|done|intros ? ? Hd; exact Hd|]. intros e d [_ ->].
    by left. }
  intros claims. apply triple_pure. intros [at_ Hat].
  eapply triple_bind.
  { apply triple_on_error with (E' := fun e d => d = d0 \/ (IsNotFound e = false /\
      session_bumped (Claims_UserID claims) d0 d));
      [eapply triple_conseq; [apply (RotateUserSession_spec _ _ d0)|done|intros ? ? Hd; exact Hd|]; naive_solver|].
    intros e. unfold refresh_refused. destruct (IsNotFound e) eqn:He; apply triple_fail;
      intros d [->|[? Hb]]; eauto. }
  intros u. cbv beta. apply triple_exists. intros u0. apply triple_exists. intros t.
  apply triple_pure. intros Hu. apply triple_pure. intros Hv. apply triple_pure. intros ->.
  assert (forall d, d = set_users (<[Claims_UserID claims := bump_session t u0]> (users d0)) d0 ->
    session_bumped (Claims_UserID claims) d0 d) as Hb by (intros d ->; by exists u0, t).
  eapply triple_bind.
  { eapply triple_on_error; [apply ListUserPermissions_spec|]. intros e. apply triple_fail. eauto. }
  intros ps. apply triple_pure. intros Hps.
  eapply triple_bind.
  { eapply triple_on_error; [apply triple_run|].
    - exact (GenerateTokens_preserves jwt (fun d => d = _) _ _ _ _).
    - intros e. apply triple_fail. eauto. }
  intros pair. apply triple_ret. intros d [Hd Hrun].
  assert (User_ID (bump_session t u0) = Claims_UserID claims) as Hid
    by (simpl; by apply (wf_users d0 Hwf)).
  rewrite Hid in Hps. exists at_, claims, u0, ps, pair.
  split_and!; [done|done|done|by apply Hb|exact Hps|exact Hrun|done].
Qed.

(** A token of a version the user has left is refused, whatever else happened. *)
Lemma over_refused {A} (k : User -> Queries A) token claims at_ op d :
  refreshes at_ token claims ->
  session_over (Claims_UserID claims) (Claims_SessionVersion claims) d ->
  triple (fun d' => d' = d)
    (claims ← refresh_claims jwt token;
     user ← on_error (RotateUserSession (Claims_UserID claims) (Claims_SessionVersion claims))
              (refresh_refused op);
     k user)
    (fun _ _ => False) (fun _ d' => d' = d).
Proof.
  intros Hat (u & Hu & Hv).
  eapply triple_bind.
  { eapply triple_conseq; [apply (refresh_claims_spec token d)|done|intros ? ? Hd; exact Hd|]. by intros e d' [_ ->]. }
  intros c. apply triple_pure. intros [at' Hat'].
  pose proof (refreshes_same _ _ _ _ _ Hat' Hat) as ->.
  eapply (triple_bind _ _ _ (fun _ _ => False)); [|by intros ? ? ? []].
  apply triple_on_error with (E' := fun _ d' => d' = d).
  - eapply triple_conseq; [apply (RotateUserSession_spec _ _ d)|done|..].
    + intros ? ? (u0 & t & Hu0 & Hv0 & _). assert (u0 = u) as -> by congruence. lia.
    + intros e d' [->|(_ & _ & u0 & Hu0 & Hv0)]; [done|]. assert (u0 = u) as -> by congruence. lia.
  - intros e. unfold refresh_refused. destruct (IsNotFound e); by apply triple_fail.
Qed.
End refresh.

(** ** Linking an identity *)

(** A login by an identity that is linked already. *)
Definition known_login (pid : string) (claims : UserClaims) (u : User) (d d' : Database) : Prop :=
  exists u0, identity_links d !! (pid, Subject claims) = Some (User_ID u) /\
    users d !! User_ID u = Some u0 /\ User_Email u = Email claims /\
    User_DisplayName u = Name claims /\ User_SessionVersion u = User_SessionVersion u0 + 1 /\
    d' = set_users (<[User_ID u := u]> (users d)) d.

(** The role of a new user: the first one administers. *)
Definition initial_role (d : Database) : string :=
  if bool_decide (users d = ∅) then administratorsRoleID else usersRoleID.

Definition with_role (d : Database) (id role : string) : gset (string * string) :=
  match roles d !! role with
  | Some _ => {[(id, role)]} ∪ user_roles d
  | None => user_roles d
  end.

(** The first login of an identity. *)
Definition first_login (pid : string) (claims : UserClaims) (u : User) (d d' : Database) : Prop :=
  identity_links d !! (pid, Subject claims) = None /\ users d !! User_ID u = None /\
  User_Email u = Email claims /\ User_SessionVersion u = 1 /\
  User_DisplayName u = (if bool_decide (Name claims = EmptyString) then Email claims else Name claims) /\
  d' = set_user_roles (with_role d (User_ID u) (initial_role d))
         (set_identity_links (<[(pid, Subject claims) := User_ID u]> (identity_links d))
           (set_users (<[User_ID u := u]> (users d)) d)).

Lemma set_user_roles_id d : set_user_roles (user_roles d) d = d.
Proof. by destruct d. Qed.

Lemma count_one_fresh {R} (m : gmap string R) k r :
  m !! k = None -> (count_rows (fun _ => true) (<[k := r]> m) =? 1) = bool_decide (m = ∅).
Proof.
  intros Hk. rewrite count_rows_size, map_size_insert_None by done.
  apply eqb_prop. case_bool_decide as Hm; [by subst|].
  destruct (Z.eqb_spec (Z.of_nat (S (size m))) 1) as [H1|]; [|done].
  exfalso. apply Hm, map_size_empty_inv. lia.
Qed.

Lemma UpdateIdentityUserLogin_spec email name at_ pid subject d0 :
  WellFormed d0 ->
  triple (fun d => d = d0) (UpdateIdentityUserLogin email name at_ pid subject)
    (fun u d => exists u0, identity_links d0 !! (pid, subject) = Some (User_ID u) /\
       users d0 !! User_ID u = Some u0 /\ User_Email u = email /\ User_DisplayName u = name /\
       User_SessionVersion u = User_SessionVersion u0 + 1 /\
       d = set_users (<[User_ID u := u]> (users d0)) d0)
    (fun e d => IsNotFound e = true -> identity_links d0 !! (pid, subject) = None /\ d = d0).
Proof.
  intros Hwf. unfold UpdateIdentityUserLogin.
  eapply (triple_bind _ _ _ (fun u d => exists u0, identity_links d0 !! (pid, subject) = Some (User_ID u) /\
       users d0 !! User_ID u = Some u0 /\ User_Email u = email /\ User_DisplayName u = name /\
       User_SessionVersion u = User_SessionVersion u0 + 1 /\
       d = set_users (<[User_ID u := u]> (users d0)) d0)).
  - apply triple_sql; [|by intros d -> ?]. intros t d ->.
    destruct (identity_links d0 !! (pid, subject)) as [id|] eqn:Hl; [|done].
    destruct (users d0 !! id) as [u0|] eqn:Hu.
    + exists u0. cbv zeta. simpl. rewrite (wf_users d0 Hwf _ _ Hu). by split_and!.
    + apply (wf_identity_links d0 Hwf) in Hl as [_ [? Hid]]. congruence.
  - intros u. unfold scan_user. destruct (in_int32 _); [by apply triple_ret|by apply triple_fail].
Qed.

Lemma CreateUser_spec P id email name at_ d0 :
  (forall d, P d -> d = d0) ->
  triple P (CreateUser id email name at_)
    (fun u d => users d0 !! User_ID u = None /\ User_Email u = email /\ User_DisplayName u = name /\
       User_SessionVersion u = 1 /\ d = set_users (<[User_ID u := u]> (users d0)) d0)
    (fun _ _ => True).
Proof.
  intros HP. unfold CreateUser. eapply triple_bind; [apply fwd_insert_row|]. intros u. cbv beta.
  eapply triple_conseq; [apply fwd_scan_user|intros ? Hd; exact Hd| |done].
  intros u' d ((t & d1 & Hd1 & Hnone & _ & -> & ->) & -> & _). apply HP in Hd1 as ->. by split_and!.
Qed.

Lemma linkIdentity_spec pid claims d0 :
  WellFormed d0 ->
  triple (fun d => d = d0) (linkIdentity pid claims)
    (fun u d => known_login pid claims u d0 d \/ first_login pid claims u d0 d) (fun _ d => d = d0).
Proof.
  intros Hwf. unfold linkIdentity, Transaction.
  apply (triple_transaction _ _ _ _ _ (fun _ _ => True)); [|done]. unfold linkTransaction.
  apply triple_bind_draw. intros at_.
  eapply triple_bind.
  { apply (triple_attempt _ _ (fun r d => match r with
      | Ok u => known_login pid claims u d0 d
      | Err e => IsNotFound e = true -> identity_links d0 !! (pid, Subject claims) = None /\ d = d0
      end) _ (fun r d => match r with
      | Ok u => known_login pid claims u d0 d
      | Err e => IsNotFound e = true -> identity_links d0 !! (pid, Subject claims) = None /\ d = d0
      end)); [|done].
    by apply UpdateIdentityUserLogin_spec. }
  intros [u|e]; [apply triple_ret; by left|].
  destruct (IsNotFound e); simpl; [|by apply triple_fail].
  apply triple_bind_draw. intros now_. cbv zeta. apply triple_bind_draw. intros id.
  eapply triple_bind; [apply (CreateUser_spec _ _ _ _ _ d0); by intros d [_ ->]%(fun H => H eq_refl)|].
  intros u. cbv beta. apply triple_pure. intros Hnone. apply triple_pure. intros Hemail.
  apply triple_pure. intros Hname. apply triple_pure. intros Hver.
  step. step. apply triple_ret. intros d (t & d1 & (t' & d2 & -> & Hlink) & Hrole). right.
  revert Hlink. simpl. destruct (identity_links d0 !! _) eqn:Hl; [done|].
  destruct (_ && _); [|done]. intros [=]. subst d1. revert Hrole. cbv zeta. simpl.
  rewrite count_one_fresh by done.
  assert ((if bool_decide (users d0 = ∅) then administratorsRoleID else usersRoleID) = initial_role d0)
    as -> by done.
  unfold first_login, with_role. destruct (roles d0 !! initial_role d0).
  - destruct (bool_decide (_ ∈ _)); [done|]. destruct (bool_decide (is_Some _)); [|done].
    intros [=]. subst d. by split_and!.
  - intros [=]. subst d. split_and!; [done..|]. by destruct d0.
Qed.

(** C37: A login finds its user by the identity, and creates one only for an
    identity it does not know.  A known identity gets its user with the e-mail and
    the name of this login, in the next session version; an unknown one gets a
    fresh user, linked to the identity, with one role: administrator if it is the
    first user of all, plain user otherwise.  A failed login changes nothing. *)
Theorem linkIdentity_links pid claims d0 :
  WellFormed d0 ->
  triple (fun d => d = d0) (linkIdentity pid claims)
    (fun u d => known_login pid claims u d0 d \/ first_login pid claims u d0 d) (fun _ d => d = d0).
Proof. apply linkIdentity_spec. Qed.

(** ** A session that is over stays over: the queries on users *)

Lemma session_over_update id v k r r' d :
  session_over id v d -> users d !! k = Some r -> User_SessionVersion r <= User_SessionVersion r' ->
  session_over id v (set_users (<[k := r']> (users d)) d).
Proof.
  intros (u & Hu & Hv) Hr Hle. unfold session_over. simpl. destruct (decide (k = id)) as [->|Hne].
  - exists r'. rewrite lookup_insert_eq. split; [done|]. assert (u = r) as -> by congruence. lia.
  - exists u. by rewrite lookup_insert_ne.
Qed.

Lemma RotateUserSession_over id v a b : preserves (session_over id v) (RotateUserSession a b).
Proof.
  apply preserves_bind; [|unfold scan_user; preserve]. apply preserves_update_row.
  intros t d r Hd Hr _. eapply session_over_update; [done..|]. simpl. lia.
Qed.

Lemma RotateUserSessionByID_over id v a : preserves (session_over id v) (RotateUserSessionByID a).
Proof.
  apply preserves_bind; [|unfold scan_user; preserve]. apply preserves_update_row.
  intros t d r Hd Hr _. eapply session_over_update; [done..|]. simpl. lia.
Qed.

Lemma CreateUser_over id v a b c e : preserves (session_over id v) (CreateUser a b c e).
Proof.
  apply preserves_bind; [|unfold scan_user; preserve]. apply preserves_insert_row.
  intros t d (u & Hu & Hv) Hnone _. exists u. split; [|done]. simpl.
  rewrite lookup_insert_ne; [done|]. intros ->. congruence.
Qed.

Lemma UpdateIdentityUserLogin_over id v a b c e f :
  preserves (session_over id v) (UpdateIdentityUserLogin a b c e f).
Proof.
  apply preserves_bind; [|unfold scan_user; preserve]. apply preserves_sql.
  intros t d u d' Hd. destruct (identity_links d !! _) as [k|]; [|done].
  destruct (users d !! k) as [r|] eqn:Hr; [|done]. intros [=]. subst d'.
  eapply session_over_update; [done..|]. simpl. lia.
Qed.

(** The users after [BumpSessionsForRole]. *)
Lemma lookup_bumped t role d id :
  map_imap (fun id r => Some (if bool_decide ((id, role) ∈ user_roles d) then bump_session t r else r))
    (users d) !! id =
  (fun r => if bool_decide ((id, role) ∈ user_roles d) then bump_session t r else r) <$> users d !! id.
Proof. rewrite map_lookup_imap. by destruct (users d !! id). Qed.

Lemma BumpSessionsForRole_over id v role : preserves (session_over id v) (BumpSessionsForRole role).
Proof.
  apply preserves_sql. intros t d [] d' (u & Hu & Hv) [=]. subst d'. unfold session_over. simpl.
  rewrite lookup_bumped, Hu. eexists. split; [reflexivity|]. case_bool_decide; simpl; lia.
Qed.

#[export] Hint Resolve RotateUserSession_over RotateUserSessionByID_over CreateUser_over
  UpdateIdentityUserLogin_over BumpSessionsForRole_over : preserve.

(** ** Revoking *)

Lemma RotateUserSessionByID_spec id d0 :
  triple (fun d => d = d0) (RotateUserSessionByID id)
    (fun _ d => session_bumped id d0 d) (fun _ _ => True).
Proof.
  unfold RotateUserSessionByID. eapply triple_bind; [apply fwd_update_row|]. intros u. cbv beta.
  eapply triple_conseq; [apply fwd_scan_user|intros ? Hd; exact Hd| |done].
  intros ? d [(t & d1 & r & -> & Hr & _ & _ & -> & ->) _]. by exists r, t.
Qed.

Lemma RevokeUserSessions_ends ctx id u d0 :
  users d0 !! id = Some u ->
  triple (fun d => d = d0) (RevokeUserSessions ctx id)
    (fun _ d => session_over id (User_SessionVersion u) d) (fun _ d => d = d0).
Proof.
  intros Hu. unfold RevokeUserSessions, Transaction. apply triple_handler.
  - eapply triple_bind; [apply RotateUserSessionByID_spec|]. intros ?. cbv beta.
    eapply triple_conseq; [apply fwd_audit|intros ? Hd; exact Hd| |done].
    intros ? d (d1 & Hb & Ha). unfold same_but_audit in Ha. rewrite Ha.
    destruct (session_bumped_over _ _ _ _ Hb Hu) as (u' & Hu' & Hv). by exists u'.
  - intros e. unfold not_found_or_internal. destruct (IsNotFound e); by apply triple_fail.
Qed.

(** ** What a user may do changes only with the session *)

(** Whoever may do something else in [d'] than in [d] has left its session of
    [d]. *)
Definition sessions_follow (d d' : Database) : Prop :=
  forall id u, users d !! id = Some u ->
    exists u', users d' !! id = Some u' /\ User_SessionVersion u <= User_SessionVersion u' /\
      (User_SessionVersion u = User_SessionVersion u' -> forall p, allowed d' id p <-> allowed d id p).

Lemma sessions_follow_refl d : sessions_follow d d.
Proof. intros id u Hu. by exists u. Qed.

(** Same roles and permissions, and no user's version decreased. *)
Definition roles_kept (d d' : Database) : Prop :=
  user_roles d' = user_roles d /\ role_permissions d' = role_permissions d /\
  forall id u, users d !! id = Some u ->
    exists u', users d' !! id = Some u' /\ User_SessionVersion u <= User_SessionVersion u'.

Lemma roles_kept_refl d : roles_kept d d.
Proof. split_and!; [done..|]. intros id u Hu. by exists u. Qed.

Lemma roles_kept_follow d d' : roles_kept d d' -> sessions_follow d d'.
Proof.
  intros (Hur & Hrp & Hu) id u Hl. destruct (Hu id u Hl) as (u' & Hu' & Hle). exists u'.
  split_and!; [done..|]. intros _ p. unfold allowed. by rewrite Hur, Hrp.
Qed.

Lemma roles_kept_update d0 d k r r' :
  roles_kept d0 d -> users d !! k = Some r -> User_SessionVersion r <= User_SessionVersion r' ->
  roles_kept d0 (set_users (<[k := r']> (users d)) d).
Proof.
  intros (Hur & Hrp & Hu) Hr Hle. split_and!; [done..|]. intros id u Hl. simpl.
  destruct (Hu id u Hl) as (u1 & Hu1 & Hle1). destruct (decide (k = id)) as [->|].
  - exists r'. rewrite lookup_insert_eq. split; [done|]. assert (u1 = r) as -> by congruence. lia.
  - exists u1. by rewrite lookup_insert_ne.
Qed.

Lemma RotateUserSession_kept d0 a b : preserves (roles_kept d0) (RotateUserSession a b).
Proof.
  apply preserves_bind; [|unfold scan_user; preserve]. apply preserves_update_row.
  intros t d r Hd Hr _. eapply roles_kept_update; [done..|]. simpl. lia.
Qed.

Lemma RotateUserSessionByID_kept d0 a : preserves (roles_kept d0) (RotateUserSessionByID a).
Proof.
  apply preserves_bind; [|unfold scan_user; preserve]. apply preserves_update_row.
  intros t d r Hd Hr _. eapply roles_kept_update; [done..|]. simpl. lia.
Qed.

Lemma BumpSessionsForRole_kept d0 role : preserves (roles_kept d0) (BumpSessionsForRole role).
Proof.
  apply preserves_sql. intros t d [] d' (Hur & Hrp & Hu) [=]. subst d'. split_and!; [done..|].
  intros id u Hl. simpl. destruct (Hu id u Hl) as (u1 & Hu1 & Hle). rewrite lookup_bumped, Hu1.
  eexists. split; [reflexivity|]. case_bool_decide; simpl; lia.
Qed.

#[export] Hint Resolve RotateUserSession_kept RotateUserSessionByID_kept BumpSessionsForRole_kept : preserve.

(** The members of the role left their sessions, and nobody else's permissions
    changed. *)
Definition members_bumped (role : string) (d d' : Database) : Prop :=
  (forall id u, users d !! id = Some u -> exists u', users d' !! id = Some u' /\
     User_SessionVersion u <= User_SessionVersion u' /\
     ((id, role) ∈ user_roles d -> User_SessionVersion u < User_SessionVersion u')) /\
  (forall id r p, r <> role -> ((id, r) ∈ user_roles d' /\ (r, p) ∈ role_permissions d') <->
     ((id, r) ∈ user_roles d /\ (r, p) ∈ role_permissions d)) /\
  (forall id, (id, role) ∈ user_roles d' -> (id, role) ∈ user_roles d).

Lemma members_bumped_follow role d d' : members_bumped role d d' -> sessions_follow d d'.
Proof.
  intros (Hu & Hsame & Hin) id u Hl. destruct (Hu id u Hl) as (u' & Hu' & Hle & Hlt). exists u'.
  split_and!; [done..|]. intros Heq p.
  assert ((id, role) ∉ user_roles d) as Hno by (intros Hi; apply Hlt in Hi; lia).
  split; intros (r & Hr); exists r; apply Hsame; try done; intros ->; destruct Hr as [Hr _]; eauto.
Qed.

Lemma sessions_follow_trans d1 d2 d3 :
  sessions_follow d1 d2 -> sessions_follow d2 d3 -> sessions_follow d1 d3.
Proof.
  intros H12 H23 id u Hu. destruct (H12 id u Hu) as (u2 & Hu2 & Hle2 & Hp2).
  destruct (H23 id u2 Hu2) as (u3 & Hu3 & Hle3 & Hp3). exists u3. split_and!; [done|lia|].
  intros Heq p. rewrite (Hp3 ltac:(lia)). apply Hp2. lia.
Qed.

(** What a step from a well-formed database has to show. *)
Definition follows {A} (m : Queries A) : Prop :=
  forall d1, WellFormed d1 ->
    triple (fun d => d = d1) m (fun _ d => sessions_follow d1 d) (fun _ d => sessions_follow d1 d).

(** The invariant of a run from [d0]. *)
Definition followed (d0 d : Database) : Prop := WellFormed d /\ sessions_follow d0 d.

Lemma follows_preserves {A} (m : Queries A) d0 :
  follows m -> preserves WellFormed m -> preserves (followed d0) m.
Proof.
  intros Hm Hwf env w [Hw Hf]. specialize (Hm (w_db w) Hw env w eq_refl). specialize (Hwf env w Hw).
  destruct (m env w) as [[a|e] w']; (split; [done|by eapply sessions_follow_trans]).
Qed.

Lemma preserves_follows {A} (m : Queries A) : (forall d0, preserves (followed d0) m) -> follows m.
Proof.
  intros Hm d1 Hd env w <-.
  specialize (Hm (w_db w) env w (conj Hd (sessions_follow_refl _))).
  by destruct (m env w) as [[a|e] w']; destruct Hm.
Qed.

Lemma kept_follows {A} (m : Queries A) : (forall d0, preserves (roles_kept d0) m) -> follows m.
Proof.
  intros Hm d1 _ env w <-. specialize (Hm (w_db w) env w (roles_kept_refl _)).
  destruct (m env w) as [[a|e] w']; by apply roles_kept_follow.
Qed.

(** A transaction with a pure error handler. *)
Lemma follows_handler {A} (m : Queries A) h :
  (forall d1, WellFormed d1 -> triple (fun d => d = d1) m (fun _ d => sessions_follow d1 d) (fun _ _ => True)) ->
  (forall e I, preserves I (h e)) -> follows (on_error (Transaction m) h).
Proof.
  intros Hm Hh d1 Hd. apply triple_handler; [by apply Hm|]. intros e.
  eapply triple_conseq; [apply (Hh e (fun d => d = d1))|done|intros ? ? ->..]; apply sessions_follow_refl.
Qed.

(** *** Changes of one role *)

(** Only the permissions of [role] changed. *)
Definition only_role (role : string) (d d' : Database) : Prop :=
  users d' = users d /\ user_roles d' = user_roles d /\
  forall r p, r <> role -> (r, p) ∈ role_permissions d' <-> (r, p) ∈ role_permissions d.

Lemma bumped_members role t d d' :
  only_role role d d' ->
  members_bumped role d (set_users (map_imap (fun id r =>
    Some (if bool_decide ((id, role) ∈ user_roles d') then bump_session t r else r)) (users d')) d').
Proof.
  intros (Hu & Hur & Hrp). split_and!.
  - intros id u Hl. simpl. rewrite lookup_bumped, Hu, Hl, Hur. eexists. split; [reflexivity|].
    case_bool_decide; simpl; split; intros; try lia; done.
  - intros id r p Hne. simpl. rewrite Hur, Hrp by done. done.
  - intros id. simpl. by rewrite Hur.
Qed.

Lemma roleMutation_follows ctx id op mutate :
  (forall d1, triple (fun d => d = d1) mutate (fun _ d => only_role id d1 d) (fun _ _ => True)) ->
  follows (roleMutation ctx id op mutate).
Proof.
  intros Hm. unfold roleMutation. apply follows_handler.
  - intros d1 _. eapply triple_bind; [apply Hm|]. intros role. cbv beta.
    eapply triple_bind; [apply fwd_sql|]. intros ?. cbv beta.
    eapply triple_conseq; [apply roleProto_preserves|intros ? Hd; exact Hd| |done].
    intros _ d (t & d2 & Ho & [=]). subst d. by apply (members_bumped_follow id), bumped_members.
  - intros e I. destruct (IsNotFound e); [preserve|]. destruct (IsConflict e); [|preserve].
    case_bool_decide; preserve.
Qed.

Lemma TouchRole_only id d1 :
  triple (fun d => only_role id d1 d) (TouchRole id) (fun _ d => only_role id d1 d) (fun _ _ => True).
Proof. apply preserves_weak, TouchRole_frame. is_stable. Qed.

Lemma GrantRolePermission_follows ctx id permission : follows (GrantRolePermission ctx id permission).
Proof.
  apply roleMutation_follows. intros d1. eapply triple_bind; [|intros ?; apply TouchRole_only].
  apply triple_sql; [|done]. intros t d ->. destruct (roles d1 !! id); [|done].
  destruct (negb _); [done|]. case_bool_decide; [done|]. split_and!; [done..|]. simpl. set_solver.
Qed.

Lemma RevokeRolePermission_follows ctx id permission : follows (RevokeRolePermission ctx id permission).
Proof.
  apply roleMutation_follows. intros d1.
  eapply (triple_bind _ _ _ (fun _ d => only_role id d1 d)).
  - apply triple_sql; [|done]. intros t d ->. case_bool_decide; [|done].
    split_and!; [done..|]. simpl. set_solver.
  - intros n. eapply triple_bind; [apply preserves_weak, require_one_wf|]. intros ?. apply TouchRole_only.
Qed.

Lemma DeleteRole_follows ctx id : follows (DeleteRole ctx id).
Proof.
  apply follows_handler; [|intros e I; preserve]. intros d1 _.
  eapply triple_bind; [apply fwd_sql|]. intros ?. cbv beta.
  eapply triple_bind; [apply fwd_delete_row|]. intros n. cbv beta.
  eapply triple_conseq; [apply fwd_require_one|intros ? Hd; exact Hd| |done].
  intros _ d [(d2 & (t & d3 & -> & [=]) & Hdel) ->]. apply (members_bumped_follow id).
  destruct Hdel as [(_ & _ & ->)|[? _]]; [|done]. subst d2.
  destruct (bumped_members id t d1 d1) as (Hu & Hsame & Hin); [by split_and!|].
  split_and!; [exact Hu| |].
  - intros u r p Hne. simpl. set_solver.
  - intros u. simpl. set_solver.
Qed.

(** *** Changes of one user *)

(** Only the roles of [id] changed. *)
Definition only_user (id : string) (d d' : Database) : Prop :=
  users d' = users d /\ role_permissions d' = role_permissions d /\
  forall k r, k <> id -> (k, r) ∈ user_roles d' <-> (k, r) ∈ user_roles d.

Lemma only_user_bumped id d d' d'' : only_user id d d' -> session_bumped id d' d'' -> sessions_follow d d''.
Proof.
  intros (Hu & Hrp & Hur) (u0 & t & Hu0 & ->) k u Hl. simpl. destruct (decide (k = id)) as [->|Hne].
  - rewrite lookup_insert_eq. eexists. split; [done|]. simpl. assert (u0 = u) as -> by congruence. lia.
  - rewrite lookup_insert_ne, Hu, Hl by done. eexists. split_and!; [done|lia|]. intros _ p.
    unfold allowed. simpl. setoid_rewrite Hrp. by setoid_rewrite (fun r => Hur k r Hne).
Qed.

Lemma bump_after id d1 :
  triple (fun d => only_user id d1 d) (_ ← RotateUserSessionByID id; mret tt)
    (fun _ d => sessions_follow d1 d) (fun _ _ => True).
Proof.
  intros env w Hw. pose proof (RotateUserSessionByID_spec id (w_db w) env w eq_refl) as Hr.
  unfold mbind, M_bind. destruct (RotateUserSessionByID id env w) as [[u|e] w']; [|done].
  by eapply only_user_bumped.
Qed.

Lemma AssignRoleToUser_follows ctx user_id role_id : follows (AssignRoleToUser ctx user_id role_id).
Proof.
  apply follows_handler.
  - intros d1 _. eapply triple_bind; [|intros ?; apply bump_after].
    apply triple_sql; [|done]. intros t d ->.
    destruct (users d1 !! user_id), (roles d1 !! role_id); try done.
    case_bool_decide; [done|]. split_and!; [done..|]. simpl. set_solver.
  - intros e I. preserve.
Qed.

Lemma RevokeRoleFromUser_follows ctx user_id role_id : follows (RevokeRoleFromUser ctx user_id role_id).
Proof.
  apply follows_handler; [|intros e I; preserve]. intros d1 _.
  eapply (triple_bind _ _ _ (fun _ d => only_user user_id d1 d)).
  - apply triple_sql; [|done]. intros t d ->. case_bool_decide; split_and!; try done. simpl. set_solver.
  - intros n. eapply triple_bind; [apply preserves_weak, require_one_wf|]. intros ?. apply bump_after.
Qed.

(** *** New roles and new users *)

(** A role nobody has yet. *)
Lemma GrantRolePermission_only role d1 p :
  preserves (only_role role d1) (_ ← Queries.GrantRolePermission p role; mret tt).
Proof.
  apply preserves_bind; [|intros ?; apply preserves_ret]. apply preserves_sql.
  intros t d x d' (Hu & Hur & Hrp). destruct (roles d !! role); [|done]. destruct (negb _); [done|].
  case_bool_decide; [done|]. intros [=]. subst d'. split_and!; [done..|]. simpl. set_solver.
Qed.

Lemma only_role_nobody role d d' :
  (forall id, (id, role) ∉ user_roles d) -> only_role role d d' -> sessions_follow d d'.
Proof.
  intros Hno (Hu & Hur & Hrp) id u Hl. exists u. rewrite Hu. split_and!; [done..|]. intros _ p.
  unfold allowed. rewrite Hur. split; intros (r & Hr & Hp); exists r; (split; [done|]);
    (rewrite Hrp in * || rewrite <- Hrp in *); try done; intros ->; by eapply Hno.
Qed.

Lemma CreateRole_follows ctx name description permissions :
  follows (CreateRole ctx name description permissions).
Proof.
  intros d1 Hwf. unfold CreateRole. apply triple_bind_draw. intros id. revert d1 Hwf.
  apply follows_handler.
  - intros d1 Hwf. eapply triple_bind; [apply fwd_insert_row|]. intros role. cbv beta.
    eapply (triple_bind _ _ _ (fun _ d => only_role id d1 d /\ forall k, (k, id) ∉ user_roles d1)).
    + eapply triple_conseq with (P' := fun d => only_role id d1 d /\ forall k, (k, id) ∉ user_roles d1);
        [apply preserves_weak, preserves_for_each; intros p| |done|done].
      * intros env w [Ho Hno]. pose proof (GrantRolePermission_only id d1 p env w Ho).
        by destruct ((_ ← Queries.GrantRolePermission p id; mret tt) env w) as [[]].
      * intros d (t & d2 & -> & Hnone & _ & _ & ->). split; [by split_and!|].
        intros k [_ [? Hr]]%(wf_user_roles d1 Hwf). congruence.
    + intros ?. eapply triple_conseq; [apply preserves_weak, roleProto_preserves|intros ? Hd; exact Hd| |done].
      intros _ d [Ho Hno]. by eapply only_role_nobody.
  - intros e I. destruct (IsConflict e); preserve.
Qed.

Lemma linkIdentity_follows pid claims : follows (linkIdentity pid claims).
Proof.
  intros d1 Hwf. eapply triple_conseq; [by apply (linkIdentity_spec pid claims d1)|done| |].
  2: { intros _ d ->. apply sessions_follow_refl. }
  intros u d [(u0 & _ & Hu0 & _ & _ & Hv & ->)|(_ & Hnone & _ & _ & _ & ->)].
  - apply roles_kept_follow. eapply roles_kept_update; [apply roles_kept_refl|done|lia].
  - intros id u' Hl. assert (id <> User_ID u) as Hne by congruence. simpl. exists u'.
    rewrite lookup_insert_ne by done. split_and!; [done..|]. intros _ p. unfold allowed. simpl.
    unfold with_role. destruct (roles d1 !! _); [|done]. set_solver.
Qed.

Lemma linkIdentity_followed d0 pid claims : preserves (followed d0) (linkIdentity pid claims).
Proof. apply follows_preserves; [apply linkIdentity_follows|apply linkIdentity_preserves]. Qed.

#[export] Hint Resolve linkIdentity_followed : preserve.
