(* ===== verification/Server.v ===== *)
(** * The two listeners ([server/cmd/cadestro/main.go])

    [buildServers] puts the control service behind the interceptor on the public
    listener, and the agent's stream and its certificate renewal behind the agent
    middleware on the other.  This file dispatches a request the way they do, and
    shows what holds of the database after any sequence of requests, whatever
    fails on the way. *)

From S2P Require Import Prelude Hash Engine Pki Proto Schema Queries QueriesFacts QueriesFrame.
From S2P Require Import Service.
From S2P Require Import Demo Roles Actions Assignments Devices Enrollment AgentStream Rotation.
From S2P Require Import Auth Idp Login.
From S2P Require Import Sessions.

Open Scope Z_scope.

(** ** Requests *)

(** A call of the control service, with the fields of its request message. *)
Inductive Rpc :=
| RefreshTokenRequest (refresh_token : string)
| LogoutRequest (refresh_token : string)
| GetCurrentUserRequest
| ListAuthMethodsRequest
| GetSSOLoginURLRequest (slug redirect_url : string)
| SSOCallbackRequest (slug state code : string) (cookie : option string)
| CreateIdentityProviderRequest (name slug client_id issuer_url : string) (scopes : list string)
| GetIdentityProviderRequest (id : string)
| ListIdentityProvidersRequest
| RenameIdentityProviderRequest (id name : string)
| ConfigureIdentityProviderRequest (id client_id issuer_url : string) (scopes : list string)
| EnableIdentityProviderRequest (id : string)
| DisableIdentityProviderRequest (id : string)
| DeleteIdentityProviderRequest (id : string)
| RegisterRequest (token : string) (csr : bytes) (hostname agent_version : string)
| RenewCertificateRequest (csr : bytes)
| ListDevicesRequest (page_size : Z) (page_token : string)
| GetDeviceRequest (id : string)
| DeleteDeviceRequest (id : string)
| CreateTokenRequest (name : string) (max_uses : Z) (expires_at : option Timestamp)
| ListTokensRequest (page_size : Z) (page_token : string)
| RenameTokenRequest (id name : string)
| DeleteTokenRequest (id : string)
| CreateActionRequest (name description : string) (request : ActionRequest)
| GetActionRequest (id : string)
| ListActionsRequest (page_size : Z) (page_token : string)
| RenameActionRequest (id name : string)
| SetActionDescriptionRequest (id description : string)
| ConfigureActionRequest (id : string) (request : ActionRequest)
| DeleteActionRequest (id : string)
| CreateDeviceGroupRequest (name description : string)
| GetDeviceGroupRequest (id : string)
| ListDeviceGroupsRequest (page_size : Z) (page_token : string)
| ListDeviceGroupsForDeviceRequest (device_id : string)
| RenameDeviceGroupRequest (id name : string)
| SetDeviceGroupDescriptionRequest (id description : string)
| DeleteDeviceGroupRequest (id : string)
| AddDeviceToGroupRequest (group_id device_id : string)
| RemoveDeviceFromGroupRequest (group_id device_id : string)
| CreateAssignmentRequest (action_id : string) (target_type : Z) (target_id : string)
| DeleteAssignmentRequest (id : string)
| ListAssignmentsRequest (action_id : string) (target_type : Z) (target_id : string)
| GetDeviceAssignmentsRequest (device_id : string)
| GetDeviceComplianceRequest (device_id : string)
| ListExecutionResultsRequest (device_id page_token : string) (page_size : Z)
| ListAuditEventsRequest (page_token : string) (page_size : Z)
| CreateRoleRequest (name description : string) (permissions : list Z)
| GetRoleRequest (id : string)
| ListRolesRequest (page_size : Z) (page_token : string)
| RenameRoleRequest (id name : string)
| SetRoleDescriptionRequest (id description : string)
| GrantRolePermissionRequest (id : string) (permission : Z)
| RevokeRolePermissionRequest (id : string) (permission : Z)
| DeleteRoleRequest (id : string)
| AssignRoleToUserRequest (user_id role_id : string)
| RevokeRoleFromUserRequest (user_id role_id : string)
| ListPermissionsRequest
| ListUsersRequest (page_size : Z) (page_token : string)
| RevokeUserSessionsRequest (user_id : string).

Definition procedure_of (rpc : Rpc) : Procedure :=
  match rpc with
  | RefreshTokenRequest _ => RefreshTokenProcedure
  | LogoutRequest _ => LogoutProcedure
  | GetCurrentUserRequest => GetCurrentUserProcedure
  | ListAuthMethodsRequest => ListAuthMethodsProcedure
  | GetSSOLoginURLRequest _ _ => GetSSOLoginURLProcedure
  | SSOCallbackRequest _ _ _ _ => SSOCallbackProcedure
  | CreateIdentityProviderRequest _ _ _ _ _ => CreateIdentityProviderProcedure
  | GetIdentityProviderRequest _ => GetIdentityProviderProcedure
  | ListIdentityProvidersRequest => ListIdentityProvidersProcedure
  | RenameIdentityProviderRequest _ _ => RenameIdentityProviderProcedure
  | ConfigureIdentityProviderRequest _ _ _ _ => ConfigureIdentityProviderProcedure
  | EnableIdentityProviderRequest _ => EnableIdentityProviderProcedure
  | DisableIdentityProviderRequest _ => DisableIdentityProviderProcedure
  | DeleteIdentityProviderRequest _ => DeleteIdentityProviderProcedure
  | RegisterRequest _ _ _ _ => RegisterProcedure
  | RenewCertificateRequest _ => RenewCertificateProcedure
  | ListDevicesRequest _ _ => ListDevicesProcedure
  | GetDeviceRequest _ => GetDeviceProcedure
  | DeleteDeviceRequest _ => DeleteDeviceProcedure
  | CreateTokenRequest _ _ _ => CreateTokenProcedure
  | ListTokensRequest _ _ => ListTokensProcedure
  | RenameTokenRequest _ _ => RenameTokenProcedure
  | DeleteTokenRequest _ => DeleteTokenProcedure
  | CreateActionRequest _ _ _ => CreateActionProcedure
  | GetActionRequest _ => GetActionProcedure
  | ListActionsRequest _ _ => ListActionsProcedure
  | RenameActionRequest _ _ => RenameActionProcedure
  | SetActionDescriptionRequest _ _ => SetActionDescriptionProcedure
  | ConfigureActionRequest _ _ => ConfigureActionProcedure
  | DeleteActionRequest _ => DeleteActionProcedure
  | CreateDeviceGroupRequest _ _ => CreateDeviceGroupProcedure
  | GetDeviceGroupRequest _ => GetDeviceGroupProcedure
  | ListDeviceGroupsRequest _ _ => ListDeviceGroupsProcedure
  | ListDeviceGroupsForDeviceRequest _ => ListDeviceGroupsForDeviceProcedure
  | RenameDeviceGroupRequest _ _ => RenameDeviceGroupProcedure
  | SetDeviceGroupDescriptionRequest _ _ => SetDeviceGroupDescriptionProcedure
  | DeleteDeviceGroupRequest _ => DeleteDeviceGroupProcedure
  | AddDeviceToGroupRequest _ _ => AddDeviceToGroupProcedure
  | RemoveDeviceFromGroupRequest _ _ => RemoveDeviceFromGroupProcedure
  | CreateAssignmentRequest _ _ _ => CreateAssignmentProcedure
  | DeleteAssignmentRequest _ => DeleteAssignmentProcedure
  | ListAssignmentsRequest _ _ _ => ListAssignmentsProcedure
  | GetDeviceAssignmentsRequest _ => GetDeviceAssignmentsProcedure
  | GetDeviceComplianceRequest _ => GetDeviceComplianceProcedure
  | ListExecutionResultsRequest _ _ _ => ListExecutionResultsProcedure
  | ListAuditEventsRequest _ _ => ListAuditEventsProcedure
  | CreateRoleRequest _ _ _ => CreateRoleProcedure
  | GetRoleRequest _ => GetRoleProcedure
  | ListRolesRequest _ _ => ListRolesProcedure
  | RenameRoleRequest _ _ => RenameRoleProcedure
  | SetRoleDescriptionRequest _ _ => SetRoleDescriptionProcedure
  | GrantRolePermissionRequest _ _ => GrantRolePermissionProcedure
  | RevokeRolePermissionRequest _ _ => RevokeRolePermissionProcedure
  | DeleteRoleRequest _ => DeleteRoleProcedure
  | AssignRoleToUserRequest _ _ => AssignRoleToUserProcedure
  | RevokeRoleFromUserRequest _ _ => RevokeRoleFromUserProcedure
  | ListPermissionsRequest => ListPermissionsProcedure
  | ListUsersRequest _ _ => ListUsersProcedure
  | RevokeUserSessionsRequest _ => RevokeUserSessionsProcedure
  end.

(** What the server reacts to: its start, which makes the first identity provider,
    and a request to one of the listeners: on the public one, its Authorization
    header; on the agents' one, what the middleware reads of it. *)
Inductive Request :=
| Start (config : BootstrapProvider)
| Public (authorization : string) (rpc : Rpc)
| AgentRenew (http : HttpRequest) (csr : bytes)
| AgentConnect (http : HttpRequest) (peer : Peer).

(** A call whose response is not looked at. *)
Definition run_unit {A} (m : Queries A) : Queries unit := _ ← m; mret tt.

(** Down to the queries. *)
Ltac unfold_handlers :=
  unfold Login.RefreshToken, Login.Logout, Login.GetCurrentUser, Login.ListAuthMethods,
    Login.GetSSOLoginURL, Login.SSOCallback, Login.CreateIdentityProvider,
    Login.GetIdentityProvider, Login.ListIdentityProviders, Login.RenameIdentityProvider,
    Login.ConfigureIdentityProvider, Login.EnableIdentityProvider,
    Login.DisableIdentityProvider, Login.DeleteIdentityProvider, Enrollment.Register,
    Enrollment.RenewCertificate, Devices.ListDevices, Devices.GetDevice, Devices.DeleteDevice,
    Devices.CreateToken, Devices.ListTokens, Devices.RenameToken, Devices.DeleteToken,
    Devices.CreateDeviceGroup, Devices.GetDeviceGroup, Devices.ListDeviceGroups,
    Devices.ListDeviceGroupsForDevice, Devices.RenameDeviceGroup,
    Devices.SetDeviceGroupDescription, Devices.DeleteDeviceGroup, Devices.AddDeviceToGroup,
    Devices.RemoveDeviceFromGroup, Assignments.CreateAssignment, Assignments.DeleteAssignment,
    Assignments.ListAssignments, Assignments.GetDeviceAssignments,
    Assignments.GetDeviceCompliance, Assignments.ListExecutionResults,
    Assignments.ListAuditEvents, Roles.CreateRole, Roles.GetRole, Roles.ListRoles,
    Roles.RenameRole, Roles.SetRoleDescription, Roles.GrantRolePermission,
    Roles.RevokeRolePermission, Roles.DeleteRole, Roles.AssignRoleToUser,
    Roles.RevokeRoleFromUser, Roles.ListPermissions, Roles.ListUsers, Roles.RevokeUserSessions,
    EnsureBootstrapProvider, providerClient, newOIDCProvider, finishCallback, linkIdentity,
    linkTransaction, roleMutation, groupMutation, registerTransaction, renewTransaction, audit,
    Transaction, now;
  cbv zeta.

Ltac unfold_actions :=
  unfold Actions.CreateAction, Actions.GetAction, Actions.ListActions, Actions.RenameAction,
    Actions.SetActionDescription, Actions.ConfigureAction, Actions.DeleteAction, actionMutation,
    createActionParams, Transaction; cbv zeta.

Section server.
Context (service : Service) (ca : CA) (jwt : JWTManager).
Context `{Jwt, OIDC, WebAddress, X509, ProtoCodec Action, ProtoCodec ActionResult,
          DeterministicMarshal, PageTokenText}.

Definition control (ctx : Context) (rpc : Rpc) : Queries unit :=
  match rpc with
  | RefreshTokenRequest refresh_token => run_unit (Login.RefreshToken jwt ctx refresh_token)
  | LogoutRequest refresh_token => run_unit (Login.Logout jwt ctx refresh_token)
  | GetCurrentUserRequest => run_unit (Login.GetCurrentUser ctx)
  | ListAuthMethodsRequest => run_unit (Login.ListAuthMethods ctx)
  | GetSSOLoginURLRequest slug redirect_url =>
      run_unit (Login.GetSSOLoginURL service jwt ctx slug redirect_url)
  | SSOCallbackRequest slug state code cookie =>
      run_unit (Login.SSOCallback jwt ctx slug state code cookie)
  | CreateIdentityProviderRequest name slug client_id issuer_url scopes =>
      run_unit (Login.CreateIdentityProvider service ctx name slug client_id issuer_url scopes)
  | GetIdentityProviderRequest id => run_unit (Login.GetIdentityProvider ctx id)
  | ListIdentityProvidersRequest => run_unit (Login.ListIdentityProviders ctx)
  | RenameIdentityProviderRequest id name => run_unit (Login.RenameIdentityProvider ctx id name)
  | ConfigureIdentityProviderRequest id client_id issuer_url scopes =>
      run_unit (Login.ConfigureIdentityProvider service ctx id client_id issuer_url scopes)
  | EnableIdentityProviderRequest id => run_unit (Login.EnableIdentityProvider service ctx id)
  | DisableIdentityProviderRequest id => run_unit (Login.DisableIdentityProvider ctx id)
  | DeleteIdentityProviderRequest id => run_unit (Login.DeleteIdentityProvider ctx id)
  | RegisterRequest token csr hostname agent_version =>
      run_unit (Enrollment.Register service ca ctx token csr hostname agent_version)
  | RenewCertificateRequest csr => run_unit (Enrollment.RenewCertificate ca ctx csr)
  | ListDevicesRequest page_size page_token =>
      run_unit (Devices.ListDevices service ctx page_size page_token)
  | GetDeviceRequest id => run_unit (Devices.GetDevice service ctx id)
  | DeleteDeviceRequest id => run_unit (Devices.DeleteDevice ctx id)
  | CreateTokenRequest name max_uses expires_at =>
      run_unit (Devices.CreateToken service ctx name max_uses expires_at)
  | ListTokensRequest page_size page_token =>
      run_unit (Devices.ListTokens ctx page_size page_token)
  | RenameTokenRequest id name => run_unit (Devices.RenameToken ctx id name)
  | DeleteTokenRequest id => run_unit (Devices.DeleteToken ctx id)
  | CreateActionRequest name description request =>
      run_unit (Actions.CreateAction ctx name description request)
  | GetActionRequest id => run_unit (Actions.GetAction ctx id)
  | ListActionsRequest page_size page_token =>
      run_unit (Actions.ListActions ctx page_size page_token)
  | RenameActionRequest id name => run_unit (Actions.RenameAction ctx id name)
  | SetActionDescriptionRequest id description =>
      run_unit (Actions.SetActionDescription ctx id description)
  | ConfigureActionRequest id request => run_unit (Actions.ConfigureAction ctx id request)
  | DeleteActionRequest id => run_unit (Actions.DeleteAction ctx id)
  | CreateDeviceGroupRequest name description =>
      run_unit (Devices.CreateDeviceGroup ctx name description)
  | GetDeviceGroupRequest id => run_unit (Devices.GetDeviceGroup ctx id)
  | ListDeviceGroupsRequest page_size page_token =>
      run_unit (Devices.ListDeviceGroups ctx page_size page_token)
  | ListDeviceGroupsForDeviceRequest device_id =>
      run_unit (Devices.ListDeviceGroupsForDevice ctx device_id)
  | RenameDeviceGroupRequest id name => run_unit (Devices.RenameDeviceGroup ctx id name)
  | SetDeviceGroupDescriptionRequest id description =>
      run_unit (Devices.SetDeviceGroupDescription ctx id description)
  | DeleteDeviceGroupRequest id => run_unit (Devices.DeleteDeviceGroup ctx id)
  | AddDeviceToGroupRequest group_id device_id =>
      run_unit (Devices.AddDeviceToGroup ctx group_id device_id)
  | RemoveDeviceFromGroupRequest group_id device_id =>
      run_unit (Devices.RemoveDeviceFromGroup ctx group_id device_id)
  | CreateAssignmentRequest action_id target_type target_id =>
      run_unit (Assignments.CreateAssignment ctx action_id target_type target_id)
  | DeleteAssignmentRequest id => run_unit (Assignments.DeleteAssignment ctx id)
  | ListAssignmentsRequest action_id target_type target_id =>
      run_unit (Assignments.ListAssignments ctx action_id target_type target_id)
  | GetDeviceAssignmentsRequest device_id =>
      run_unit (Assignments.GetDeviceAssignments ctx device_id)
  | GetDeviceComplianceRequest device_id =>
      run_unit (Assignments.GetDeviceCompliance ctx device_id)
  | ListExecutionResultsRequest device_id page_token page_size =>
      run_unit (Assignments.ListExecutionResults ctx device_id page_token page_size)
  | ListAuditEventsRequest page_token page_size =>
      run_unit (Assignments.ListAuditEvents ctx page_token page_size)
  | CreateRoleRequest name description permissions =>
      run_unit (Roles.CreateRole ctx name description permissions)
  | GetRoleRequest id => run_unit (Roles.GetRole ctx id)
  | ListRolesRequest page_size page_token => run_unit (Roles.ListRoles ctx page_size page_token)
  | RenameRoleRequest id name => run_unit (Roles.RenameRole ctx id name)
  | SetRoleDescriptionRequest id description =>
      run_unit (Roles.SetRoleDescription ctx id description)
  | GrantRolePermissionRequest id permission =>
      run_unit (Roles.GrantRolePermission ctx id permission)
  | RevokeRolePermissionRequest id permission =>
      run_unit (Roles.RevokeRolePermission ctx id permission)
  | DeleteRoleRequest id => run_unit (Roles.DeleteRole ctx id)
  | AssignRoleToUserRequest user_id role_id =>
      run_unit (Roles.AssignRoleToUser ctx user_id role_id)
  | RevokeRoleFromUserRequest user_id role_id =>
      run_unit (Roles.RevokeRoleFromUser ctx user_id role_id)
  | ListPermissionsRequest => run_unit (Roles.ListPermissions ctx)
  | ListUsersRequest page_size page_token => run_unit (Roles.ListUsers ctx page_size page_token)
  | RevokeUserSessionsRequest user_id => run_unit (Roles.RevokeUserSessions ctx user_id)
  end.

Definition server_step (request : Request) : Queries unit :=
  match request with
  | Start config => EnsureBootstrapProvider service config
  | Public authorization rpc =>
      WrapUnary jwt (fun ctx => control ctx rpc) (procedure_of rpc) authorization empty_context
  | AgentRenew http csr =>
      match AgentMiddleware empty_context http with
      | inl status => mret tt
      | inr ctx => run_unit (RenewCertificate ca ctx csr)
      end
  | AgentConnect http peer =>
      match AgentMiddleware empty_context http with
      | inl status => mret tt
      | inr ctx => run_unit (Stream service ctx peer)
      end
  end.

(** [d'] is a database the server may have after some requests from [d], with any
    faults, clocks and random values. *)
Inductive reaches (d : Database) : Database -> Prop :=
| reaches_refl : reaches d d
| reaches_step d1 request env n r w' :
    reaches d d1 -> server_step request env (mkWorld d1 n) = (r, w') -> reaches d (w_db w').

(** ** Invariants of the server *)

Lemma run_unit_preserves {A} I (m : Queries A) : preserves I m -> preserves I (run_unit m).
Proof. intros Hm. unfold run_unit. by apply preserves_bind; [|intros ?; apply preserves_ret]. Qed.

Lemma WrapUnary_preserves {A} I (next : Context -> Queries A) procedure authorization ctx :
  (forall ctx, preserves I (next ctx)) ->
  preserves I (WrapUnary jwt next procedure authorization ctx).
Proof. intros Hn. unfold WrapUnary, unauthenticated, ValidateToken, now. preserve; apply Hn. Qed.

Lemma server_step_preserves I request :
  (forall ctx rpc, preserves I (control ctx rpc)) ->
  (forall ctx peer, preserves I (Stream service ctx peer)) ->
  (forall config, preserves I (EnsureBootstrapProvider service config)) ->
  preserves I (server_step request).
Proof.
  intros Hc Hs Hb. destruct request as [config|authorization rpc|http csr|http peer]; simpl.
  - apply Hb.
  - by apply WrapUnary_preserves.
  - destruct (AgentMiddleware _ _) as [|ctx]; [apply preserves_ret|]. apply (Hc ctx (RenewCertificateRequest csr)).
  - destruct (AgentMiddleware _ _) as [|ctx]; [apply preserves_ret|]. by apply run_unit_preserves.
Qed.

Lemma reaches_preserves I d d' :
  (forall request, preserves I (server_step request)) -> reaches d d' -> I d -> I d'.
Proof.
  intros Hstep Hr Hd. induction Hr as [|d1 request env n r w' Hr IH Hrun]; [done|].
  specialize (Hstep request env (mkWorld d1 n) IH). rewrite Hrun in Hstep. by destruct r.
Qed.

Lemma control_wf ctx rpc : preserves WellFormed (control ctx rpc).
Proof. destruct rpc; simpl; apply run_unit_preserves; auto with preserve nocore. Qed.

Lemma server_step_wf request : preserves WellFormed (server_step request).
Proof. apply server_step_preserves; [apply control_wf|intros; auto with preserve..]. Qed.

(** *** Every call that is one transaction is atomic *)

(** The calls that write before they may fail: a refresh or a logout moves the
    session on first, and a callback reports its errors in its response. *)
Definition session_call (rpc : Rpc) : bool :=
  match rpc with
  | RefreshTokenRequest _ | LogoutRequest _ | SSOCallbackRequest _ _ _ _ => true
  | _ => false
  end.

Lemma run_unit_atomic {A} (m : Queries A) : atomic m -> atomic (run_unit m).
Proof. apply (atomic_bind_ret _ (fun _ => tt)). Qed.

Lemma control_atomic ctx rpc : session_call rpc = false -> atomic (control ctx rpc).
Proof. destruct rpc; intros Hs; try discriminate Hs; apply run_unit_atomic; auto with atomic nocore. Qed.

Lemma Stream_preserves_other I ctx peer :
  stable I set_devices -> stable I set_execution_results -> stable I set_audit_events ->
  preserves I (Stream service ctx peer).
Proof.
  intros Hdev Hres Haud.
  assert (forall id hello, preserves I (touchAgent ctx id hello)) as Ht by (intros; unfold touchAgent; preserve).
  assert (forall hello, preserves I (authenticateAgent ctx hello)) as Ha
    by (intros; unfold authenticateAgent; cbv zeta; preserve).
  assert (forall id r, preserves I (storeActionResult ctx id r)) as Hr
    by (intros; unfold storeActionResult, storeTransaction, Transaction; cbv zeta; preserve).
  unfold Stream. preserve. apply streamLoop_preserves. intros message. unfold handleAgentMessage.
  cbv zeta. preserve.
Qed.

Lemma Bootstrap_preserves I config :
  stable I set_identity_providers -> preserves I (EnsureBootstrapProvider service config).
Proof. intros Hp. unfold EnsureBootstrapProvider, newOIDCProvider. preserve. Qed.

(** *** Sessions and permissions *)

Lemma control_over id v ctx rpc : preserves (session_over id v) (control ctx rpc).
Proof.
  destruct rpc; simpl; apply run_unit_preserves; unfold_handlers; unfold_actions; preserve.
Qed.

Lemma server_step_over id v request : preserves (session_over id v) (server_step request).
Proof.
  apply server_step_preserves; [apply control_over|intros; apply Stream_preserves_other; is_stable|
  intros; apply Bootstrap_preserves; is_stable].
Qed.

Lemma run_unit_follows {A} (m : Queries A) : follows m -> follows (run_unit m).
Proof.
  intros Hm d1 Hd. eapply triple_bind; [by apply Hm|]. intros a. by apply triple_ret.
Qed.

Lemma control_kept rpc ctx d0 :
  match rpc with
  | CreateRoleRequest _ _ _ | GrantRolePermissionRequest _ _ | RevokeRolePermissionRequest _ _
  | DeleteRoleRequest _ | AssignRoleToUserRequest _ _ | RevokeRoleFromUserRequest _ _
  | SSOCallbackRequest _ _ _ _ => False
  | _ => True
  end -> preserves (roles_kept d0) (control ctx rpc).
Proof.
  destruct rpc; intros Hr; try destruct Hr; simpl; apply run_unit_preserves; unfold_handlers;
    unfold_actions; preserve.
Qed.

Lemma control_follows ctx rpc : follows (control ctx rpc).
Proof.
  destruct rpc eqn:Hrpc; try (apply kept_follows; intros d0; by apply control_kept);
    apply run_unit_follows.
  - apply preserves_follows. intros d0. unfold SSOCallback, finishCallback, providerClient, newOIDCProvider.
    cbv zeta. preserve.
  - apply CreateRole_follows.
  - apply GrantRolePermission_follows.
  - apply RevokeRolePermission_follows.
  - apply DeleteRole_follows.
  - apply AssignRoleToUser_follows.
  - apply RevokeRoleFromUser_follows.
Qed.

Lemma server_step_followed d0 request : preserves (followed d0) (server_step request).
Proof.
  apply server_step_preserves.
  - intros ctx rpc. apply follows_preserves; [apply control_follows|apply control_wf].
  - intros ctx peer. apply follows_preserves; [|auto with preserve].
    apply kept_follows. intros d1. apply Stream_preserves_other; is_stable.
  - intros config. apply follows_preserves; [|auto with preserve].
    apply kept_follows. intros d1. apply Bootstrap_preserves. is_stable.
Qed.

(** *** Stored actions *)

Context `{!ProtoLaws Action}.

Lemma control_stored ctx rpc : preserves StoredActions (control ctx rpc).
Proof.
  destruct rpc; simpl; apply run_unit_preserves; unfold_handlers; unfold Actions.GetAction, Actions.ListActions;
    preserve.
Qed.

Lemma server_step_stored request : preserves StoredActions (server_step request).
Proof. apply server_step_preserves; [apply control_stored|intros; apply Stream_preserves_other; is_stable|
  intros; apply Bootstrap_preserves; is_stable]. Qed.

(** ** Theorems *)

(** C32: Whatever requests the server has answered since its migrations ran, in
    whatever order and with whatever database faults, its database is well formed
    (every row under its key, every UNIQUE column unique, every reference
    present, every assignment with a target that exists), and every stored action
    decodes to an acceptable action with its row's id. *)
Theorem server_invariant t d :
  reaches (initial_database t) d -> WellFormed d /\ StoredActions d.
Proof.
  intros Hr. split.
  - eapply reaches_preserves; [apply server_step_wf|done|apply initial_wf].
  - eapply reaches_preserves; [apply server_step_stored|done|apply initial_stored].
Qed.

(** C36: A request that is answered with an error changed nothing, on either
    listener.  The exceptions are a refresh or a logout, which ends the session
    first, and a login callback and an agent's stream, which report errors
    differently. *)
Theorem failed_request_changes_nothing request :
  match request with
  | Start _ => True
  | Public _ rpc => session_call rpc = false
  | AgentRenew _ _ => True
  | AgentConnect _ _ => False
  end -> atomic (server_step request).
Proof.
  destruct request as [config|authorization rpc|http csr|http peer]; simpl; intros Hr; [clear Hr| |clear Hr|done].
  - auto with atomic.
  - apply WrapUnary_atomic. intros ctx. by apply control_atomic.
  - destruct (AgentMiddleware _ _) as [|ctx]; [by intros d0; apply triple_ret|].
    apply run_unit_atomic. auto with atomic.
Qed.

(** C28: Permissions follow sessions.  Compare any two databases the server goes
    through: every user of the first is still there, its session version has not
    decreased, and if it is the same then the user may do exactly what it could
    before.  So no change of roles or permissions leaves a session minted before
    it refreshable. *)
Theorem permissions_follow_sessions d d' :
  WellFormed d -> reaches d d' -> sessions_follow d d'.
Proof.
  intros Hd Hr. eapply (reaches_preserves (followed d)); [apply server_step_followed|done|].
  split; [done|apply sessions_follow_refl].
Qed.

Context `{!JwtLaws}.

(** A dead token is refused by both calls that take one. *)
Lemma dead_token at_ token claims d :
  refreshes jwt at_ token claims ->
  session_over (Claims_UserID claims) (Claims_SessionVersion claims) d ->
  forall ctx env n,
    (exists e w', RefreshToken jwt ctx token env (mkWorld d n) = (Err e, w') /\ w_db w' = d) /\
    (exists e w', Logout jwt ctx token env (mkWorld d n) = (Err e, w') /\ w_db w' = d).
Proof.
  intros Hat Hover ctx env n. split.
  - pose proof (over_refused jwt (fun user => permissions ← on_error (ListUserPermissions (User_ID user))
        (fun err => fail (internal "load session permissions" err));
      pair ← on_error (GenerateTokens jwt (User_ID user) (User_Email user) (User_SessionVersion user) permissions)
        (fun err => fail (internal "mint session" err));
      mret (sessionMessage pair)) token claims at_ "rotate refresh session" d Hat Hover env (mkWorld d n) eq_refl) as Hr.
    unfold RefreshToken.
    match type of Hr with context [?m env (mkWorld d n)] => destruct (m env (mkWorld d n)) as [[a|e] w'] end;
      [done|eauto].
  - pose proof (over_refused jwt (fun _ => mret tt) token claims at_ "rotate logout session" d Hat Hover
      env (mkWorld d n) eq_refl) as Hr.
    unfold Logout.
    match type of Hr with context [?m env (mkWorld d n)] => destruct (m env (mkWorld d n)) as [[a|e] w'] end;
      [done|eauto].
Qed.

(** C29: A refresh token is good for one refresh.  After a refresh that succeeded,
    and any requests after it, the same token neither refreshes nor logs out:
    both answer with an error and change nothing. *)
Theorem refresh_token_single_use ctx token env w resp w1 d :
  RefreshToken jwt ctx token env w = (Ok resp, w1) -> reaches (w_db w1) d ->
  forall ctx' env' n,
    (exists e w', RefreshToken jwt ctx' token env' (mkWorld d n) = (Err e, w') /\ w_db w' = d) /\
    (exists e w', Logout jwt ctx' token env' (mkWorld d n) = (Err e, w') /\ w_db w' = d).
Proof.
  intros Hrun Hr.
  pose proof (RefreshToken_ends jwt ctx token (w_db w) env w eq_refl) as Hs. rewrite Hrun in Hs.
  destruct Hs as (at_ & claims & Hat & Hover). intros ctx' env' n. eapply dead_token; [done|].
  eapply (reaches_preserves (session_over _ _)); [apply server_step_over|done..].
Qed.

(** C35: Revoking a user's sessions is final.  After [RevokeUserSessions] succeeded
    for a user, and any requests after it, no refresh token minted for that
    user's session version at the time, or an earlier one, refreshes or logs
    out. *)
Theorem revoked_sessions_stay_revoked ctx id u env w w1 d at_ token claims :
  users (w_db w) !! id = Some u ->
  RevokeUserSessions ctx id env w = (Ok tt, w1) -> reaches (w_db w1) d ->
  refreshes jwt at_ token claims -> Claims_UserID claims = id ->
  Claims_SessionVersion claims <= User_SessionVersion u ->
  forall ctx' env' n,
    (exists e w', RefreshToken jwt ctx' token env' (mkWorld d n) = (Err e, w') /\ w_db w' = d) /\
    (exists e w', Logout jwt ctx' token env' (mkWorld d n) = (Err e, w') /\ w_db w' = d).
Proof.
  intros Hu Hrun Hr Hat Hid Hle.
  pose proof (RevokeUserSessions_ends ctx id u (w_db w) Hu env w eq_refl) as Hs. rewrite Hrun in Hs.
  apply (dead_token at_ token claims d Hat). rewrite Hid.
  assert (session_over id (User_SessionVersion u) d) as (u' & Hu' & Hv).
  { eapply (reaches_preserves (session_over _ _)); [apply server_step_over|done..]. }
  exists u'. split; [done|lia].
Qed.
End server.
