(* ===== verification/Pagination.v ===== *)
(** * Following page tokens

    Every list RPC pages the same way ([pageSize], [paginate] in
    [server/internal/core/service.go], and a query by key with one row more than
    the page).  A client that follows the page tokens until there is none sees
    every row exactly once, in the order of the ids. *)

From S2P Require Import Prelude Engine Proto Schema Queries QueriesFacts Service Demo Roles.

Open Scope Z_scope.

(** ** The client's loop *)

Fixpoint list_all {A} (fuel : nat) (list_rpc : string -> Queries (list A * string)) (token : string)
    : Queries (list A) :=
  match fuel with
  | O => mret []
  | S fuel =>
      page ← list_rpc token;
      let '(rows, next) := page in
      if bool_decide (next = EmptyString) then mret rows
      else rest ← list_all fuel list_rpc next; mret (rows ++ rest)
  end.

(** ** Pages of a sorted list *)

Section pages.
Context {R : Type} (key : R -> string).

Abbreviation below := (fun a b => str_lt (key a) (key b) = true).

(** The rows after [after], as the query returns them for a page of [limit]. *)
Definition rows_after (l : list R) (after : string) (limit : Z) : list R :=
  limit_rows (limit + 1) (List.filter (fun r => str_lt after (key r)) l).

Lemma rows_after_suffix l1 l2 r :
  StronglySorted below (l1 ++ r :: l2) ->
  List.filter (fun x => str_lt (key r) (key x)) (l1 ++ r :: l2) = l2.
Proof.
  intros Hs.
  assert (forall l, StronglySorted below (r :: l) -> List.filter (fun x => str_lt (key r) (key x)) l = l) as Hall.
  { intros l [_ Hf]%StronglySorted_inv. induction Hf as [|x l Hx Hf IH]; simpl; [done|]. by rewrite Hx, IH. }
  induction l1 as [|x l1 IH]; simpl in *.
  - rewrite str_lt_irrefl. by apply Hall.
  - apply StronglySorted_inv in Hs as [Hs Hf].
    assert (str_lt (key r) (key x) = false) as ->; [|by apply IH].
    destruct (str_lt (key r) (key x)) eqn:Hlt; [|done].
    rewrite Forall_forall in Hf. specialize (Hf r ltac:(set_solver)).
    pose proof (str_lt_trans _ _ _ Hlt Hf) as Hc. by rewrite str_lt_irrefl in Hc.
Qed.

(** A page is the next rows; its token is empty at the end, and otherwise names the
    last of its rows. *)
Lemma paginate_limit l limit :
  1 <= limit -> Forall (fun r => key r <> EmptyString) l ->
  exists l1 l2, l = l1 ++ l2 /\
    fst (paginate (limit_rows (limit + 1) l) limit key) = l1 /\
    ((l2 = [] /\ snd (paginate (limit_rows (limit + 1) l) limit key) = EmptyString) \/
     exists l0 r, l1 = l0 ++ [r] /\ snd (paginate (limit_rows (limit + 1) l) limit key) = key r /\
       key r <> EmptyString).
Proof.
  intros Hl Hne. unfold paginate, limit_rows. destruct (Z.ltb_spec (limit + 1) 0); [lia|].
  rewrite length_take. destruct (Z.leb_spec (Z.of_nat (Z.to_nat (limit + 1) `min` length l)%nat) limit).
  - exists l, []. rewrite app_nil_r, take_ge by lia. split_and!; [done..|]. by left.
  - exists (take (Z.to_nat limit) l), (drop (Z.to_nat limit) l).
    rewrite take_drop, take_take, Nat.min_l by lia. split_and!; [done..|]. right.
    assert (length (take (Z.to_nat limit) l) = Z.to_nat limit) as Hlen by (rewrite length_take; lia).
    destruct (exists_last (l := take (Z.to_nat limit) l)) as (l0 & r & Hr).
    { intros Hnil. rewrite Hnil in Hlen. simpl in Hlen. lia. }
    exists l0, r. rewrite Hr, last_snoc. split_and!; [done..|].
    rewrite Forall_forall in Hne. apply Hne. rewrite <- (take_drop (Z.to_nat limit) l), Hr. set_solver.
Qed.

(** A list RPC pages the rows [l], mapped by [f], on the database [d]. *)
Definition pages_of {A} (rpc : string -> Queries (list A * string)) (f : R -> A) (l : list R)
    (limit : Z) (env : Env) (d : Database) : Prop :=
  forall token n, exists n',
    let '(rows, next) := paginate (rows_after l token limit) limit key in
    rpc token env (mkWorld d n) = (Ok (map f rows, next), mkWorld d n').

Lemma list_all_suffix {A} rpc (f : R -> A) l limit env d fuel :
  pages_of rpc f l limit env d -> 1 <= limit -> StronglySorted below l ->
  Forall (fun r => key r <> EmptyString) l ->
  forall done token rest n, l = done ++ rest ->
    List.filter (fun r => str_lt token (key r)) l = rest -> (length rest < fuel)%nat ->
    exists n', list_all fuel rpc token env (mkWorld d n) = (Ok (map f rest), mkWorld d n').
Proof.
  intros Hrpc Hlim Hs Hne. induction fuel as [|fuel IH]; intros seen token rest n Hl Hrest Hlen; [lia|].
  destruct (Hrpc token n) as [n1 Hrun]. unfold rows_after in Hrun. rewrite Hrest in Hrun.
  destruct (paginate_limit rest limit Hlim) as (l1 & l2 & Happ & Hrows & Hnext).
  { rewrite Hl, Forall_app in Hne. apply Hne. }
  destruct (paginate (limit_rows (limit + 1) rest) limit key) as [rows next]. simpl in *. subst rows.
  unfold mbind at 1, M_bind at 1. rewrite Hrun.
  destruct Hnext as [[-> ->]|(l0 & r & Hl1 & -> & Hr)].
  - rewrite bool_decide_true by done. exists n1. by rewrite Happ, app_nil_r.
  - rewrite bool_decide_false by done.
    assert (l = (seen ++ l0) ++ r :: l2) as Hsplit.
    { rewrite Hl, Happ, Hl1, <- !app_assoc. done. }
    destruct (IH (seen ++ l1) (key r) l2 n1) as [n2 Hrest2].
    + by rewrite Hl, Happ, app_assoc.
    + rewrite Hsplit. apply rows_after_suffix. by rewrite <- Hsplit.
    + rewrite Happ, length_app in Hlen. rewrite Hl1, length_app in Hlen. simpl in Hlen. lia.
    + unfold mbind, M_bind. rewrite Hrest2. exists n2. by rewrite Happ, map_app.
Qed.

Lemma str_lt_empty s : s <> EmptyString -> str_lt EmptyString s = true.
Proof. by destruct s. Qed.

Lemma list_all_spec {A} rpc (f : R -> A) l limit env d fuel n :
  pages_of rpc f l limit env d -> 1 <= limit -> StronglySorted below l ->
  Forall (fun r => key r <> EmptyString) l -> (length l < fuel)%nat ->
  exists n', list_all fuel rpc EmptyString env (mkWorld d n) = (Ok (map f l), mkWorld d n').
Proof.
  intros Hrpc Hlim Hs Hne Hlen.
  assert (List.filter (fun r => str_lt EmptyString (key r)) l = l) as Hall.
  { clear -Hne. induction Hne as [|r l Hr Hf IH]; simpl; [done|]. by rewrite str_lt_empty, IH. }
  by apply (list_all_suffix rpc f l limit env d fuel Hrpc Hlim Hs Hne [] _ l).
Qed.

(** ** Pages of a table *)

Context (m : gmap string R).

(** The rows of the table, by id. *)
Definition all_rows : list R := order_by (by_key key) (select_where (fun _ => true) m).

Context (Hkeyed : keyed key m).

Lemma filter_true (l : list R) : List.filter (fun _ => true) l = l.
Proof. induction l as [|r l IH]; simpl; [done|by rewrite IH]. Qed.

Lemma StronglySorted_filter (S : relation R) p l : StronglySorted S l -> StronglySorted S (List.filter p l).
Proof.
  induction 1 as [|r l Hs IH Hf]; simpl; [constructor|]. destruct (p r); [|done].
  constructor; [done|]. rewrite Forall_forall in *. intros x Hx. apply Hf.
  apply list_elem_of_In in Hx. apply filter_In in Hx as [Hx _]. by apply list_elem_of_In.
Qed.

Lemma filter_Permutation (p : R -> bool) (l k : list R) : l ≡ₚ k -> List.filter p l ≡ₚ List.filter p k.
Proof.
  induction 1; simpl; [done|by destruct (p x); [constructor|]|destruct (p x), (p y); try done; constructor|].
  by etrans.
Qed.

Lemma order_by_filter p :
  order_by (by_key key) (select_where p m) = List.filter p all_rows.
Proof.
  assert (select_where p m = List.filter p (select_where (fun _ => true) m)) as Hp
    by (unfold select_where; by rewrite filter_true).
  apply (StronglySorted_unique_strong (by_key key)).
  - intros a b Ha Hb Hab Hba. rewrite elem_of_order_by in Ha.
    apply elem_of_select_where in Ha as [_ [k1 Hk1]].
    apply list_elem_of_In in Hb. apply filter_In in Hb as [Hb _]. apply list_elem_of_In in Hb.
    unfold all_rows in Hb. rewrite elem_of_order_by in Hb.
    apply elem_of_select_where in Hb as [_ [k2 Hk2]].
    assert (key a = key b) as Heq by by apply (anti_symm String.le).
    rewrite (Hkeyed _ _ Hk1), (Hkeyed _ _ Hk2) in Heq. congruence.
  - apply order_by_sorted; apply _.
  - apply StronglySorted_filter, order_by_sorted; apply _.
  - unfold all_rows. rewrite order_by_perm, Hp. apply filter_Permutation. by rewrite order_by_perm.
Qed.

Lemma all_rows_sorted : StronglySorted below all_rows.
Proof. apply order_by_key_strict. by apply select_where_NoDup. Qed.

Lemma all_rows_nonempty : m !! EmptyString = None -> Forall (fun r => key r <> EmptyString) all_rows.
Proof.
  intros Hno. apply Forall_forall. intros r. unfold all_rows. rewrite elem_of_order_by.
  intros [_ [k Hk]]%elem_of_select_where Hr. rewrite (Hkeyed _ _ Hk) in Hr. congruence.
Qed.

Lemma length_all_rows : length all_rows = size m.
Proof.
  unfold all_rows. rewrite (Permutation_length (order_by_perm _ _)).
  apply Nat2Z.inj. rewrite <- count_rows_size. done.
Qed.

Lemma elem_of_all_rows r : r ∈ all_rows <-> m !! key r = Some r.
Proof.
  unfold all_rows. rewrite elem_of_order_by, elem_of_select_where. split.
  - intros [_ [k Hk]]. by rewrite (Hkeyed _ _ Hk).
  - intros Hr. eauto.
Qed.
End pages.

(** ** Roles and registration tokens, as a client lists them *)

Section clients.
Context (env : Env) (Hquiet : quiet env).

Lemma quiet_map_m {A B} (f : A -> Queries B) (g : A -> B) l d n :
  (forall x n, exists n', f x env (mkWorld d n) = (Ok (g x), mkWorld d n')) ->
  exists n', map_m f l env (mkWorld d n) = (Ok (map g l), mkWorld d n').
Proof.
  intros Hf. revert n. induction l as [|x l IH]; intros n; simpl; [by exists n|].
  destruct (Hf x n) as [n1 H1]. destruct (IH n1) as [n2 H2]. exists n2.
  unfold mbind at 1, M_bind at 1. rewrite H1. unfold mbind, M_bind. by rewrite H2.
Qed.

(** The message of a role. *)
Definition role_message (d : Database) (role : Role) : RoleMessage := {|
  RoleMessage_Id := Role_ID role; RoleMessage_Name := Role_Name role;
  RoleMessage_Description := Role_Description role;
  RoleMessage_Permissions := order_by Z.le
    ((filter (fun x => x.1 = Role_ID role) (elements (role_permissions d))).*2);
  RoleMessage_CreatedAt := timestamp_new (Role_CreatedAt role);
  RoleMessage_UpdatedAt := timestamp_new (Role_UpdatedAt role) |}.

Lemma quiet_roleProto d role n :
  exists n', roleProto role env (mkWorld d n) = (Ok (role_message d role), mkWorld d n').
Proof.
  unfold roleProto, ListRolePermissions, mbind, M_bind. rewrite quiet_query by done. by eexists.
Qed.

Lemma ListRoles_pages ctx page_size d :
  WellFormed d ->
  pages_of Role_ID (ListRoles ctx page_size) (role_message d) (all_rows Role_ID (roles d))
    (pageSize page_size) env d.
Proof.
  intros Hwf token n. unfold ListRoles. cbv zeta.
  unfold mbind at 1, M_bind at 1, on_error at 1, Queries.ListRoles, list_page.
  rewrite quiet_query by done.
  rewrite (order_by_filter Role_ID (roles d) (wf_roles d Hwf)). fold (rows_after Role_ID (all_rows Role_ID (roles d)) token (pageSize page_size)).
  destruct (paginate _ _ _) as [rows next].
  destruct (quiet_map_m roleProto (role_message d) rows d (S n)) as [n' Hn'];
    [intros; apply quiet_roleProto|].
  exists n'. unfold mbind, M_bind, on_error. by rewrite Hn'.
Qed.

(** C39: A client that follows the page tokens of [ListRoles], with any page size
    and without a database fault, receives every role exactly once with its
    permissions, in the order of the ids, in at most one call more than there are
    roles. *)
Theorem ListRoles_enumerates ctx page_size d n fuel :
  WellFormed d -> roles d !! EmptyString = None -> (size (roles d) < fuel)%nat ->
  exists l n', list_all fuel (ListRoles ctx page_size) EmptyString env (mkWorld d n) =
      (Ok (map (role_message d) l), mkWorld d n') /\
    StronglySorted (fun a b => str_lt (Role_ID a) (Role_ID b) = true) l /\
    (forall r, r ∈ l <-> roles d !! Role_ID r = Some r).
Proof.
  intros Hwf Hno Hfuel. pose proof (wf_roles d Hwf) as Hk.
  destruct (list_all_spec Role_ID (ListRoles ctx page_size) (role_message d)
    (all_rows Role_ID (roles d)) (pageSize page_size) env d fuel n) as [n' Hrun].
  - by apply ListRoles_pages.
  - apply pageSize_pos.
  - by apply all_rows_sorted.
  - by apply all_rows_nonempty.
  - by rewrite length_all_rows.
  - exists (all_rows Role_ID (roles d)), n'. split_and!; [done|by apply all_rows_sorted|].
    intros r. by apply elem_of_all_rows.
Qed.
End clients.
