(* ===== verification/AgentStore.v ===== *)
(** * The agent's store ([agent/internal/store])

    The agent keeps what it has to run and what it has to report in a SQLite file
    of its own: [scheduled_work] has one row per action of the last policy, and
    [result_outbox] the results the control plane has not acknowledged yet.  This
    file holds the schema ([migrations/001_initial_schema.sql]), the queries
    ([generated/action.sql.go]), the schedule arithmetic ([store.go]) and the
    operations of the store ([action.go]); each operation holds the store's lock,
    so it runs as one transaction. *)

From S2P Require Import Prelude Hash Engine Proto.

Open Scope Z_scope.

(** ** Schema ([generated/models.go]) *)

Record WorkRow := {
  Work_WorkID : string;
  Work_RunID : option string;
  Work_ActionBlob : bytes;
  Work_RunActionDigest : option bytes;
  Work_Retired : bool;
  Work_ReceivedAt : time;
  Work_LastExecutedAt : option time;
  Work_NextExecuteAt : time;
  Work_RunStartedAt : option time;
  Work_RunInProgress : bool;
  Work_CreatedAt : time;
  Work_UpdatedAt : time;
}.

Record ResultOutbox := {
  Outbox_Sequence : Z;
  Outbox_Payload : bytes;
  Outbox_CreatedAt : time;
}.

(** [outbox_sequence] is the AUTOINCREMENT counter of [result_outbox], kept by
    SQLite in [sqlite_sequence]: the largest sequence number ever given out. *)
Record AgentDatabase := mkAgentDatabase {
  scheduled_work : gmap string WorkRow;
  result_outbox : gmap Z ResultOutbox;
  outbox_sequence : Z;
}.

Definition empty_agent_database : AgentDatabase := mkAgentDatabase ∅ ∅ 0.

Definition set_scheduled_work (m : gmap string WorkRow) (d : AgentDatabase) : AgentDatabase :=
  mkAgentDatabase m (result_outbox d) (outbox_sequence d).

Abbreviation AgentQueries := (M AgentDatabase).

(** ** Queries ([generated/action.sql.go]) *)

(** [UPDATE scheduled_work SET ... WHERE work_id = ?], [:exec]. *)
Definition update_work (id : string) (f : time -> WorkRow -> WorkRow) : AgentQueries unit :=
  sql (fun t d => Ok (tt, set_scheduled_work (alter (f t) id (scheduled_work d)) d)).

Definition runnable (now : time) (r : WorkRow) : bool :=
  negb (Work_Retired r) && negb (Work_RunInProgress r) && (Work_NextExecuteAt r <=? now).

(** The columns a run sets. *)
Definition begin_run (run_id : string) (digest : bytes) (lastExecutedAt nextExecuteAt startedAt : time)
    (t : time) (r : WorkRow) : WorkRow := {|
  Work_WorkID := Work_WorkID r; Work_RunID := Some run_id; Work_ActionBlob := Work_ActionBlob r;
  Work_RunActionDigest := Some digest; Work_Retired := Work_Retired r;
  Work_ReceivedAt := Work_ReceivedAt r; Work_LastExecutedAt := Some lastExecutedAt;
  Work_NextExecuteAt := nextExecuteAt; Work_RunStartedAt := Some startedAt;
  Work_RunInProgress := true; Work_CreatedAt := Work_CreatedAt r; Work_UpdatedAt := t |}.

(** The number of rows updated; [run_id] is UNIQUE. *)
Definition BeginScheduledRun (RunID : string) (RunActionDigest : bytes)
    (LastExecutedAt NextExecuteAt RunStartedAt : time) (WorkID : string) (NextExecuteAt_2 : time)
    : AgentQueries Z :=
  sql (fun t d =>
    match scheduled_work d !! WorkID with
    | None => Ok (0, d)
    | Some r =>
        if negb (runnable NextExecuteAt_2 r) then Ok (0, d)
        else if exists_row (fun r' => bool_decide (Work_RunID r' = Some RunID))
                  (delete WorkID (scheduled_work d))
        then Err ErrConstraintUnique
        else Ok (1, set_scheduled_work
               (<[WorkID := begin_run RunID RunActionDigest LastExecutedAt NextExecuteAt RunStartedAt t r]>
                  (scheduled_work d)) d)
    end).

Definition DeletePendingResult_query (sequence : Z) : AgentQueries unit :=
  sql (fun _ d => Ok (tt, mkAgentDatabase (scheduled_work d) (delete sequence (result_outbox d))
                            (outbox_sequence d))).

Definition DeleteRetiredWork (WorkID RunID : string) : AgentQueries unit :=
  sql (fun _ d =>
    match scheduled_work d !! WorkID with
    | Some r =>
        if bool_decide (Work_RunID r = Some RunID) && Work_Retired r
        then Ok (tt, set_scheduled_work (delete WorkID (scheduled_work d)) d) else Ok (tt, d)
    | None => Ok (tt, d)
    end).

Definition DeleteWork (workID : string) : AgentQueries unit :=
  sql (fun _ d => Ok (tt, set_scheduled_work (delete workID (scheduled_work d)) d)).

Definition finish_run (t : time) (r : WorkRow) : WorkRow := {|
  Work_WorkID := Work_WorkID r; Work_RunID := if Work_Retired r then Work_RunID r else None;
  Work_ActionBlob := Work_ActionBlob r; Work_RunActionDigest := None;
  Work_Retired := Work_Retired r; Work_ReceivedAt := Work_ReceivedAt r;
  Work_LastExecutedAt := Work_LastExecutedAt r; Work_NextExecuteAt := Work_NextExecuteAt r;
  Work_RunStartedAt := None; Work_RunInProgress := false; Work_CreatedAt := Work_CreatedAt r;
  Work_UpdatedAt := t |}.

(** Whether the finished work is retired. *)
Definition FinishScheduledRun (WorkID RunID : string) (RunActionDigest : bytes) : AgentQueries bool :=
  sql (fun t d =>
    match scheduled_work d !! WorkID with
    | Some r =>
        if bool_decide (Work_RunID r = Some RunID)
           && bool_decide (Work_RunActionDigest r = Some RunActionDigest) && Work_RunInProgress r
        then Ok (Work_Retired r, set_scheduled_work (<[WorkID := finish_run t r]> (scheduled_work d)) d)
        else Err ErrNoRows
    | None => Err ErrNoRows
    end).

(** [work_id, action_blob] of the rows. *)
Definition GetDueScheduledWork_query (nextExecuteAt : time) : AgentQueries (list (string * bytes)) :=
  query (fun d => Ok ((fun r => (Work_WorkID r, Work_ActionBlob r)) <$>
    order_by (by_time2 Work_NextExecuteAt Work_WorkID)
      (select_where (runnable nextExecuteAt) (scheduled_work d)))).

Definition by_sequence : relation ResultOutbox := fun a b => Outbox_Sequence a <= Outbox_Sequence b.

#[global] Instance by_sequence_dec : RelDecision by_sequence.
Proof. intros a b. unfold by_sequence. apply _. Defined.

#[global] Instance by_sequence_trans : Transitive by_sequence.
Proof. intros a b c. unfold by_sequence. lia. Qed.

#[global] Instance by_sequence_total : Total by_sequence.
Proof. intros a b. unfold by_sequence. lia. Qed.

(** [sequence, payload] of the rows. *)
Definition GetPendingResults_query : AgentQueries (list (Z * bytes)) :=
  query (fun d => Ok ((fun r => (Outbox_Sequence r, Outbox_Payload r)) <$>
    order_by by_sequence
      (select_where (fun _ => true) (result_outbox d)))).

Definition GetRunnableWork (WorkID : string) (NextExecuteAt : time) : AgentQueries (string * bytes) :=
  query (fun d =>
    match scheduled_work d !! WorkID with
    | Some r => if runnable NextExecuteAt r then Ok (Work_WorkID r, Work_ActionBlob r)
                else Err ErrNoRows
    | None => Err ErrNoRows
    end).

Definition GetScheduledWorkNextExecute (workID : string) : AgentQueries time :=
  query (fun d => match scheduled_work d !! workID with
                  | Some r => Ok (Work_NextExecuteAt r) | None => Err ErrNoRows end).

(** The sequence number given out; SQLite refuses (SQLITE_FULL) once the largest
    64-bit number was used. *)
Definition InsertResultOutbox (payload : bytes) : AgentQueries Z :=
  sql (fun t d =>
    let n := outbox_sequence d + 1 in
    if in_int64 n
    then Ok (n, mkAgentDatabase (scheduled_work d)
                  (<[n := {| Outbox_Sequence := n; Outbox_Payload := payload; Outbox_CreatedAt := t |}]>
                     (result_outbox d)) n)
    else Err ErrDatabase).

Definition new_work (WorkID : string) (ActionBlob : bytes) (ReceivedAt NextExecuteAt t : time)
    : WorkRow := {|
  Work_WorkID := WorkID; Work_RunID := None; Work_ActionBlob := ActionBlob;
  Work_RunActionDigest := None; Work_Retired := false; Work_ReceivedAt := ReceivedAt;
  Work_LastExecutedAt := None; Work_NextExecuteAt := NextExecuteAt; Work_RunStartedAt := None;
  Work_RunInProgress := false; Work_CreatedAt := t; Work_UpdatedAt := t |}.

Definition InsertScheduledWork (WorkID : string) (ActionBlob : bytes) (ReceivedAt NextExecuteAt : time)
    : AgentQueries unit :=
  sql (fun t d =>
    match scheduled_work d !! WorkID with
    | Some _ => Err ErrConstraintPrimaryKey
    | None => Ok (tt, set_scheduled_work
        (<[WorkID := new_work WorkID ActionBlob ReceivedAt NextExecuteAt t]> (scheduled_work d)) d)
    end).

(** The whole rows: the caller reads [work_id, action_blob, retired,
    run_in_progress].  The statement has no ORDER BY. *)
Definition ListAllWork : AgentQueries (list WorkRow) :=
  query (fun d => Ok (select_where (fun _ => true) (scheduled_work d))).

(** [work_id, COALESCE(run_id, ''), run_action_digest] of the rows; a NULL digest
    reads as an empty slice. *)
Definition ListInterruptedWork : AgentQueries (list (string * string * bytes)) :=
  query (fun d => Ok ((fun r => (Work_WorkID r, default EmptyString (Work_RunID r),
                                 default [] (Work_RunActionDigest r))) <$>
    order_by (by_key Work_WorkID) (select_where Work_RunInProgress (scheduled_work d)))).

Definition retire (t : time) (r : WorkRow) : WorkRow := {|
  Work_WorkID := Work_WorkID r; Work_RunID := Work_RunID r; Work_ActionBlob := Work_ActionBlob r;
  Work_RunActionDigest := Work_RunActionDigest r; Work_Retired := true;
  Work_ReceivedAt := Work_ReceivedAt r; Work_LastExecutedAt := Work_LastExecutedAt r;
  Work_NextExecuteAt := Work_NextExecuteAt r; Work_RunStartedAt := Work_RunStartedAt r;
  Work_RunInProgress := Work_RunInProgress r; Work_CreatedAt := Work_CreatedAt r;
  Work_UpdatedAt := t |}.

Definition RetireWork (workID : string) : AgentQueries unit := update_work workID retire.

Definition revise (ActionBlob : bytes) (NextExecuteAt t : time) (r : WorkRow) : WorkRow := {|
  Work_WorkID := Work_WorkID r; Work_RunID := Work_RunID r; Work_ActionBlob := ActionBlob;
  Work_RunActionDigest := Work_RunActionDigest r; Work_Retired := false;
  Work_ReceivedAt := Work_ReceivedAt r; Work_LastExecutedAt := Work_LastExecutedAt r;
  Work_NextExecuteAt := NextExecuteAt; Work_RunStartedAt := Work_RunStartedAt r;
  Work_RunInProgress := Work_RunInProgress r; Work_CreatedAt := Work_CreatedAt r;
  Work_UpdatedAt := t |}.

Definition UpdateScheduledWork (ActionBlob : bytes) (NextExecuteAt : time) (WorkID : string)
    : AgentQueries unit :=
  update_work WorkID (revise ActionBlob NextExecuteAt).

(** ** Schedules ([store.go]) *)

Definition hour : Z := 3600000000000.
Definition defaultInterval : Z := 8 * hour.

(** The interval of a schedule, a [time.Duration]: the product is computed in 64
    bits. *)
Definition scheduleInterval (schedule : option ActionSchedule) : Z :=
  match schedule with
  | Some s => if 0 <? IntervalHours s then int64 (IntervalHours s * hour) else defaultInterval
  | None => defaultInterval
  end.

Definition clampInterval (computed now interval : Z) : time :=
  let ceiling := now + interval in if ceiling <? computed then ceiling else computed.

Definition calculateNextExecuteFromSchedule (schedule : option ActionSchedule)
    (lastExecuted : option time) (now : time) : time :=
  let interval := scheduleInterval schedule in
  match lastExecuted with
  | None => now
  | Some last => clampInterval (last + interval) now interval
  end.

(** ** Operations ([action.go]) *)

Record ScheduledWork := { SW_Action : Action; SW_WorkID : string; SW_RunID : string }.
Record PendingResult := { Pending_Sequence : Z; Pending_ActionResult : ActionResult }.

(** The order in which [range] visits a map, which Go leaves open. *)
Class MapRange := { map_range : gmap string Action -> list (string * Action) }.

Class MapRangeLaws `{MapRange} : Prop :=
  map_range_perm : forall m, map_range m ≡ₚ map_to_list m.

(** [BeginTx] reports the driver's error as it is. *)
Definition AgentTransaction {A} (run : AgentQueries A) : AgentQueries A :=
  transaction (fun err => err) run.

(** The first loop of [ReconcilePolicy]; a nil action has an empty id. *)
Fixpoint policyActions (actions : list Action) (current : gmap string Action)
    : result (gmap string Action) :=
  match actions with
  | [] => Ok current
  | a :: actions =>
      let id := GetValue (Action_Id a) in
      if bool_decide (id = EmptyString) then Err (ErrNew "reconcile policy: malformed action")
      else match current !! id with
      | Some _ => Err (ErrNew "reconcile policy: duplicate action")
      | None => policyActions actions (<[id := a]> current)
      end
  end.

Section operations.
Context `{!ProtoCodec Action, !ProtoCodec ActionResult, !DeterministicMarshal, !MapRange}.

Definition decodeAction (blob : bytes) : result Action := proto_Unmarshal blob.

(** One stored row against the policy. *)
Definition reconcileRow (current : gmap string Action) (now : time) (row : WorkRow)
    : AgentQueries unit :=
  let id := Work_WorkID row in
  let store_current (a : Action) (verb : string) :=
    blob ← on_error (lift (proto_Marshal a)) (fun err => fail (ErrWrap "reconcile policy: marshal" err));
    on_error (UpdateScheduledWork blob now id) (fun err => fail (ErrWrap verb err)) in
  match current !! id with
  | None => if Work_RunInProgress row then RetireWork id else DeleteWork id
  | Some a =>
      if negb (Work_Retired row)
      then
        stored ← on_error (lift (decodeAction (Work_ActionBlob row)))
                   (fun err => fail (ErrWrap "reconcile policy: decode" err));
        if bool_decide (stored = a) then mret tt
        else store_current a "reconcile policy: update"%string
      else store_current a "reconcile policy: revive"%string
  end.

(** One action of the policy against the rows there were. *)
Definition reconcileAction (inventory : gset string) (now : time) (entry : string * Action)
    : AgentQueries unit :=
  let (id, a) := entry in
  if bool_decide (id ∈ inventory) then mret tt
  else
    blob ← on_error (lift (proto_Marshal a)) (fun err => fail (ErrWrap "reconcile policy: marshal" err));
    on_error
      (InsertScheduledWork id blob now
         (calculateNextExecuteFromSchedule (Action_Schedule a) None now))
      (fun err => fail (ErrWrap "reconcile policy: insert" err)).

Definition reconcileTransaction (current : gmap string Action) : AgentQueries unit :=
  rows ← ListAllWork;
  now ← now;
  _ ← for_each (reconcileRow current now) rows;
  for_each (reconcileAction (list_to_set (Work_WorkID <$> rows)) now) (map_range current).

Definition ReconcilePolicy (policy : option DesiredPolicy) : AgentQueries unit :=
  match policy with
  | None => fail (ErrNew "reconcile policy: malformed snapshot")
  | Some policy =>
      current ← lift (policyActions (Policy_Actions policy) ∅);
      AgentTransaction (reconcileTransaction current)
  end.

Definition GetDueScheduledWork : AgentQueries (list ScheduledWork) :=
  now ← now;
  rows ← GetDueScheduledWork_query now;
  map_m (fun row => lift (
    match proto_Unmarshal row.2 with
    | Ok a => Ok {| SW_Action := a; SW_WorkID := row.1; SW_RunID := EmptyString |}
    | Err err => Err (ErrWrap "decode action" err)
    end)) rows.

Definition beginTransaction (w : ScheduledWork) (started : time) : AgentQueries ScheduledWork :=
  now ← now;
  run ← GetRunnableWork (SW_WorkID w) now;
  action ← on_error (lift (decodeAction run.2))
             (fun err => fail (ErrWrap "begin action run: decode current action" err));
  digest ← lift (ActionDigest (Some action));
  id ← ulid_make;
  n ← BeginScheduledRun id digest started
        (calculateNextExecuteFromSchedule (Action_Schedule action) (Some started) now) started
        (SW_WorkID w) now;
  if negb (n =? 1) then fail (ErrNew "begin action run: already running")
  else mret {| SW_Action := action; SW_WorkID := SW_WorkID w; SW_RunID := id |}.

(** The work as the caller sees it afterwards: its current action and its run. *)
Definition BeginActionRun (w : ScheduledWork) (started : time) : AgentQueries ScheduledWork :=
  if bool_decide (SW_WorkID w = EmptyString) then fail (ErrNew "begin action run: missing work")
  else AgentTransaction (beginTransaction w started).

(** Finishing a run and storing its report, the part [RecordActionResult] and
    [RecoverInterruptedActions] share. *)
Definition finishRun (workID runID : string) (digest payload : bytes) : AgentQueries Z :=
  retired ← FinishScheduledRun workID runID digest;
  sequence ← InsertResultOutbox payload;
  _ ← (if retired : bool then DeleteRetiredWork workID runID else mret tt);
  mret sequence.

Definition RecordActionResult (r : ActionResult) : AgentQueries Z :=
  let actionID := GetValue (Result_ActionId r) in
  let runID := GetValue (Result_RunId r) in
  if bool_decide (actionID = EmptyString) || bool_decide (runID = EmptyString)
     || negb (bool_decide (is_Some (Result_CompletedAt r)))
     || negb (bool_decide (length (Result_ActionDigest r) = 32%nat))
  then fail (ErrNew "record action result: malformed result")
  else
    payload ← lift (proto_Marshal r);
    AgentTransaction (finishRun actionID runID (Result_ActionDigest r) payload).

Definition GetPendingResults : AgentQueries (list PendingResult) :=
  rows ← GetPendingResults_query;
  map_m (fun row => lift (
    match proto_Unmarshal row.2 with
    | Ok r => Ok {| Pending_Sequence := row.1; Pending_ActionResult := r |}
    | Err err => Err err
    end)) rows.

Definition DeletePendingResult (id : Z) : AgentQueries unit := DeletePendingResult_query id.

Definition interruptedResult (workID runID : string) (digest : bytes) (now : time) : ActionResult := {|
  Result_ActionId := Some workID; Result_Status := EXECUTION_STATUS_INDETERMINATE;
  Result_Output := Some {| ExitCode := 0; Stdout := EmptyString; Stderr := "interrupted action run" |};
  Result_DetectionOutput := None; Result_CompletedAt := Some (timestamp_new now);
  Result_RunId := Some runID; Result_ActionDigest := digest |}.

Definition recoverRow (row : string * string * bytes) : AgentQueries unit :=
  let '(workID, runID, digest) := row in
  now ← now;
  payload ← lift (proto_Marshal (interruptedResult workID runID digest now));
  _ ← finishRun workID runID digest payload;
  mret tt.

Definition recoverTransaction : AgentQueries Z :=
  rows ← ListInterruptedWork;
  _ ← for_each recoverRow rows;
  mret (Z.of_nat (length rows)).

Definition RecoverInterruptedActions : AgentQueries Z := AgentTransaction recoverTransaction.
End operations.

(** ** Schedule arithmetic *)

(** The interval a schedule means, computed without a width. *)
Definition interval_of (schedule : option ActionSchedule) : Z :=
  match schedule with
  | Some s => if 0 <? IntervalHours s then IntervalHours s * hour else defaultInterval
  | None => defaultInterval
  end.

Lemma scheduleInterval_exact hours :
  0 < hours -> in_int32 hours = true ->
  scheduleInterval (Some {| IntervalHours := hours |}) = hours * hour <-> hours <= 2562047.
Proof.
  intros Hpos Hint%in_int32_spec. unfold scheduleInterval, hour. simpl.
  rewrite (proj2 (Z.ltb_lt 0 hours)) by done.
  pose proof (Z.mod_pos_bound (hours * 3600000000000 + 9223372036854775808) 18446744073709551616 eq_refl).
  split; [unfold int64; lia|]. intros Hle. apply int64_id, in_int64_spec. lia.
Qed.

(** C27: When a work is due next.  A schedule's interval in hours fits a 64-bit
    duration exactly up to 2562047 hours, far above the 8760 the contract allows;
    beyond it the product wraps.  Within the contract, a work that never ran is due
    now; after a run it is due one interval after that run, but never more than one
    interval from now, even if the clock was set back, and always strictly after
    the run unless the run lies in the future. *)
Theorem calculateNextExecuteFromSchedule_bounds schedule now :
  (forall s, schedule = Some s -> in_int32 (IntervalHours s) = true) ->
  (scheduleInterval schedule = interval_of schedule <->
     forall s, schedule = Some s -> IntervalHours s <= 2562047) /\
  calculateNextExecuteFromSchedule schedule None now = now /\
  ((forall s, schedule = Some s -> IntervalHours s <= 8760) ->
   hour <= interval_of schedule <= 8760 * hour /\
   forall last, let next := calculateNextExecuteFromSchedule schedule (Some last) now in
     next = Z.min last now + interval_of schedule /\
     (last <= now -> last < next <= now + 8760 * hour)).
Proof.
  intros Hint.
  assert (scheduleInterval schedule = interval_of schedule <->
     forall s, schedule = Some s -> IntervalHours s <= 2562047) as Hexact.
  { destruct schedule as [[h]|]; [|by split]. specialize (Hint _ eq_refl). simpl in Hint.
    unfold interval_of, IntervalHours. destruct (Z.ltb_spec 0 h).
    - rewrite scheduleInterval_exact by done. split; [by intros ? ? [= <-]|]. intros Hs.
      by apply (Hs {| IntervalHours := h |}).
    - split; [intros _ s [= <-]; simpl; lia|]. intros _. unfold scheduleInterval. simpl.
      by rewrite (proj2 (Z.ltb_ge 0 h)). }
  split; [done|]. split; [by destruct schedule|]. intros Hcontract.
  assert (scheduleInterval schedule = interval_of schedule) as Hi.
  { apply Hexact. intros s Hs. specialize (Hcontract s Hs). lia. }
  assert (hour <= interval_of schedule <= 8760 * hour) as Hrange.
  { unfold interval_of, defaultInterval, hour in *. destruct schedule as [s|]; [|lia].
    specialize (Hcontract s eq_refl). destruct (Z.ltb_spec 0 (IntervalHours s)); lia. }
  split; [done|]. intros last. unfold calculateNextExecuteFromSchedule, clampInterval. rewrite Hi.
  unfold hour in *. cbv zeta. destruct (Z.ltb_spec (now + interval_of schedule) (last + interval_of schedule)); lia.
Qed.
