(* ===== verification/AgentPolicy.v ===== *)
(** * Reconciling the agent's work with the desired policy

    [ReconcilePolicy] ([agent/internal/store/action.go]) turns the rows there are
    into the rows the policy asks for.  The reference is pointwise: [reconciled]
    says what becomes of one work id, from the action the policy has for it and the
    row stored for it.  The code reads all rows, changes them one by one and then
    walks the policy's map in whatever order Go chooses; it has the reference's
    result in every order. *)

From S2P Require Import Prelude Hash Engine Quiet Proto AgentStore.

Open Scope Z_scope.

(** A row but for its bookkeeping columns [created_at] and [updated_at]. *)
Definition plain_row (r : WorkRow) : WorkRow := {|
  Work_WorkID := Work_WorkID r; Work_RunID := Work_RunID r; Work_ActionBlob := Work_ActionBlob r;
  Work_RunActionDigest := Work_RunActionDigest r; Work_Retired := Work_Retired r;
  Work_ReceivedAt := Work_ReceivedAt r; Work_LastExecutedAt := Work_LastExecutedAt r;
  Work_NextExecuteAt := Work_NextExecuteAt r; Work_RunStartedAt := Work_RunStartedAt r;
  Work_RunInProgress := Work_RunInProgress r; Work_CreatedAt := 0; Work_UpdatedAt := 0 |}.

(** The same row, up to bookkeeping. *)
Definition same_row : relation (option WorkRow) := fun r r' => plain_row <$> r = plain_row <$> r'.

#[export] Instance same_row_equivalence : Equivalence same_row.
Proof.
  split; [done|by intros ???|]. intros a b c Hab Hbc. unfold same_row in *. congruence.
Qed.

Section reconcile.
Context `{!ProtoCodec Action, !DeterministicMarshal, !MapRange}.

(** The row an action is stored in, if it can be encoded. *)
Definition encoded (a : Action) (row : bytes -> WorkRow) : option (option WorkRow) :=
  (fun blob => Some (row blob)) <$> marshal a.

(** What becomes of a work id, given the policy's action and the stored row: the
    row afterwards, if any; [None] when the action cannot be encoded. *)
Definition reconciled (now : time) (desired : option Action) (stored : option WorkRow)
    : option (option WorkRow) :=
  match desired, stored with
  | None, None => Some None
  | None, Some row => Some (if Work_RunInProgress row then Some (retire 0 row) else None)
  | Some a, None =>
      encoded a (fun blob => new_work (GetValue (Action_Id a)) blob now now 0)
  | Some a, Some row =>
      if negb (Work_Retired row) && bool_decide (unmarshal (Work_ActionBlob row) = Some a)
      then Some (Some row)
      else encoded a (fun blob => revise blob now 0 row)
  end.

(** [row] is what the reference says, up to bookkeeping. *)
Definition becomes (row : option WorkRow) (reference : option (option WorkRow)) : Prop :=
  exists row', reference = Some row' /\ same_row row row'.

Lemma becomes_same row row' : same_row row row' -> becomes row (Some row').
Proof. intros Hs. by exists row'. Qed.
Hint Resolve becomes_same : core.

(** The policy's actions are stored under their ids. *)
Lemma policyActions_ok actions current current' :
  policyActions actions current = Ok current' ->
  (forall id a, current !! id = Some a -> GetValue (Action_Id a) = id /\ id <> EmptyString) ->
  (forall id a, current' !! id = Some a -> GetValue (Action_Id a) = id /\ id <> EmptyString) /\
  (forall id a, current' !! id = Some a <->
     current !! id = Some a \/ (a ∈ actions /\ GetValue (Action_Id a) = id)).
Proof.
  revert current. induction actions as [|a actions IH]; simpl; intros current.
  { intros [= <-] Hc. split; [done|].
    intros id a. rewrite elem_of_nil. tauto. }
  case_bool_decide as Hid; [done|]. destruct (current !! _) eqn:Hl; [done|]. intros Hp Hc.
  apply IH in Hp as [Hk Hi].
  - split; [done|]. intros id a'. rewrite Hi, lookup_insert_Some, elem_of_cons.
    split; [|intros [?|[[->|?] ?]]]; [|destruct (decide (GetValue (Action_Id a) = id)); naive_solver..].
    naive_solver.
  - intros id a' [[<- <-]|[_ ?]]%lookup_insert_Some; [done|]. by apply Hc.
Qed.

(** Its ids are pairwise distinct. *)
Lemma policyActions_NoDup actions current current' :
  policyActions actions current = Ok current' ->
  NoDup ((fun a => GetValue (Action_Id a)) <$> actions) /\
  forall a, a ∈ actions -> current !! GetValue (Action_Id a) = None.
Proof.
  revert current. induction actions as [|a actions IH]; simpl; intros current.
  { split; [constructor|]. intros a. by rewrite elem_of_nil. }
  case_bool_decide; [done|]. destruct (current !! _) eqn:Hl; [done|].
  intros [Hnd Hfree]%IH. split.
  - csimpl. apply NoDup_cons. split; [|done].
    intros (b & Hb & Hin)%list_elem_of_fmap. apply Hfree in Hin. rewrite <- Hb in Hin.
    by rewrite lookup_insert_eq in Hin.
  - intros b [->|Hin]%elem_of_cons; [done|]. apply Hfree in Hin.
    by apply lookup_insert_None in Hin as [??].
Qed.

(** *** One row *)

(** Only the work [id] changed. *)
Definition changed_only (id : string) (d d' : AgentDatabase) : Prop :=
  (forall k, k <> id -> scheduled_work d' !! k = scheduled_work d !! k) /\
  result_outbox d' = result_outbox d /\ outbox_sequence d' = outbox_sequence d.

Lemma fwd_update_work d0 id f row :
  scheduled_work d0 !! id = Some row ->
  triple (fun d => d = d0) (update_work id f)
    (fun _ d => (exists t, scheduled_work d !! id = Some (f t row)) /\ changed_only id d0 d)
    (fun _ _ => True).
Proof.
  intros Hrow. apply triple_sql; [|done]. intros t d ->. split; [|split_and!]; simpl; [..|done|done].
  - exists t. by rewrite lookup_alter_eq, Hrow.
  - intros k Hk. by rewrite lookup_alter_ne.
Qed.

Lemma reconcileRow_spec current now d0 row :
  scheduled_work d0 !! Work_WorkID row = Some row ->
  triple (fun d => d = d0) (reconcileRow current now row)
    (fun _ d => becomes (scheduled_work d !! Work_WorkID row)
                  (reconciled now (current !! Work_WorkID row) (Some row)) /\
                changed_only (Work_WorkID row) d0 d)
    (fun _ _ => True).
Proof.
  intros Hrow. unfold reconcileRow, reconciled. cbv zeta.
  assert (forall a verb, triple (fun d => d = d0)
    (blob ← on_error (lift (proto_Marshal a)) (fun err => fail (ErrWrap "reconcile policy: marshal" err));
     on_error (UpdateScheduledWork blob now (Work_WorkID row)) (fun err => fail (ErrWrap verb err)))
    (fun _ d => becomes (scheduled_work d !! Work_WorkID row)
       (encoded a (fun blob => revise blob now 0 row)) /\ changed_only (Work_WorkID row) d0 d)
    (fun _ _ => True)) as Hstore.
  { intros a verb. apply triple_bind_lift_wrap. intros blob Hb%proto_Marshal_ok.
    unfold encoded. rewrite Hb. simpl.
    eapply triple_on_error with (E' := fun _ _ => True); [|intros e; by apply triple_fail].
    eapply triple_conseq; [by apply (fwd_update_work d0)|done| |done].
    intros _ d [[t ->] Hc]. split; [by apply becomes_same|done]. }
  destruct (current !! Work_WorkID row) as [a|].
  - destruct (Work_Retired row); simpl; [apply Hstore|].
    apply triple_bind_lift_wrap. unfold decodeAction. intros stored Hd%proto_Unmarshal_ok.
    rewrite Hd.
    rewrite (bool_decide_ext (Some stored = Some a) (stored = a)) by naive_solver.
    case_bool_decide as Heq; [|apply Hstore].
    apply triple_ret. intros d ->. rewrite Hrow. split; [by apply becomes_same|done].
  - destruct (Work_RunInProgress row).
    + eapply triple_conseq; [by apply (fwd_update_work d0)|done| |done].
      intros _ d [[t ->] Hc]. split; [by apply becomes_same|done].
    + apply triple_sql; [|done]. intros t d ->. simpl. rewrite lookup_delete_eq.
      split; [by apply becomes_same|]. split; [|done]. intros k Hk. simpl. by rewrite lookup_delete_ne.
Qed.

(** *** All rows *)

(** The rows in [rows] are reconciled, the others are untouched. *)
Definition rows_reconciled (current : gmap string Action) (now : time) (rows : list WorkRow)
    (d d' : AgentDatabase) : Prop :=
  (forall row, row ∈ rows -> becomes (scheduled_work d' !! Work_WorkID row)
     (reconciled now (current !! Work_WorkID row) (Some row))) /\
  (forall id, id ∉ Work_WorkID <$> rows -> scheduled_work d' !! id = scheduled_work d !! id) /\
  result_outbox d' = result_outbox d /\ outbox_sequence d' = outbox_sequence d.

Lemma reconcileRows_spec current now rows d0 :
  NoDup (Work_WorkID <$> rows) ->
  (forall row, row ∈ rows -> scheduled_work d0 !! Work_WorkID row = Some row) ->
  triple (fun d => d = d0) (for_each (reconcileRow current now) rows)
    (fun _ d => rows_reconciled current now rows d0 d) (fun _ _ => True).
Proof.
  revert d0. induction rows as [|row rows IH]; simpl; intros d0.
  { intros _ _. apply triple_ret. intros d ->. split; [|done]. intros row. by rewrite elem_of_nil. }
  intros [Hnin Hnd]%NoDup_cons Hrows.
  eapply triple_bind_at; [apply reconcileRow_spec, Hrows; by left|].
  intros _ d1 [Hrow (Hother & Hout & Hseq)].
  eapply triple_conseq; [apply (IH d1 Hnd)|done| |done].
  - intros row' Hin. rewrite Hother; [apply Hrows; by right|].
    intros Heq. apply Hnin. rewrite <- Heq. by apply list_elem_of_fmap_2.
  - intros _ d (Hdone & Hkeep & Hout' & Hseq'). split; [|split; [|split; congruence]].
    + intros row' [->|Hin]%elem_of_cons; [|by apply Hdone]. by rewrite Hkeep.
    + intros id Hid. apply not_elem_of_cons in Hid as [Hne Hid]. by rewrite Hkeep, Hother.
Qed.

(** *** The actions without a row *)

Lemma reconcileAction_spec inventory now id a d0 :
  triple (fun d => d = d0) (reconcileAction inventory now (id, a))
    (fun _ d => if bool_decide (id ∈ inventory) then d = d0
       else scheduled_work d0 !! id = None /\
         becomes (scheduled_work d !! id) (encoded a (fun blob => new_work id blob now now 0)) /\
         changed_only id d0 d)
    (fun _ _ => True).
Proof.
  unfold reconcileAction. case_bool_decide; [by apply triple_ret|].
  apply triple_bind_lift_wrap. intros blob Hb%proto_Marshal_ok.
  unfold encoded. rewrite Hb. simpl.
  eapply triple_on_error with (E' := fun _ _ => True); [|intros e; by apply triple_fail].
  apply triple_sql; [|done]. intros t d ->.
  destruct (scheduled_work d0 !! id) eqn:Hl; [done|]. split; [done|]. simpl.
  rewrite lookup_insert_eq. split; [by apply becomes_same|]. split; [|done].
  intros k Hk. simpl. by rewrite lookup_insert_ne.
Qed.

Lemma reconcileActions_spec inventory now entries d0 :
  NoDup entries.*1 ->
  triple (fun d => d = d0) (for_each (reconcileAction inventory now) entries)
    (fun _ d => (forall id a, (id, a) ∈ entries -> id ∉ inventory ->
         scheduled_work d0 !! id = None /\
         becomes (scheduled_work d !! id) (encoded a (fun blob => new_work id blob now now 0))) /\
       (forall id, id ∈ inventory \/ id ∉ entries.*1 -> scheduled_work d !! id = scheduled_work d0 !! id) /\
       result_outbox d = result_outbox d0 /\ outbox_sequence d = outbox_sequence d0)
    (fun _ _ => True).
Proof.
  revert d0. induction entries as [|[id a] entries IH]; simpl; intros d0.
  { intros _. apply triple_ret. intros d ->. split; [|done]. intros id a. by rewrite elem_of_nil. }
  intros [Hnin Hnd]%NoDup_cons.
  eapply triple_bind_at; [apply reconcileAction_spec|]. intros [] d1 Hw.
  assert (changed_only id d0 d1) as (Hother & Hout & Hseq)
    by (case_bool_decide; [by subst d1|apply Hw]).
  eapply triple_conseq; [apply (IH d1 Hnd)|done| |done].
  intros _ d (Hdone & Hkeep & Hout' & Hseq'). split; [|split; [|split; congruence]].
  - intros id' a' [Heq|Hin]%elem_of_cons Hinv.
    + injection Heq as -> ->. rewrite bool_decide_false in Hw by done.
      destruct Hw as (Hfree & Hsame & _).
      split; [done|]. rewrite Hkeep; [done|by right].
    + destruct (Hdone id' a' Hin Hinv) as [Hfree Hsame]. split; [|done].
      rewrite <- Hfree. symmetry. apply Hother. intros ->. apply Hnin.
      by apply (list_elem_of_fmap_2 fst _ (id, a')).
  - intros id' Hid'. rewrite Hkeep.
    + destruct (decide (id' = id)) as [->|Hne]; [|by apply Hother].
      destruct Hid' as [Hinv|Hnot]; [|by destruct Hnot; left]. rewrite bool_decide_true in Hw by done. by subst d1.
    + destruct Hid' as [Hinv|Hnot]; [by left|right]. intros Hin. apply Hnot. by right.
Qed.

(** *** The whole policy *)

(** The action the policy has for a work id. *)
Definition policy_action (policy : DesiredPolicy) (id : string) : option Action :=
  List.find (fun a => bool_decide (GetValue (Action_Id a) = id)) (Policy_Actions policy).

Lemma policyActions_lookup policy current id :
  policyActions (Policy_Actions policy) ∅ = Ok current -> current !! id = policy_action policy id.
Proof.
  intros Hp. destruct (policyActions_NoDup _ _ _ Hp) as [Hnd _].
  destruct (policyActions_ok _ _ _ Hp) as [_ Hin]; [by intros ? ? ?%lookup_empty_Some|].
  unfold policy_action. destruct (List.find _ _) as [a|] eqn:Hf.
  - apply find_some in Hf as [Ha Hid%bool_decide_eq_true].
    apply Hin. right. split; [by apply list_elem_of_In|done].
  - destruct (current !! id) as [a|] eqn:Hc; [|done].
    apply Hin in Hc as [?%lookup_empty_Some|[Ha Hid]]; [done|].
    apply list_elem_of_In in Ha. eapply find_none in Hf; [|exact Ha].
    by apply bool_decide_eq_false in Hf.
Qed.

Context `{!MapRangeLaws}.

Lemma reconcileTransaction_spec current d0 :
  keyed Work_WorkID (scheduled_work d0) ->
  (forall id a, current !! id = Some a -> GetValue (Action_Id a) = id) ->
  triple (fun d => d = d0) (reconcileTransaction current)
    (fun _ d => exists now,
       (forall id, becomes (scheduled_work d !! id)
                     (reconciled now (current !! id) (scheduled_work d0 !! id))) /\
       result_outbox d = result_outbox d0 /\ outbox_sequence d = outbox_sequence d0)
    (fun _ _ => True).
Proof.
  intros Hkeyed Hids. unfold reconcileTransaction.
  eapply triple_bind; [apply fwd_query|]. intros rows. cbv beta.
  eapply triple_conseq with (P' := fun d => rows = select_where (fun _ => true) (scheduled_work d0) /\ d = d0);
    [|by intros d [-> [= <-]]|intros x d Hx; exact Hx|done].
  apply triple_pure. intros ->. set (rows := select_where _ _).
  assert (NoDup (Work_WorkID <$> rows)) as Hnd by by apply select_where_NoDup.
  assert (forall row, row ∈ rows <-> scheduled_work d0 !! Work_WorkID row = Some row) as Hrows.
  { intros row. unfold rows. rewrite elem_of_select_where. split; [|by eauto].
    intros [_ [k Hk]]. by rewrite (Hkeyed k row Hk). }
  apply triple_bind_draw. intros now.
  eapply triple_bind_at; [apply reconcileRows_spec; [done|intros row; apply Hrows]|].
  intros [] d1 (Hdone & Hkeep & Hout & Hseq).
  eapply triple_conseq; [apply (reconcileActions_spec _ _ _ d1)|done| |done].
  { rewrite map_range_perm. apply NoDup_fst_map_to_list. }
  intros _ d (Hnew & Hold & Hout' & Hseq'). exists now. split; [|split; congruence].
  assert (forall id, id ∈ (list_to_set (Work_WorkID <$> rows) : gset string) <->
                     is_Some (scheduled_work d0 !! id)) as Hinv.
  { intros id. rewrite elem_of_list_to_set, list_elem_of_fmap. split.
    - intros (row & -> & Hin%Hrows). by eexists.
    - intros [row Hrow]. exists row. rewrite (Hkeyed _ _ Hrow). split; [done|].
      apply Hrows. by rewrite (Hkeyed _ _ Hrow). }
  intros id. destruct (scheduled_work d0 !! id) as [row|] eqn:Hrow.
  - rewrite Hold by (left; apply Hinv; by eexists). pose proof (Hkeyed _ _ Hrow) as <-.
    apply Hdone. by apply Hrows.
  - assert (id ∉ (list_to_set (Work_WorkID <$> rows) : gset string)) as Hni
      by (rewrite Hinv, Hrow; by intros [? ?]).
    assert (scheduled_work d1 !! id = None) as Hd1.
    { rewrite Hkeep; [done|]. intros (row & -> & Hin%Hrows)%list_elem_of_fmap. congruence. }
    destruct (current !! id) as [a|] eqn:Ha; simpl.
    + destruct (Hnew id a) as [_ Hsame]; [|done|by rewrite (Hids _ _ Ha)].
      rewrite map_range_perm. by apply elem_of_map_to_list.
    + rewrite Hold, Hd1; [by apply becomes_same|]. right. rewrite map_range_perm.
      intros ([k a] & -> & Hin)%list_elem_of_fmap. apply elem_of_map_to_list in Hin.
      simpl in *. congruence.
Qed.

Lemma ReconcilePolicy_spec policy d0 :
  keyed Work_WorkID (scheduled_work d0) ->
  triple (fun d => d = d0) (ReconcilePolicy (Some policy))
    (fun _ d => NoDup ((fun a => GetValue (Action_Id a)) <$> Policy_Actions policy) /\
       (forall a, a ∈ Policy_Actions policy -> GetValue (Action_Id a) <> EmptyString) /\
       exists now,
         (forall id, becomes (scheduled_work d !! id)
            (reconciled now (policy_action policy id) (scheduled_work d0 !! id))) /\
         result_outbox d = result_outbox d0 /\ outbox_sequence d = outbox_sequence d0)
    (fun _ d => d = d0).
Proof.
  intros Hkeyed. simpl. apply triple_bind_lift; [|done]. intros current Hc.
  destruct (policyActions_ok _ _ _ Hc) as [Hids Hin]; [by intros ? ? ?%lookup_empty_Some|].
  destruct (policyActions_NoDup _ _ _ Hc) as [Hnd _].
  eapply triple_transaction; [|by intros e d ->].
  eapply triple_conseq; [apply (reconcileTransaction_spec current d0)|done| |done];
    [done|intros id a Ha; by apply (Hids id a)|].
  intros _ d (now & Hrows & Hout). split; [done|]. split.
  { intros a Ha. eapply Hids, Hin. by right. }
  exists now. split; [|done]. intros id. by rewrite <- (policyActions_lookup _ _ _ Hc).
Qed.

(** *** Reconciling succeeds *)

(** The works there are lie in [known]. *)
Definition works_in (known : string -> Prop) (d : AgentDatabase) : Prop :=
  forall id, is_Some (scheduled_work d !! id) -> known id.

Lemma quietly_update_work known id f :
  quietly (works_in known) (update_work id f) (fun _ => works_in known).
Proof.
  apply quietly_sql. intros t d Hd. do 2 eexists. split; [reflexivity|].
  intros id' [r Hr]. simpl in Hr. apply Hd. apply lookup_alter_Some in Hr as [(-> & x & -> & _)|[_ ->]]; by eexists.
Qed.

Lemma quietly_DeleteWork known id :
  quietly (works_in known) (DeleteWork id) (fun _ => works_in known).
Proof.
  apply quietly_sql. intros t d Hd. do 2 eexists. split; [reflexivity|].
  intros id' [r Hr]. simpl in Hr. apply lookup_delete_Some in Hr as [_ Hr]. apply Hd. by eexists.
Qed.

(** Storing an action that can be encoded. *)
Lemma quietly_stored P (a : Action) g (k : bytes -> AgentQueries unit) h Q :
  is_Some (marshal a) -> (forall blob, quietly P (k blob) Q) ->
  quietly P (blob ← on_error (lift (proto_Marshal a)) g; on_error (k blob) h) Q.
Proof.
  intros [blob Hblob] Hk. eapply (quietly_bind _ _ _ (fun _ => P)).
  - apply quietly_on_error. by eapply quietly_lift; [apply proto_Marshal_ok|].
  - intros b. by apply quietly_on_error.
Qed.

Lemma quietly_reconcileRow known current now row :
  is_Some (unmarshal (Work_ActionBlob row)) -> (forall id a, current !! id = Some a -> is_Some (marshal a)) ->
  quietly (works_in known) (reconcileRow current now row) (fun _ => works_in known).
Proof.
  intros [stored Hst] Hmar. unfold reconcileRow. cbv zeta.
  destruct (current !! _) as [a|] eqn:Ha.
  2: { destruct (Work_RunInProgress row); [apply quietly_update_work|apply quietly_DeleteWork]. }
  destruct (negb _).
  - eapply (quietly_bind _ _ _ (fun _ => works_in known)).
    + apply quietly_on_error. by eapply quietly_lift; [apply proto_Unmarshal_ok|].
    + intros x. case_bool_decide; [by apply quietly_ret|].
      apply quietly_stored; [by eapply Hmar|]. intros blob. apply quietly_update_work.
  - apply quietly_stored; [by eapply Hmar|]. intros blob. apply quietly_update_work.
Qed.

Lemma quietly_reconcileActions inventory now entries known :
  NoDup entries.*1 -> (forall id a, (id, a) ∈ entries -> is_Some (marshal a)) ->
  (forall id, id ∈ entries.*1 -> id ∉ inventory -> ~ known id) ->
  quietly (works_in known) (for_each (reconcileAction inventory now) entries) (fun _ _ => True).
Proof.
  revert known. induction entries as [|[id a] entries IH]; simpl; intros known Hnd Hmar Hfree.
  { by apply quietly_ret. }
  apply NoDup_cons in Hnd as [Hnin Hnd].
  eapply (quietly_bind _ _ _ (fun _ => works_in (fun k => known k \/ k = id))).
  - case_bool_decide as Hid; [apply quietly_ret; intros d Hd k Hk; left; by apply Hd|].
    apply quietly_stored; [apply (Hmar id); by left|]. intros blob. apply quietly_sql.
    intros t d Hd. assert (scheduled_work d !! id = None) as ->.
    { destruct (scheduled_work d !! id) eqn:Hl; [|done]. destruct (Hfree id); [by left|done|].
      apply Hd. by eexists. }
    do 2 eexists. split; [reflexivity|]. intros k [r Hr]. simpl in Hr.
    apply lookup_insert_Some in Hr as [[<- _]|[_ Hr]]; [by right|left; apply Hd; by eexists].
  - intros []. apply IH; [done|intros k b Hk; apply (Hmar k); by right|].
    intros k Hk Hinv [Hold| ->]; [|done]. apply (Hfree k); [by right|done..].
Qed.

(** A policy of distinct non-empty ids is accepted. *)
Lemma policyActions_total actions current :
  NoDup ((fun a => GetValue (Action_Id a)) <$> actions) ->
  (forall a, a ∈ actions -> GetValue (Action_Id a) <> EmptyString /\ current !! GetValue (Action_Id a) = None) ->
  exists current', policyActions actions current = Ok current'.
Proof.
  revert current. induction actions as [|a actions IH]; simpl; intros current Hnd Ha; [by eexists|].
  csimpl in Hnd. apply NoDup_cons in Hnd as [Hnin Hnd]. destruct (Ha a) as [Hne Hfree]; [by left|].
  rewrite bool_decide_false by done. rewrite Hfree. apply IH; [done|]. intros b Hb.
  destruct (Ha b) as [??]; [by right|]. split; [done|]. rewrite lookup_insert_ne; [done|].
  intros Heq. apply Hnin. rewrite Heq. by apply (list_elem_of_fmap_2 (fun a => GetValue (Action_Id a))).
Qed.

Lemma quietly_ReconcilePolicy policy d0 :
  keyed Work_WorkID (scheduled_work d0) ->
  (forall id row, scheduled_work d0 !! id = Some row -> is_Some (unmarshal (Work_ActionBlob row))) ->
  NoDup ((fun a => GetValue (Action_Id a)) <$> Policy_Actions policy) ->
  (forall a, a ∈ Policy_Actions policy -> GetValue (Action_Id a) <> EmptyString /\ is_Some (marshal a)) ->
  quietly (fun d => d = d0) (ReconcilePolicy (Some policy)) (fun _ _ => True).
Proof.
  intros Hkeyed Hstored Hnd Hacts. unfold ReconcilePolicy.
  destruct (policyActions_total (Policy_Actions policy) ∅) as [current Hc]; [done|..].
  { intros a Ha. split; [by apply Hacts|done]. }
  destruct (policyActions_ok _ _ _ Hc) as [_ Hin]; [by intros ? ? ?%lookup_empty_Some|].
  assert (forall id a, current !! id = Some a -> is_Some (marshal a)) as Hmar.
  { intros id a [?%lookup_empty_Some|[Ha _]]%Hin; [done|]. by apply Hacts. }
  eapply (quietly_bind _ _ _ (fun c d => c = current /\ d = d0)); [by eapply quietly_lift|].
  intros c. apply quietly_pure. intros ->. apply quietly_transaction. unfold reconcileTransaction.
  set (rows := select_where (fun _ => true) (scheduled_work d0)).
  set (inventory := list_to_set (Work_WorkID <$> rows) : gset string).
  assert (works_in (fun id => id ∈ inventory) d0) as Hknown.
  { intros id [row Hrow]. unfold inventory. rewrite elem_of_list_to_set, list_elem_of_fmap.
    exists row. split; [symmetry; by apply Hkeyed|]. apply elem_of_select_where. eauto. }
  eapply (quietly_bind _ _ _ (fun r d => r = rows /\ works_in (fun id => id ∈ inventory) d)).
  { apply quietly_query. intros d ->. eexists. split; [reflexivity|]. by split. }
  intros r. apply quietly_pure. intros ->. apply quietly_bind_draw. intros env n.
  eapply quietly_bind.
  { apply (quietly_for_each (works_in (fun id => id ∈ inventory))). intros row Hrow.
    apply quietly_reconcileRow; [|done]. apply elem_of_select_where in Hrow as [_ [k Hk]].
    by apply (Hstored k). }
  intros []. apply quietly_reconcileActions.
  - rewrite map_range_perm. apply NoDup_fst_map_to_list.
  - intros id a Ha. rewrite map_range_perm in Ha. apply elem_of_map_to_list in Ha. by apply (Hmar id).
  - done.
Qed.

(** C14: Reconciling has the effect of the pointwise reference, in whatever order
    Go walks the policy.  It succeeds only for a policy whose actions have distinct,
    non-empty ids; then every work id has the row [reconciled] gives it: a work
    without an action is gone, or retired while its run lasts; a work whose stored
    action is the policy's is left alone; any other work of the policy gets the
    policy's action, due now.  The outbox is untouched.  On an error nothing
    changes. *)
Theorem ReconcilePolicy_reconciles policy d0 :
  keyed Work_WorkID (scheduled_work d0) ->
  triple (fun d => d = d0) (ReconcilePolicy (Some policy))
    (fun _ d => NoDup ((fun a => GetValue (Action_Id a)) <$> Policy_Actions policy) /\
       (forall a, a ∈ Policy_Actions policy -> GetValue (Action_Id a) <> EmptyString) /\
       exists now,
         (forall id, becomes (scheduled_work d !! id)
            (reconciled now (policy_action policy id) (scheduled_work d0 !! id))) /\
         result_outbox d = result_outbox d0 /\ outbox_sequence d = outbox_sequence d0)
    (fun _ d => d = d0).
Proof. apply ReconcilePolicy_spec. Qed.
End reconcile.
