(* ===== verification/AgentLedger.v ===== *)
(** * What the agent's store promises: a ledger of runs

    Seen from outside, the store is a ledger: a run of a work is begun, finished
    with a report, and the report is delivered.  This file defines that abstract
    machine, the abstraction function from the database, the store's invariant, and
    shows that every operation of [AgentStore] keeps the invariant and takes the
    ledger through steps of the machine (a simulation): reconciling a policy is
    invisible, beginning a run is a [Began] step, recording and recovering are
    [Finished] steps, deleting a pending result a [Delivered] step; an operation
    that fails is no step at all. *)

From S2P Require Import Prelude Hash Engine Proto AgentStore AgentPolicy.

Open Scope Z_scope.

(** ** The abstract machine *)

Record Ledger := mkLedger {
  open_runs : gmap string (string * bytes);  (* work id to run id and action digest *)
  reports : gmap Z ActionResult;         (* reports that are not delivered *)
  last_report : Z;
}.

Definition empty_ledger : Ledger := mkLedger ∅ ∅ 0.

Inductive event :=
| Began (work run : string) (digest : bytes)
| Finished (work run : string) (sequence : Z) (report : ActionResult)
| Delivered (sequence : Z).

Inductive ledger_step : Ledger -> event -> Ledger -> Prop :=
| step_begin L work run digest :
    open_runs L !! work = None -> (forall w x, open_runs L !! w <> Some (run, x)) ->
    ledger_step L (Began work run digest)
      (mkLedger (<[work := (run, digest)]> (open_runs L)) (reports L) (last_report L))
| step_finish L work run report :
    open_runs L !! work = Some (run, Result_ActionDigest report) ->
    GetValue (Result_ActionId report) = work -> GetValue (Result_RunId report) = run ->
    ledger_step L (Finished work run (last_report L + 1) report)
      (mkLedger (delete work (open_runs L)) (<[last_report L + 1 := report]> (reports L))
         (last_report L + 1))
| step_deliver L sequence :
    ledger_step L (Delivered sequence)
      (mkLedger (open_runs L) (delete sequence (reports L)) (last_report L)).

(** The events of a run of the machine, oldest first. *)
Inductive ledger_steps (L0 : Ledger) : list event -> Ledger -> Prop :=
| steps_nil : ledger_steps L0 [] L0
| steps_snoc es e L L' : ledger_steps L0 es L -> ledger_step L e L' -> ledger_steps L0 (es ++ [e]) L'.

(** *** Every run is accounted for *)

Definition began (run : string) (es : list event) : nat :=
  length (List.filter (fun e => match e with Began _ r _ => bool_decide (r = run) | _ => false end) es).

Definition finished (run : string) (es : list event) : nat :=
  length (List.filter (fun e => match e with Finished _ r _ _ => bool_decide (r = run) | _ => false end) es).

Definition is_open (run : string) (L : Ledger) : Prop := exists w digest, open_runs L !! w = Some (run, digest).

(** The run is begun as often as it is finished, and once more while it is open. *)
Definition accounted (L : Ledger) (es : list event) : Prop :=
  forall run, (is_open run L /\ began run es = S (finished run es)) \/
              (~ is_open run L /\ began run es = finished run es).

(** The reports there are, and where they went. *)
Definition reported (L : Ledger) (es : list event) : Prop :=
  (forall n r, reports L !! n = Some r -> exists w run, Finished w run n r ∈ es) /\
  (forall w run n r, Finished w run n r ∈ es ->
     0 < n <= last_report L /\ GetValue (Result_ActionId r) = w /\ GetValue (Result_RunId r) = run /\
     Began w run (Result_ActionDigest r) ∈ es /\ (reports L !! n = Some r \/ Delivered n ∈ es)).

(** What is open was begun. *)
Definition opened (L : Ledger) (es : list event) : Prop :=
  forall w run digest, open_runs L !! w = Some (run, digest) -> Began w run digest ∈ es.

Definition runs_distinct (L : Ledger) : Prop :=
  forall w w' run x x', open_runs L !! w = Some (run, x) -> open_runs L !! w' = Some (run, x') -> w = w'.

Lemma began_snoc run es e :
  began run (es ++ [e]) =
    (began run es + match e with Began _ r _ => if bool_decide (r = run) then 1 else 0 | _ => 0 end)%nat.
Proof.
  unfold began. rewrite List.filter_app, length_app. f_equal. simpl.
  destruct e; [|done..]. by case_bool_decide.
Qed.

Lemma finished_snoc run es e :
  finished run (es ++ [e]) =
    (finished run es + match e with Finished _ r _ _ => if bool_decide (r = run) then 1 else 0 | _ => 0 end)%nat.
Proof.
  unfold finished. rewrite List.filter_app, length_app. f_equal. simpl.
  destruct e; [done| |done]. by case_bool_decide.
Qed.

Lemma ledger_steps_distinct es L : ledger_steps empty_ledger es L -> runs_distinct L.
Proof.
  induction 1 as [|es e L L' _ IH Hstep].
  { intros w w' run x x'. simpl. by rewrite lookup_empty. }
  destruct Hstep as [L work run dg Hw Hrun|L work run report Hw _ _|L n]; intros w w' run' x x'; simpl.
  - rewrite !lookup_insert_Some. naive_solver.
  - rewrite !lookup_delete_Some. naive_solver.
  - apply IH.
Qed.

Lemma ledger_steps_accounted es L : ledger_steps empty_ledger es L -> accounted L es.
Proof.
  intros Hsteps. pose proof Hsteps as Hd.
  induction Hsteps as [|es e L L' Hsteps IH Hstep]; intros run'.
  { right. split; [|done]. intros (w & x & Hw). simpl in Hw. by rewrite lookup_empty in Hw. }
  pose proof (ledger_steps_distinct _ _ Hsteps) as Hdist. specialize (IH Hsteps run').
  rewrite began_snoc, finished_snoc. unfold is_open in *.
  destruct Hstep as [L work run dg Hw Hrun|L work run report Hw _ _|L n]; simpl;
    [..|by rewrite !Nat.add_0_r].
  - case_bool_decide as Heq.
    + subst run'. left. split; [exists work, dg; by rewrite lookup_insert_eq|].
      destruct IH as [[(w & x & ?) _]|[_ ?]]; [by destruct (Hrun w x)|lia].
    + rewrite !Nat.add_0_r. destruct IH as [[(w & x & Hw') ?]|[Hno ?]]; [left|right]; (split; [|done]).
      * exists w, x. rewrite lookup_insert_ne; [done|]. intros ->. congruence.
      * intros (w & x & [[_ ?]|[_ ?]]%lookup_insert_Some); [naive_solver|]. apply Hno. by exists w, x.
  - case_bool_decide as Heq.
    + subst run'. right. split.
      * intros (w & x & [Hne Hw']%lookup_delete_Some). apply Hne. by eapply (Hdist work w run).
      * destruct IH as [[_ ?]|[Hno ?]]; [lia|]. destruct Hno. by do 2 eexists.
    + rewrite !Nat.add_0_r. destruct IH as [[(w & x & Hw') ?]|[Hno ?]]; [left|right]; (split; [|done]).
      * exists w, x. rewrite lookup_delete_ne; [done|]. intros ->. congruence.
      * intros (w & x & [_ Hw']%lookup_delete_Some). apply Hno. by exists w, x.
Qed.

Lemma ledger_steps_opened es L : ledger_steps empty_ledger es L -> opened L es.
Proof.
  induction 1 as [|es e L L' _ IH Hstep].
  { intros w run x. simpl. by rewrite lookup_empty. }
  destruct Hstep as [L work run dg Hw Hrun|L work run report Hw _ _|L n]; intros w run' x; simpl;
    rewrite elem_of_app.
  - intros [[<- [= <- <-]]|[_ ?]]%lookup_insert_Some; [right; by left|left; by apply IH].
  - intros [_ ?]%lookup_delete_Some. left. by apply IH.
  - intros ?. left. by apply IH.
Qed.

Lemma ledger_steps_reported es L :
  ledger_steps empty_ledger es L -> 0 <= last_report L /\ reported L es.
Proof.
  induction 1 as [|es e L L' Hsteps [Hpos [IH1 IH2]] Hstep].
  { split; [done|]. split; [intros n r; simpl; by rewrite lookup_empty|].
    intros w run n r Hin. by apply elem_of_nil in Hin. }
  pose proof (ledger_steps_opened _ _ Hsteps) as Hopened.
  assert (forall e w run n r, Finished w run n r ∈ es ->
    0 < n <= last_report L /\ GetValue (Result_ActionId r) = w /\ GetValue (Result_RunId r) = run /\
    Began w run (Result_ActionDigest r) ∈ es ++ [e] /\
    (reports L !! n = Some r \/ Delivered n ∈ es ++ [e])) as IH.
  { intros e' w run n r Hin. rewrite !elem_of_app. destruct (IH2 _ _ _ _ Hin) as (? & ? & ? & ? & ?). tauto. }
  destruct Hstep as [L work run dg Hw Hrun|L work run report Hw Hid Hr|L m]; simpl in *.
  - split; [done|]. split; simpl.
    + intros n r (w & run' & Hin)%IH1. exists w, run'. apply elem_of_app. by left.
    + intros w run' n r [Hin|Hin%list_elem_of_singleton]%elem_of_app; [by apply IH|done].
  - split; [lia|]. split; simpl.
    + intros n r [[<- <-]|[_ (w & run' & Hin)%IH1]]%lookup_insert_Some; [exists work, run|exists w, run'];
        apply elem_of_app; [right; by left|by left].
    + intros w run' n r [Hin|Hin%list_elem_of_singleton]%elem_of_app.
      * eapply IH in Hin as (? & ? & ? & ? & ?). rewrite lookup_insert_ne by lia.
        split_and!; [lia|lia|eassumption..].
      * injection Hin as -> -> -> ->. rewrite lookup_insert_eq. split_and!; [lia|lia|done|done| |by left].
        apply elem_of_app. left. by apply Hopened.
  - split; [done|]. split; simpl.
    + intros n r [_ (w & run' & Hin)%IH1]%lookup_delete_Some. exists w, run'. apply elem_of_app. by left.
    + intros w run' n r [Hin|Hin%list_elem_of_singleton]%elem_of_app; [|done].
      eapply IH in Hin as (? & ? & ? & ? & Hrep). split_and!; [lia|lia|eassumption..|].
      destruct (decide (n = m)) as [->|Hne]; [right; apply elem_of_app; right; by left|].
      by rewrite lookup_delete_ne.
Qed.

(** ** The abstraction function and the store's invariant *)

Section store.
Context `{!ProtoCodec Action, !ProtoCodec ActionResult, !DeterministicMarshal, !MapRange}.

(** The run of a row, while it lasts. *)
Definition row_run (r : WorkRow) : option (string * bytes) :=
  if Work_RunInProgress r
  then match Work_RunID r with
       | Some run => Some (run, default [] (Work_RunActionDigest r))
       | None => None
       end
  else None.

Definition row_report (o : ResultOutbox) : option ActionResult := unmarshal (Outbox_Payload o).

Definition ledger (d : AgentDatabase) : Ledger :=
  mkLedger (omap row_run (scheduled_work d)) (omap row_report (result_outbox d)) (outbox_sequence d).

(** A row of the work [id]: it holds a readable action of that id; a running row
    has its run id and digest, and only a running row has them or is retired. *)
Definition row_ok (id : string) (r : WorkRow) : Prop :=
  Work_WorkID r = id /\ id <> EmptyString /\
  (exists a, unmarshal (Work_ActionBlob r) = Some a /\ GetValue (Action_Id a) = id) /\
  if Work_RunInProgress r
  then exists run digest, Work_RunID r = Some run /\ Work_RunActionDigest r = Some digest /\
         length digest = 32%nat
  else Work_RunID r = None /\ Work_RunActionDigest r = None /\ Work_Retired r = false.

Record StoreInv (d : AgentDatabase) : Prop := {
  inv_rows : forall id r, scheduled_work d !! id = Some r -> row_ok id r;
  inv_runs : forall id id' r r' run, scheduled_work d !! id = Some r ->
    scheduled_work d !! id' = Some r' -> Work_RunID r = Some run -> Work_RunID r' = Some run -> id = id';
  inv_outbox : forall n o, result_outbox d !! n = Some o ->
    Outbox_Sequence o = n /\ 0 < n <= outbox_sequence d /\
    exists r, unmarshal (Outbox_Payload o) = Some r;
  inv_sequence : 0 <= outbox_sequence d /\ in_int64 (outbox_sequence d) = true;
}.

Lemma inv_keyed d : StoreInv d -> keyed Work_WorkID (scheduled_work d).
Proof. intros Hd id r Hr. by apply (inv_rows d Hd id r Hr). Qed.

Lemma empty_store_ok : StoreInv empty_agent_database.
Proof. by split; try (intros ?; intros; simplify_map_eq). Qed.

(** The database is consistent, and what the history [C] of events says of its ledger. *)
Definition tracked (C : list event -> Ledger -> Prop) (d : AgentDatabase) : Prop :=
  StoreInv d /\ exists es, C es (ledger d).

(** What stays true while runs begin and finish. *)
Definition work_closed (C : list event -> Ledger -> Prop) : Prop :=
  forall es L e L', C es L -> ledger_step L e L' -> (forall n, e <> Delivered n) -> C (es ++ [e]) L'.

(** The ledger is reached from [L0]. *)
Definition tracks (L0 : Ledger) (d : AgentDatabase) : Prop := tracked (ledger_steps L0) d.

Lemma steps_closed L0 : work_closed (ledger_steps L0).
Proof. intros es L e L' Hes He _. by eapply steps_snoc. Qed.

Lemma tracked_same C d d' : tracked C d -> StoreInv d' -> ledger d' = ledger d -> tracked C d'.
Proof. intros [_ [es Hes]] Hd' Hl. split; [done|]. exists es. by rewrite Hl. Qed.

Lemma tracked_step C d e d' :
  work_closed C -> tracked C d -> StoreInv d' -> ledger_step (ledger d) e (ledger d') -> (forall n, e <> Delivered n) ->
  tracked C d'.
Proof. intros HC [_ [es Hes]] Hd' Hl He. split; [done|]. exists (es ++ [e]). by eapply HC. Qed.

Lemma open_run_Some d id run digest :
  StoreInv d -> open_runs (ledger d) !! id = Some (run, digest) <->
  exists r, scheduled_work d !! id = Some r /\ Work_RunID r = Some run /\
    Work_RunActionDigest r = Some digest /\ Work_RunInProgress r = true.
Proof.
  intros Hd. simpl. rewrite lookup_omap_Some. unfold row_run. split.
  - intros (r & Hr & Hl). exists r. destruct (inv_rows d Hd id r Hl) as (_ & _ & _ & Hrun).
    destruct (Work_RunInProgress r); [|done]. destruct Hrun as (x & y & Hx & Hy & _).
    rewrite Hx, Hy in Hr. injection Hr as <- <-. by rewrite Hx, Hy.
  - intros (r & Hl & Hr & Hdig & Hp). exists r. split; [|done]. by rewrite Hp, Hr, Hdig.
Qed.

(** *** Reconciling *)

Context `{!ProtoLaws Action, !ProtoLaws ActionResult, !MapRangeLaws}.

(** The parts of a row reconciling never touches while the row stays. *)
Lemma same_row_cases r r' :
  same_row r r' ->
  match r, r' with
  | None, None => True
  | Some x, Some y =>
      Work_WorkID x = Work_WorkID y /\ Work_RunID x = Work_RunID y /\
      Work_ActionBlob x = Work_ActionBlob y /\ Work_RunActionDigest x = Work_RunActionDigest y /\
      Work_Retired x = Work_Retired y /\ Work_RunInProgress x = Work_RunInProgress y
  | _, _ => False
  end.
Proof.
  unfold same_row. destruct r as [x|], r' as [y|]; simpl; [|done..].
  unfold plain_row. intros Heq. injection Heq. intros. split_and!; congruence.
Qed.

(** A reconciled work keeps its run; its row, if it has one, is consistent. *)
Lemma reconciled_ok now desired stored id row :
  (forall a, desired = Some a -> GetValue (Action_Id a) = id) -> id <> EmptyString ->
  (forall r, stored = Some r -> row_ok id r) ->
  becomes row (reconciled now desired stored) ->
  row ≫= row_run = stored ≫= row_run /\
  forall r', row = Some r' -> row_ok id r' /\
    (Work_RunID r' = None \/ exists r, stored = Some r /\ Work_RunID r' = Work_RunID r).
Proof.
  intros Hdes Hid Hst (row' & Href & Hsame%same_row_cases). unfold reconciled, encoded in Href.
  destruct desired as [a|], stored as [r|]; simpl in *.
  - destruct (Hst r eq_refl) as (Hw & _ & Ha & Hrun).
    destruct (negb _ && _); [|destruct (marshal a) as [blob|] eqn:Hb; simpl in Href; [|done]];
      injection Href as <-; (destruct row as [x|]; [|done]);
      destruct Hsame as (? & Hr & Hblob & Hdig & Hret & Hprog); simpl in *;
      (split; [unfold row_run; by rewrite Hprog, Hr, Hdig|]); intros r' [= <-]; (split; [|right; by exists r]);
      unfold row_ok; rewrite Hprog, Hr, Hblob, Hdig, Hret.
    + split_and!; [congruence|done..].
    + split_and!; [congruence|done|..].
      * exists a. split; [by apply unmarshal_marshal|by apply Hdes].
      * destruct (Work_RunInProgress r); [done|]. naive_solver.
  - destruct (marshal a) as [blob|] eqn:Hb; simpl in Href; [|done]. injection Href as <-.
    destruct row as [x|]; [|done]. destruct Hsame as (? & Hr & Hblob & Hdig & Hret & Hprog). simpl in *.
    split; [unfold row_run; by rewrite Hprog|]. intros r' [= <-]. split; [|by left].
    unfold row_ok. rewrite Hprog, Hr, Hblob, Hdig, Hret. rewrite <- (Hdes a eq_refl) in *.
    split_and!; try done. exists a. split; [by apply unmarshal_marshal|done].
  - destruct (Hst r eq_refl) as (Hw & _ & Ha & Hrun). injection Href as <-.
    destruct (Work_RunInProgress r) eqn:Hp; destruct row as [x|]; try done.
    + destruct Hsame as (? & Hr & Hblob & Hdig & Hret & Hprog). simpl in *.
      split; [unfold row_run; by rewrite Hprog, Hp, Hr, Hdig|].
      intros r' [= <-]. split; [|right; by exists r].
      unfold row_ok. rewrite Hprog, Hr, Hblob, Hdig, Hp. by split_and!; [congruence|..].
    + split; [unfold row_run; simpl; by rewrite Hp|done].
  - injection Href as <-. by destruct row.
Qed.

(** Reconciling keeps the store consistent and is no event of the ledger. *)
Lemma ReconcilePolicy_ledger policy d0 :
  StoreInv d0 ->
  triple (fun d => d = d0) (ReconcilePolicy policy)
    (fun _ d => StoreInv d /\ ledger d = ledger d0) (fun _ d => d = d0).
Proof.
  intros Hinv. destruct policy as [policy|]; [|by apply triple_fail].
  eapply triple_conseq; [apply (ReconcilePolicy_spec policy d0), inv_keyed, Hinv|done| |done].
  intros [] d (Hnd & Hids & now & Hrows & Hout & Hseq).
  assert (forall id, scheduled_work d !! id ≫= row_run = scheduled_work d0 !! id ≫= row_run /\
    forall r', scheduled_work d !! id = Some r' -> row_ok id r' /\
    (Work_RunID r' = None \/ exists r, scheduled_work d0 !! id = Some r /\ Work_RunID r' = Work_RunID r))
    as Hrow.
  { intros id. destruct (decide (id = EmptyString)) as [->|Hid].
    - assert (policy_action policy EmptyString = None) as Hnone.
      { unfold policy_action. destruct (List.find _ _) as [a|] eqn:Hf; [|done].
        apply find_some in Hf as [Hin%list_elem_of_In He%bool_decide_eq_true].
        by destruct (Hids a Hin). }
      assert (scheduled_work d0 !! EmptyString = None) as Hfree.
      { destruct (scheduled_work d0 !! EmptyString) as [r|] eqn:Hr; [|done].
        by destruct (inv_rows _ Hinv _ _ Hr) as (_ & ? & _). }
      destruct (Hrows EmptyString) as (row' & Href & Hsame%same_row_cases).
      rewrite Hnone, Hfree in Href. injection Href as <-. rewrite Hfree.
      by destruct (scheduled_work d !! EmptyString).
    - eapply reconciled_ok; [|done|intros r; apply (inv_rows _ Hinv)|apply Hrows].
      unfold policy_action. intros a Ha. apply find_some in Ha as [_ Ha].
      by apply bool_decide_eq_true in Ha. }
  split; [split|].
  - intros id r Hr. by apply (Hrow id).
  - intros id id' r r' run Hr Hr' Hrun Hrun'.
    destruct (proj2 (Hrow id) r Hr) as [_ [?|(x & Hx & Hxr)]]; [congruence|].
    destruct (proj2 (Hrow id') r' Hr') as [_ [?|(y & Hy & Hyr)]]; [congruence|].
    eapply (inv_runs _ Hinv id id' x y run); congruence.
  - intros n o. rewrite Hout, Hseq. apply (inv_outbox _ Hinv).
  - rewrite Hseq. apply (inv_sequence _ Hinv).
  - unfold ledger. rewrite Hout, Hseq. f_equal. apply map_eq. intros id.
    rewrite !lookup_omap. apply Hrow.
Qed.

Lemma ReconcilePolicy_tracked C policy : preserves (tracked C) (ReconcilePolicy policy).
Proof.
  intros env w Hw. pose proof (ReconcilePolicy_ledger policy (w_db w) (proj1 Hw) env w eq_refl) as Hspec.
  destruct (ReconcilePolicy _ env w) as [[u|e] w']; [|by rewrite Hspec].
  by eapply tracked_same; [exact Hw|apply Hspec..].
Qed.

(** *** Beginning a run *)

(** The run [run] of the due work [w] began, with the action stored for it. *)
Definition run_begun (w w' : ScheduledWork) (started now : time) (d d' : AgentDatabase) : Prop :=
  exists r digest t, scheduled_work d !! SW_WorkID w = Some r /\ runnable now r = true /\
    unmarshal (Work_ActionBlob r) = Some (SW_Action w') /\ SW_WorkID w' = SW_WorkID w /\
    ActionDigest (Some (SW_Action w')) = Ok digest /\
    (forall id x, scheduled_work d !! id = Some x -> id <> SW_WorkID w ->
       Work_RunID x <> Some (SW_RunID w')) /\
    d' = set_scheduled_work (<[SW_WorkID w := begin_run (SW_RunID w') digest started
           (calculateNextExecuteFromSchedule (Action_Schedule (SW_Action w')) (Some started) now)
           started t r]> (scheduled_work d)) d.

Lemma BeginActionRun_spec w started d0 :
  triple (fun d => d = d0) (BeginActionRun w started)
    (fun w' d => exists now, run_begun w w' started now d0 d) (fun _ d => d = d0).
Proof.
  unfold BeginActionRun. case_bool_decide; [by apply triple_fail|].
  eapply triple_transaction; [|by intros e d ->]. unfold beginTransaction.
  apply triple_bind_draw. intros now.
  eapply triple_bind; [apply fwd_query|]. intros [id blob]. cbv beta.
  eapply triple_conseq with (P' := fun d => (exists r, scheduled_work d0 !! SW_WorkID w = Some r /\
    runnable now r = true /\ blob = Work_ActionBlob r) /\ d = d0); [| |intros x d Hx; exact Hx|done].
  2: { intros d [-> Hrow]. split; [|done].
       destruct (scheduled_work d0 !! SW_WorkID w) as [r|]; [|done].
       destruct (runnable now r) eqn:Hr; [|done]. injection Hrow as _ <-. by exists r. }
  apply triple_pure. intros (r & Hrow & Hrunnable & ->). simpl.
  apply triple_bind_lift_wrap. unfold decodeAction. intros action Ha%proto_Unmarshal_ok.
  apply triple_bind_lift; [|done]. intros digest Hdigest. apply triple_bind_draw. intros run.
  eapply (triple_bind _ _ _ (fun n d => n = 1 -> run_begun w
      {| SW_Action := action; SW_WorkID := SW_WorkID w; SW_RunID := run |} started now d0 d)).
  - apply triple_sql; [|done]. intros t d ->. rewrite Hrow, Hrunnable. simpl.
    destruct (exists_row _ _) eqn:Hfresh; [done|]. intros _. exists r, digest, t.
    split_and!; try done. intros k x Hx Hne Hrun. rewrite exists_row_false in Hfresh.
    specialize (Hfresh k x). rewrite lookup_delete_ne in Hfresh by done.
    by apply Hfresh, bool_decide_eq_false in Hx.
  - intros n. destruct (Z.eqb_spec n 1) as [->|]; simpl; [|by apply triple_fail].
    apply triple_ret. intros d Hd. exists now. by apply Hd.
Qed.

Lemma run_begun_ledger w w' started now d d' :
  StoreInv d -> run_begun w w' started now d d' ->
  exists digest, ActionDigest (Some (SW_Action w')) = Ok digest /\ StoreInv d' /\
    open_runs (ledger d) !! SW_WorkID w = None /\
    (forall id x, open_runs (ledger d) !! id <> Some (SW_RunID w', x)) /\
    ledger d' = mkLedger (<[SW_WorkID w := (SW_RunID w', digest)]> (open_runs (ledger d)))
      (reports (ledger d)) (last_report (ledger d)).
Proof.
  intros Hinv (r & digest & t & Hrow & Hrun & Ha & _ & Hdig & Hfresh & ->).
  destruct (inv_rows _ Hinv _ _ Hrow) as (Hwid & Hne & Hact & Hshape).
  assert (Work_RunInProgress r = false) as Hidle.
  { unfold runnable in Hrun. by destruct (Work_RunInProgress r), (Work_Retired r). }
  rewrite Hidle in Hshape. destruct Hshape as (Hnorun & _ & _).
  assert (forall id x, scheduled_work d !! id = Some x -> Work_RunID x <> Some (SW_RunID w')) as Hall.
  { intros id x Hx. destruct (decide (id = SW_WorkID w)) as [->|?]; [|by eapply Hfresh].
    rewrite Hrow in Hx. injection Hx as <-. by rewrite Hnorun. }
  exists digest. split; [done|]. split; [split; simpl|split_and!].
  - intros id x [[<- <-]|[_ Hx]]%lookup_insert_Some; [|by apply (inv_rows _ Hinv)].
    split_and!; simpl; [done..|]. eexists _, digest. split_and!; [done..|].
    by eapply length_ActionDigest.
  - intros id id' x x' run [[<- <-]|[? Hx]]%lookup_insert_Some [[<- <-]|[? Hx']]%lookup_insert_Some;
      simpl; intros Hr Hr'; [done|..].
    + injection Hr as <-. by destruct (Hall _ _ Hx').
    + injection Hr' as <-. by destruct (Hall _ _ Hx).
    + by eapply (inv_runs _ Hinv id id' x x').
  - apply (inv_outbox _ Hinv).
  - apply (inv_sequence _ Hinv).
  - simpl. rewrite lookup_omap, Hrow. simpl. unfold row_run. by rewrite Hidle.
  - intros id x Hid. apply open_run_Some in Hid as (y & Hy & Hr & _); [|done]. by apply (Hall id y).
  - unfold ledger. simpl. f_equal. by rewrite (omap_insert_Some _ _ _ _ (SW_RunID w', digest)).
Qed.

Lemma BeginActionRun_tracked C w started : work_closed C -> preserves (tracked C) (BeginActionRun w started).
Proof.
  intros HC env wd Hw. pose proof (BeginActionRun_spec w started (w_db wd) env wd eq_refl) as Hspec.
  destruct (BeginActionRun _ _ env wd) as [[w'|e] wd']; [|by rewrite Hspec].
  destruct Hspec as [now Hspec]. apply run_begun_ledger in Hspec as (digest & _ & Hinv & Hfree & Hfresh & Hl); [|apply Hw].
  eapply (tracked_step _ _ (Began (SW_WorkID w) (SW_RunID w') digest)); [exact HC|exact Hw|done| |done].
  rewrite Hl. by apply step_begin.
Qed.

(** Without faults a due work begins a run. *)
Lemma quiet_BeginActionRun env d n w started r digest a :
  quiet env -> scheduled_work d !! SW_WorkID w = Some r -> SW_WorkID w <> EmptyString ->
  (forall k, runnable (env_now env k) r = true) -> unmarshal (Work_ActionBlob r) = Some a ->
  ActionDigest (Some a) = Ok digest ->
  (forall k id x, scheduled_work d !! id = Some x -> Work_RunID x <> Some (env_ulid env k)) ->
  exists w' d' n', BeginActionRun w started env (mkWorld d n) = (Ok w', mkWorld d' n') /\
    SW_Action w' = a /\ exists k, SW_RunID w' = env_ulid env k.
Proof.
  intros Hq Hrow Hid Hrun Ha Hdig Hfresh. unfold BeginActionRun. rewrite bool_decide_false by done.
  unfold AgentTransaction. rewrite quiet_transaction by done.
  unfold beginTransaction, now, ulid_make, draw, GetRunnableWork, BeginScheduledRun, mbind, M_bind. simpl.
  rewrite quiet_query by done. rewrite Hrow, Hrun. unfold decodeAction, proto_Unmarshal, on_error, lift. simpl.
  rewrite Ha, Hdig. rewrite quiet_sql by done. cbn [w_db w_step]. rewrite Hrow, Hrun.
  rewrite (proj2 (exists_row_false _ _)).
  - simpl. do 3 eexists. split; [reflexivity|]. split; [done|]. by eexists.
  - intros id x [_ Hx]%lookup_delete_Some. apply bool_decide_eq_false. by eapply Hfresh.
Qed.

(** *** Finishing a run *)

(** The run of the work [w] ended, and [payload] was added to the outbox. *)
Definition run_finished (w run : string) (digest payload : bytes) (seq : Z) (d d' : AgentDatabase) : Prop :=
  exists r t, scheduled_work d !! w = Some r /\ Work_RunID r = Some run /\
    Work_RunActionDigest r = Some digest /\ Work_RunInProgress r = true /\
    seq = outbox_sequence d + 1 /\ in_int64 seq = true /\ outbox_sequence d' = seq /\
    (exists t', result_outbox d' =
       <[seq := {| Outbox_Sequence := seq; Outbox_Payload := payload; Outbox_CreatedAt := t' |}]>
         (result_outbox d)) /\
    scheduled_work d' =
      if Work_Retired r then delete w (scheduled_work d)
      else <[w := finish_run t r]> (scheduled_work d).

Lemma finishRun_spec w run digest payload d0 :
  triple (fun d => d = d0) (finishRun w run digest payload)
    (fun seq d => run_finished w run digest payload seq d0 d) (fun _ _ => True).
Proof.
  unfold finishRun. eapply triple_bind_at; [apply fwd_sql|].
  intros retired d1 (t & d & -> & Hf). cbv beta in Hf.
  destruct (scheduled_work d0 !! w) as [r|] eqn:Hrow; [|done].
  destruct (_ && _ && _) eqn:Hb; [|done]. injection Hf as <- <-.
  apply andb_true_iff in Hb as [[Hr Hd]%andb_true_iff Hp]. apply bool_decide_eq_true in Hr, Hd.
  eapply triple_bind_at; [apply fwd_sql|]. intros seq d2 (t2 & d & -> & Hf). simpl in Hf.
  destruct (in_int64 (outbox_sequence d0 + 1)) eqn:Hin; [|done]. injection Hf as <- <-.
  eapply (triple_bind _ _ _ (fun _ d => run_finished w run digest payload (outbox_sequence d0 + 1) d0 d)).
  - destruct (Work_Retired r) eqn:Hret.
    + apply triple_sql; [|done]. intros t' d ->. simpl. rewrite lookup_insert_eq. simpl.
      rewrite Hret, Hr, bool_decide_true by done. simpl. exists r, t. rewrite Hret. simpl.
      split_and!; try done; [by eexists|]. apply delete_insert_eq.
    + apply triple_ret. intros d ->. exists r, t. rewrite Hret. split_and!; try done. by eexists.
  - intros _. by apply triple_ret.
Qed.

Lemma run_finished_ledger w run digest payload report seq d d' :
  StoreInv d -> run_finished w run digest payload seq d d' -> unmarshal payload = Some report ->
  StoreInv d' /\ seq = last_report (ledger d) + 1 /\ open_runs (ledger d) !! w = Some (run, digest) /\
  ledger d' = mkLedger (delete w (open_runs (ledger d))) (<[seq := report]> (reports (ledger d))) seq.
Proof.
  intros Hinv (r & t & Hrow & Hrun & Hdig & Hp & Hseq & Hin & Hseq' & [t' Hout] & Hwork) Hpay.
  destruct (inv_sequence _ Hinv) as [Hpos _].
  destruct (inv_rows _ Hinv _ _ Hrow) as (Hwid & Hne & Hact & Hshape).
  assert (forall id x, scheduled_work d' !! id = Some x ->
    (id = w /\ Work_Retired r = false /\ x = finish_run t r) \/ (id <> w /\ scheduled_work d !! id = Some x)) as Hcase.
  { intros id x. rewrite Hwork. destruct (Work_Retired r) eqn:Hret.
    - rewrite lookup_delete_Some. naive_solver.
    - rewrite lookup_insert_Some. naive_solver. }
  split; [split|split; [done|split]].
  - intros id x [(-> & Hret & ->)|[_ Hx]]%Hcase; [|by apply (inv_rows _ Hinv)].
    split_and!; simpl; [done..|]. by rewrite Hret.
  - intros id id' x x' y [(-> & Hret & ->)|[? Hx]]%Hcase [(-> & Hret' & ->)|[? Hx']]%Hcase;
      simpl; rewrite ?Hret, ?Hret'; try done. by apply (inv_runs _ Hinv).
  - intros n o. rewrite Hout, Hseq'. intros [[<- <-]|[Hn Ho]]%lookup_insert_Some; simpl.
    + split_and!; [done|lia..|by eexists].
    + destruct (inv_outbox _ Hinv n o Ho) as (? & ? & ?). split_and!; [done|lia..|done].
  - rewrite Hseq'. split; [lia|done].
  - apply open_run_Some; [done|]. by exists r.
  - unfold ledger. simpl. rewrite Hseq', Hout. f_equal.
    + rewrite Hwork. destruct (Work_Retired r); [by rewrite omap_delete|].
      by rewrite omap_insert_None.
    + by rewrite (omap_insert_Some _ _ _ _ report).
Qed.

Section tracked.
Context (C : list event -> Ledger -> Prop) (HC : work_closed C).

Lemma finishRun_tracked w run digest payload report :
  unmarshal payload = Some report -> GetValue (Result_ActionId report) = w ->
  GetValue (Result_RunId report) = run -> Result_ActionDigest report = digest ->
  triple (tracked C) (finishRun w run digest payload) (fun _ => tracked C) (fun _ _ => True).
Proof.
  intros Hpay Hw Hr <- env wd Htr.
  pose proof (finishRun_spec w run (Result_ActionDigest report) payload (w_db wd) env wd eq_refl) as Hspec.
  destruct (finishRun _ _ _ _ env wd) as [[seq|e] wd']; [|done].
  eapply run_finished_ledger in Hspec as (Hinv & -> & Hopen & Hl); [|apply Htr|done].
  eapply (tracked_step _ _ (Finished w run _ report)); [exact HC|exact Htr|done| |done]. rewrite Hl.
  by apply step_finish.
Qed.

Lemma RecordActionResult_tracked r : preserves (tracked C) (RecordActionResult r).
Proof.
  unfold RecordActionResult. cbv zeta. destruct (_ || _); [by apply triple_fail|].
  apply preserves_bind_lift. intros payload Hp%proto_Marshal_ok.
  apply preserves_transaction. eapply finishRun_tracked; [by apply unmarshal_marshal|done..].
Qed.

Lemma RecoverInterruptedActions_tracked : preserves (tracked C) RecoverInterruptedActions.
Proof.
  apply preserves_transaction. unfold recoverTransaction.
  eapply triple_bind; [apply fwd_preserved, preserves_query|]. intros rows.
  apply (triple_bind _ _ _ (fun _ => tracked C)); [|intros _; by apply triple_ret].
  induction rows as [|[[w run] digest] rows IH]; simpl; [by apply triple_ret|].
  apply (triple_bind _ _ _ (fun _ => tracked C)); [|intros _; apply IH].
  apply triple_bind_draw. intros now. apply triple_bind_lift; [|done]. intros payload Hp%proto_Marshal_ok.
  apply (triple_bind _ _ _ (fun _ => tracked C)); [|intros _; by apply triple_ret].
  eapply finishRun_tracked; [by apply unmarshal_marshal|done..].
Qed.
End tracked.

Lemma ReconcilePolicy_tracks L0 policy : preserves (tracks L0) (ReconcilePolicy policy).
Proof. apply ReconcilePolicy_tracked. Qed.

Lemma BeginActionRun_tracks L0 w started : preserves (tracks L0) (BeginActionRun w started).
Proof. apply BeginActionRun_tracked, steps_closed. Qed.

Lemma RecordActionResult_tracks L0 r : preserves (tracks L0) (RecordActionResult r).
Proof. apply RecordActionResult_tracked, steps_closed. Qed.

Lemma RecoverInterruptedActions_tracks L0 : preserves (tracks L0) RecoverInterruptedActions.
Proof. apply RecoverInterruptedActions_tracked, steps_closed. Qed.

(** *** Recovery settles every interrupted run *)

Lemma quiet_finishRun env d n w run digest payload r :
  quiet env -> scheduled_work d !! w = Some r -> Work_RunID r = Some run ->
  Work_RunActionDigest r = Some digest -> Work_RunInProgress r = true ->
  in_int64 (outbox_sequence d + 1) = true ->
  exists seq w', finishRun w run digest payload env (mkWorld d n) = (Ok seq, w').
Proof.
  intros Hq Hrow Hrun Hdig Hp Hin. unfold finishRun, FinishScheduledRun, mbind, M_bind.
  rewrite quiet_sql by done. rewrite Hrow, Hrun, Hdig, !bool_decide_true, Hp by done. simpl.
  unfold InsertResultOutbox. rewrite quiet_sql by done. simpl. rewrite Hin.
  destruct (Work_Retired r); [|by do 2 eexists].
  unfold DeleteRetiredWork. rewrite quiet_sql by done. simpl. rewrite lookup_insert_eq.
  destruct (_ && _); by do 2 eexists.
Qed.

(** A row of the list of interrupted work, as it is stored. *)
Definition interrupted (d : AgentDatabase) (row : string * string * bytes) : Prop :=
  exists r, scheduled_work d !! row.1.1 = Some r /\ Work_RunID r = Some row.1.2 /\
    Work_RunActionDigest r = Some row.2 /\ Work_RunInProgress r = true.

(** Its report is there. *)
Definition settled (L : Ledger) (row : string * string * bytes) : Prop :=
  exists seq t, reports L !! seq = Some (interruptedResult row.1.1 row.1.2 row.2 t).

Context (Hencodes : forall w run digest t, is_Some (marshal (interruptedResult w run digest t))).

Lemma quiet_recoverRow env d n row :
  quiet env -> StoreInv d -> interrupted d row -> in_int64 (outbox_sequence d + 1) = true ->
  exists d' n' seq t, recoverRow row env (mkWorld d n) = (Ok tt, mkWorld d' n') /\ StoreInv d' /\
    outbox_sequence d' = outbox_sequence d + 1 /\ seq = outbox_sequence d + 1 /\
    (forall w, w <> row.1.1 -> scheduled_work d' !! w = scheduled_work d !! w) /\
    ledger d' = mkLedger (delete row.1.1 (open_runs (ledger d)))
      (<[seq := interruptedResult row.1.1 row.1.2 row.2 t]> (reports (ledger d))) seq.
Proof.
  intros Hq Hinv (r & Hrow & Hrun & Hdig & Hp) Hin. destruct row as [[w run] digest]. simpl in *.
  unfold recoverRow. unfold mbind at 1, M_bind at 1. unfold now, draw. simpl.
  destruct (Hencodes w run digest (env_now env n)) as [payload Hpay].
  unfold proto_Marshal. rewrite Hpay. unfold mbind at 1, M_bind at 1. simpl.
  destruct (quiet_finishRun env d (S n) w run digest payload r) as (seq & wd & Heq); try done.
  unfold mbind, M_bind. rewrite Heq. destruct wd as [d' n'].
  pose proof (finishRun_spec w run digest payload d env (mkWorld d (S n)) eq_refl) as Hspec.
  rewrite Heq in Hspec. simpl in Hspec. pose proof Hspec as (r' & t' & _ & _ & _ & _ & Hs & _ & Hs' & _ & Hw).
  eapply run_finished_ledger in Hspec as (Hinv' & _ & _ & Hl); [|done|by apply unmarshal_marshal].
  exists d', n', seq, (env_now env n). split_and!; [done|done|congruence|done| |exact Hl].
  intros k Hk. rewrite Hw. destruct (Work_Retired r'); [by rewrite lookup_delete_ne|by rewrite lookup_insert_ne].
Qed.

Lemma quiet_recoverRows env rows d n :
  quiet env -> StoreInv d -> NoDup ((fun row => row.1.1) <$> rows) ->
  (forall row, row ∈ rows -> interrupted d row) ->
  outbox_sequence d + Z.of_nat (length rows) <= 9223372036854775807 ->
  exists d' n', for_each recoverRow rows env (mkWorld d n) = (Ok tt, mkWorld d' n') /\ StoreInv d' /\
    (forall w x, open_runs (ledger d') !! w = Some x <->
       open_runs (ledger d) !! w = Some x /\ w ∉ (fun row => row.1.1) <$> rows) /\
    (forall row, row ∈ rows -> settled (ledger d') row) /\
    reports (ledger d) ⊆ reports (ledger d').
Proof.
  intros Hq. revert d n. induction rows as [|row rows IH]; intros d n Hinv Hnd Hrows Hlen.
  { exists d, n. split_and!; [done|done| |by intros ? ?%elem_of_nil|done].
    intros w run. rewrite elem_of_nil. tauto. }
  csimpl in Hnd. apply NoDup_cons in Hnd as [Hnin Hnd]. simpl in Hlen.
  destruct (inv_sequence _ Hinv) as [Hpos _].
  destruct (quiet_recoverRow env d n row) as (d1 & n1 & seq & t & Heq & Hinv1 & Hs1 & Hseq & Hkeep & Hl); try done.
  { apply Hrows. by left. }
  { apply in_int64_spec. lia. }
  destruct (IH d1 n1) as (d' & n' & Heq' & Hinv' & Hopen & Hsettled & Hsub); try done.
  { intros row' Hin. destruct (Hrows row') as (r & Hr & Hrest); [by right|]. exists r.
    rewrite Hkeep; [done|]. intros Heqw. apply Hnin. rewrite <- Heqw.
    by apply (list_elem_of_fmap_2 (fun row => row.1.1)). }
  { lia. }
  assert (reports (ledger d) !! seq = None) as Hfree.
  { simpl. rewrite lookup_omap. destruct (result_outbox d !! seq) as [o|] eqn:Ho; [|done].
    destruct (inv_outbox _ Hinv _ _ Ho) as (_ & ? & _). lia. }
  rewrite Hl in Hopen, Hsub. cbn [open_runs reports] in Hopen, Hsub.
  exists d', n'. split_and!; [|done|..].
  - simpl. unfold mbind, M_bind. by rewrite Heq.
  - intros w run. csimpl. rewrite Hopen, lookup_delete_Some, elem_of_cons. naive_solver.
  - intros row' [->|Hin]%elem_of_cons; [|by apply Hsettled]. exists seq, t. simpl.
    eapply lookup_weaken; [|exact Hsub]. by rewrite lookup_insert_eq.
  - revert Hsub. rewrite !map_subseteq_spec. intros Hsub k r Hr. apply Hsub.
    rewrite lookup_insert_ne; [done|]. intros ->. congruence.
Qed.
(** *** The rest *)

(** A report that is deleted from the outbox is delivered. *)
Lemma DeletePendingResult_tracked (C C' : list event -> Ledger -> Prop) n :
  (forall es L, C es L -> C' (es ++ [Delivered n]) (mkLedger (open_runs L) (delete n (reports L)) (last_report L))) ->
  triple (tracked C) (DeletePendingResult n) (fun _ => tracked C') (fun _ => tracked C).
Proof.
  intros HC. apply triple_sql; [|done]. intros t d [Hinv [es Hes]]. split.
  - split; simpl.
    + apply (inv_rows _ Hinv).
    + apply (inv_runs _ Hinv).
    + intros m o [_ Ho]%lookup_delete_Some. by apply (inv_outbox _ Hinv).
    + apply (inv_sequence _ Hinv).
  - exists (es ++ [Delivered n]). apply HC in Hes. unfold ledger in *. simpl in *. by rewrite omap_delete.
Qed.

Lemma DeletePendingResult_tracks L0 n : preserves (tracks L0) (DeletePendingResult n).
Proof.
  apply DeletePendingResult_tracked. intros es L Hes. eapply steps_snoc; [exact Hes|apply step_deliver].
Qed.

Lemma GetDueScheduledWork_preserves I : preserves I GetDueScheduledWork.
Proof. unfold GetDueScheduledWork, GetDueScheduledWork_query. preserve. Qed.

Lemma GetPendingResults_preserves I : preserves I GetPendingResults.
Proof. unfold GetPendingResults, GetPendingResults_query. preserve. Qed.

End store.

#[export] Hint Resolve ReconcilePolicy_tracks BeginActionRun_tracks RecordActionResult_tracks
  RecoverInterruptedActions_tracks DeletePendingResult_tracks GetDueScheduledWork_preserves
  GetPendingResults_preserves : preserve.
