(* ===== verification/Strs.v ===== *)
(** * Go's [strings] package

    The functions of Go's [strings] package that the agent and the SDK use, on
    Go strings as Rocq strings of bytes, and the facts about them that the other
    files share. *)

From Stdlib Require Import Ascii.
From S2P Require Import Prelude.

Open Scope string_scope.
Open Scope Z_scope.

Definition HasPrefix (s p : string) : bool := String.prefix p s.

(** The string without its first [n] bytes. *)
Fixpoint drop_bytes (n : nat) (s : string) : string :=
  match n, s with
  | O, _ => s
  | S n, String _ s => drop_bytes n s
  | S _, EmptyString => EmptyString
  end.

Definition TrimPrefix (s p : string) : string :=
  if HasPrefix s p then drop_bytes (String.length p) s else s.

Fixpoint Contains (s sub : string) : bool :=
  HasPrefix s sub || match s with EmptyString => false | String _ s => Contains s sub end.

(** [strings.Cut(s, sep)] for a separator of one byte. *)
Fixpoint Cut (s : string) (sep : ascii) : string * string * bool :=
  match s with
  | EmptyString => (EmptyString, EmptyString, false)
  | String c s' =>
      if Ascii.eqb c sep then (EmptyString, s', true)
      else let '(before, after, found) := Cut s' sep in (String c before, after, found)
  end.

(** [strings.Split(s, sep)] for a separator of one byte. *)
Fixpoint Split (s : string) (sep : ascii) : list string :=
  match s with
  | EmptyString => [EmptyString]
  | String c s' =>
      if Ascii.eqb c sep then EmptyString :: Split s' sep
      else match Split s' sep with
           | part :: parts => String c part :: parts
           | [] => [String c EmptyString]
           end
  end.

(** [strings.Join(parts, sep)]. *)
Definition Join (parts : list string) (sep : string) : string := String.concat sep parts.

Definition byte_of (c : ascii) : N := N_of_ascii c.

Definition upper_byte (c : ascii) : ascii :=
  if ((97 <=? byte_of c) && (byte_of c <=? 122))%N then ascii_of_N (byte_of c - 32) else c.

Definition lower_byte (c : ascii) : ascii :=
  if ((65 <=? byte_of c) && (byte_of c <=? 90))%N then ascii_of_N (byte_of c + 32) else c.

Fixpoint map_bytes (f : ascii -> ascii) (s : string) : string :=
  match s with EmptyString => EmptyString | String c s => String (f c) (map_bytes f s) end.

(** [strings.ToUpper] and [strings.ToLower] of an ASCII string. *)
Definition ToUpper (s : string) : string := map_bytes upper_byte s.
Definition ToLower (s : string) : string := map_bytes lower_byte s.

(** Every byte satisfies [p]. *)
Fixpoint all_bytes (p : ascii -> bool) (s : string) : bool :=
  match s with EmptyString => true | String c s => p c && all_bytes p s end.

Definition is_letter (c : ascii) : bool :=
  let n := byte_of c in
  ((65 <=? n) && (n <=? 90) || (97 <=? n) && (n <=? 122))%N.

Definition is_digit (c : ascii) : bool := let n := byte_of c in ((48 <=? n) && (n <=? 57))%N.

(** The byte occurs in the string. *)
Fixpoint has_byte (c : ascii) (s : string) : bool :=
  match s with EmptyString => false | String d s => Ascii.eqb c d || has_byte c s end.

(** [strings.ContainsAny(s, chars)] for ASCII [chars]. *)
Definition ContainsAny (s chars : string) : bool :=
  negb (all_bytes (fun c => negb (has_byte c chars)) s).

(** *** [strings.TrimSpace]

    The UTF-8 encodings of the runes [unicode.IsSpace] accepts. *)

Definition bytes_string (l : list N) : string :=
  fold_right (fun n s => String (ascii_of_N n) s) EmptyString l.

Definition space_encodings : list string := bytes_string <$>
  ([[9]; [10]; [11]; [12]; [13]; [32]; [194; 133]; [194; 160]; [225; 154; 128];
    [226; 128; 128]; [226; 128; 129]; [226; 128; 130]; [226; 128; 131]; [226; 128; 132];
    [226; 128; 133]; [226; 128; 134]; [226; 128; 135]; [226; 128; 136]; [226; 128; 137];
    [226; 128; 138]; [226; 128; 168]; [226; 128; 169]; [226; 128; 175]; [226; 129; 159];
    [227; 128; 128]]%N : list (list N)).

(** The first of the prefixes that [s] has. *)
Definition leading (prefixes : list string) (s : string) : option string :=
  List.find (HasPrefix s) prefixes.

(** Each step removes a byte or more, so the length is enough fuel. *)
Fixpoint trim_left (fuel : nat) (prefixes : list string) (s : string) : string :=
  match fuel with
  | O => s
  | S fuel =>
      match leading prefixes s with
      | Some p => trim_left fuel prefixes (drop_bytes (String.length p) s)
      | None => s
      end
  end.

Fixpoint rev_string (s acc : string) : string :=
  match s with EmptyString => acc | String c s => rev_string s (String c acc) end.

Definition TrimSpace (s : string) : string :=
  let left := trim_left (String.length s) space_encodings s in
  let reversed := rev_string left EmptyString in
  rev_string
    (trim_left (String.length reversed) ((fun p => rev_string p EmptyString) <$> space_encodings) reversed)
    EmptyString.

Example TrimSpace_ex : TrimSpace (bytes_string [32; 9; 97; 32; 98; 194; 160; 10]%N) = "a b".
Proof. reflexivity. Qed.

(** ** Facts *)

Lemma HasPrefix_app s p : HasPrefix s p = true <-> exists rest, s = (p ++ rest)%string.
Proof.
  unfold HasPrefix. revert s. induction p as [|c p IH]; intros s; simpl.
  { split; [by exists s|]. by destruct s. }
  destruct s as [|d s]; simpl; [split; [done|by intros [? ?]]|].
  destruct (ascii_dec c d) as [->|Hne].
  - rewrite IH. split; intros [rest Hr]; exists rest; [by rewrite Hr|by injection Hr].
  - split; [done|]. intros [rest [= ? _]]. done.
Qed.

Lemma append_nil_r (s : string) : (s ++ "")%string = s.
Proof. induction s as [|c s IH]; [done|]. change (String c (s ++ "") = String c s). by rewrite IH. Qed.

Lemma append_assoc (s t u : string) : (s ++ t ++ u)%string = ((s ++ t) ++ u)%string.
Proof.
  induction s as [|c s IH]; [done|]. change (String c (s ++ t ++ u) = String c ((s ++ t) ++ u)).
  by rewrite IH.
Qed.

Lemma length_append (s t : string) :
  String.length (s ++ t) = (String.length s + String.length t)%nat.
Proof.
  induction s as [|c s IH]; [done|]. change (S (String.length (s ++ t)) = S (String.length s + String.length t)).
  by rewrite IH.
Qed.

Lemma all_bytes_app p s t : all_bytes p (s ++ t)%string = all_bytes p s && all_bytes p t.
Proof. induction s as [|c s IH]; simpl; [done|]. by rewrite IH, andb_assoc. Qed.

Lemma all_bytes_impl (p q : ascii -> bool) s :
  (forall c, p c = true -> q c = true) -> all_bytes p s = true -> all_bytes q s = true.
Proof.
  intros Hpq. induction s as [|c s IH]; simpl; [done|]. rewrite !andb_true_iff. naive_solver.
Qed.

Lemma Cut_found s sep before after :
  Cut s sep = (before, after, true) <->
  s = (before ++ String sep after)%string /\ has_byte sep before = false.
Proof.
  revert before after. induction s as [|c s IH]; intros before after; simpl.
  { split; [done|]. intros [H _]. by destruct before. }
  destruct (Ascii.eqb_spec c sep) as [->|Hne].
  - split; [intros [= <- <-]; done|]. intros [Hs Hb]. destruct before as [|d before].
    + by injection Hs as <-.
    + injection Hs as <- _. simpl in Hb. by rewrite Ascii.eqb_refl in Hb.
  - destruct (Cut s sep) as [[b a] f]. split.
    + intros [= <- <- ->]. destruct (proj1 (IH b a) eq_refl) as [-> Hb]. simpl.
      rewrite Hb. destruct (Ascii.eqb_spec sep c); [by subst|done].
    + intros [Hs Hb]. destruct before as [|d before]; [by injection Hs as -> _|].
      injection Hs as <- Hs. simpl in Hb. apply orb_false_iff in Hb as [_ Hb].
      pose proof (proj2 (IH before after) (conj Hs Hb)) as Heq. by injection Heq as -> -> ->.
Qed.

Lemma Cut_not_found s sep before after :
  Cut s sep = (before, after, false) -> before = s /\ after = EmptyString /\ has_byte sep s = false.
Proof.
  revert before after. induction s as [|c s IH]; intros before after; simpl; [by intros [= <- <-]|].
  destruct (Ascii.eqb_spec c sep) as [->|Hne]; [done|].
  destruct (Cut s sep) as [[b a] f]. intros [= <- <- ->].
  destruct (IH b a eq_refl) as (-> & -> & Hs). split_and!; [done..|].
  destruct (Ascii.eqb_spec sep c); [by subst|done].
Qed.
