(* ===== verification/Exec.v ===== *)
(** * Running commands ([sdk/sys/exec])

    The boundary between the agent and the processes it starts: the check and the
    composition of a child's environment ([env.go], [exec.go], [runner.go]), the
    capture of its output with its bound ([runStreamingWithStdin]), and the runner
    with its three privilege backends.  Starting a process, looking a binary up and
    reading the own environment are the operating system's: [Process] is that part,
    a parameter. *)

From Stdlib Require Import Ascii.
From stdpp Require Import pretty.
From S2P Require Import Prelude Engine Strs.

Open Scope string_scope.
Open Scope Z_scope.

(** ** Contexts *)

(** A [context.Context]: its deadline, and whether its parent was cancelled by the
    time of the n-th effect. *)
Record Ctx := { ctx_deadline : option time; ctx_cancelled : nat -> bool }.

Definition DeadlineExceeded : error := ErrVar "context deadline exceeded".
Definition Canceled : error := ErrVar "context canceled".

Definition deadline_passed (deadline : option time) (now : time) : bool :=
  match deadline with Some t => t <=? now | None => false end.

(** [ctx.Err()]. *)
Definition ctx_Err {D} (ctx : Ctx) : M D (option error) :=
  draw (fun env n =>
    if ctx_cancelled ctx n then Some Canceled
    else if deadline_passed (ctx_deadline ctx) (env_now env n) then Some DeadlineExceeded else None).

(** [context.WithTimeout]: the earlier deadline wins. *)
Definition WithTimeout {D} (ctx : Ctx) (timeout : Z) : M D Ctx :=
  now ← now;
  mret {| ctx_deadline := Some (match ctx_deadline ctx with
                                | Some t => Z.min t (now + timeout)
                                | None => now + timeout
                                end);
          ctx_cancelled := ctx_cancelled ctx |}.

(** ** Commands and their results ([types.go], [runner.go]) *)

Record ExecResult := { Exec_ExitCode : Z; Exec_Stdout : string; Exec_Stderr : string }.

Definition no_result : ExecResult :=
  {| Exec_ExitCode := 0; Exec_Stdout := EmptyString; Exec_Stderr := EmptyString |}.

Record Command := {
  Cmd_Name : string;
  Cmd_Args : list string;
  Cmd_Dir : string;
  Cmd_Env : list string;
  Cmd_Stdin : option string;
  Cmd_ChildPath : string;
  Cmd_Escalate : bool;
}.

(** A call that returns its output with the error, [(Result, error)]. *)
Abbreviation outcome := (ExecResult * option error)%type.

Inductive PrivilegeBackend := Sudo | Doas | Direct.

#[export] Instance PrivilegeBackend_eq_dec : EqDecision PrivilegeBackend.
Proof. solve_decision. Defined.

(** The interface [Runner]; [Stream] is [Run] with a callback per line. *)
Class Runner (D : Type) := { Run : Ctx -> Command -> M D outcome; Backend : PrivilegeBackend }.

(** ** Environment variables ([env.go]) *)

Definition ErrInvalidEnvVar : error := ErrVar "invalid env entry".
Definition ErrBlockedEnvVar : error := ErrVar "env var blocked by hijack-prevention allowlist".
Definition ErrReservedEnvVar : error := ErrVar "env var reserved by the SDK for deterministic output".

Definition isReservedEnvVar (name : string) : bool :=
  let upper := ToUpper name in
  bool_decide (upper ∈ ["LANG"; "LANGUAGE"; "NO_COLOR"]) || HasPrefix upper "LC_".

Definition underscore (c : ascii) : bool := Ascii.eqb c "_".

(** [^[a-zA-Z_][a-zA-Z0-9_]*$]. *)
Definition ValidEnvVarName (name : string) : bool :=
  match name with
  | EmptyString => false
  | String c rest =>
      (is_letter c || underscore c)
      && all_bytes (fun c => is_letter c || is_digit c || underscore c) rest
  end.

Definition BlockedEnvVars : list string :=
  ["GCONV_PATH"; "HOSTALIASES"; "RESOLV_HOST_CONF"; "GETCONF_DIR"; "NODE_OPTIONS"; "PYTHONPATH";
   "PERL5OPT"; "PERL5LIB"; "RUBYLIB"; "PATH"; "IFS"; "ENV"; "BASH_ENV"; "CDPATH"; "GLOBIGNORE"].

Definition IsAllowedEnvVar (name : string) : bool :=
  ValidEnvVarName name
  && let upper := ToUpper name in
     negb (bool_decide (upper ∈ BlockedEnvVars))
     && negb (HasPrefix upper "LD_" || HasPrefix upper "BASH_FUNC_" || HasPrefix upper "DYLD_").

(** The key of an entry, up to the first equals sign. *)
Definition env_key (e : string) : string := (Cut e "=").1.1.

Definition checkAllowed (e : string) : result unit :=
  let '(key, _, ok) := Cut e "=" in
  if negb ok then Err (ErrWrap "env entry must be KEY=VALUE" ErrInvalidEnvVar)
  else if negb (IsAllowedEnvVar key) then Err (ErrWrap key ErrBlockedEnvVar) else Ok tt.

Fixpoint check_all (check : string -> result unit) (env : list string) : result unit :=
  match env with
  | [] => Ok tt
  | e :: env => _ ← check e; check_all check env
  end.

Definition ValidateCommandEnv (env : list string) : result unit :=
  _ ← check_all checkAllowed env;
  check_all (fun e => if isReservedEnvVar (env_key e) then Err (ErrWrap (env_key e) ErrReservedEnvVar)
                      else Ok tt) env.

Definition composeEnv (childPath : string) (envVars : list string) : list string :=
  (if bool_decide (childPath = EmptyString) then [] else ["PATH=" ++ childPath]) ++ envVars.

Definition forcedEnv : list string := ["LC_ALL=C"; "LANG=C"; "NO_COLOR=1"].

(** [parent] and [path] are the agent's own environment and its PATH. *)
Definition buildChildEnv (c : Command) (parent : list string) (path : string) : result (list string) :=
  _ ← ValidateCommandEnv (Cmd_Env c);
  Ok (if negb (bool_decide (Cmd_ChildPath c = EmptyString))
      then composeEnv (Cmd_ChildPath c) (Cmd_Env c) ++ forcedEnv
      else match Cmd_Env c with
      | _ :: _ => composeEnv path (Cmd_Env c) ++ forcedEnv
      | [] =>
          composeEnv path
            (List.filter (fun e => let '(key, _, ok) := Cut e "=" in ok && IsAllowedEnvVar key) parent)
          ++ forcedEnv
      end)%list.

(** ** Argument vectors ([argv.go], [runner.go]) *)

Definition EndOfOptions : string := "--".

Definition SeparatePositionals (flags positionals : list string) : list string :=
  (flags ++ [EndOfOptions] ++ positionals)%list.

Definition escalationTool (b : PrivilegeBackend) : string :=
  match b with Sudo => "sudo" | Doas => "doas" | Direct => EmptyString end.

Definition wrapEscalation (b : PrivilegeBackend) (escalate : bool) (absPath : string)
    (args : list string) : string * list string :=
  let tool := escalationTool b in
  if negb escalate || bool_decide (tool = EmptyString) then (absPath, args)
  else (tool, "-n" :: absPath :: args).

Definition ErrEscalationDenied : error := ErrVar "escalation requires a password".
Definition ErrEscalationUnavailable : error := ErrVar "escalation tool not installed".
Definition ErrBackendUnavailable : error := ErrVar "backend unavailable".

Definition detectEscalationDenied (b : PrivilegeBackend) (res : ExecResult) : option error :=
  if Exec_ExitCode res =? 0 then None
  else
    let s := Exec_Stderr res in
    let denied := match b with
      | Sudo => Contains s "a password is required" || Contains s "a terminal is required"
                || Contains s "no askpass program"
      | Doas => Contains s "Authorization required" || Contains s "Authentication failed"
      | Direct => false
      end in
    if denied then Some (ErrWrap (TrimSpace s) ErrEscalationDenied) else None.

(** ** Output capture ([exec.go]) *)

Definition MaxOutputBytes : Z := 1048576.

Definition newline : string := String "010"%char EmptyString.

(** The lines recorded so far: their text, and the bytes counted (an [int64]). *)
Fixpoint recordLines (lines : list string) (count : Z) (buf : string) : Z * string :=
  match lines with
  | [] => (count, buf)
  | line :: lines =>
      let count := int64 (count + (Z.of_nat (String.length line) + 1)) in
      recordLines lines count (if count <=? MaxOutputBytes then buf ++ line ++ newline else buf)
  end.

Definition captured (lines : list string) : string :=
  let '(count, buf) := recordLines lines 0 EmptyString in
  if MaxOutputBytes <? count then buf ++ newline ++ "[output truncated]" else buf.

(** ** The operating system *)

(** What a process did: the lines read from its two streams, its exit code, and the
    error of starting or waiting for it, or of the context that ended it. *)
Record ProcessStatus := {
  Proc_Stdout : list string; Proc_Stderr : list string; Proc_Exit : Z; Proc_Err : option error }.

Class Process (D : Type) := {
  Environ : M D (list string);
  Getenv_PATH : M D string;
  resolveAbsolute : string -> M D (option string);
  LookPath : string -> M D bool;
  start_process : Ctx -> string -> list string -> option string -> list string -> string ->
    M D ProcessStatus;
}.

Section runner.
Context {D : Type} `{!Process D}.

Definition runStreamingWithStdin (ctx : Ctx) (name : string) (args : list string)
    (stdin : option string) (env : list string) (dir : string) : M D outcome :=
  status ← start_process ctx name args stdin env dir;
  mret ({| Exec_ExitCode := Proc_Exit status; Exec_Stdout := captured (Proc_Stdout status);
           Exec_Stderr := captured (Proc_Stderr status) |}, Proc_Err status).

(** [runner.exec]. *)
Definition runner_exec (backend : PrivilegeBackend) (ctx : Ctx) (c : Command) : M D outcome :=
  err ← ctx_Err ctx;
  match err with
  | Some err => mret (no_result, Some err)
  | None =>
      if bool_decide (Cmd_Name c = EmptyString)
      then mret (no_result, Some (ErrNew "exec: command name is required"))
      else
        parent ← Environ;
        path ← Getenv_PATH;
        match buildChildEnv c parent path with
        | Err err => mret (no_result, Some err)
        | Ok env =>
            absPath ← resolveAbsolute (Cmd_Name c);
            match absPath with
            | None => mret (no_result, Some (ErrWrap (Cmd_Name c) ErrBackendUnavailable))
            | Some absPath =>
                let tool := escalationTool backend in
                found ← (if Cmd_Escalate c && negb (bool_decide (tool = EmptyString))
                         then LookPath tool else mret true);
                if negb found then mret (no_result, Some (ErrWrap tool ErrEscalationUnavailable))
                else
                  let (name, argv) := wrapEscalation backend (Cmd_Escalate c) absPath (Cmd_Args c) in
                  run ← runStreamingWithStdin ctx name argv (Cmd_Stdin c) env (Cmd_Dir c);
                  let (res, runErr) := (run : outcome) in
                  match runErr with
                  | Some err => mret (res, Some err)
                  | None =>
                      mret (res, if Cmd_Escalate c then detectEscalationDenied backend res else None)
                  end
            end
        end
  end.

#[export] Instance process_runner (backend : PrivilegeBackend) : Runner D :=
  {| Run := runner_exec backend; Backend := backend |}.
End runner.

(** ** What reaches the child *)

(** The value a child sees for a variable: the last entry for it wins. *)
Fixpoint env_value (key : string) (env : list string) : option string :=
  match env with
  | [] => None
  | e :: env =>
      match env_value key env with
      | Some v => Some v
      | None => let '(k, v, ok) := Cut e "=" in
                if ok && bool_decide (k = key) then Some v else None
      end
  end.

Lemma env_value_app key a b :
  env_value key (a ++ b)%list =
    match env_value key b with Some v => Some v | None => env_value key a end.
Proof.
  induction a as [|e a IH]; simpl; [by destruct (env_value key b)|]. rewrite IH.
  by destruct (env_value key b).
Qed.

Lemma env_value_None key env :
  (forall e, e ∈ env -> env_key e <> key) -> env_value key env = None.
Proof.
  induction env as [|e env IH]; simpl; intros Hne; [done|]. rewrite IH by (intros; apply Hne; by right).
  specialize (Hne e ltac:(by left)). unfold env_key in Hne. destruct (Cut e "=") as [[k v] ok].
  simpl in Hne. by rewrite bool_decide_false, andb_false_r.
Qed.

Lemma check_all_ok check env :
  check_all check env = Ok tt <-> forall e, e ∈ env -> check e = Ok tt.
Proof.
  induction env as [|e env IH]; simpl; [split; [by intros _ e ?%elem_of_nil|done]|].
  unfold mbind, result_bind. destruct (check e) as [[]|err] eqn:Hc.
  - rewrite IH. split; [intros Hall e' [->|?]%elem_of_cons; [done|by apply Hall]|].
    intros Hall e' He'. apply Hall. by right.
  - split; [done|]. intros Hall. rewrite <- Hc. apply Hall. by left.
Qed.

(** An entry the runner accepts from a caller. *)
Definition caller_entry (e : string) : Prop :=
  (exists value, e = (env_key e ++ String "=" value)%string /\ has_byte "=" (env_key e) = false) /\
  IsAllowedEnvVar (env_key e) = true /\ isReservedEnvVar (env_key e) = false.

Lemma ValidateCommandEnv_ok env :
  ValidateCommandEnv env = Ok tt <-> forall e, e ∈ env -> caller_entry e.
Proof.
  unfold ValidateCommandEnv, mbind, result_bind.
  destruct (check_all checkAllowed env) as [[]|err] eqn:Ha; split.
  - rewrite !check_all_ok in *. intros Hr e He. specialize (Ha e He). specialize (Hr e He).
    unfold caller_entry, checkAllowed, env_key in *. destruct (Cut e "=") as [[k v] []] eqn:Hc; simpl in *; [|done].
    apply Cut_found in Hc as [-> Hk]. destruct (IsAllowedEnvVar k); [|done].
    destruct (isReservedEnvVar k); [done|]. split; [|done]. by exists v.
  - intros Hall. apply check_all_ok. intros e He. by destruct (Hall e He) as (_ & _ & ->).
  - done.
  - intros Hall. rewrite <- Ha. apply check_all_ok. intros e He. destruct (Hall e He) as ((v & He' & Hk) & Hok & _).
    unfold checkAllowed. destruct (Cut e "=") as [[k w] f] eqn:Hc.
    rewrite (proj2 (Cut_found e "=" (env_key e) v) (conj He' Hk)) in Hc. injection Hc as <- <- <-.
    by rewrite Hok.
Qed.

(** The variables with which a process is hijacked, whatever the case they are written
    in: the loader's families, exported shell functions, and those of the C library,
    the shells and the interpreters. *)
Definition hijacks (key : string) : Prop :=
  (exists family, family ∈ ["LD_"; "DYLD_"; "BASH_FUNC_"] /\ HasPrefix (ToUpper key) family = true) \/
  ToUpper key ∈ ["PATH"; "IFS"; "ENV"; "BASH_ENV"; "CDPATH"; "GLOBIGNORE"; "PYTHONPATH"; "PERL5OPT";
    "PERL5LIB"; "RUBYLIB"; "NODE_OPTIONS"; "GCONV_PATH"; "HOSTALIASES"; "RESOLV_HOST_CONF"; "GETCONF_DIR"].

Lemma hijacks_not_allowed key : hijacks key -> IsAllowedEnvVar key = false.
Proof.
  intros Hh. unfold IsAllowedEnvVar. cbv zeta. apply andb_false_iff. right. apply andb_false_iff.
  destruct Hh as [(family & Hfam & Hpre)|Hin].
  - right. apply negb_false_iff. repeat (apply elem_of_cons in Hfam as [->|Hfam];
      [rewrite Hpre; by rewrite ?orb_true_r|]). by apply elem_of_nil in Hfam.
  - left. apply negb_false_iff, bool_decide_eq_true. revert Hin. unfold BlockedEnvVars. set_solver.
Qed.

Lemma env_value_path p env :
  env_value "PATH" (composeEnv p env) =
    match env_value "PATH" env with
    | Some v => Some v
    | None => if bool_decide (p = EmptyString) then None else Some p
    end.
Proof.
  unfold composeEnv. rewrite env_value_app. destruct (env_value "PATH" env); [done|].
  by case_bool_decide.
Qed.

Lemma env_value_composed key p env :
  key <> "PATH" -> env_value key (composeEnv p env) = env_value key env.
Proof.
  intros Hk. unfold composeEnv. rewrite env_value_app. destruct (env_value key env); [done|].
  case_bool_decide; [done|]. simpl. by rewrite bool_decide_false.
Qed.

(** C26: What a command's environment can do to the process.  The environment of a
    child is built only from entries [KEY=VALUE] whose key is a plain name, not one
    that hijacks a process and not one of the locale.  Whatever the caller and the
    agent's own environment hold, the child's locale is C and uncoloured, its PATH
    is the one the runner chose, and no variable that may hijack a process (the
    loader's, the shells', the interpreters') has a value in it. *)
Theorem buildChildEnv_safe c parent path env :
  buildChildEnv c parent path = Ok env ->
  (forall e, e ∈ Cmd_Env c -> caller_entry e) /\
  env_value "LC_ALL" env = Some "C" /\ env_value "LANG" env = Some "C" /\
  env_value "NO_COLOR" env = Some "1" /\
  env_value "PATH" env =
    (let p := if bool_decide (Cmd_ChildPath c = EmptyString) then path else Cmd_ChildPath c in
     if bool_decide (p = EmptyString) then None else Some p) /\
  (forall key, hijacks key -> key <> "PATH" -> env_value key env = None) /\
  (forall key, IsAllowedEnvVar key = false -> key <> "PATH" -> env_value key env = None).
Proof.
  unfold buildChildEnv, mbind, result_bind.
  destruct (ValidateCommandEnv (Cmd_Env c)) as [[]|] eqn:Hv; [|done]. intros [= <-].
  pose proof (proj1 (ValidateCommandEnv_ok _) Hv) as Hcaller. split; [done|].
  set (p := if bool_decide (Cmd_ChildPath c = EmptyString) then path else Cmd_ChildPath c).
  assert (exists entries, (forall e, e ∈ entries -> IsAllowedEnvVar (env_key e) = true) /\
    (if negb (bool_decide (Cmd_ChildPath c = EmptyString))
      then composeEnv (Cmd_ChildPath c) (Cmd_Env c) ++ forcedEnv
      else match Cmd_Env c with
      | _ :: _ => composeEnv path (Cmd_Env c) ++ forcedEnv
      | [] => composeEnv path (List.filter (fun e => let '(key, _, ok) := Cut e "=" in
                ok && IsAllowedEnvVar key) parent) ++ forcedEnv
      end)%list = (composeEnv p entries ++ forcedEnv)%list) as (entries & Hallowed & ->).
  { unfold p. case_bool_decide; simpl.
    - destruct (Cmd_Env c) as [|e0 es]; eexists; (split; [|reflexivity]).
      + intros e He. apply list_elem_of_In, filter_In in He as [_ He]. unfold env_key.
        destruct (Cut e "=") as [[k v] ok]. by apply andb_true_iff in He as [_ ?].
      + intros e He. by apply Hcaller.
    - eexists. split; [|reflexivity]. intros e He. by apply Hcaller. }
  assert (forall key, IsAllowedEnvVar key = false -> key <> "PATH" ->
    env_value key (composeEnv p entries ++ forcedEnv)%list = None) as Hbarred.
  { intros key Hbad Hpath. rewrite env_value_app.
    assert (env_value key forcedEnv = None) as ->.
    { apply env_value_None. intros e He <-. unfold forcedEnv in He.
      repeat (apply elem_of_cons in He as [->|He]; [by vm_compute in Hbad|]). by apply elem_of_nil in He. }
    rewrite env_value_composed by done. apply env_value_None. intros e He <-.
    by rewrite (Hallowed e He) in Hbad. }
  split_and!; [..|intros key Hkey; by apply Hbarred, hijacks_not_allowed|done];
    rewrite env_value_app; try reflexivity.
  simpl. rewrite env_value_path, env_value_None; [done|].
  intros e He Hk. specialize (Hallowed e He). by rewrite Hk in Hallowed.
Qed.

(** ** How much output is kept *)

Lemma recordLines_bound lines count buf :
  Z.of_nat (String.length buf) <= Z.min count MaxOutputBytes ->
  count + fold_right (fun l n => Z.of_nat (String.length l) + 1 + n) 0 lines <= 9223372036854775807 ->
  Z.of_nat (String.length (recordLines lines count buf).2) <=
    Z.min (recordLines lines count buf).1 MaxOutputBytes /\
  (recordLines lines count buf).1 =
    count + fold_right (fun l n => Z.of_nat (String.length l) + 1 + n) 0 lines.
Proof.
  revert count buf. induction lines as [|line lines IH]; intros count buf Hbuf Hsum; cbn [recordLines fold_right].
  { simpl in *. lia. }
  cbn [fold_right] in Hsum.
  assert (0 <= fold_right (fun l n => Z.of_nat (String.length l) + 1 + n) 0 lines) as Hpos
    by (clear; induction lines; simpl; lia).
  rewrite int64_id by (apply in_int64_spec; unfold MaxOutputBytes in *; lia).
  destruct (IH (count + (Z.of_nat (String.length line) + 1))
    (if count + (Z.of_nat (String.length line) + 1) <=? MaxOutputBytes
     then buf ++ line ++ newline else buf)) as [Hlen Heq]; [..|lia|split; [exact Hlen|rewrite Heq; lia]].
  destruct (Z.leb_spec (count + (Z.of_nat (String.length line) + 1)) MaxOutputBytes); [|lia].
  rewrite !length_append. unfold newline. simpl String.length. lia.
Qed.

(** The captured output of a stream is bounded: at most 1 MiB of whole lines,
    followed by the truncation mark exactly when the stream was longer; a stream
    that fits is kept whole. *)
Theorem captured_bounded lines :
  let total := fold_right (fun l n => Z.of_nat (String.length l) + 1 + n) 0 lines in
  total <= 9223372036854775807 ->
  Z.of_nat (String.length (captured lines)) <= MaxOutputBytes + 19 /\
  (total <= MaxOutputBytes ->
     captured lines = fold_right (fun l s => (l ++ newline ++ s)%string) EmptyString lines) /\
  (MaxOutputBytes < total ->
     exists kept, captured lines = (kept ++ newline ++ "[output truncated]")%string).
Proof.
  cbv zeta. intros Htotal.
  destruct (recordLines_bound lines 0 EmptyString) as [Hlen Hcount]; [simpl; unfold MaxOutputBytes; lia|lia|].
  unfold captured. destruct (recordLines lines 0 EmptyString) as [count buf] eqn:Hr.
  simpl in Hlen, Hcount. destruct (Z.ltb_spec MaxOutputBytes count) as [Hlt|Hge]; split_and!.
  - rewrite !length_append. simpl String.length. lia.
  - lia.
  - intros _. by exists buf.
  - lia.
  - intros _. assert (forall lines count buf,
      count + fold_right (fun l n => Z.of_nat (String.length l) + 1 + n) 0 lines <= MaxOutputBytes ->
      0 <= count ->
      (recordLines lines count buf).2 =
        (buf ++ fold_right (fun l s => (l ++ newline ++ s)%string) EmptyString lines)%string) as Hall.
    { clear. induction lines as [|line lines IH]; intros count buf Hsum Hpos.
      { simpl. by rewrite append_nil_r. }
      cbn [recordLines fold_right] in *.
      assert (0 <= fold_right (fun l n => Z.of_nat (String.length l) + 1 + n) 0 lines) as Hp
        by (clear; induction lines; simpl; lia).
      rewrite int64_id by (apply in_int64_spec; unfold MaxOutputBytes in *; lia).
      destruct (Z.leb_spec (count + (Z.of_nat (String.length line) + 1)) MaxOutputBytes); [|lia].
      rewrite IH by lia. by rewrite <- !append_assoc. }
    specialize (Hall lines 0 EmptyString). rewrite Hr in Hall. apply Hall; lia.
  - lia.
Qed.
