(* ===== verification/Executor.v ===== *)
(** * Executing an action ([agent/internal/executor])

    The executor turns an action into commands and its outcome into a result.  The
    runner it starts commands with and the package manager it drives are the
    interfaces of the SDK: [Runner] ([Exec]) and [Manager].  Programs run over the
    state [D] of the host, which only those interfaces touch. *)

From stdpp Require Import pretty.
From S2P Require Import Prelude Engine Proto Strs Exec.

Open Scope string_scope.
Open Scope Z_scope.

(** ** The package manager ([sdk/pkg/pkg.go]) *)

Record InstallSpec := { Spec_Name : string; Spec_Version : string }.

(** The methods of [pkg.Manager] the executor calls. *)
Class Manager (D : Type) := {
  IsInstalled : Ctx -> string -> M D bool;
  InstalledVersion : Ctx -> string -> M D string;
  Install : Ctx -> bool -> list InstallSpec -> M D outcome;
  Remove : Ctx -> bool -> list string -> M D outcome;
  Update : Ctx -> M D outcome;
  UpgradeAll : Ctx -> M D outcome;
}.

Definition ErrUnsupported : error := ErrVar "package operation unsupported".

(** [err.Error()]: the text of an error, of which the model keeps what
    [errors.Is] sees. *)
Class ErrorText := { Error : error -> string }.

(** ** Timeouts *)

Definition defaultShellTimeout : Z := 3600000000000.
Definition defaultPackageTimeout : Z := 1800000000000.

Definition actionTimeout (action : Action) : Z :=
  if 0 <? Action_TimeoutSeconds action then int64 (Action_TimeoutSeconds action * 1000000000)
  else match Action_Params action with
  | Some (Action_Shell _) => defaultShellTimeout
  | Some (Action_Package _) | Some Action_Update => defaultPackageTimeout
  | None => 0
  end.

Section executor.
Context {D : Type} `{!Runner D, !ErrorText}.

(** The package manager found on the host, if any. *)
Context (pkgManager : option (Manager D)).

Definition output_of (run : ExecResult) : CommandOutput :=
  {| ExitCode := int32 (Exec_ExitCode run); Stdout := Exec_Stdout run; Stderr := Exec_Stderr run |}.

(** The output and the error of a step, [( *pb.CommandOutput, error)]. *)
Abbreviation step_result := (option CommandOutput * option error)%type.

Definition commandResult (run : ExecResult) (err : option error) : step_result :=
  match err with
  | Some err => (Some (output_of run), Some err)
  | None =>
      (Some (output_of run),
       if Exec_ExitCode run =? 0 then None
       else Some (ErrNew ("package manager exited with status " ++ pretty (Exec_ExitCode run))))
  end.

Definition note (text : string) : step_result :=
  (Some {| ExitCode := 0; Stdout := text; Stderr := EmptyString |}, None).

(** The enum's [String] for the values that are no state to reach. *)
Definition DesiredState_String (state : Z) : string :=
  if state =? DESIRED_STATE_UNSPECIFIED then "DESIRED_STATE_UNSPECIFIED" else pretty state.

Definition supported (err : option error) : option error :=
  match err with
  | Some err => if errors_is ErrUnsupported err then None else Some err
  | None => None
  end.

(** The step after the state was probed: update the index, then install. *)
Definition installPackage (m : Manager D) (ctx : Ctx) (params : PackageActionParams) : M D step_result :=
  index ← Update ctx;
  match supported (snd (index : outcome)) with
  | Some err => mret (None, Some (ErrWrap "update package index" err))
  | None =>
      run ← Install ctx false [{| Spec_Name := pkg_Name params; Spec_Version := pkg_Version params |}];
      mret (commandResult run.1 run.2)
  end.

Definition executePackage (ctx : Ctx) (params : PackageActionParams) (state : Z) : M D step_result :=
  match pkgManager with
  | None => mret (None, Some (ErrNew "no supported package manager found"))
  | Some m =>
      probed ← attempt (IsInstalled ctx (pkg_Name params));
      match probed with
      | Err err => mret (None, Some (ErrWrap "probe package state" err))
      | Ok installed =>
          if state =? DESIRED_STATE_PRESENT then
            if (installed : bool) && bool_decide (pkg_Version params = EmptyString)
            then mret (note ("package " ++ pkg_Name params ++ " is already installed"))
            else if installed
            then
              version ← attempt (InstalledVersion ctx (pkg_Name params));
              match version with
              | Err err => mret (None, Some (ErrWrap "read installed package version" err))
              | Ok version =>
                  if bool_decide (version = pkg_Version params)
                  then mret (note ("package " ++ pkg_Name params ++ " version " ++ version
                                     ++ " is already installed"))
                  else installPackage m ctx params
              end
            else installPackage m ctx params
          else if state =? DESIRED_STATE_ABSENT then
            if negb installed
            then mret (note ("package " ++ pkg_Name params ++ " is already absent"))
            else
              run ← Remove ctx false [pkg_Name params];
              mret (commandResult run.1 run.2)
          else mret (None, Some (ErrNew ("unsupported package desired state: " ++ DesiredState_String state)))
      end
  end.

Definition executeUpdate (ctx : Ctx) : M D step_result :=
  match pkgManager with
  | None => mret (None, Some (ErrNew "no supported package manager found"))
  | Some _ =>
      index ← Update ctx;
      let stdout := Exec_Stdout (fst (index : outcome)) in
      match supported index.2 with
      | Some err =>
          mret (Some {| ExitCode := int32 (Exec_ExitCode index.1); Stdout := stdout;
                        Stderr := Exec_Stderr index.1 |},
                Some (ErrWrap "update package index" err))
      | None =>
          upgrade ← UpgradeAll ctx;
          let run := fst (upgrade : outcome) in
          let output := {| ExitCode := int32 (Exec_ExitCode run); Stdout := stdout ++ Exec_Stdout run;
                           Stderr := Exec_Stderr run |} in
          mret (Some output, match upgrade.2 with
            | Some err => Some (ErrWrap "upgrade system packages" err)
            | None => if Exec_ExitCode run =? 0 then None
                      else Some (ErrNew ("package upgrade exited with status " ++ pretty (Exec_ExitCode run)))
            end)
      end
  end.

(** ** Shell actions *)

Definition outputWithError (output : option CommandOutput) (err : error) : CommandOutput :=
  let output := default {| ExitCode := 0; Stdout := EmptyString; Stderr := EmptyString |} output in
  if bool_decide (Stderr output = EmptyString)
  then {| ExitCode := ExitCode output; Stdout := Stdout output; Stderr := Error err |} else output.

(** [sort.Strings] of the keys of the environment, as [KEY=VALUE] entries. *)
Definition shellEnvironment (environment : gmap string string) : list string :=
  (fun key => key ++ "=" ++ default EmptyString (environment !! key)) <$>
    order_by (by_key id) (map_to_list environment).*1.

Definition shellCommand (params : ShellActionParams) (script : string) : Command := {|
  Cmd_Name := if bool_decide (Interpreter params = EmptyString) then "/bin/sh" else Interpreter params;
  Cmd_Args := ["-c"; script]; Cmd_Dir := WorkingDirectory params;
  Cmd_Env := shellEnvironment (Environment params); Cmd_Stdin := None; Cmd_ChildPath := EmptyString;
  Cmd_Escalate := true |}.

Definition runShell (ctx : Ctx) (params : ShellActionParams) (script : string) : M D step_result :=
  match ValidateCommandEnv (shellEnvironment (Environment params)) with
  | Err err => mret (None, Some (ErrWrap "validate shell environment" err))
  | Ok _ =>
      run ← Run ctx (shellCommand params script);
      mret (Some (output_of (fst (run : outcome))),
            match run.2 with Some err => Some (ErrWrap "run shell" err) | None => None end)
  end.

Definition exit_code (output : option CommandOutput) : Z :=
  match output with Some o => ExitCode o | None => 0 end.

(** The output, the output of the detection, and the error. *)
Abbreviation shell_result := (option CommandOutput * option CommandOutput * option error)%type.

(** The check that the script did what the detection script looks for. *)
Definition verifyShell (ctx : Ctx) (params : ShellActionParams) (output : option CommandOutput)
    : M D shell_result :=
  verified ← runShell ctx params (DetectionScript params);
  let '(verified, err) := (verified : step_result) in
  match err with
  | Some err => mret (output, Some (outputWithError verified err), Some err)
  | None =>
      if exit_code verified =? 0 then mret (output, verified, None)
      else
        let err := ErrNew ("shell remediation verification exited with status "
                             ++ pretty (exit_code verified)) in
        mret (output, Some (outputWithError verified err), Some err)
  end.

(** The script of the action, after a detection that found work to do. *)
Definition remediateShell (ctx : Ctx) (params : ShellActionParams) (detection : option CommandOutput)
    : M D shell_result :=
  if bool_decide (Script params = EmptyString)
  then mret (None, detection, Some (ErrNew "shell action requires a script"))
  else
    run ← runShell ctx params (Script params);
    let '(output, err) := (run : step_result) in
    let err := match err with
      | Some err => Some err
      | None => if exit_code output =? 0 then None
                else Some (ErrNew ("shell exited with status " ++ pretty (exit_code output)))
      end in
    match err with
    | Some err => mret (Some (outputWithError output err), detection, Some err)
    | None =>
        if bool_decide (DetectionScript params = EmptyString) then mret (output, None, None)
        else verifyShell ctx params output
    end.

Definition executeShell (ctx : Ctx) (params : ShellActionParams) : M D shell_result :=
  if IsCompliance params && bool_decide (DetectionScript params = EmptyString)
  then mret (None, None, Some (ErrNew "compliance shell action requires a detection script"))
  else if bool_decide (DetectionScript params = EmptyString) then remediateShell ctx params None
  else
    detected ← runShell ctx params (DetectionScript params);
    let '(detection, err) := (detected : step_result) in
    match err with
    | Some err => mret (None, Some (outputWithError detection err), Some err)
    | None =>
        if (exit_code detection =? 0) || IsCompliance params then mret (None, detection, None)
        else remediateShell ctx params detection
    end.

(** ** The result *)

Definition stderr_of (output : option CommandOutput) : string :=
  match output with Some o => Stderr o | None => EmptyString end.

Definition with_stderr (message : string) (output : CommandOutput) : CommandOutput :=
  {| ExitCode := ExitCode output; Stdout := Stdout output; Stderr := message |}.

Definition with_outputs (output detection : option CommandOutput) (r : ActionResult) : ActionResult := {|
  Result_ActionId := Result_ActionId r; Result_Status := Result_Status r; Result_Output := output;
  Result_DetectionOutput := detection; Result_CompletedAt := Result_CompletedAt r;
  Result_RunId := Result_RunId r; Result_ActionDigest := Result_ActionDigest r |}.

(** The message goes into the output, else into the detection's, else into a fresh
    output; not when either has a text already. *)
Definition ensureResultError (result : ActionResult) (message : string) : ActionResult :=
  if negb (bool_decide (stderr_of (Result_Output result) = EmptyString))
     || negb (bool_decide (stderr_of (Result_DetectionOutput result) = EmptyString))
  then result
  else match Result_Output result, Result_DetectionOutput result with
  | Some o, _ => with_outputs (Some (with_stderr message o)) (Result_DetectionOutput result) result
  | None, Some o => with_outputs None (Some (with_stderr message o)) result
  | None, None =>
      with_outputs (Some {| ExitCode := 0; Stdout := EmptyString; Stderr := message |}) None result
  end.

Definition with_status (status : Z) (r : ActionResult) : ActionResult := {|
  Result_ActionId := Result_ActionId r; Result_Status := status; Result_Output := Result_Output r;
  Result_DetectionOutput := Result_DetectionOutput r; Result_CompletedAt := Result_CompletedAt r;
  Result_RunId := Result_RunId r; Result_ActionDigest := Result_ActionDigest r |}.

Definition finish (result : ActionResult) : M D ActionResult :=
  completed ← now;
  mret {| Result_ActionId := Result_ActionId result; Result_Status := Result_Status result;
          Result_Output := Result_Output result; Result_DetectionOutput := Result_DetectionOutput result;
          Result_CompletedAt := Some (timestamp_new completed); Result_RunId := Result_RunId result;
          Result_ActionDigest := Result_ActionDigest result |}.

Definition failed_result (id : option string) (output detection : option CommandOutput) : ActionResult := {|
  Result_ActionId := id; Result_Status := EXECUTION_STATUS_FAILED; Result_Output := output;
  Result_DetectionOutput := detection; Result_CompletedAt := None; Result_RunId := None;
  Result_ActionDigest := [] |}.

(** The switch over the kind of parameters. *)
Definition executeParams (ctx : Ctx) (action : Action) : M D shell_result :=
  match Action_Params action with
  | Some (Action_Package params) =>
      r ← executePackage ctx params (Action_DesiredState action);
      mret (r.1, None, r.2)
  | Some Action_Update => r ← executeUpdate ctx; mret (r.1, None, r.2)
  | Some (Action_Shell params) => executeShell ctx params
  | None => mret (None, None, Some (ErrNew "unsupported action parameters"))
  end.

Definition ExecuteAction (ctx : Ctx) (action : option Action) : M D ActionResult :=
  match action with
  | None =>
      finish (failed_result None (Some {| ExitCode := 0; Stdout := EmptyString;
                                          Stderr := "action is required" |}) None)
  | Some action =>
      match Action_Id action with
      | None =>
          finish (failed_result None (Some {| ExitCode := 0; Stdout := EmptyString;
                                              Stderr := "action is required" |}) None)
      | Some id =>
          let timeout := actionTimeout action in
          ctx ← (if 0 <? timeout then WithTimeout ctx timeout else mret ctx);
          executed ← executeParams ctx action;
          let '(output, detection, err) := (executed : shell_result) in
          let result := failed_result (Some id) output detection in
          match err with
          | None => finish (with_status EXECUTION_STATUS_SUCCESS result)
          | Some err =>
              ctx_err ← ctx_Err ctx;
              if errors_is DeadlineExceeded err
                 || match ctx_err with Some e => errors_is DeadlineExceeded e | None => false end
              then finish (ensureResultError (with_status EXECUTION_STATUS_TIMEOUT result) "action timed out")
              else finish (ensureResultError result (Error err))
          end
      end
  end.
End executor.

#[global] Arguments ExecuteAction : simpl never.

(** ** Results *)

(** The call has an outcome: what goes wrong is in it. *)
Definition returns {D A} (m : M D A) : Prop :=
  triple (fun _ => True) m (fun _ _ => True) (fun _ _ => False).

Class RunnerLaws D `{Runner D} : Prop := { Run_returns : forall ctx c, returns (Run ctx c) }.

Class ManagerLaws {D} (m : Manager D) : Prop := {
  Install_returns : forall ctx o specs, returns (Install ctx o specs);
  Remove_returns : forall ctx o names, returns (Remove ctx o names);
  Update_returns : forall ctx, returns (Update ctx);
  UpgradeAll_returns : forall ctx, returns (UpgradeAll ctx);
}.

Section returning.
Context {D : Type}.

Lemma returns_ret {A} (a : A) : returns (D := D) (mret a).
Proof. by apply triple_ret. Qed.

Lemma returns_draw {A} (f : Env -> nat -> A) : returns (D := D) (draw f).
Proof. by apply triple_draw. Qed.

Lemma returns_bind {A B} (m : M D A) (k : A -> M D B) :
  returns m -> (forall a, returns (k a)) -> returns (m ≫= k).
Proof. intros Hm Hk. by apply (triple_bind _ _ _ (fun _ _ => True)). Qed.

Lemma returns_attempt {A} (m : M D A) : returns (attempt m).
Proof.
  eapply (triple_attempt _ _ _ _ (fun _ _ => True)); [|done].
  intros env w _. by destruct (m env w) as [[a|e] w'].
Qed.
End returning.

Create HintDb returns discriminated.
#[export] Hint Resolve returns_ret returns_draw returns_attempt Run_returns Install_returns
  Remove_returns Update_returns UpgradeAll_returns : returns.

(** Walks a program of calls that return. *)
Ltac returning :=
  repeat first
    [ solve [eauto 2 with returns nocore]
    | match goal with
      | |- returns (mbind _ _) => apply returns_bind; [|intros ?]
      | |- returns (match ?x with _ => _ end) => destruct x
      | |- returns (let (_, _) := ?x in _) => destruct x
      end ].

Section results.
Context {D : Type} `{!Runner D, !RunnerLaws D, !ErrorText} (pkgManager : option (Manager D)).
Context (Hmanager : forall m, pkgManager = Some m -> ManagerLaws m).

Lemma executeParams_returns ctx action : returns (executeParams pkgManager ctx action).
Proof.
  unfold executeParams, executePackage, executeUpdate, executeShell, remediateShell, verifyShell,
    installPackage, runShell.
  destruct pkgManager as [m|]; [pose proof (Hmanager m eq_refl)|]; cbv zeta; returning.
Qed.

(** A result the executor may give for an action. *)
Definition well_formed_result (action : Action) (r : ActionResult) : Prop :=
  Result_ActionId r = Action_Id action /\
  (Result_Status r = EXECUTION_STATUS_SUCCESS \/ Result_Status r = EXECUTION_STATUS_FAILED \/
   Result_Status r = EXECUTION_STATUS_TIMEOUT) /\
  is_Some (Result_CompletedAt r) /\
  ((forall e, Error e <> EmptyString) -> Result_Status r <> EXECUTION_STATUS_SUCCESS ->
     stderr_of (Result_Output r) <> EmptyString \/ stderr_of (Result_DetectionOutput r) <> EmptyString).

Lemma ensureResultError_explains r message :
  message <> EmptyString ->
  let r' := ensureResultError r message in
  stderr_of (Result_Output r') <> EmptyString \/ stderr_of (Result_DetectionOutput r') <> EmptyString.
Proof.
  intros Hm. unfold ensureResultError. cbv zeta.
  destruct (bool_decide_reflect (stderr_of (Result_Output r) = EmptyString)); simpl; [|by left].
  destruct (bool_decide_reflect (stderr_of (Result_DetectionOutput r) = EmptyString)); simpl; [|by right].
  destruct (Result_Output r); [by left|]. destruct (Result_DetectionOutput r); [by right|by left].
Qed.

Lemma ensureResultError_keeps r message :
  Result_ActionId (ensureResultError r message) = Result_ActionId r /\
  Result_Status (ensureResultError r message) = Result_Status r.
Proof.
  unfold ensureResultError. destruct (_ || _); [done|].
  by destruct (Result_Output r), (Result_DetectionOutput r).
Qed.

Lemma finish_well_formed action r :
  Result_ActionId r = Action_Id action ->
  (Result_Status r = EXECUTION_STATUS_SUCCESS \/
   (Result_Status r = EXECUTION_STATUS_FAILED \/ Result_Status r = EXECUTION_STATUS_TIMEOUT) /\
   ((forall e, Error e <> EmptyString) ->
     stderr_of (Result_Output r) <> EmptyString \/ stderr_of (Result_DetectionOutput r) <> EmptyString)) ->
  triple (fun _ => True) (finish (D := D) r) (fun r' _ => well_formed_result action r') (fun _ _ => False).
Proof.
  intros Hid Hs. unfold finish. apply triple_bind_draw. intros t. apply triple_ret. intros _ _.
  unfold well_formed_result. simpl. split_and!; [done|tauto|by eexists|].
  intros Herr Hne. destruct Hs as [?|[_ He]]; [done|by apply He].
Qed.

Lemma ExecuteAction_well_formed ctx action :
  is_Some (Action_Id action) ->
  triple (fun _ => True) (ExecuteAction pkgManager ctx (Some action))
    (fun r _ => well_formed_result action r) (fun _ _ => False).
Proof.
  intros [id Hid]. unfold ExecuteAction. rewrite Hid. cbv zeta.
  apply (triple_bind _ _ _ (fun _ _ => True)).
  { destruct (_ <? _); [|by apply triple_ret]. unfold WithTimeout.
    apply triple_bind_draw. intros t. by apply triple_ret. }
  intros ctx'. apply (triple_bind _ _ _ (fun _ _ => True)); [apply executeParams_returns|].
  intros [[output detection] [err|]].
  - apply triple_bind_draw. intros e. destruct (_ || _); apply finish_well_formed.
    + by rewrite (proj1 (ensureResultError_keeps _ _)).
    + right. rewrite (proj2 (ensureResultError_keeps _ _)). split; [by right|]. intros _.
      by apply ensureResultError_explains.
    + by rewrite (proj1 (ensureResultError_keeps _ _)).
    + right. rewrite (proj2 (ensureResultError_keeps _ _)). split; [by left|]. intros Htext.
      by apply ensureResultError_explains.
  - by apply finish_well_formed; [|left].
Qed.

(** The executor always answers, and its answer can be read: for an action
    with an id it returns a result for that id, with one of the three outcomes and a
    completion time, and a result that is not a success carries an explanation in
    one of its error streams. *)
Theorem ExecuteAction_answers ctx action :
  is_Some (Action_Id action) ->
  triple (fun _ => True) (ExecuteAction pkgManager ctx (Some action))
    (fun r _ => well_formed_result action r) (fun _ _ => False).
Proof. apply ExecuteAction_well_formed. Qed.
End results.

(** ** Shell actions *)

Section shell.
Context {D : Type} `{!Runner D, !ErrorText} (pkgManager : option (Manager D)).

(** The detection script of [params] was run, with outcome [out]. *)
Definition detected (out : outcome) : option CommandOutput * option error :=
  (Some (output_of out.1), match out.2 with Some err => Some (ErrWrap "run shell" err) | None => None end).

Lemma runShell_spec P ctx params script (Q : outcome -> D -> Prop) :
  ValidateCommandEnv (shellEnvironment (Environment params)) = Ok tt ->
  triple P (Run ctx (shellCommand params script)) Q (fun _ _ => False) ->
  triple P (runShell ctx params script) (fun r d => exists out, r = detected out /\ Q out d)
    (fun _ _ => False).
Proof.
  intros Henv Hrun. unfold runShell. rewrite Henv.
  eapply triple_bind; [exact Hrun|]. intros out. apply triple_ret. intros d Hd. by exists out.
Qed.

(** The verdict on a compliance action: its detection script ran, and exited 0. *)
Definition compliant (out : outcome) : bool :=
  match out.2 with Some _ => false | None => int32 (Exec_ExitCode out.1) =? 0 end.

(** C24: A compliance action only looks.  Executing it runs its detection script
    once, and no other command: whatever the run of that command establishes holds
    afterwards.  The result is a success with that run's output exactly if the
    command could be run, whatever its exit code. *)
Theorem compliance_only_detects ctx action id params P (Q : outcome -> D -> Prop) :
  Action_Id action = Some id -> Action_Params action = Some (Action_Shell params) ->
  IsCompliance params = true -> DetectionScript params <> EmptyString ->
  ValidateCommandEnv (shellEnvironment (Environment params)) = Ok tt ->
  (forall ctx', triple P (Run ctx' (shellCommand params (DetectionScript params))) Q (fun _ _ => False)) ->
  triple P (ExecuteAction pkgManager ctx (Some action))
    (fun r d => exists out, Q out d /\ Result_ActionId r = Some id /\ Result_Output r = None /\
       match out.2 with
       | None => Result_Status r = EXECUTION_STATUS_SUCCESS /\
           Result_DetectionOutput r = Some (output_of out.1)
       | Some _ => Result_Status r <> EXECUTION_STATUS_SUCCESS
       end)
    (fun _ _ => False).
Proof.
  intros Hid Hparams Hc Hdet Henv Hrun. unfold ExecuteAction. rewrite Hid. cbv zeta.
  apply (triple_bind _ _ _ (fun _ => P)).
  { destruct (_ <? _); [|by apply triple_ret]. unfold WithTimeout.
    apply triple_bind_draw. intros t. by apply triple_ret. }
  intros ctx'. apply (triple_bind _ _ _ (fun r d => exists out,
    r = (None, Some (match out.2 with
      | Some err => outputWithError (Some (output_of out.1)) (ErrWrap "run shell" err)
      | None => output_of out.1 end),
      match out.2 with Some err => Some (ErrWrap "run shell" err) | None => None end) /\ Q out d)).
  { unfold executeParams. rewrite Hparams. unfold executeShell.
    rewrite Hc, bool_decide_false by done. simpl.
    eapply triple_bind; [by apply runShell_spec|]. intros [detection err].
    apply triple_exists. intros out. apply triple_pure. intros [= -> ->].
    destruct out as [res [e|]]; simpl.
    - apply triple_ret. intros d Hd. by exists (res, Some e).
    - rewrite orb_true_r. apply triple_ret. intros d Hd. by exists (res, None). }
  intros [[output detection] err]. apply triple_exists. intros out.
  destruct out as [res e]. simpl.
  apply triple_pure. intros [= -> -> ->]. destruct e as [e|].
  - apply triple_bind_draw. intros ce. destruct (_ || _); unfold finish;
      apply triple_bind_draw; intros t; apply triple_ret; intros d Hd; exists (res, Some e);
      simpl; rewrite ?(proj1 (ensureResultError_keeps _ _)), ?(proj2 (ensureResultError_keeps _ _));
      (split_and!; [done..| |done]); unfold ensureResultError; by destruct (_ || _).
  - unfold finish. apply triple_bind_draw. intros t. apply triple_ret. intros d Hd. by exists (res, None).
Qed.
End shell.
