(* ===== verification/Scheduler.v ===== *)
(** * The scheduler ([agent/internal/scheduler/scheduler.go])

    One goroutine recovers the runs a crash interrupted, loads the due work and
    executes it; others reconcile policies and delete delivered results meanwhile.
    A program here runs over the agent's database and its host.  Between two store
    calls, [pause] runs whatever the other goroutines do and may end the process:
    the interleaving and the crashes are the environment's choice. *)

From S2P Require Import Prelude Hash Engine Pair Proto AgentStore AgentPolicy AgentLedger.
From S2P Require Import Strs Exec Executor.

Open Scope Z_scope.

(** What another goroutine does with the store. *)
Inductive StoreOp :=
| OpReconcilePolicy (policy : option DesiredPolicy)
| OpGetPendingResults
| OpDeletePendingResult (sequence : Z).

(** By the number of effects performed: what the other goroutines do next, and
    whether the process ends. *)
Record Schedule := { others : nat -> list StoreOp; ends : nat -> bool }.

Definition ErrProcessEnded : error := ErrVar "process ended".

Section scheduler.
Context `{!ProtoCodec Action, !ProtoCodec ActionResult, !DeterministicMarshal, !MapRange}.
Context {Host : Type} `{!Runner Host, !ErrorText} (pkgManager : option (Manager Host)).
Context (schedule : Schedule).

Abbreviation Agent := (M (AgentDatabase * Host)).

Definition perform_op (op : StoreOp) : AgentQueries unit :=
  match op with
  | OpReconcilePolicy policy => perform (ReconcilePolicy policy)
  | OpGetPendingResults => perform GetPendingResults
  | OpDeletePendingResult n => perform (DeletePendingResult n)
  end.

Definition pause : Agent unit :=
  next ← draw (fun _ n => (ends schedule n, others schedule n));
  if fst (next : bool * list StoreOp) then fail ErrProcessEnded
  else on_fst (for_each perform_op next.2).

(** The result of a run as it is recorded. *)
Definition stamp (run : string) (digest : bytes) (completedAt : Timestamp) (r : ActionResult)
    : ActionResult := {|
  Result_ActionId := Result_ActionId r; Result_Status := Result_Status r;
  Result_Output := Result_Output r; Result_DetectionOutput := Result_DetectionOutput r;
  Result_CompletedAt := Some completedAt; Result_RunId := Some run; Result_ActionDigest := digest |}.

(** After the executor returned: nothing is recorded once the context is done. *)
Definition recordRun (ctx : Ctx) (w : ScheduledWork) (r : ActionResult) : Agent unit :=
  err ← ctx_Err ctx;
  match err with
  | Some _ => mret tt
  | None =>
      match ActionDigest (Some (SW_Action w)) with
      | Err _ => mret tt
      | Ok digest =>
          at_ ← match Result_CompletedAt r with
                | Some t => mret t
                | None => t ← now; mret (timestamp_new t)
                end;
          on_fst (perform (RecordActionResult (stamp (SW_RunID w) digest at_ r)))
      end
  end.

Definition executeAction (ctx : Ctx) (w : ScheduledWork) : Agent unit :=
  started ← now;
  begun ← attempt (on_fst (BeginActionRun w started));
  match begun with
  | Err _ => mret tt
  | Ok w =>
      _ ← pause;
      r ← on_snd (ExecuteAction pkgManager ctx (Some (SW_Action w)));
      _ ← pause;
      recordRun ctx w r
  end.

Fixpoint executeItems (ctx : Ctx) (items : list ScheduledWork) : Agent unit :=
  match items with
  | [] => mret tt
  | w :: items =>
      err ← ctx_Err ctx;
      match err with
      | Some _ => mret tt
      | None => _ ← pause; _ ← executeAction ctx w; executeItems ctx items
      end
  end.

Definition runDue (ctx : Ctx) : Agent unit :=
  recovered ← attempt (on_fst RecoverInterruptedActions);
  match recovered with
  | Err _ => mret tt
  | Ok _ =>
      _ ← pause;
      items ← attempt (on_fst GetDueScheduledWork);
      match items with
      | Err _ => mret tt
      | Ok items => executeItems ctx items
      end
  end.

(** ** The ledger along the way *)

Context `{!ProtoLaws Action, !ProtoLaws ActionResult, !MapRangeLaws}.

Lemma perform_op_tracks L0 op : preserves (tracks L0) (perform_op op).
Proof. destruct op; apply preserves_perform; preserve. Qed.

Lemma pause_tracks L0 : preserves (fun d => tracks L0 d.1) pause.
Proof.
  unfold pause. apply preserves_bind; [apply preserves_draw|]. intros [[] ops]; [apply preserves_fail|].
  apply preserves_on_fst, preserves_for_each. intros op. apply perform_op_tracks.
Qed.
Hint Resolve pause_tracks : preserve.

Lemma executeAction_tracks L0 ctx w : preserves (fun d => tracks L0 d.1) (executeAction ctx w).
Proof. unfold executeAction, recordRun, ctx_Err, now. preserve2. Qed.
Hint Resolve executeAction_tracks : preserve.

Lemma executeItems_tracks L0 ctx items : preserves (fun d => tracks L0 d.1) (executeItems ctx items).
Proof.
  induction items as [|w items IH]; simpl; [preserve|]. unfold ctx_Err. preserve.
Qed.

Lemma runDue_tracks L0 ctx : preserves (fun d => tracks L0 d.1) (runDue ctx).
Proof. pose proof executeItems_tracks. unfold runDue. preserve2. Qed.

(** ** A run without disturbance ends in a report *)

(** Nobody else uses the store, and the process goes on. *)
Definition undisturbed : Prop := forall n, others schedule n = [] /\ ends schedule n = false.

(** The context is never done. *)
Definition background : Ctx := {| ctx_deadline := None; ctx_cancelled := fun _ => false |}.

Lemma quiet_pause env d n : undisturbed -> pause env (mkWorld d n) = (Ok tt, mkWorld d (S n)).
Proof.
  intros Hu. destruct (Hu n) as [Ho He]. unfold pause, mbind, M_bind, draw. simpl.
  rewrite Ho, He. simpl. by destruct d.
Qed.

Lemma quiet_RecordActionResult env d n r row :
  quiet env -> GetValue (Result_ActionId r) <> EmptyString -> GetValue (Result_RunId r) <> EmptyString ->
  is_Some (Result_CompletedAt r) -> length (Result_ActionDigest r) = 32%nat -> is_Some (marshal r) ->
  scheduled_work d !! GetValue (Result_ActionId r) = Some row ->
  Work_RunID row = Some (GetValue (Result_RunId r)) ->
  Work_RunActionDigest row = Some (Result_ActionDigest r) -> Work_RunInProgress row = true ->
  in_int64 (outbox_sequence d + 1) = true -> StoreInv d ->
  exists seq d' n', RecordActionResult r env (mkWorld d n) = (Ok seq, mkWorld d' n') /\ StoreInv d' /\
    ledger d' = mkLedger (delete (GetValue (Result_ActionId r)) (open_runs (ledger d)))
      (<[last_report (ledger d) + 1 := r]> (reports (ledger d))) (last_report (ledger d) + 1).
Proof.
  intros Hq Hid Hrun Hat Hlen [payload Hpay] Hrow Hr Hd Hp Hin Hinv. unfold RecordActionResult.
  rewrite !bool_decide_false by done. rewrite bool_decide_true by done.
  rewrite (bool_decide_true (length _ = _)) by done. cbn [negb orb].
  unfold mbind, M_bind, lift, proto_Marshal. rewrite Hpay.
  unfold AgentTransaction. rewrite quiet_transaction by done.
  destruct (quiet_finishRun env d (S n) (GetValue (Result_ActionId r)) (GetValue (Result_RunId r))
    (Result_ActionDigest r) payload row) as (seq & [d' n'] & Heq); [done..|]. rewrite Heq.
  pose proof (finishRun_spec (GetValue (Result_ActionId r)) (GetValue (Result_RunId r))
    (Result_ActionDigest r) payload d env (mkWorld d (S n)) eq_refl) as Hspec. rewrite Heq in Hspec.
  eapply run_finished_ledger in Hspec as (Hinv' & -> & _ & Hl); [|done|by apply unmarshal_marshal].
  do 3 eexists. split; [reflexivity|]. done.
Qed.

(** A result that cannot be marshalled is not recorded. *)
Lemma RecordActionResult_unmarshalled env w r :
  marshal r = None -> exists e, RecordActionResult r env w = (Err e, w).
Proof.
  intros Hr. unfold RecordActionResult. cbv zeta. destruct (_ || _); [by eexists|].
  unfold mbind, M_bind, lift, proto_Marshal. rewrite Hr. by eexists.
Qed.

Context `{!RunnerLaws Host} (Hmanager : forall m, pkgManager = Some m -> ManagerLaws m).

(** C19: A due action runs and is reported.  While nothing fails or interferes,
    executing a due work begins a run of it and ends with one of the executor's
    outcomes for its action.  If that result can be marshalled, no run of the work is
    left open and exactly one report is added: under the run that was begun, with the
    digest of the action stored for it.  If it cannot (the output of a command is not
    valid UTF-8), nothing is reported and the run stays open, until the recovery of
    the next round settles it.  Every other work's run stays as it was. *)
Theorem executeAction_reports w env d h n row a digest :
  quiet env -> undisturbed -> StoreInv d ->
  scheduled_work d !! SW_WorkID w = Some row -> (forall k, runnable (env_now env k) row = true) ->
  unmarshal (Work_ActionBlob row) = Some a -> ActionDigest (Some a) = Ok digest ->
  (forall k, env_ulid env k <> EmptyString /\
     forall id x, scheduled_work d !! id = Some x -> Work_RunID x <> Some (env_ulid env k)) ->
  in_int64 (outbox_sequence d + 1) = true ->
  exists d' h' n', executeAction background w env (mkWorld (d, h) n) = (Ok tt, mkWorld (d', h') n') /\
    StoreInv d' /\
    exists run r at_, well_formed_result a r /\ run <> EmptyString /\
      match marshal (stamp run digest at_ r) with
      | Some _ => open_runs (ledger d') = open_runs (ledger d) /\
          reports (ledger d') = <[last_report (ledger d) + 1 := stamp run digest at_ r]> (reports (ledger d))
      | None => open_runs (ledger d') = <[SW_WorkID w := (run, digest)]> (open_runs (ledger d)) /\
          reports (ledger d') = reports (ledger d)
      end.
Proof.
  intros Hq Hu Hinv Hrow Hrun Ha Hdig Hfresh Hin.
  destruct (inv_rows _ Hinv _ _ Hrow) as (_ & Hid & (a' & Ha' & Haid) & _).
  assert (a' = a) as -> by congruence.
  assert (is_Some (Action_Id a)) as Hsome by (destruct (Action_Id a); [by eexists|by simpl in Haid; subst]).
  destruct (quiet_BeginActionRun env d (S n) w (env_now env n) row digest a)
    as (w' & d1 & n1 & Hbegin & Hact & k & Hk); try done; [intros k; by apply (Hfresh k)|].
  pose proof (BeginActionRun_spec w (env_now env n) d env (mkWorld d (S n)) eq_refl) as Hspec.
  rewrite Hbegin in Hspec. destruct Hspec as [nw Hspec]. pose proof Hspec as Hbegun.
  apply run_begun_ledger in Hspec as (dg & Hdg & Hinv1 & Hfree & _ & Hl1); [|done].
  rewrite Hact, Hdig in Hdg. injection Hdg as <-.
  unfold executeAction, mbind, M_bind, attempt, on_fst, now, draw. simpl. rewrite Hbegin. simpl.
  rewrite quiet_pause by done. unfold on_snd. simpl. rewrite Hact.
  pose proof (ExecuteAction_well_formed pkgManager Hmanager background a Hsome env
    (mkWorld h (S n1)) I) as Hexec.
  destruct (ExecuteAction _ _ _ _ _) as [[r|e] [h' n2]]; [|done]. simpl in Hexec. simpl.
  rewrite quiet_pause by done. unfold recordRun, mbind, M_bind, ctx_Err, draw. simpl.
  rewrite Hact, Hdig. pose proof Hexec as (Hrid & Hstatus & [at_ Hat] & _). rewrite Hat. simpl.
  destruct Hbegun as (row' & dg' & t & Hrow' & _ & _ & _ & Hdg' & _ & Hd1).
  rewrite Hact, Hdig in Hdg'. injection Hdg' as <-. simpl in Hd1.
  unfold on_fst, perform, mbind, M_bind, attempt. simpl. cbn [w_db] in Hl1.
  destruct (marshal (stamp (SW_RunID w') digest at_ r)) as [payload|] eqn:Hpay.
  2: { destruct (RecordActionResult_unmarshalled env (mkWorld d1 (S (S n2))) _ Hpay) as [e ->]. simpl.
       do 3 eexists. split; [reflexivity|]. split; [done|].
       exists (SW_RunID w'), r, at_. rewrite Hpay. cbn [w_db]. split_and!;
         [done|rewrite Hk; apply (Hfresh k)|exact (f_equal open_runs Hl1)|exact (f_equal reports Hl1)]. }
  destruct (quiet_RecordActionResult env d1 (S (S n2)) (stamp (SW_RunID w') digest at_ r)
    (begin_run (SW_RunID w') digest (env_now env n)
       (calculateNextExecuteFromSchedule (Action_Schedule (SW_Action w')) (Some (env_now env n)) nw)
       (env_now env n) t row')) as (seq & d2 & n3 & -> & Hinv2 & Hl2); try done; simpl.
  - by rewrite Hrid, Haid.
  - rewrite Hk. apply (Hfresh k).
  - by eapply length_ActionDigest.
  - rewrite Hd1, Hrid, Haid. simpl. by rewrite lookup_insert_eq.
  - by rewrite Hd1.
  - rewrite Hl1 in Hl2. cbn [Result_ActionId stamp open_runs reports last_report] in Hl2.
    rewrite Hrid, Haid in Hl2. do 3 eexists. split; [reflexivity|]. split; [done|].
    exists (SW_RunID w'), r, at_. rewrite Hpay. cbn [w_db].
    split_and!; [done|rewrite Hk; apply (Hfresh k)| |exact (f_equal reports Hl2)].
    etrans; [exact (f_equal open_runs Hl2)|]. cbn [open_runs]. rewrite delete_insert_eq. by apply delete_id.
Qed.
End scheduler.

(** ** A device's life *)

Section life.
Context `{!ProtoCodec Action, !ProtoCodec ActionResult, !DeterministicMarshal, !MapRange}.
Context {Host : Type} `{!Runner Host, !ErrorText} (pkgManager : option (Manager Host)).

(** The database moves from [d] to [d'] by a round of the scheduler, among any
    interleaving, up to its end or to any crash, or by a store operation outside a
    round; database faults, clocks and ULIDs are the environment's.  The host may
    change in between. *)
Inductive agent_step : AgentDatabase -> AgentDatabase -> Prop :=
| step_round schedule ctx env n d h :
    agent_step d (w_db (runDue pkgManager schedule ctx env (mkWorld (d, h) n)).2).1
| step_op op env n d :
    agent_step d (w_db (perform_op op env (mkWorld d n)).2).

Definition agent_reaches : AgentDatabase -> Prop := rtc agent_step empty_agent_database.

Context `{!ProtoLaws Action, !ProtoLaws ActionResult, !MapRangeLaws}.

Lemma agent_reaches_tracks d : agent_reaches d -> tracks empty_ledger d.
Proof.
  intros Hd. unfold agent_reaches in Hd. apply (rtc_ind_r (fun d => tracks empty_ledger d)) in Hd; [done|..].
  - split; [apply empty_store_ok|]. exists []. unfold ledger. simpl. rewrite !omap_empty. constructor.
  - intros d1 d2 _ Hstep Htr. destruct Hstep as [schedule ctx env n d1 h|op env n d1].
    + pose proof (runDue_tracks pkgManager schedule empty_ledger ctx env (mkWorld (d1, h) n) Htr) as Hrun.
      by destruct (runDue _ _ _ _ _) as [[a|e] w'].
    + pose proof (perform_op_tracks empty_ledger op env (mkWorld d1 n) Htr) as Hrun.
      by destruct (perform_op _ _ _) as [[a|e] w'].
Qed.


End life.
