(* ===== verification/Delivery.v ===== *)
(** * Delivering results ([agent/cmd/cadestrod/runtime.go], [contract/client.go])

    The agent sends the results in its outbox one by one and deletes each once the
    control plane has acknowledged or rejected it, when a session begins and whenever the
    scheduler has recorded more.  The scheduler and the puller use the store meanwhile:
    [others_work] runs what they do, or ends the process, as the environment chooses.
    [sendScheduledResults] is stated over any remote; [server_send] is the remote the agent
    really talks to, the control plane's handler behind a connection that may lose the
    request or the answer. *)

From S2P Require Import Prelude Hash Engine Pair Proto Schema Queries QueriesFacts QueriesFrame.
From S2P Require Import Service Actions Assignments Pki AgentStream.
From S2P Require Import AgentStore AgentPolicy AgentLedger Scheduler.

Open Scope Z_scope.

(** ** The agent's side *)

(** [contract.ErrResultRejected]. *)
Definition ErrResultRejected : error := ErrVar "server rejected action result".

(** [client.SendActionResult]: the error, if any, after the answer was awaited. *)
Class Remote (R : Type) := { SendActionResult : ActionResult -> M R (option error) }.

(** A store call of the goroutines that run actions and pull policies. *)
Inductive WorkOp :=
| WorkRecover
| WorkDue
| WorkBegin (w : ScheduledWork) (started : time)
| WorkRecord (r : ActionResult)
| WorkReconcile (policy : option DesiredPolicy).

(** By the number of effects performed: what they do next, and whether the process ends. *)
Record Meanwhile := { works : nat -> list WorkOp; dies : nat -> bool }.

Section sync.
Context `{!ProtoCodec Action, !ProtoCodec ActionResult, !DeterministicMarshal, !MapRange}.
Context {R : Type} `{!Remote R} (meanwhile : Meanwhile).

Definition perform_work (op : WorkOp) : AgentQueries unit :=
  match op with
  | WorkRecover => perform RecoverInterruptedActions
  | WorkDue => perform GetDueScheduledWork
  | WorkBegin w started => perform (BeginActionRun w started)
  | WorkRecord r => perform (RecordActionResult r)
  | WorkReconcile policy => perform (ReconcilePolicy policy)
  end.

Definition others_work : M (AgentDatabase * R) unit :=
  next ← draw (fun _ n => (dies meanwhile n, works meanwhile n));
  if fst (next : bool * list WorkOp) then fail ErrProcessEnded
  else on_fst (for_each perform_work next.2).

(** The loop over the pending results: it stops at the first result that is neither
    acknowledged nor rejected, or cannot be deleted. *)
Fixpoint sendResults (results : list PendingResult) : M (AgentDatabase * R) unit :=
  match results with
  | [] => mret tt
  | result :: results =>
      err ← on_snd (SendActionResult (Pending_ActionResult result));
      let answered := match err with Some err => errors_is ErrResultRejected err | None => true end in
      if negb answered then mret tt
      else
        _ ← others_work;
        deleted ← attempt (on_fst (DeletePendingResult (Pending_Sequence result)));
        match deleted with
        | Err _ => mret tt
        | Ok _ => sendResults results
        end
  end.

Definition syncPendingResults : M (AgentDatabase * R) unit :=
  results ← attempt (on_fst GetPendingResults);
  match results with
  | Err _ => mret tt
  | Ok results => sendResults results
  end.

(** The goroutine of a session, for the signals before its context ends. *)
Fixpoint sendScheduledResults (signals : nat) : M (AgentDatabase * R) unit :=
  _ ← syncPendingResults;
  match signals with
  | O => mret tt
  | S signals => _ ← others_work; sendScheduledResults signals
  end.
End sync.

(** ** The control plane as the remote *)

(** What the connection does with a request. *)
Inductive Link := Lost | AnswerLost | Answered.

Section server.
Context `{!ProtoCodec Action, !ProtoCodec ActionResult, !DeterministicMarshal}.
Context (ctx : Context) (deviceID : string) (hello : Hello) (link : nat -> Link).

Definition ErrNoAnswer : error := ErrNew "agent stream closed before result acknowledgement".

(** The wait in [sendResult]: the answer's code decides. *)
Definition ack_error (reply : option ServerMessage) : option error :=
  match reply with
  | Some m => match ServerMessage_Payload m with
    | ServerMessage_ResultAck RESULT_ACK_CODE_ACCEPTED => None
    | ServerMessage_ResultAck RESULT_ACK_CODE_REJECTED => Some ErrResultRejected
    | _ => Some (ErrNew "unexpected action result response")
    end
  | None => Some ErrNoAnswer
  end.

Definition server_send (result : ActionResult) : Queries (option error) :=
  how ← draw (fun _ n => link n);
  match how with
  | Lost => mret (Some ErrNoAnswer)
  | _ =>
      id ← ulid_make;
      reply ← attempt (handleAgentMessage ctx deviceID hello
        {| AgentMessage_Id := Some id; AgentMessage_Payload := AgentMessage_ActionResult (Some result) |});
      mret match how, reply with
           | Answered, Ok reply => ack_error reply
           | _, _ => Some ErrNoAnswer
           end
  end.

#[export] Instance server_remote : Remote Database := {| SendActionResult := server_send |}.
End server.

(** ** Why the control plane refuses a result *)

Section facts.
Context `{!ProtoCodec Action, !ProtoCodec ActionResult, !ProtoLaws ActionResult}.
Context (deviceID : string).

(** The result is stored under its run id, for this device. *)
Definition stored (s : Database) (r : ActionResult) : Prop :=
  exists row, execution_results s !! GetValue (Result_RunId r) = Some row /\
    ExecutionResult_DeviceID row = deviceID /\ unmarshal (ExecutionResult_ResultBlob row) = Some r.

(** The control plane refuses the result: it is malformed, its run id is another result's,
    or its action is not assigned to the device. *)
Definition refused (s : Database) (r : ActionResult) : Prop :=
  Result_CompletedAt r = None \/ length (Result_ActionDigest r) <> 32%nat \/
  (exists ts, Result_CompletedAt r = Some ts /\ CheckValid ts = false) \/
  (exists row, execution_results s !! GetValue (Result_RunId r) = Some row /\ ~ stored s r) \/
  (~ exists act, assigned_to s deviceID act /\ ActionRow_ID act = GetValue (Result_ActionId r)).

(** The error is not the rejection of a result. *)
Abbreviation unrelated := (fun e (_ : Database) => errors_is errResultRejected e = false).

Lemma CreateAuditEvent_unrelated P a b c d e f g :
  triple P (CreateAuditEvent a b c d e f g) (fun _ _ => True) unrelated.
Proof.
  apply triple_sql; [|done]. intros t d' _. destruct (negb _); [done|]. by destruct (audit_events d' !! a).
Qed.

Lemma storeTransaction_refusal r at_ blob d0 :
  WellFormed d0 ->
  triple (fun d => d = d0) (storeTransaction deviceID r (GetValue (Result_ActionId r)) at_ blob)
    (fun _ _ => True) (fun e _ => errors_is errResultRejected e = true -> refused d0 r).
Proof.
  intros Hwf. unfold storeTransaction. cbv zeta.
  eapply triple_bind.
  { apply (triple_attempt _ _ (fun found d => match found with
      | Ok row => execution_results d0 !! GetValue (Result_RunId r) = Some row
      | Err e => errors_is errResultRejected e = false /\
          (IsNotFound e = true -> execution_results d0 !! GetValue (Result_RunId r) = None)
      end /\ d = d0) _ (fun found d => match found with
      | Ok row => execution_results d0 !! GetValue (Result_RunId r) = Some row
      | Err e => errors_is errResultRejected e = false /\
          (IsNotFound e = true -> execution_results d0 !! GetValue (Result_RunId r) = None)
      end /\ d = d0)); [|done].
    apply triple_query; [|by intros d ->]. intros d ->. by destruct (execution_results d0 !! _). }
  intros [row|e]; apply triple_pure; intros Hrow.
  - destruct (executionResultProto _ _ _ _) as [payload|e] eqn:Hp.
    + apply executionResultProto_ok in Hp. destruct (_ && _) eqn:Hb; [by apply triple_ret|].
      apply triple_fail. intros _ _ _. do 3 right. left. exists row. split; [done|].
      intros (row' & Hrow' & Hdev & Hun). assert (row' = row) as -> by congruence.
      assert (payload = r) as -> by congruence.
      by rewrite !bool_decide_true in Hb.
    + apply triple_fail. intros _ _ Hr. simpl in Hr. unfold executionResultProto, proto_Unmarshal in Hp.
      destruct (unmarshal _); simpl in Hp; [destruct (_ || _) in Hp; [|done]|]; by injection Hp as <-.
  - destruct Hrow as [Hforeign Hrow].
    destruct (IsNotFound e); simpl; [|apply triple_fail; intros _ _ Hr; simpl in Hr; congruence].
    specialize (Hrow eq_refl).
    eapply triple_bind.
    { apply triple_on_error with (E' := fun e d => errors_is errResultRejected e = false).
      - apply triple_query with (Q := fun acts d => (forall a, a ∈ acts <-> assigned_to d0 deviceID a)
          /\ d = d0); [|done]. intros d ->. split; [|done]. intros a. by rewrite elem_of_order_by, elem_of_assigned.
      - intros e'. apply triple_fail. intros _ He Hr. simpl in Hr. congruence. }
    intros acts. apply triple_pure. intros Hacts.
    destruct (List.find _ acts) as [act|] eqn:Hfind.
    2: { apply triple_fail. intros _ _ _. do 4 right. intros (act & Hact & Hid).
         apply Hacts, list_elem_of_In in Hact. eapply find_none in Hfind; [|exact Hact].
         by apply bool_decide_eq_false in Hfind. }
    destruct (executableAction _ _) as [a|e'] eqn:Hex.
    2: { apply triple_fail. intros _ _ Hr. simpl in Hr. unfold executableAction, proto_Unmarshal in Hex.
         destruct (unmarshal _); [case_bool_decide; [done|]|]; by injection Hex as <-. }
    eapply (triple_bind _ _ _ (fun n _ => n = 1 /\ True)).
    { apply triple_on_error with (E' := unrelated).
      - apply triple_sql; [|done]. intros t d ->. rewrite Hrow. by destruct (_ && _).
      - intros e'. apply triple_fail. intros _ He Hr. simpl in Hr. congruence. }
    intros n. apply triple_pure. intros ->. simpl.
    apply triple_bind_draw. intros id. apply triple_bind_draw. intros t.
    eapply triple_conseq; [apply (CreateAuditEvent_unrelated (fun _ => True))|done|done|].
    intros e' d He Hr. simpl in He. congruence.
Qed.

Lemma storeActionResult_refusal ctx r d0 :
  WellFormed d0 ->
  triple (fun d => d = d0) (storeActionResult ctx deviceID (Some r)) (fun _ _ => True)
    (fun e d => d = d0 /\ (errors_is errResultRejected e = true -> refused d0 r)).
Proof.
  intros Hwf. unfold storeActionResult. cbv zeta. unfold refused.
  destruct (Result_CompletedAt r) as [ts|] eqn:Hts; [|apply triple_fail; intros d ->; tauto].
  case_bool_decide as Hlen; simpl; [|apply triple_fail; intros d ->; tauto].
  destruct (CheckValid ts) eqn:Hv; simpl; [|apply triple_fail; intros d ->; split; [done|]].
  2: { intros _. do 2 right. left. by exists ts. }
  destruct (proto_Marshal r) as [blob|e] eqn:Hm.
  2: { apply triple_fail. intros d ->. split; [done|]. unfold proto_Marshal in Hm.
       destruct (marshal r); [done|]. by injection Hm as <-. }
  unfold Transaction. eapply triple_transaction_error; [by apply storeTransaction_refusal|..].
  - intros e d d' -> He. split; [done|]. intros Hr. specialize (He Hr). unfold refused in He.
    rewrite Hts in He. exact He.
  - intros d ->. by split.
  - intros d ->. by split.
Qed.

(** ** One delivery *)

Context (ctx : Context) (hello : Hello) (link : nat -> Link).

(** The control plane after a delivery of [r]: nothing changed, or [r] is stored. *)
Definition received (s s' : Database) (r : ActionResult) : Prop :=
  s' = s \/
  exists row, execution_results s !! GetValue (Result_RunId r) = None /\
    execution_results s' = <[GetValue (Result_RunId r) := row]> (execution_results s) /\
    ExecutionResult_DeviceID row = deviceID /\ unmarshal (ExecutionResult_ResultBlob row) = Some r /\
    same_but_audit (set_execution_results (execution_results s') s) s'.

Lemma storeActionResult_received s r :
  WellFormed s ->
  triple (fun d => d = s) (storeActionResult ctx deviceID (Some r))
    (fun _ s' => WellFormed s' /\ received s s' r /\ stored s' r)
    (fun e s' => s' = s /\ (errors_is errResultRejected e = true -> refused s r)).
Proof.
  intros Hwf.
  eapply triple_conseq with (P' := fun d => (d = s /\ d = s) /\ WellFormed d);
    [|by intros d ->| |].
  { apply triple_and; [apply triple_and|].
    - by apply storeActionResult_stores.
    - by apply storeActionResult_refusal.
    - apply storeActionResult_preserves. }
  - intros [] s' [[[Hadd Hst] _] Hwf']. split; [done|]. split; [|done].
    destruct Hadd as [->|(row & act & Hnone & Hres & _ & _ & Hsame)]; [by left|]. right.
    destruct Hst as (row' & Hrow' & Hdev & Hun). exists row.
    rewrite Hres, lookup_insert_eq in Hrow'. injection Hrow' as ->. by split_and!.
  - intros e s' [[_ He] _]. exact He.
Qed.

(** What the agent may conclude from the answer. *)
Lemma server_send_spec s r :
  WellFormed s ->
  triple (fun d => d = s) (server_send ctx deviceID hello link r)
    (fun err s' => WellFormed s' /\ received s s' r /\
       match err with
       | None => stored s' r
       | Some e => errors_is ErrResultRejected e = true -> refused s' r
       end)
    (fun _ _ => False).
Proof.
  intros Hwf. unfold server_send. apply triple_bind_draw. intros how.
  assert (forall how, how <> Lost -> triple (fun d => d = s)
    (id ← ulid_make; reply ← attempt (handleAgentMessage ctx deviceID hello
        {| AgentMessage_Id := Some id; AgentMessage_Payload := AgentMessage_ActionResult (Some r) |});
      mret match how, reply with
           | Answered, Ok reply => ack_error reply
           | _, _ => Some ErrNoAnswer
           end)
    (fun err s' => WellFormed s' /\ received s s' r /\
       match err with
       | None => stored s' r
       | Some e => errors_is ErrResultRejected e = true -> refused s' r
       end) (fun _ _ => False)) as Hsent.
  { intros how' _. apply triple_bind_draw. intros id.
    eapply (triple_bind _ _ _ (fun reply s' => WellFormed s' /\ received s s' r /\
      match reply with
      | Ok reply => match ack_error reply with
          | None => stored s' r
          | Some e => errors_is ErrResultRejected e = true -> refused s' r
          end
      | Err _ => True
      end)).
    - eapply (triple_attempt _ _ _ _ (fun reply s' => WellFormed s' /\ received s s' r /\
        match reply with
        | Ok reply => match ack_error reply with
            | None => stored s' r
            | Some e => errors_is ErrResultRejected e = true -> refused s' r
            end
        | Err _ => True
        end)); [|done].
      unfold handleAgentMessage. simpl.
      eapply triple_bind.
      { eapply (triple_attempt _ _ _ _ (fun st s' => WellFormed s' /\ received s s' r /\
          match st with Ok _ => stored s' r | Err e => errors_is errResultRejected e = true -> refused s' r end));
          [|intros st d Hd; exact Hd].
        eapply triple_conseq; [by apply storeActionResult_received|done|done|].
        intros e s' [-> He]. split; [done|]. split; [by left|done]. }
      intros [[]|e].
      + apply triple_ret. intros d Hd. exact Hd.
      + destruct (errors_is errResultRejected e) eqn:He.
        * apply triple_ret. intros d (? & ? & Hr). split_and!; [done|done|]. intros _. by apply Hr.
        * apply triple_fail. intros d (? & ? & _). by split_and!.
    - intros reply. apply triple_ret. intros d (? & ? & Hr). split_and!; [done|done|].
      destruct how', reply as [reply|e]; try done; by destruct (ack_error reply). }
  destruct how; [|by apply (Hsent AnswerLost)|by apply (Hsent Answered)].
  apply triple_ret. intros d ->. split; [done|]. split; [by left|done].
Qed.

(** ** The control plane's results grow *)

(** Only results were added. *)
Definition grows (s s' : Database) : Prop :=
  (forall run row, execution_results s !! run = Some row -> execution_results s' !! run = Some row) /\
  same_but_audit (set_execution_results (execution_results s') s) s'.

Lemma stored_grows s s' r : grows s s' -> stored s r -> stored s' r.
Proof.
  intros [Hsub _] (row & Hrow & Hd & Hu). exists row. split_and!; [by apply Hsub|done..].
Qed.

Lemma refused_grows s s' r : grows s s' -> refused s r -> refused s' r.
Proof.
  intros [Hsub Hsame] [?|[?|[?|[(row & Hrow & Hno)|Hno]]]]; unfold refused; [tauto..| |].
  - do 3 right. left. exists row. split; [by apply Hsub|].
    intros (row' & Hrow' & Hrest). apply Hno. exists row. split; [done|].
    apply Hsub in Hrow.
    by assert (row' = row) as -> by congruence.
  - do 4 right. intros (act & Hact & Hid). apply Hno. exists act. split; [|done].
    unfold same_but_audit in Hsame. by rewrite Hsame in Hact.
Qed.

Lemma grows_refl s : grows s s.
Proof. split; [tauto|]. by destruct s. Qed.

Lemma grows_trans s1 s2 s3 : grows s1 s2 -> grows s2 s3 -> grows s1 s3.
Proof.
  intros [Hsub Hsame] [Hsub' Hsame']. split; [intros run row Hr; by apply Hsub', Hsub|].
  unfold same_but_audit in *. rewrite Hsame', Hsame. by destruct s1.
Qed.

Lemma received_grows s s' r : received s s' r -> grows s s'.
Proof.
  intros [->|(row & Hnone & Hres & _ & _ & Hsame)]; [apply grows_refl|]. split; [|done].
  intros run x Hx. rewrite Hres, lookup_insert_ne; [done|]. intros <-. congruence.
Qed.

Lemma received_new s s' r run row :
  received s s' r -> execution_results s' !! run = Some row ->
  execution_results s !! run = Some row \/
  (GetValue (Result_RunId r) = run /\ ExecutionResult_DeviceID row = deviceID /\
   unmarshal (ExecutionResult_ResultBlob row) = Some r).
Proof.
  intros [->|(row' & _ & Hres & Hd & Hu & _)]; [by left|]. rewrite Hres.
  intros [[<- <-]|[_ ?]]%lookup_insert_Some; [by right|by left].
Qed.

Context `{!ProtoLaws Action, !DeterministicMarshal, !MapRange, !MapRangeLaws} (meanwhile : Meanwhile).

#[local] Instance remote : Remote Database := server_remote ctx deviceID hello link.

(** ** Where the reports went *)

(** The report had the sequence number at the beginning, or was made since. *)
Definition produced (L0 : Ledger) (es : list event) (n : Z) (r : ActionResult) : Prop :=
  reports L0 !! n = Some r \/ exists w run, Finished w run n r ∈ es.

(** The events [es] led from the ledger [L0] to [L] while the control plane went from [s0] to
    [s]: every report is in the outbox, stored or refused, the control plane has no other
    results than it had and these reports, and those of [pending] are in the outbox. *)
Record settles (L0 : Ledger) (s0 s : Database) (pending : list PendingResult) (es : list event) (L : Ledger) : Prop := {
  st_steps : ledger_steps L0 es L;
  st_bound : forall n r, reports L !! n = Some r -> n <= last_report L;
  st_settled : forall n r, produced L0 es n r -> reports L !! n = Some r \/ stored s r \/ refused s r;
  st_new : forall run row, execution_results s !! run = Some row ->
    execution_results s0 !! run = Some row \/
    exists n r, produced L0 es n r /\ GetValue (Result_RunId r) = run /\
      ExecutionResult_DeviceID row = deviceID /\ unmarshal (ExecutionResult_ResultBlob row) = Some r;
  st_pending : forall p, p ∈ pending -> reports L !! Pending_Sequence p = Some (Pending_ActionResult p);
}.

Lemma produced_snoc L0 es e n r : produced L0 es n r -> produced L0 (es ++ [e]) n r.
Proof.
  intros [?|(w & run & Hin)]; [by left|right]. exists w, run. apply elem_of_app. by left.
Qed.

Lemma produced_snoc_cases L0 es e n r :
  produced L0 (es ++ [e]) n r -> produced L0 es n r \/ exists w run, e = Finished w run n r.
Proof.
  intros [?|(w & run & [Hin|Hin%list_elem_of_singleton]%elem_of_app)]; [left; by left|left; right; eauto|right; eauto].
Qed.

Lemma reports_produced L0 es L : ledger_steps L0 es L -> forall n r, reports L !! n = Some r -> produced L0 es n r.
Proof.
  induction 1 as [|es e L L' _ IH Hstep]; [by left|]. intros n r.
  destruct Hstep as [L work run dg _ _|L work run report _ _ _|L m]; simpl.
  - intros Hr. by apply produced_snoc, IH.
  - intros [[<- <-]|[_ Hr]]%lookup_insert_Some; [|by apply produced_snoc, IH].
    right. exists work, run. apply elem_of_app. right. by left.
  - intros [_ Hr]%lookup_delete_Some. by apply produced_snoc, IH.
Qed.

Lemma settles_work L0 s0 s pending : work_closed (settles L0 s0 s pending).
Proof.
  intros es L e L' [Hsteps Hbound Hsettled Hnew Hpending] Hstep He.
  assert (forall n r, reports L !! n = Some r -> reports L' !! n = Some r) as Hkept.
  { intros n r Hr. destruct Hstep as [| |L m]; [done| |by destruct (He m)]. simpl.
    rewrite lookup_insert_ne; [done|]. apply Hbound in Hr. lia. }
  split; [by eapply steps_snoc| | | |].
  - intros n r. destruct Hstep as [| |L m]; simpl; [apply Hbound| |intros [_ Hr]%lookup_delete_Some; by eapply Hbound].
    intros [[<- _]|[_ Hr]]%lookup_insert_Some; [done|]. apply Hbound in Hr. lia.
  - intros n r [Hp|(w & run & ->)]%produced_snoc_cases.
    + destruct (Hsettled n r Hp); [left; by apply Hkept|by right].
    + left. inversion Hstep; subst; simpl. by rewrite lookup_insert_eq.
  - intros run row [?|(n & r & Hp & Hrest)]%Hnew; [by left|right]. exists n, r. split; [by apply produced_snoc|done].
  - intros p Hp. by apply Hkept, Hpending.
Qed.

(** A report was sent, and the control plane may have received it. *)
Lemma settles_received L0 s0 s s' p pending es L :
  received s s' (Pending_ActionResult p) -> settles L0 s0 s (p :: pending) es L -> settles L0 s0 s' (p :: pending) es L.
Proof.
  intros Hrec [Hsteps Hbound Hsettled Hnew Hpending]. pose proof (received_grows _ _ _ Hrec) as Hg. split; [done..| | |done].
  - intros n r [?|[?|?]]%Hsettled; [by left|right; left; by eapply stored_grows|right; right; by eapply refused_grows].
  - intros run row [?|(Hrun & Hdev & Hun)]%(received_new _ _ _ _ _ Hrec); [by apply Hnew|].
    right. exists (Pending_Sequence p), (Pending_ActionResult p). split_and!; [|done..].
    eapply reports_produced; [exact Hsteps|]. apply Hpending. by left.
Qed.

Lemma settles_deleted L0 s0 s p pending es L :
  stored s (Pending_ActionResult p) \/ refused s (Pending_ActionResult p) ->
  Pending_Sequence p ∉ Pending_Sequence <$> pending -> settles L0 s0 s (p :: pending) es L ->
  settles L0 s0 s pending (es ++ [Delivered (Pending_Sequence p)])
    (mkLedger (open_runs L) (delete (Pending_Sequence p) (reports L)) (last_report L)).
Proof.
  intros Hst Hnin [Hsteps Hbound Hsettled Hnew Hpending].
  split; [eapply steps_snoc; [exact Hsteps|apply step_deliver]| | | |]; simpl.
  - intros n r [_ Hr]%lookup_delete_Some. by eapply Hbound.
  - intros n r [Hp|(w & run & ?)]%produced_snoc_cases; [|done].
    destruct (Hsettled n r Hp) as [Hr|?]; [|by right]. destruct (decide (n = Pending_Sequence p)) as [->|Hne].
    + rewrite (Hpending p ltac:(by left)) in Hr. injection Hr as <-. by right.
    + left. by rewrite lookup_delete_ne.
  - intros run row [?|(n & r & Hp & Hrest)]%Hnew; [by left|right]. exists n, r. split; [by apply produced_snoc|done].
  - intros q Hq. rewrite lookup_delete_ne; [apply Hpending; by right|]. intros Heq. apply Hnin. rewrite Heq.
    by apply list_elem_of_fmap_2.
Qed.

Lemma settles_fewer L0 s0 s pending es L : settles L0 s0 s pending es L -> settles L0 s0 s [] es L.
Proof. intros []. split; try done. by intros p Hp%elem_of_nil. Qed.

(** ** Along a session *)

Definition sending (a0 : AgentDatabase) (s0 : Database) (pending : list PendingResult) (d : AgentDatabase * Database) : Prop :=
  WellFormed d.2 /\ grows s0 d.2 /\ tracked (settles (ledger a0) s0 d.2 pending) d.1.

(** What delivering, from the agent's database [a0] and the control plane's [s0], may have
    come to. *)
Definition delivering (a0 : AgentDatabase) (s0 : Database) : AgentDatabase * Database -> Prop := sending a0 s0 [].

Lemma sending_fewer a0 s0 pending d : sending a0 s0 pending d -> delivering a0 s0 d.
Proof.
  intros (Hwf & Hg & Hinv & es & Hes). split_and!; [done..|]. split; [done|]. exists es. by eapply settles_fewer.
Qed.

Lemma delivering_start a s : StoreInv a -> WellFormed s -> delivering a s (a, s).
Proof.
  intros Hinv Hwf. split_and!; [done|apply grows_refl|]. split; [done|]. exists []. split; [constructor| | | |].
  - intros n r. simpl. rewrite lookup_omap_Some. intros (o & _ & Ho). destruct (inv_outbox _ Hinv n o Ho) as (_ & ? & _). lia.
  - intros n r [?|(w & run & Hin%elem_of_nil)]; [by left|done].
  - by left.
  - by intros p Hp%elem_of_nil.
Qed.

Lemma perform_keeps {D A} (I : D -> Prop) (m : M D A) :
  preserves I m -> triple I (perform m) (fun _ => I) (fun _ _ => False).
Proof.
  intros Hm env w Hw. unfold perform, attempt, mbind, M_bind. specialize (Hm env w Hw). by destruct (m env w) as [[a|e] w'].
Qed.

Lemma perform_work_keeps C op :
  work_closed C -> triple (tracked C) (perform_work op) (fun _ => tracked C) (fun _ _ => False).
Proof.
  intros HC. destruct op; apply perform_keeps;
    [by apply RecoverInterruptedActions_tracked|apply GetDueScheduledWork_preserves|by apply BeginActionRun_tracked
    |by apply RecordActionResult_tracked|apply ReconcilePolicy_tracked].
Qed.

Lemma works_keep C ops :
  work_closed C -> triple (tracked C) (for_each perform_work ops) (fun _ => tracked C) (fun _ _ => False).
Proof.
  intros HC. induction ops as [|op ops IH]; simpl; [by apply triple_ret|].
  eapply triple_bind; [by apply perform_work_keeps|]. intros []. apply IH.
Qed.

(** How a session that does not return ends. *)
Definition ended (a0 : AgentDatabase) (s0 : Database) (e : error) (d : AgentDatabase * Database) : Prop :=
  e = ErrProcessEnded /\ delivering a0 s0 d.

Lemma others_work_keeps a0 s0 pending (P : Database -> Prop) :
  triple (fun d => sending a0 s0 pending d /\ P d.2) (others_work meanwhile)
    (fun _ d => sending a0 s0 pending d /\ P d.2) (ended a0 s0).
Proof.
  unfold others_work. apply triple_bind_draw. intros [[] ops]; simpl.
  { apply triple_fail. intros d [Hd _]. split; [done|by eapply sending_fewer]. }
  apply triple_on_fst. intros s. unfold sending. simpl. intros env w ((Hwf & Hg & Htr) & HP).
  pose proof (works_keep _ ops (settles_work (ledger a0) s0 s pending) env w Htr) as Hops.
  by destruct (for_each perform_work ops env w) as [[u|e] w'].
Qed.

(** The state while the report of [p] has an answer. *)
Definition answered (a0 : AgentDatabase) (s0 : Database) p pending (d : AgentDatabase * Database) : Prop :=
  sending a0 s0 (p :: pending) d /\ (stored d.2 (Pending_ActionResult p) \/ refused d.2 (Pending_ActionResult p)).

Lemma send_keeps a0 s0 p pending :
  triple (sending a0 s0 (p :: pending)) (on_snd (SendActionResult (Pending_ActionResult p)))
    (fun err d => if match err with Some e => errors_is ErrResultRejected e | None => true end
       then answered a0 s0 p pending d else sending a0 s0 (p :: pending) d) (fun _ _ => False).
Proof.
  apply triple_on_snd. intros a. apply triple_at. intros s (Hwf & Hg & Hinv & es & Hes). simpl in *.
  eapply triple_conseq; [by apply (server_send_spec s)|by intros ? ->| |done].
  intros err s' (Hwf' & Hrec & Hans).
  assert (sending a0 s0 (p :: pending) (a, s')) as Hs.
  { split; [done|]. split; [by eapply grows_trans, received_grows|]. split; [done|]. exists es. by eapply settles_received. }
  destruct err as [e|]; [|by split; [|left]]. destruct (errors_is ErrResultRejected e) eqn:He; [|done].
  split; [done|]. right. by apply Hans.
Qed.

Lemma delete_keeps a0 s0 p pending :
  Pending_Sequence p ∉ Pending_Sequence <$> pending ->
  triple (answered a0 s0 p pending) (attempt (on_fst (DeletePendingResult (Pending_Sequence p))))
    (fun deleted d => match deleted with Ok _ => sending a0 s0 pending d | Err _ => delivering a0 s0 d end) (fun _ _ => False).
Proof.
  intros Hnin. set (Q := fun (deleted : result unit) d => _). eapply (triple_attempt _ _ _ _ Q); [|done].
  apply triple_on_fst. intros s. apply triple_at. intros a [(Hwf & Hg & Htr) Hans]. simpl in *.
  eapply triple_conseq; [apply (DeletePendingResult_tracked (settles (ledger a0) s0 s (p :: pending)) (settles (ledger a0) s0 s pending))
    |by intros ? ->|by intros [] d Hd|].
  - intros es L. by apply settles_deleted.
  - intros e d Hd. by apply (sending_fewer a0 s0 (p :: pending)).
Qed.

Lemma sendResults_keeps a0 s0 results :
  NoDup (Pending_Sequence <$> results) ->
  triple (sending a0 s0 results) (sendResults meanwhile results) (fun _ => delivering a0 s0) (ended a0 s0).
Proof.
  induction results as [|p results IH]; simpl; intros Hnd; [by apply triple_ret|].
  csimpl in Hnd. apply NoDup_cons in Hnd as [Hnin Hnd].
  eapply triple_bind; [eapply triple_conseq; [apply send_keeps|done|intros err d Hd; exact Hd|done]|].
  intros err. destruct (match err with Some e => errors_is ErrResultRejected e | None => true end) eqn:He; simpl.
  2: { apply triple_ret. intros d Hd. rewrite He in Hd. by eapply sending_fewer. }
  eapply triple_bind with (R := fun _ => answered a0 s0 p results).
  { eapply triple_conseq; [apply (others_work_keeps a0 s0 (p :: results)
      (fun s => stored s (Pending_ActionResult p) \/ refused s (Pending_ActionResult p)))|intros d Hd; rewrite He in Hd; exact Hd|done|done]. }
  intros [].
  eapply triple_bind; [eapply triple_conseq; [by apply delete_keeps|done|intros deleted d Hd; exact Hd|done]|].
  intros [[]|e]; [by apply IH|by apply triple_ret].
Qed.

Lemma fwd_GetPendingResults a0 :
  StoreInv a0 ->
  triple (fun a => a = a0) GetPendingResults
    (fun results a => ((forall p, p ∈ results ->
        reports (ledger a0) !! Pending_Sequence p = Some (Pending_ActionResult p)) /\
      NoDup (Pending_Sequence <$> results)) /\ a = a0) (fun _ a => a = a0).
Proof.
  intros Hinv. unfold GetPendingResults.
  eapply triple_bind with (R := fun rows a => rows = ((fun r => (Outbox_Sequence r, Outbox_Payload r)) <$>
    order_by by_sequence (select_where (fun _ => true) (result_outbox a0))) /\ a = a0).
  { apply triple_query; [|done]. by intros a ->. }
  intros rows. apply triple_pure. intros ->.
  eapply triple_conseq; [apply (triple_map_m_lift (fun a => a = a0))|done| |done].
  intros results a [Hall ->]. split; [|done]. split.
  - intros p [i Hp]%list_elem_of_lookup. destruct (Forall2_lookup_r _ _ _ _ _ Hall Hp) as (row & Hrow & Hf).
    apply list_elem_of_lookup_2, list_elem_of_fmap in Hrow as (o & -> & Ho). simpl in Hf.
    apply elem_of_order_by, elem_of_select_where in Ho as [_ [k Hk]].
    destruct (inv_outbox _ Hinv _ _ Hk) as (<- & _).
    destruct (proto_Unmarshal (Outbox_Payload o)) as [r|] eqn:Hu; [|done]. injection Hf as <-.
    simpl. rewrite lookup_omap, Hk. by apply proto_Unmarshal_ok in Hu.
  - assert (Pending_Sequence <$> results =
      Outbox_Sequence <$> order_by by_sequence (select_where (fun _ => true) (result_outbox a0))) as ->.
    { revert Hall. generalize (order_by by_sequence (select_where (fun _ => true) (result_outbox a0))) as os.
      intros os. revert results.
      induction os as [|o os IH]; csimpl; intros results; inversion 1 as [|x p xs ps Hf Htail]; subst; [done|].
      csimpl. rewrite (IH ps Htail). simpl in Hf. destruct (proto_Unmarshal _); [|done].
      by injection Hf as <-. }
    rewrite order_by_perm. apply (select_where_NoDup Outbox_Sequence).
    intros k o Hk. by destruct (inv_outbox _ Hinv _ _ Hk) as (<- & _).
Qed.

Lemma pending_keeps a0 s0 :
  triple (delivering a0 s0) (attempt (on_fst GetPendingResults))
    (fun results d => match results with
       | Ok results => NoDup (Pending_Sequence <$> results) /\ sending a0 s0 results d
       | Err _ => delivering a0 s0 d
       end) (fun _ _ => False).
Proof.
  set (Q := fun (results : result (list PendingResult)) d => _). eapply (triple_attempt _ _ _ _ Q); [|done].
  apply triple_on_fst. intros s. apply triple_at. intros a (Hwf & Hg & Hinv & es & Hes). simpl in *.
  eapply triple_conseq; [by apply fwd_GetPendingResults|by intros ? ->| |].
  - intros results d [[Hres Hnd] ->]. do 4 (split; [done|]). exists es.
    destruct Hes. by split.
  - intros e d ->. do 3 (split; [done|]). by exists es.
Qed.

Lemma syncPendingResults_keeps a0 s0 :
  triple (delivering a0 s0) (syncPendingResults meanwhile) (fun _ => delivering a0 s0) (ended a0 s0).
Proof.
  unfold syncPendingResults. eapply triple_bind; [eapply triple_conseq; [apply pending_keeps|done|intros ? ? Hd; exact Hd|done]|].
  intros [results|e]; [|by apply triple_ret]. apply triple_pure. apply sendResults_keeps.
Qed.

Lemma sendScheduledResults_keeps a0 s0 signals :
  triple (delivering a0 s0) (sendScheduledResults meanwhile signals) (fun _ => delivering a0 s0) (ended a0 s0).
Proof.
  induction signals as [|signals IH]; simpl; (eapply triple_bind; [apply syncPendingResults_keeps|]; intros []).
  - by apply triple_ret.
  - eapply triple_bind with (R := fun _ => delivering a0 s0); [|intros []; apply IH].
    eapply triple_conseq; [apply (others_work_keeps a0 s0 [] (fun _ => True))|done|by intros ? ? []|done].
Qed.

(** ** From a run to its result *)

Lemma began_at_least run es w dg : Began w run dg ∈ es -> (1 <= began run es)%nat.
Proof.
  intros [i Hi]%list_elem_of_lookup. rewrite <- (take_drop_middle _ _ _ Hi). unfold began.
  rewrite List.filter_app, length_app. simpl. rewrite bool_decide_true by done. simpl. lia.
Qed.

Lemma finished_event run es : (1 <= finished run es)%nat -> exists w n r, Finished w run n r ∈ es.
Proof.
  unfold finished. induction es as [|e es IH]; simpl; [lia|]. intros Hlen.
  assert ((exists w n r, e = Finished w run n r) \/ (1 <= finished run es)%nat) as [(w & n & r & ->)|Hes].
  { unfold finished. destruct e as [|w run' n r|]; simpl in Hlen; [by right| |by right].
    case_bool_decide; [subst; left; eauto|by right]. }
  - exists w, n, r. by left.
  - destruct (IH Hes) as (w & n & r & Hin). exists w, n, r. by right.
Qed.

(** What became of a run. *)
Definition run_known (L : Ledger) (s : Database) (run : string) : Prop :=
  is_open run L \/
  exists n r, GetValue (Result_RunId r) = run /\ (reports L !! n = Some r \/ stored s r \/ refused s r).

Lemma delivering_runs s0 d :
  delivering empty_agent_database s0 d ->
  exists es, ledger_steps empty_ledger es (ledger d.1) /\
    forall w run digest, Began w run digest ∈ es -> run_known (ledger d.1) d.2 run.
Proof.
  intros (_ & _ & _ & es & [Hsteps _ Hsettled _ _]). assert (ledger empty_agent_database = empty_ledger) as He.
  { unfold ledger. simpl. by rewrite !omap_empty. }
  rewrite He in *. exists es. split; [done|]. intros w run digest Hbegan%began_at_least.
  destruct (ledger_steps_accounted _ _ Hsteps run) as [[Hopen _]|[_ Heq]]; [by left|]. right.
  destruct (finished_event run es ltac:(lia)) as (w' & n & r & Hin).
  destruct (ledger_steps_reported _ _ Hsteps) as [_ [_ Hrep]]. destruct (Hrep _ _ _ _ Hin) as (_ & _ & Hrun & _).
  exists n, r. split; [done|]. apply Hsettled. right. eauto.
Qed.

End facts.

(** ** An answering control plane drains the outbox *)

Section drain.
Context `{!ProtoCodec Action, !ProtoCodec ActionResult, !ProtoLaws ActionResult, !DeterministicMarshal, !MapRange}.
Context {R : Type} `{!Remote R} (meanwhile : Meanwhile).

(** The other goroutines are idle. *)
Definition idle : Prop := forall n, works meanwhile n = [] /\ dies meanwhile n = false.

Lemma quiet_others env (d : AgentDatabase * R) n :
  idle -> others_work meanwhile env (mkWorld d n) = (Ok tt, mkWorld d (S n)).
Proof.
  intros Hi. destruct (Hi n) as [Hw He]. unfold others_work, mbind, M_bind, draw. simpl. rewrite Hw, He. simpl. by destruct d.
Qed.

(** Every request is answered: the result is acknowledged or rejected. *)
Definition answers : Prop := forall r,
  triple (fun _ => True) (SendActionResult r)
    (fun err _ => match err with Some e => errors_is ErrResultRejected e = true | None => True end)
    (fun _ _ => False).

Lemma quiet_sendResults results env a (s : R) n :
  quiet env -> idle -> answers ->
  exists s' n', sendResults meanwhile results env (mkWorld (a, s) n) =
    (Ok tt, mkWorld (mkAgentDatabase (scheduled_work a)
       (fold_left (fun m p => delete (Pending_Sequence p) m) results (result_outbox a))
       (outbox_sequence a), s') n').
Proof.
  intros Hq Hi Hans. revert a s n. induction results as [|p results IH]; intros a s n; simpl.
  { exists s, n. by destruct a. }
  unfold mbind at 1, M_bind at 1. unfold on_snd. simpl.
  pose proof (Hans (Pending_ActionResult p) env (mkWorld s n) I) as Hsend.
  destruct (SendActionResult _ env _) as [[err|e] [s1 n1]]; [|done].
  assert (match err with Some e => errors_is ErrResultRejected e | None => true end = true) as ->
    by by destruct err. simpl.
  unfold mbind at 1, M_bind at 1. rewrite quiet_others by done. cbn.
  unfold mbind, M_bind, attempt, on_fst, DeletePendingResult, DeletePendingResult_query. simpl.
  rewrite quiet_sql by done. simpl.
  destruct (IH (mkAgentDatabase (scheduled_work a) (delete (Pending_Sequence p) (result_outbox a))
    (outbox_sequence a)) s1 (S (S n1))) as (s' & n' & Heq). rewrite Heq. by exists s', n'.
Qed.

Lemma fold_delete_lookup {V} (l : list PendingResult) (m : gmap Z V) k :
  fold_left (fun m p => delete (Pending_Sequence p) m) l m !! k =
    if bool_decide (k ∈ Pending_Sequence <$> l) then None else m !! k.
Proof.
  revert m. induction l as [|p l IH]; intros m; csimpl; [done|].
  rewrite IH. destruct (decide (k = Pending_Sequence p)) as [->|Hne].
  - rewrite lookup_delete_eq, (bool_decide_true (_ ∈ _ :: _)) by by left. by case_bool_decide.
  - rewrite lookup_delete_ne by done.
    rewrite (bool_decide_ext (k ∈ _ :: _) (k ∈ Pending_Sequence <$> l)); [done|].
    rewrite elem_of_cons. naive_solver.
Qed.

(** While the control plane answers and the agent's database does not fail, one
    delivery empties the outbox: the reports are sent in the order of their sequence
    numbers, nothing else of the agent's state changes, and no report is left. *)
Theorem syncPendingResults_drains env a (s : R) n :
  quiet env -> idle -> StoreInv a -> answers ->
  exists a' s' n', syncPendingResults meanwhile env (mkWorld (a, s) n) = (Ok tt, mkWorld (a', s') n') /\
    scheduled_work a' = scheduled_work a /\ result_outbox a' = ∅ /\
    outbox_sequence a' = outbox_sequence a.
Proof.
  intros Hq Hi Hinv Hans. unfold syncPendingResults, mbind, M_bind, attempt, on_fst, GetPendingResults,
    GetPendingResults_query. simpl. unfold mbind at 1, M_bind at 1. rewrite quiet_query by done.
  set (os := order_by _ _).
  assert (forall o, o ∈ os <-> result_outbox a !! Outbox_Sequence o = Some o) as Hos.
  { intros o. unfold os. rewrite elem_of_order_by, elem_of_select_where. split; [|by eauto].
    intros [_ [k Hk]]. by destruct (inv_outbox _ Hinv _ _ Hk) as (-> & _). }
  assert (exists results, map_m (fun row => lift (match proto_Unmarshal row.2 with
      | Ok r => Ok {| Pending_Sequence := row.1; Pending_ActionResult := r |}
      | Err err => Err err end)) ((fun r => (Outbox_Sequence r, Outbox_Payload r)) <$> os) env
      (mkWorld a (S n)) = (Ok results, mkWorld a (S n)) /\
      Pending_Sequence <$> results = Outbox_Sequence <$> os) as (results & -> & Hseq).
  { assert (forall o, o ∈ os -> exists r, unmarshal (Outbox_Payload o) = Some r) as Hdec.
    { intros o Ho%Hos. by destruct (inv_outbox _ Hinv _ _ Ho) as (_ & _ & ?). }
    clear Hos. clearbody os. induction os as [|o os IH]; csimpl; [by exists []|].
    destruct IH as (results & Heq & Hseq); [intros; apply Hdec; by right|].
    destruct (Hdec o) as [r Hr]; [by left|].
    unfold mbind, M_bind, lift in *. unfold proto_Unmarshal at 1. rewrite Hr. rewrite Heq.
    eexists. split; [reflexivity|]. csimpl. by rewrite Hseq. }
  simpl. destruct (quiet_sendResults results env a s (S n) Hq Hi Hans) as (s' & n' & ->).
  do 3 eexists. split_and!; [reflexivity|done| |done]. simpl. apply map_eq. intros k.
  rewrite fold_delete_lookup, Hseq, lookup_empty. case_bool_decide as Hk; [done|].
  destruct (result_outbox a !! k) as [o|] eqn:Ho; [|done]. destruct Hk.
  destruct (inv_outbox _ Hinv _ _ Ho) as (<- & _). apply list_elem_of_fmap_2. by apply Hos.
Qed.
End drain.
