(* ===== verification/Sync.v ===== *)
(** * Pulling the policy ([agent/cmd/cadestrod/runtime.go], [contract/client.go])

    On every tick the agent asks the control plane for its desired policy over the
    stream and reconciles its work with the answer.  [pullDesiredPolicyFromControl]
    and [periodicSync] are stated over any source of policies; [server_pull] is the
    one the agent really has, the control plane's handler behind a connection. *)

From S2P Require Import Prelude Hash Engine Pair Quiet Proto Schema Queries QueriesFacts.
From S2P Require Import QueriesFrame.
From S2P Require Import Service Actions Assignments Pki AgentStream.
From S2P Require Import AgentStore AgentPolicy AgentLedger Delivery.

Open Scope Z_scope.

(** ** The agent's side *)

(** [client.PullDesiredPolicy]: the policy or the error. *)
Class PolicySource (R : Type) := { PullDesiredPolicy : M R (result DesiredPolicy) }.

Definition minute : Z := 60000000000.
Definition defaultPolicyRefreshInterval : Z := 30 * minute.

Section sync.
Context `{!ProtoCodec Action, !DeterministicMarshal, !MapRange}.
Context {R : Type} `{!PolicySource R}.

(** The policy's refresh interval, a [time.Duration]; zero without a policy. *)
Definition pullDesiredPolicyFromControl : M (AgentDatabase * R) Z :=
  policy ← on_snd PullDesiredPolicy;
  match policy with
  | Err _ => mret 0
  | Ok policy =>
      _ ← on_fst (perform (ReconcilePolicy (Some policy)));
      mret (int64 (RefreshIntervalMinutes policy * minute))
  end.

(** The loop, for the ticks before the context ends; the interval it leaves. *)
Fixpoint periodicLoop (ticks : nat) (interval : Z) : M (AgentDatabase * R) Z :=
  match ticks with
  | O => mret interval
  | S ticks =>
      updated ← pullDesiredPolicyFromControl;
      periodicLoop ticks (if (0 <? updated) && negb (updated =? interval) then updated else interval)
  end.

Definition periodicSync (ticks : nat) (interval : Z) : M (AgentDatabase * R) Z :=
  periodicLoop ticks (if interval <=? 0 then defaultPolicyRefreshInterval else interval).
End sync.

(** ** The control plane as the source *)

Section server.
Context `{!ProtoCodec Action, !ProtoCodec ActionResult, !DeterministicMarshal}.
Context (ctx : Context) (deviceID : string) (hello : Hello) (link : nat -> Link).

(** The wait in [client.PullDesiredPolicy]. *)
Definition policy_answer (reply : option ServerMessage) : result DesiredPolicy :=
  match reply with
  | Some m => match ServerMessage_Payload m with
    | ServerMessage_DesiredPolicy policy => Ok policy
    | _ => Err (ErrNew "unexpected desired policy response")
    end
  | None => Err (ErrNew "agent stream closed before desired policy response")
  end.

Definition server_pull : Queries (result DesiredPolicy) :=
  id ← ulid_make;
  how ← draw (fun _ n => link n);
  match how with
  | Lost => mret (policy_answer None)
  | _ =>
      reply ← attempt (handleAgentMessage ctx deviceID hello
        {| AgentMessage_Id := Some id; AgentMessage_Payload := AgentMessage_DesiredPolicyRequest |});
      mret match how, reply with
           | Answered, Ok reply => policy_answer reply
           | _, _ => policy_answer None
           end
  end.

#[export] Instance server_source : PolicySource Database := {| PullDesiredPolicy := server_pull |}.
End server.

(** ** The work converges to the assignments *)

(** The action the agent will run for the work [id]. *)
Definition live `{!ProtoCodec Action} (d : AgentDatabase) (id : string) (a : Action) : Prop :=
  exists row, scheduled_work d !! id = Some row /\ Work_Retired row = false /\
    unmarshal (Work_ActionBlob row) = Some a.

(** The action the control plane has assigned to the device under [id]. *)
Definition wanted `{!ProtoCodec Action} (s : Database) (deviceID id : string) (a : Action) : Prop :=
  exists act, assigned_to s deviceID act /\ ActionRow_ID act = id /\
    unmarshal (ActionRow_ActionBlob act) = Some a.

Section facts.
Context `{!ProtoCodec Action, !ProtoCodec ActionResult, !DeterministicMarshal, !MapRange}.
Context `{!ProtoLaws Action, !ProtoLaws ActionResult, !MapRangeLaws}.
Context (ctx : Context) (deviceID : string) (hello : Hello) (link : nat -> Link).

#[local] Instance source : PolicySource Database := server_source ctx deviceID hello link.

Lemma wanted_id s id a : StoredActions s -> wanted s deviceID id a -> Action_Id a = Some id.
Proof.
  intros Hst (act & [Hl _] & <- & Hu). destruct (Hst _ _ Hl) as (a' & Ha' & Hid & _). congruence.
Qed.

Lemma quietly_desiredPolicy s :
  WellFormed s -> StoredActions s ->
  quietly (fun d => d = s) (desiredPolicy ctx deviceID) (fun p _ => RefreshIntervalMinutes p = 5).
Proof.
  intros Hwf Hst. unfold desiredPolicy.
  eapply (quietly_bind _ _ _ (fun acts d => (forall act, act ∈ acts -> assigned_to s deviceID act) /\ d = s)).
  { apply quietly_on_error, quietly_query. intros d ->. eexists. split; [reflexivity|]. split; [|done].
    intros act. by rewrite elem_of_order_by, elem_of_assigned. }
  intros acts. apply quietly_pure. intros Hacts.
  eapply quietly_bind; [|intros es; by apply quietly_ret].
  apply quietly_on_error, (quietly_map_m_lift (fun d => d = s)). intros act Hact.
  destruct (Hacts act Hact) as [Hl _]. destruct (Hst _ _ Hl) as (a & Hu & Hid & _).
  exists a. unfold executableAction, proto_Unmarshal. rewrite Hu, Hid. simpl. by rewrite bool_decide_true.
Qed.

(** A policy that is the device's, as the agent needs it. *)
Definition device_policy (s : Database) (p : DesiredPolicy) : Prop :=
  RefreshIntervalMinutes p = 5 /\
  NoDup ((fun a => GetValue (Action_Id a)) <$> Policy_Actions p) /\
  forall a, a ∈ Policy_Actions p <-> exists id, wanted s deviceID id a.

Lemma strictly_sorted_NoDup (l : list Action) :
  StronglySorted (fun a b => str_lt (GetValue (Action_Id a)) (GetValue (Action_Id b)) = true) l ->
  NoDup ((fun a => GetValue (Action_Id a)) <$> l).
Proof.
  induction 1 as [|a l _ IH Hall]; csimpl; [constructor|]. apply NoDup_cons. split; [|done].
  intros (b & Heq & Hb)%list_elem_of_fmap. rewrite Forall_forall in Hall. specialize (Hall b Hb).
  rewrite Heq in Hall. by rewrite str_lt_irrefl in Hall.
Qed.

(** The answer to a pull. *)
Lemma quietly_server_pull s :
  (forall n, link n = Answered) -> WellFormed s -> StoredActions s ->
  quietly (fun d => d = s) (server_pull ctx deviceID hello link)
    (fun answer d => (exists p, answer = Ok p /\ device_policy s p) /\ d = s).
Proof.
  intros Hlink Hwf Hst. unfold server_pull. apply quietly_bind_draw. intros env n.
  apply quietly_bind_draw. intros env' n'. rewrite Hlink. unfold handleAgentMessage. simpl.
  set (answered := fun reply d => exists p, policy_answer reply = Ok p /\ device_policy s p /\ d = s).
  eapply (quietly_bind _ _ _ (fun r d => exists reply, r = Ok reply /\ answered reply d)).
  { apply quietly_attempt, (quietly_bind _ _ _ (fun p d => device_policy s p /\ d = s)).
    - eapply quietly_conseq; [eapply quietly_triple; [by apply quietly_desiredPolicy|by apply desiredPolicy_spec]|done|].
      intros p d (Hmin & -> & Hsorted & Hin). split; [|done]. split_and!; [done|by apply strictly_sorted_NoDup|].
      intros a. rewrite Hin. split; [intros (act & ? & ?); by exists (ActionRow_ID act), act|].
      intros (id & act & ? & _ & ?). by exists act.
    - intros p. apply quietly_ret. intros d [Hp ->]. by exists p. }
  intros reply. apply quietly_ret. intros d (r & -> & p & Hr & Hp & ->). split; [|done]. by exists p.
Qed.

(** The live works of a reconciled row. *)
Lemma reconciled_live now desired stored row x :
  becomes row (reconciled now desired stored) ->
  (exists r, row = Some r /\ Work_Retired r = false /\ unmarshal (Work_ActionBlob r) = Some x) <->
  desired = Some x.
Proof.
  intros (row' & Href & Hsame%same_row_cases). unfold reconciled, encoded in Href.
  assert (row' = None -> row = None) as Hnone by (intros ->; by destruct row).
  assert (forall y r, row' = Some y -> Work_Retired y = false -> unmarshal (Work_ActionBlob y) = Some r ->
    (exists z, row = Some z /\ Work_Retired z = false /\ unmarshal (Work_ActionBlob z) = Some x) <-> r = x) as Hsome.
  { intros y r -> Hret Hu. destruct row as [z|]; [|done].
    destruct Hsame as (_ & _ & Hblob & _ & Hret' & _). rewrite <- Hblob in Hu. rewrite <- Hret' in Hret.
    split; [intros (z' & [= <-] & _ & Hz); congruence|intros ->; by exists z]. }
  destruct desired as [a|], stored as [r|].
  - destruct (negb (Work_Retired r) && bool_decide _) eqn:Hkeep.
    + injection Href as <-. apply andb_true_iff in Hkeep as [Hret%negb_true_iff Hu%bool_decide_eq_true].
      rewrite (Hsome r a) by done. naive_solver.
    + destruct (marshal a) as [blob|] eqn:Hb; [|done]. injection Href as <-.
      rewrite (Hsome _ a eq_refl eq_refl (unmarshal_marshal _ _ Hb)). naive_solver.
  - destruct (marshal a) as [blob|] eqn:Hb; [|done]. injection Href as <-.
    rewrite (Hsome _ a eq_refl eq_refl (unmarshal_marshal _ _ Hb)). naive_solver.
  - injection Href as <-. destruct (Work_RunInProgress r); [|rewrite Hnone by done; naive_solver].
    destruct row as [z|]; [|done]. destruct Hsame as (_ & _ & _ & _ & Hret & _). simpl in Hret.
    split; [|done]. intros (y & [= <-] & Hy & _). congruence.
  - injection Href as <-. rewrite Hnone by done. naive_solver.
Qed.

(** A pull against a policy that is the device's. *)
Lemma quietly_ReconcilePolicy_wanted a s p :
  StoreInv a -> StoredActions s -> device_policy s p ->
  (forall id x, wanted s deviceID id x -> id <> EmptyString /\ is_Some (marshal x)) ->
  quietly (fun d => d = a) (ReconcilePolicy (Some p))
    (fun _ a' => StoreInv a' /\ ledger a' = ledger a /\ forall id x, live a' id x <-> wanted s deviceID id x).
Proof.
  intros Hinv Hst (_ & Hnd & Hin) Hok.
  assert (forall x, x ∈ Policy_Actions p -> GetValue (Action_Id x) <> EmptyString /\ is_Some (marshal x)) as Hacts.
  { intros x [id Hx]%Hin. rewrite (wanted_id s id x Hst Hx). exact (Hok id x Hx). }
  assert (forall id x, policy_action p id = Some x <-> wanted s deviceID id x) as Hpol.
  { intros id x. unfold policy_action. split.
    - intros [Hx%list_elem_of_In Hid%bool_decide_eq_true]%find_some. apply Hin in Hx as [k Hk].
      pose proof (wanted_id s k x Hst Hk) as Hk'. rewrite Hk' in Hid. simpl in Hid. by subst k.
    - intros Hx. pose proof (wanted_id s id x Hst Hx) as Hid.
      destruct (List.find _ _) as [y|] eqn:Hf.
      + apply find_some in Hf as [[k Hk]%list_elem_of_In%Hin Hy%bool_decide_eq_true].
        rewrite (wanted_id s k y Hst Hk) in Hy. simpl in Hy. subst k.
        destruct Hx as (act & [Hl _] & Ha & Hu), Hk as (act' & [Hl' _] & Ha' & Hu'). congruence.
      + eapply find_none in Hf; [|apply list_elem_of_In, Hin; by exists id].
        rewrite Hid in Hf. by apply bool_decide_eq_false in Hf. }
  eapply quietly_conseq with (P' := fun d => d = a);
    [eapply quietly_triple; [eapply quietly_triple|]|done|].
  - apply quietly_ReconcilePolicy; [by apply inv_keyed| |done|done].
    intros id row Hrow. destruct (inv_rows _ Hinv _ _ Hrow) as (_ & _ & (x & Hx & _) & _). by exists x.
  - by apply (ReconcilePolicy_ledger (Some p) a).
  - by apply (ReconcilePolicy_spec p a), inv_keyed.
  - intros [] a' ((_ & Hinv' & Hl) & _ & _ & now & Hrows & _). split_and!; [done..|].
    intros id x. rewrite <- Hpol. eapply reconciled_live, Hrows.
Qed.

(** C11: One pull makes the device run what the control plane assigns.  While nothing
    fails, an answered pull leaves the agent with a live work for exactly the actions
    assigned to the device, directly or through a group, each under its id and with
    the definition the control plane stores; the runs that are open and the reports
    of the agent are untouched, and so is the control plane; the next pull is due in
    five minutes. *)
Theorem pullDesiredPolicyFromControl_converges env a s n :
  quiet env -> (forall n, link n = Answered) -> StoreInv a -> WellFormed s -> StoredActions s ->
  (forall id x, wanted s deviceID id x -> id <> EmptyString /\ is_Some (marshal x)) ->
  exists a' n', pullDesiredPolicyFromControl env (mkWorld (a, s) n) = (Ok (5 * minute), mkWorld (a', s) n') /\
    StoreInv a' /\ (forall id x, live a' id x <-> wanted s deviceID id x) /\
    open_runs (ledger a') = open_runs (ledger a) /\ reports (ledger a') = reports (ledger a).
Proof.
  intros Hq Hlink Hinv Hwf Hst Hok.
  assert (quietly (fun d => d.1 = a /\ d.2 = s) pullDesiredPolicyFromControl
    (fun interval d => (interval = 5 * minute /\ StoreInv d.1 /\ ledger d.1 = ledger a /\
       (forall id x, live d.1 id x <-> wanted s deviceID id x)) /\ d.2 = s)) as Hpull.
  { unfold pullDesiredPolicyFromControl.
    eapply quietly_bind; [apply (quietly_on_snd _ a (fun d => d = s)); by apply quietly_server_pull|].
    intros answer.
    eapply quietly_conseq with (P' := fun d => (exists p, answer = Ok p /\ device_policy s p) /\
      (d.1 = a /\ d.2 = s)); [|intros d (? & ? & ?); by split_and!|intros x d Hd; exact Hd].
    apply quietly_pure. intros (p & -> & Hp).
    eapply quietly_bind.
    { apply (quietly_on_fst _ s (fun d => d = a)), quietly_perform.
      by apply (quietly_ReconcilePolicy_wanted a s p). }
    intros []. apply quietly_ret. intros d [(? & ? & ?) ?]. destruct Hp as [-> _]. by split_and!. }
  destruct (Hpull env (mkWorld (a, s) n) Hq (conj eq_refl eq_refl))
    as (interval & [[a' s'] n'] & Hrun & (-> & Hinv' & Hl & Hlive) & Hs). simpl in *. subst s'.
  exists a', n'. split_and!; [done..|exact (f_equal open_runs Hl)|exact (f_equal reports Hl)].
Qed.
End facts.
