(* ===== verification/AgentCerts.v ===== *)
(** * The agent's certificates ([agent/cmd/cadestrod/], [agent/internal/credentials])

    The agent's side of the certificate rotation whose server side is [Rotation].  The
    credentials live in a file; [runAgent] connects with the pending certificate if
    there is one, falls back to the active one when that fails, promotes the pending
    one once it was accepted, and renews.  A program here runs over the credential
    file and the control plane's database; faults of either, lost connections and
    crashes are the environment's. *)

From S2P Require Import Prelude Hash Engine Pair Quiet Pki Proto Schema Queries QueriesFacts.
From S2P Require Import QueriesFrame.
From S2P Require Import Service Demo Actions Assignments Devices Enrollment AgentStream Rotation.
From S2P Require Import Auth.
From S2P Require Import Strs Scheduler Delivery.

Open Scope Z_scope.

(** ** Credentials ([credentials.go]) *)

Record Credentials := {
  Creds_DeviceID : string;
  Creds_CACert : bytes;
  Creds_Certificate : bytes;
  Creds_PendingCertificate : bytes;
  Creds_PendingPrivateKey : bytes;
  Creds_PendingCSR : bytes;
  Creds_PrivateKey : bytes;
  Creds_AgentAddr : string;
}.

Definition Ready (c : option Credentials) : bool :=
  match c with
  | None => false
  | Some c =>
      negb (bool_decide (Creds_DeviceID c = EmptyString)) && negb (bool_decide (Creds_CACert c = []))
      && negb (bool_decide (Creds_Certificate c = [])) && negb (bool_decide (Creds_PrivateKey c = []))
      && negb (bool_decide (Creds_AgentAddr c = EmptyString))
      && bool_decide (Creds_PendingCSR c = []) && bool_decide (Creds_PendingPrivateKey c = [])
  end.

(** [encoding/json] writes U+FFFD for each byte that does not belong to a rune. *)
Definition rune_length (l : list Z) : option nat :=
  List.find (fun k => (k <=? length l)%nat && valid_utf8 (take k l)) [1%nat; 2%nat; 3%nat; 4%nat].

Fixpoint json_runes (fuel : nat) (l : list Z) : list Z :=
  match fuel, l with
  | S fuel, _ :: rest =>
      match rune_length l with
      | Some k => take k l ++ json_runes fuel (drop k l)
      | None => [239; 191; 189] ++ json_runes fuel rest
      end
  | _, _ => []
  end.

(** A string that was written to JSON and read back: every step takes a byte or more. *)
Definition json_text (s : string) : string :=
  let l := byte_to_Z <$> Hash.string_bytes s in
  Hash.bytes_string (byte_of_Z <$> json_runes (length l) l).

(** [json.Unmarshal] of [json.Marshal]: byte slices are written in base64. *)
Definition json_credentials (c : Credentials) : Credentials := {|
  Creds_DeviceID := json_text (Creds_DeviceID c); Creds_CACert := Creds_CACert c;
  Creds_Certificate := Creds_Certificate c; Creds_PendingCertificate := Creds_PendingCertificate c;
  Creds_PendingPrivateKey := Creds_PendingPrivateKey c; Creds_PendingCSR := Creds_PendingCSR c;
  Creds_PrivateKey := Creds_PrivateKey c; Creds_AgentAddr := json_text (Creds_AgentAddr c) |}.

(** What [credentials.json] reads as, if it exists. *)
Abbreviation CredentialFile := (option Credentials).

Definition ErrNotExist : error := ErrVar "file does not exist".

Section store.
(** Which reads fail: the directory's or the file's permissions, or I/O. *)
Context (unreadable : nat -> bool).

(** The file is replaced as a whole, or the call fails and leaves it. *)
Definition Save (creds : Credentials) : M CredentialFile unit := 
  sql (fun _ _ => Ok (tt, Some (json_credentials creds))).

Definition read_file {D} : M D D := fun _ w => (Ok (w_db w), w).

Definition Load : M CredentialFile Credentials :=
  bad ← draw (fun _ n => unreadable n);
  if (bad : bool) then fail (ErrNew "stat store directory")
  else
    file ← read_file;
    match file with
    | None => fail (ErrWrap "stat credentials" ErrNotExist)
    | Some creds => mret creds
    end.

(** [loadCredentials] ([main.go]). *)
Definition loadCredentials : M CredentialFile Credentials :=
  let enroll_first := fail (ErrNew "agent is not enrolled; run cadestrod enroll") in
  creds ← on_error Load (fun err =>
    if errors_is ErrNotExist err then enroll_first else fail (ErrWrap "load credentials" err));
  if negb (Ready (Some creds)) then enroll_first else mret creds.
End store.

(** ** The standard library's TLS *)

Inductive PrivateKeyKind := Ed25519Private (seed : bytes) | OtherPrivate.

(** [tls.X509KeyPair] succeeds, [CertPool.AppendCertsFromPEM], the verification of a
    client certificate against a root, [x509.ParsePKCS8PrivateKey],
    [x509.MarshalPKCS8PrivateKey] of the key of a seed, [x509.CreateCertificateRequest],
    and the public key of a seed. *)
Class Tls := {
  X509KeyPair : bytes -> bytes -> bool;
  AppendCertsFromPEM : bytes -> bool;
  VerifyClientAuth : X509Certificate -> X509Certificate -> bool;
  ParsePKCS8PrivateKey : bytes -> option PrivateKeyKind;
  MarshalPKCS8PrivateKey : bytes -> option bytes;
  CreateCertificateRequest : string -> bytes -> option bytes;
  ed25519_Public : bytes -> bytes;
}.

Section certificates.
Context `{!X509, !Tls}.

(** [client.WithMTLSFromPEM]: the certificate the connection presents. *)
Definition WithMTLSFromPEM (cert key ca : bytes) : result bytes :=
  if negb (X509KeyPair cert key) then Err (ErrNew "parse client certificate")
  else if negb (AppendCertsFromPEM ca) then Err (ErrNew "parse CA certificate")
  else Ok cert.

(** [crypto.GenerateCSRFromKey] and [generateCSR]. *)
Definition generateCSR (hostname : string) (seed : bytes) : result bytes :=
  match CreateCertificateRequest hostname seed with
  | None => Err (ErrNew "create CSR")
  | Some der => Ok (pem_Encode {| Block_Type := "CERTIFICATE REQUEST"; Block_Bytes := der |})
  end.

Definition GenerateCSRFromKey (hostname : string) (key : bytes) : result bytes :=
  match pem_Decode key with
  | None => Err (ErrNew "failed to decode key PEM")
  | Some (block, _) =>
      match ParsePKCS8PrivateKey (Block_Bytes block) with
      | None => Err (ErrNew "parse private key")
      | Some OtherPrivate => Err (ErrVar "crypto: device identity key must be Ed25519")
      | Some (Ed25519Private seed) => generateCSR hostname seed
      end
  end.

(** ** Renewals ([cert_rotation.go]) *)

Definition presentPendingCertificate (pending fallbackActive : bool) : bool := pending && negb fallbackActive.

Definition has_pending (c : Credentials) : bool := negb (bool_decide (Creds_PendingCertificate c = [])).

(** The certificate to present, whether it is the pending one, and whether the pending
    one is unusable. *)
Definition configureAgentMTLS (creds : Credentials) (fallbackActive : bool) : result bytes * bool * bool :=
  let usingPending := presentPendingCertificate (has_pending creds) fallbackActive in
  let presented := if usingPending then Creds_PendingCertificate creds else Creds_Certificate creds in
  match WithMTLSFromPEM presented (Creds_PrivateKey creds) (Creds_CACert creds) with
  | Err err => if usingPending then (Err err, true, true) else (Err err, false, false)
  | Ok opt => (Ok opt, usingPending, false)
  end.

Definition fallbackAfterConnection (pending presentedPending connected : bool) : bool :=
  if negb pending || connected then false else presentedPending.

Definition validateRenewalCertificate (certPEM keyPEM caPEM : bytes) (deviceID : string) : result unit :=
  let malformed := Err (ErrNew "renewal returned malformed certificate PEM") in
  match pem_Decode certPEM with
  | None => malformed
  | Some (block, rest) =>
      if negb (bool_decide (Block_Type block = "CERTIFICATE"%string)) || negb (blank rest) then malformed
      else match ParseCertificate (Block_Bytes block) with
      | None => Err (ErrNew "parse renewal certificate")
      | Some cert =>
          if negb (bool_decide (Cert_CommonName cert = deviceID))
             || negb (bool_decide (Cert_SubjectSerialNumber cert = deviceID))
          then Err (ErrNew "renewal certificate identity does not match device")
          else match pem_Decode caPEM with
          | None => Err (ErrNew "decode pinned CA certificate")
          | Some (caBlock, caRest) =>
              if negb (bool_decide (Block_Type caBlock = "CERTIFICATE"%string)) || negb (blank caRest)
              then Err (ErrNew "decode pinned CA certificate")
              else match ParseCertificate (Block_Bytes caBlock) with
              | None => Err (ErrNew "parse pinned CA certificate")
              | Some caCert =>
                  if negb (VerifyClientAuth cert caCert)
                  then Err (ErrNew "verify renewal certificate against pinned CA")
                  else if negb (X509KeyPair certPEM keyPEM)
                  then Err (ErrNew "renewal certificate does not match credential key")
                  else Ok tt
              end
          end
      end
  end.

(** [time.Duration(float64(d) * .8)]: a float64 is [m * 2 ^ e], rounded to 53 bits with
    ties to even; the constant is the float64 nearest to 0.8. *)
Definition float_round (m e : Z) : Z * Z :=
  let a := Z.abs m in
  if a <? 2 ^ 53 then (m, e)
  else
    let k := Z.log2 a - 52 in
    let q := a / 2 ^ k in
    let r := a mod 2 ^ k in
    let up := (2 ^ (k - 1) <? r) || ((r =? 2 ^ (k - 1)) && Z.odd q) in
    (Z.sgn m * (if up then q + 1 else q), e + k).

Definition float_mul (x y : Z * Z) : Z * Z := float_round (x.1 * y.1) (x.2 + y.2).

Definition float_trunc (x : Z * Z) : Z :=
  if 0 <=? x.2 then x.1 * 2 ^ x.2 else Z.quot x.1 (2 ^ (- x.2)).

Definition eighty_percent (d : Z) : Z :=
  float_trunc (float_mul (float_round d 0) (7205759403792794, -53)).

(** [(Time).Sub], which saturates. *)
Definition duration_between (t u : time) : Z :=
  Z.max (-9223372036854775808) (Z.min 9223372036854775807 (t - u)).

Definition certificateRenewalDue (cert : X509Certificate) (now : time) : bool :=
  negb (now <? Cert_NotBefore cert + eighty_percent (duration_between (Cert_NotAfter cert) (Cert_NotBefore cert))).

Definition with_certificates (cert pending : bytes) (c : Credentials) : Credentials := {|
  Creds_DeviceID := Creds_DeviceID c; Creds_CACert := Creds_CACert c; Creds_Certificate := cert;
  Creds_PendingCertificate := pending; Creds_PendingPrivateKey := Creds_PendingPrivateKey c;
  Creds_PendingCSR := Creds_PendingCSR c; Creds_PrivateKey := Creds_PrivateKey c;
  Creds_AgentAddr := Creds_AgentAddr c |}.

Definition applyRenewal (creds : Credentials) (certificate : bytes) : result Credentials :=
  if bool_decide (certificate = []) then Err (ErrNew "renewal returned an empty certificate")
  else
    _ ← validateRenewalCertificate certificate (Creds_PrivateKey creds) (Creds_CACert creds)
          (Creds_DeviceID creds);
    Ok (with_certificates (Creds_Certificate creds) certificate creds).

(** ** The connections *)

Context `{!ProtoCodec Action, !ProtoCodec ActionResult}.
Context (service : Service) (ca : CA).
Context (hostname agentVersion : string) (link : nat -> Link) (unreadable ends : nat -> bool).

(** The control plane's view of a request with a client certificate. *)
Definition peer_context (path : string) (presented : bytes) : option Context :=
  match parseCertificatePEM presented with
  | Err _ => None
  | Ok cert =>
      match AgentMiddleware empty_context {| Request_Path := path; Request_TLS := Some [cert] |} with
      | inl _ => None
      | inr ctx => Some ctx
      end
  end.

(** [client.Run] up to its readiness: the hello is sent and the welcome awaited. *)
Definition connect (creds : Credentials) (presented : bytes) : Queries bool :=
  id ← ulid_make;
  how ← draw (fun _ n => link n);
  match how, peer_context "/cadestro.v1.AgentService/Stream" presented with
  | Lost, _ | _, None => mret false
  | _, Some ctx =>
      let hello := {| Hello_DeviceId := Some (Creds_DeviceID creds); Hello_Hostname := hostname;
                      Hello_AgentVersion := agentVersion |} in
      sent ← Stream service ctx {|
        peer_frames := [Ok {| AgentMessage_Id := Some id; AgentMessage_Payload := AgentMessage_Hello hello |}];
        peer_send _ := match how with Answered => None | _ => Some (ErrNew "connection closed") end |};
      mret (negb (bool_decide (length (fst (sent : list ServerMessage * result unit)) = 0%nat)))
  end.

(** [client.RenewCertificate] over a connection with the presented certificate. *)
Definition request_renewal (presented csr : bytes) : Queries (result bytes) :=
  how ← draw (fun _ n => link n);
  match how, peer_context "/cadestro.v1.ControlService/RenewCertificate" presented with
  | Lost, _ | _, None => mret (Err (ErrNew "renew certificate"))
  | _, Some ctx =>
      cert ← attempt (RenewCertificate ca ctx csr);
      mret match how with Answered => cert | _ => Err (ErrNew "renew certificate") end
  end.

Abbreviation AgentHost := (M (CredentialFile * Database)).

(** The process may end here. *)
Definition alive : AgentHost unit :=
  ended ← draw (fun _ n => ends n);
  if (ended : bool) then fail ErrProcessEnded else mret tt.

(** The credentials in memory, which change even when they cannot be saved, and
    whether a renewal was staged. *)
Definition renewCertificateIfDue (creds : Credentials) (force : bool)
    : AgentHost (Credentials * result bool) :=
  match pem_Decode (Creds_Certificate creds) with
  | None => mret (creds, Err (ErrNew "decode active certificate"))
  | Some (block, _) =>
      match ParseCertificate (Block_Bytes block) with
      | None => mret (creds, Err (ErrNew "parse active certificate"))
      | Some cert =>
          at_ ← now;
          if negb force && negb (certificateRenewalDue cert at_) then mret (creds, Ok false)
          else match GenerateCSRFromKey hostname (Creds_PrivateKey creds) with
          | Err err => mret (creds, Err err)
          | Ok csr =>
              match WithMTLSFromPEM (Creds_Certificate creds) (Creds_PrivateKey creds) (Creds_CACert creds) with
              | Err err => mret (creds, Err err)
              | Ok opt =>
                  answer ← on_snd (request_renewal opt csr);
                  _ ← alive;
                  match answer ≫= applyRenewal creds with
                  | Err err => mret (creds, Err err)
                  | Ok creds =>
                      saved ← attempt (on_fst (Save creds));
                      mret (creds, match saved with Ok _ => Ok true | Err err => Err err end)
                  end
              end
          end
      end
  end.

(** ** The loop ([runtime.go]) *)

Context `{!WebAddress}.

Definition requireHTTPSAgentAddr (addr : string) : bool :=
  match url_Parse (TrimSpace addr) with
  | None => false
  | Some u =>
      bool_decide (ToLower (Url_Scheme u) = "https"%string) && bool_decide (Url_Opaque u = EmptyString)
      && negb (bool_decide (Url_Host u = EmptyString))
  end.

Definition reloadCredsForReconnect (current : Credentials) : M CredentialFile Credentials :=
  reloaded ← attempt (Load unreadable);
  mret match reloaded with Ok creds => creds | Err _ => current end.

(** The variables of [runAgent] between two iterations. *)
Record Loop := { loop_creds : Credentials; fallbackActive : bool; firstConnect : bool }.

(** What an iteration came to: the agent gives up, tries the other certificate at once,
    or had a session, with the readiness it reached. *)
Inductive Iteration :=
| GaveUp
| TryActive (l : Loop)
| SessionEnded (connected : bool) (l : Loop).

(** The pending certificate was accepted: it is the active one from now on. *)
Definition promote (creds : Credentials) : AgentHost Credentials :=
  let creds := with_certificates (Creds_PendingCertificate creds) [] creds in
  _ ← perform (on_fst (Save creds));
  mret creds.

(** What follows the wait for the welcome.  The pulls and deliveries of a session that
    staged no renewal are [Sync] and [Delivery]; they touch no certificate. *)
Definition after_readiness (creds : Credentials) (usingPending connected : bool) : AgentHost Iteration :=
  _ ← alive;
  creds ← (if connected && usingPending then promote creds
           else if connected then
             renewed ← renewCertificateIfDue creds (has_pending creds);
             mret (fst (renewed : Credentials * result bool))
           else mret creds);
  _ ← alive;
  mret (SessionEnded connected {|
    loop_creds := creds;
    fallbackActive := fallbackAfterConnection (has_pending creds) usingPending connected;
    firstConnect := false |}).

Definition agent_session (creds : Credentials) (usingPending : bool) (presented : bytes)
    : AgentHost Iteration :=
  connected ← on_snd (connect creds presented);
  after_readiness creds usingPending connected.

(** One iteration of [runAgent], up to the backoff. *)
Definition agent_iteration (l : Loop) : AgentHost Iteration :=
  creds ← (if firstConnect l then mret (loop_creds l)
           else on_fst (reloadCredsForReconnect (loop_creds l)));
  if negb (requireHTTPSAgentAddr (Creds_AgentAddr creds)) then mret GaveUp
  else
    let '(mtls, usingPending, pendingInvalid) := configureAgentMTLS creds (fallbackActive l) in
    match mtls with
    | Err _ =>
        mret (if pendingInvalid
              then TryActive {| loop_creds := creds; fallbackActive := true; firstConnect := false |}
              else GaveUp)
    | Ok presented => agent_session creds usingPending presented
    end.

(** A process that starts: it reads its credentials and enters the loop. *)
Definition agent_start : M CredentialFile Loop :=
  creds ← loadCredentials unreadable;
  mret {| loop_creds := creds; fallbackActive := false; firstConnect := true |}.

(** The loop until a session reached its welcome, for a number of iterations. *)
Fixpoint run_until_connected (iterations : nat) (l : Loop) : AgentHost bool :=
  match iterations with
  | O => mret false
  | S iterations =>
      outcome ← agent_iteration l;
      match (outcome : Iteration) with
      | GaveUp => mret false
      | TryActive l => run_until_connected iterations l
      | SessionEnded true _ => mret true
      | SessionEnded false l => run_until_connected iterations l
      end
  end.

(** The process goes on with its loop, or starts. *)
Definition resume (running : option Loop) : AgentHost Loop :=
  match running with
  | Some l => mret l
  | None => on_fst agent_start
  end.
End certificates.
