(* ===== verification/Reconnect.v ===== *)
(** * An enrolled agent reconnects

    [AgentCerts] (the agent's credentials and its connection loop) against [Rotation]
    (the control plane's side): whatever connections, saves of the credentials and
    processes fail, the agent holds a certificate the control plane accepts, and in
    good weather it is connected after two iterations of its loop. *)

From S2P Require Import Prelude Hash Engine Pair Quiet Pki Proto Schema Queries QueriesFacts.
From S2P Require Import QueriesFrame.
From S2P Require Import Service Demo Devices Enrollment AgentStream Rotation Delivery AgentCerts.

Open Scope Z_scope.

(** ** A device's certificates *)

(** What the control plane reads in a certificate: the device and the serial. *)
Definition agent_certificate `{!X509} (id : string) (pem : bytes) (serial : string) : Prop :=
  exists x, parseCertificatePEM pem = Ok x /\ Cert_CommonName x = id /\
    PeerClassFromCert x = Ok PeerClassAgent /\ SerialFromCert x = Ok serial.

Definition same_certificates (r r' : Device) : Prop :=
  Device_ActiveCertSerial r' = Device_ActiveCertSerial r /\
  Device_PendingCertSerial r' = Device_PendingCertSerial r /\
  Device_PendingCertificatePem r' = Device_PendingCertificatePem r /\
  Device_PendingCertExpiresAt r' = Device_PendingCertExpiresAt r.

(** The control plane saw a connection with the certificate of that serial. *)
Definition seen (serial : string) (r r' : Device) : Prop :=
  same_certificates r r' \/
  (Device_ActiveCertSerial r <> serial /\ Device_PendingCertSerial r = Some serial /\
   Device_ActiveCertSerial r' = serial /\ Device_PendingCertSerial r' = None).

(** The serial is current, active or pending. *)
Definition current (serial : string) (r : Device) : Prop :=
  Device_ActiveCertSerial r = serial \/
  (Device_PendingCertSerial r = Some serial /\ Device_PendingCertificatePem r <> [] /\
   is_Some (Device_PendingCertExpiresAt r)).

(** The device's row satisfies [R]. *)
Definition row (id : string) (R : Device -> Prop) (d : Database) : Prop :=
  exists r, devices d !! id = Some r /\ R r.

Lemma touchAgent_row ctx hello id deviceID (R : Device -> Prop) :
  (forall r r', R r -> same_certificates r r' -> R r') ->
  preserves (row id R) (touchAgent ctx deviceID hello).
Proof.
  intros HR. unfold touchAgent, TouchDevice, now. preserve. apply preserves_update_rows.
  intros t d r (r0 & Hr0 & HR0) Hr. unfold row. simpl. destruct (decide (deviceID = id)) as [->|Hne].
  - rewrite lookup_insert_eq. eexists. split; [reflexivity|]. assert (r0 = r) as -> by congruence.
    by apply (HR r).
  - rewrite lookup_insert_ne by done. eauto.
Qed.

Lemma seen_same serial r r1 r2 : seen serial r r1 -> same_certificates r1 r2 -> seen serial r r2.
Proof.
  intros [(? & ? & ? & ?)|(? & ? & ? & ?)] (? & ? & ? & ?); [left|right]; unfold same_certificates;
    split_and!; congruence.
Qed.

(** ** Connecting *)

Section connection.
Context `{!X509, !ProtoCodec Action, !ProtoCodec ActionResult}.
Context (service : Service) (hostname agentVersion : string) (link : nat -> Link).

Lemma peer_context_agent path pem id serial :
  agent_certificate id pem serial -> id <> EmptyString ->
  path <> "/health"%string -> path <> "/ready"%string ->
  exists ctx, peer_context path pem = Some ctx /\ DeviceIDFromContext ctx = Some id /\
    PeerSerialFromContext ctx = Some serial.
Proof.
  intros (x & Hx & Hcn & Hc & Hs) Hid Hh Hr. unfold peer_context, AgentMiddleware.
  rewrite Hx. simpl. rewrite (bool_decide_false (path = _)), (bool_decide_false (path = _)) by done.
  unfold DeviceIDFromRequest. simpl. rewrite bool_decide_false by congruence.
  rewrite Hc, bool_decide_true by done. simpl. eexists. split; [reflexivity|].
  unfold DeviceIDFromContext, PeerSerialFromContext. simpl. rewrite bool_decide_false by congruence.
  split; [congruence|]. unfold SerialFromCert in Hs. destruct (Cert_SerialNumber x); [|done].
  destruct (z <? 0); congruence.
Qed.

(** Authentication and the heartbeat of a stream that opens. *)
Lemma opening_row ctx hello id serial r :
  DeviceIDFromContext ctx = Some id -> PeerSerialFromContext ctx = Some serial ->
  triple (row id (eq r))
    (deviceID ← authenticateAgent ctx hello; _ ← touchAgent ctx deviceID hello; mret deviceID)
    (fun _ => row id (fun r' => seen serial r r' /\ Device_ActiveCertSerial r' = serial))
    (fun _ => row id (seen serial r)).
Proof.
  intros Hid Hs. apply triple_at. intros d0 (r0 & Hr & <-).
  set (R := fun r' => seen serial r r' /\ Device_ActiveCertSerial r' = serial).
  assert (forall d, row id R d -> row id (seen serial r) d) as Hweak by (intros d (? & ? & ? & _); by eexists).
  eapply triple_bind; [eapply triple_conseq; [apply (authenticateAgent_spec ctx hello d0)|done| |]|].
  - intros a d Hd. instantiate (1 := fun _ => row id R). cbv beta.
    destruct Hd as (s & Hid' & Hs' & _ & Hd). assert (a = id) as -> by congruence.
    assert (s = serial) as -> by congruence. destruct Hd as [[(x & Hx & Ha) ->]|Hp].
    + exists x. split; [done|]. assert (x = r) as -> by congruence. split; [left|done].
      by unfold same_certificates.
    + destruct Hp as (x & x' & Hx & Hne & Hp & Hd & _ & Ha & _ & _ & Hn).
      exists x'. rewrite Hd, lookup_insert_eq. split; [done|]. split; [right|done].
      assert (x = r) as -> by congruence. by split_and!.
  - intros e d ->. exists r. split; [done|]. left. by unfold same_certificates.
  - intros a. apply triple_bind with (R := fun _ => row id R); [|intros u; by apply triple_ret].
    eapply triple_conseq; [apply (touchAgent_row _ _ id _ R)|done|done|by intros e].
    intros r1 r2 [Hs1 Ha1] Hsame. split; [by eapply seen_same|]. destruct Hsame. congruence.
Qed.

Lemma connect_row creds pem serial r :
  agent_certificate (Creds_DeviceID creds) pem serial -> Creds_DeviceID creds <> EmptyString ->
  triple (row (Creds_DeviceID creds) (eq r)) (connect service hostname agentVersion link creds pem)
    (fun b => row (Creds_DeviceID creds) (fun r' => seen serial r r' /\
       (b = true -> Device_ActiveCertSerial r' = serial)))
    (fun _ _ => False).
Proof.
  intros Hcert Hid. unfold connect. apply triple_bind_draw. intros ulid. apply triple_bind_draw. intros how.
  destruct (peer_context_agent "/cadestro.v1.AgentService/Stream" pem _ serial Hcert Hid) as (ctx & -> & Hc1 & Hc2);
    [done..|].
  set (id := Creds_DeviceID creds) in *.
  assert (forall d, row id (eq r) d -> row id (fun r' => seen serial r r' /\
      (false = true -> Device_ActiveCertSerial r' = serial)) d) as Hsame.
  { intros d (r' & Hr' & <-). exists r. split; [done|]. split; [left|done]. by unfold same_certificates. }
  assert (forall send, triple (row id (eq r)) (sent ← Stream service ctx {|
        peer_frames := [Ok {| AgentMessage_Id := Some ulid; AgentMessage_Payload := AgentMessage_Hello
          {| Hello_DeviceId := Some id; Hello_Hostname := hostname; Hello_AgentVersion := agentVersion |} |}];
        peer_send := send |};
      mret (negb (bool_decide (length (fst (sent : list ServerMessage * result unit)) = 0%nat))))
    (fun b => row id (fun r' => seen serial r r' /\ (b = true -> Device_ActiveCertSerial r' = serial)))
    (fun _ _ => False)) as Hrun.
  { intros send. eapply triple_bind; [unfold Stream; simpl; eapply triple_bind|].
    - eapply (triple_attempt _ _ _ _ (fun res d => row id (fun r' => seen serial r r' /\
        match res with Ok _ => Device_ActiveCertSerial r' = serial | Err _ => True end) d)); [|intros ? ? Hd; exact Hd].
      eapply triple_conseq; [by apply (opening_row ctx _ id serial r)|done|done|].
      intros e d (r' & ? & ?). by exists r'.
    - intros [a|e]; [|apply triple_ret with (Q := fun sent => row id (fun r' => seen serial r r' /\
        (length (fst sent) <> 0%nat -> Device_ActiveCertSerial r' = serial)))].
      + apply triple_bind_draw. intros mid. destruct (send 0%nat); apply triple_ret;
          intros d (r' & Hr & Hs & Ha); by exists r'.
      + intros d (r' & Hr & Hs & _). exists r'. by split_and!.
    - intros sent. apply triple_ret. intros d (r' & Hr & Hs & Ha). exists r'. split_and!; [done..|].
      intros Hb. apply Ha. by apply negb_true_iff, bool_decide_eq_false in Hb. }
  destruct how; [by apply triple_ret|apply Hrun|apply Hrun].
Qed.

(** In good weather a current certificate is accepted. *)
Lemma connect_current creds pem serial :
  agent_certificate (Creds_DeviceID creds) pem serial -> Creds_DeviceID creds <> EmptyString ->
  (forall n, link n = Answered) ->
  quietly (row (Creds_DeviceID creds) (current serial)) (connect service hostname agentVersion link creds pem)
    (fun b _ => b = true).
Proof.
  intros Hcert Hid Hlink. apply quietly_at. intros d0 (r & Hr & Hcur).
  unfold connect. apply quietly_bind_draw. intros env n. apply quietly_bind_draw. intros env' n'.
  rewrite Hlink.
  destruct (peer_context_agent "/cadestro.v1.AgentService/Stream" pem _ serial Hcert Hid) as (ctx & -> & Hc1 & Hc2);
    [done..|].
  apply quietly_bind with (R := fun sent _ => length (fst sent) = 1%nat).
  - unfold Stream. simpl. apply quietly_bind with (R := fun res _ => exists a, res = Ok a /\ True).
    + apply (quietly_attempt _ _ (fun _ _ => True)), quietly_bind with (R := fun id _ => id = Creds_DeviceID creds).
      * apply (quietly_authenticate ctx _ (Creds_DeviceID creds) serial d0); [done..|].
        destruct Hcur as [Ha|(Hp & Hne & He)]; [by left; exists r|]. right.
        exists (Device_PendingCertificatePem r), r. by split_and!.
      * intros id. apply quietly_bind with (R := fun _ _ => True); [|intros u; by apply quietly_ret].
        unfold touchAgent, TouchDevice. apply quietly_bind_draw. intros env2 n2. apply quietly_on_error.
        apply quietly_bind with (R := fun _ _ => True); [|intros k; by apply quietly_ret].
        apply quietly_sql. intros t d _. destruct (devices d !! id); simpl; by eexists _, _.
    + intros res. apply quietly_at. intros d (a & -> & _). apply quietly_bind_draw. intros env2 n2.
      by apply quietly_ret.
  - intros sent. apply quietly_ret. intros d Hl. by rewrite bool_decide_false by lia.
Qed.
End connection.

(** ** Renewing *)

(** The pending certificate of the row is a certificate the agent can connect with. *)
Definition consistent `{!X509} (id : string) (r : Device) : Prop :=
  forall s, Device_PendingCertSerial r = Some s ->
    Device_PendingCertificatePem r <> [] /\ is_Some (Device_PendingCertExpiresAt r) /\
    agent_certificate id (Device_PendingCertificatePem r) s.

Section renewing.
Context `{!X509, !X509Laws}.
Context (ca : CA) (link : nat -> Link).

(** The active certificate stays, and so does a pending one; there may be one now. *)
Definition renewed (id : string) (r r' : Device) : Prop :=
  Device_ActiveCertSerial r' = Device_ActiveCertSerial r /\ consistent id r' /\
  (is_Some (Device_PendingCertSerial r) -> Device_PendingCertSerial r' = Device_PendingCertSerial r).

(** The certificate is the row's pending one. *)
Definition staged (cert : bytes) (r : Device) : Prop :=
  Device_PendingCertificatePem r = cert /\ is_Some (Device_PendingCertSerial r).

Lemma renewed_refl id r : consistent id r -> renewed id r r.
Proof. intros Hc. unfold renewed. by split_and!. Qed.

Lemma RenewCertificate_row ctx id csr r :
  DeviceIDFromContext ctx = Some id -> consistent id r ->
  triple (row id (eq r)) (RenewCertificate ca ctx csr)
    (fun cert => row id (fun r' => renewed id r r' /\ staged cert r'))
    (fun _ => row id (renewed id r)).
Proof.
  intros Hid Hc. apply triple_at. intros d0 (r0 & Hr & <-).
  eapply triple_conseq; [apply (RenewCertificate_spec ca ctx csr d0)|done| |].
  - intros cert d (id' & serial & (? & _ & Hid' & _) & (r1 & Hr1 & Ha) & Hd).
    assert (id' = id) as -> by congruence. assert (r1 = r) as -> by congruence.
    destruct Hd as [[-> (s & r2 & Hr2 & Hs & Hpem & _)]|(key & _ & Hn & Ha' & issued & s & -> & Hi & Hsn & Hp & _)].
    + assert (r2 = r) as -> by congruence. exists r. split; [done|]. split; [by apply renewed_refl|].
      by split; [|exists s].
    + destruct Hp as (r' & Hr' & Hs & Hpem & Hne & He), Ha' as (r2 & Hr2 & Ha'), Hn as (r3 & Hr3 & Hn).
      assert (r2 = r') as -> by congruence. assert (r3 = r) as -> by congruence.
      exists r'. split; [done|]. split; [|by split; [|exists s]]. unfold renewed. split_and!; [congruence| |by intros [? ?]; congruence].
      intros s' Hs'. assert (s' = s) as -> by congruence. rewrite Hpem. split_and!; [done..|].
      destruct Hi as (y & serial' & Hy & Hcn & _ & Hcl & Hsc & Hsp & _). exists y.
      split_and!; [done..|]. congruence.
  - intros e d ->. exists r. split; [done|]. by apply renewed_refl.
Qed.

Lemma request_renewal_row presented csr id serial r :
  agent_certificate id presented serial -> id <> EmptyString -> consistent id r ->
  triple (row id (eq r)) (request_renewal ca link presented csr)
    (fun res => row id (fun r' => renewed id r r' /\ match res with Ok cert => staged cert r' | Err _ => True end))
    (fun _ _ => False).
Proof.
  intros Hcert Hid Hc. unfold request_renewal. apply triple_bind_draw. intros how.
  destruct (peer_context_agent "/cadestro.v1.ControlService/RenewCertificate" presented id serial Hcert Hid)
    as (ctx & -> & Hctx & _); [done..|].
  assert (triple (row id (eq r)) (attempt (RenewCertificate ca ctx csr))
    (fun res => row id (fun r' => renewed id r r' /\ match res with Ok cert => staged cert r' | Err _ => True end))
    (fun _ _ => False)) as Hrun.
  { eapply (triple_attempt _ _ _ _ (fun res => row id (fun r' => renewed id r r' /\
      match res with Ok cert => staged cert r' | Err _ => True end))); [|done].
    eapply triple_conseq; [by apply RenewCertificate_row|done|done|].
    intros e d (r' & ? & ?). by exists r'. }
  destruct how; (eapply triple_bind; [exact Hrun|] || apply triple_ret).
  - intros d (r' & ? & <-). exists r. split; [done|]. split; [by apply renewed_refl|done].
  - intros res. apply triple_ret. intros d (r' & ? & ? & _). by exists r'.
  - intros res. apply triple_ret. by destruct res.
Qed.
End renewing.

(** ** What the agent holds *)

Section agent.
Context `{!X509, !X509Laws, !Tls, !ProtoCodec Action, !ProtoCodec ActionResult, !WebAddress}.

(** The agent can present the certificate, and the control plane reads its serial. *)
Definition usable (c : Credentials) (pem : bytes) (serial : string) : Prop :=
  pem <> [] /\ WithMTLSFromPEM pem (Creds_PrivateKey c) (Creds_CACert c) = Ok pem /\
  agent_certificate (Creds_DeviceID c) pem serial.

(** The active certificate is in force and the pending one, if any, is the control
    plane's; or the control plane already promoted the pending one. *)
Definition holds_current (c : Credentials) (r : Device) : Prop :=
  exists sa, usable c (Creds_Certificate c) sa /\
    ((Device_ActiveCertSerial r = sa /\
      (Creds_PendingCertificate c = [] \/
       exists sp, usable c (Creds_PendingCertificate c) sp /\ Device_PendingCertSerial r = Some sp)) \/
     (exists sp, usable c (Creds_PendingCertificate c) sp /\ sp <> sa /\
        Device_ActiveCertSerial r = sp /\ Device_PendingCertSerial r = None)).

(** The credentials of a finished enrollment, in the form they are read. *)
Definition sound (c : Credentials) : Prop :=
  Ready (Some c) = true /\ requireHTTPSAgentAddr (Creds_AgentAddr c) = true /\ json_credentials c = c.

Definition enrolled_row (c : Credentials) (r : Device) : Prop :=
  consistent (Creds_DeviceID c) r /\ holds_current c r.

Definition enrolled (c : Credentials) (d : Database) : Prop :=
  sound c /\ row (Creds_DeviceID c) (enrolled_row c) d.

(** The certificate an iteration presents. *)
Definition presented (c : Credentials) (usingPending : bool) : bytes :=
  if usingPending then Creds_PendingCertificate c else Creds_Certificate c.

Lemma usable_serial c pem s1 s2 : usable c pem s1 -> usable c pem s2 -> s1 = s2.
Proof. intros (_ & _ & x & ? & _ & _ & ?) (_ & _ & y & ? & _ & _ & ?). congruence. Qed.

Lemma consistent_same id r r' : consistent id r -> same_certificates r r' -> consistent id r'.
Proof. intros Hc (_ & Hs & Hp & He) s. rewrite Hs, Hp, He. apply Hc. Qed.

Lemma enrolled_row_same c r r' : enrolled_row c r -> same_certificates r r' -> enrolled_row c r'.
Proof.
  intros [Hc Hh] Hs. split; [by eapply consistent_same|]. unfold holds_current.
  by destruct Hs as (-> & -> & _).
Qed.

(** A connection with either certificate leaves the agent a current one. *)
Lemma enrolled_row_seen c u serial r r' :
  enrolled_row c r -> usable c (presented c u) serial -> seen serial r r' -> enrolled_row c r'.
Proof.
  intros Henr Hu [Hsame|(Hne & Hp & Ha & Hn)]; [by eapply enrolled_row_same|].
  destruct Henr as [_ (sa & Hsa & Hh)]. split; [intros s; congruence|]. exists sa. split; [done|]. right.
  destruct Hh as [[Hact Hpend]|(sp & _ & _ & _ & ?)]; [|congruence].
  destruct u; simpl in Hu.
  - destruct Hpend as [He|(sp & Hsp & Hs)]; [by destruct Hu as [? _]|].
    pose proof (usable_serial _ _ _ _ Hu Hsp). exists sp. split_and!; [done|congruence..].
  - pose proof (usable_serial _ _ _ _ Hu Hsa). congruence.
Qed.

Lemma enrolled_row_promote c serial r :
  enrolled_row c r -> usable c (Creds_PendingCertificate c) serial -> Device_ActiveCertSerial r = serial ->
  enrolled_row (with_certificates (Creds_PendingCertificate c) [] c) r.
Proof. intros [Hc _] Hu Ha. split; [done|]. exists serial. split; [done|]. left. split; [done|]. by left. Qed.

Lemma applyRenewal_ok c cert c' :
  applyRenewal c cert = Ok c' ->
  cert <> [] /\ c' = with_certificates (Creds_Certificate c) cert c /\ X509KeyPair cert (Creds_PrivateKey c) = true.
Proof.
  unfold applyRenewal. case_bool_decide; [done|].
  destruct (validateRenewalCertificate _ _ _ _) as [[]|] eqn:Hv; simpl; [|done]. intros [= <-].
  split_and!; [done..|]. revert Hv. unfold validateRenewalCertificate.
  repeat case_match; try done. by destruct (X509KeyPair cert (Creds_PrivateKey c)).
Qed.

(** A session with the active certificate that renews it. *)
Lemma enrolled_row_renewed c serial r r' :
  enrolled_row c r -> usable c (Creds_Certificate c) serial -> Device_ActiveCertSerial r = serial ->
  renewed (Creds_DeviceID c) r r' ->
  enrolled_row c r' /\
  (forall cert c', staged cert r' -> applyRenewal c cert = Ok c' -> enrolled_row c' r').
Proof.
  intros [_ (sa & Hsa & Hh)] Hu Ha (Hact & Hc & Hkeep). pose proof (usable_serial _ _ _ _ Hu Hsa) as <-.
  destruct Hh as [[_ Hpend]|(sp & _ & Hne & Hsp & _)]; [|congruence]. split.
  - split; [done|]. exists serial. split; [done|]. left. split; [congruence|].
    destruct Hpend as [?|(sp & Hsp & Hs)]; [by left|]. right. exists sp. split; [done|].
    rewrite Hkeep; [done|by exists sp].
  - intros cert c' [Hcert [s Hs]] (Hne & -> & Hk)%applyRenewal_ok. split; [done|].
    exists serial. split; [done|]. left. split; [simpl; congruence|]. right. exists s. split; [|done].
    destruct (Hc s Hs) as (_ & _ & Hag). simpl. split_and!; [done| |by subst cert].
    destruct Hu as (_ & Hm & _). revert Hm. unfold WithMTLSFromPEM. simpl. rewrite Hk. simpl.
    destruct (negb (X509KeyPair _ _)); [done|]. by destruct (negb (AppendCertsFromPEM _)).
Qed.

Lemma sound_with_certificates c cert pending :
  sound c -> cert <> [] -> sound (with_certificates cert pending c).
Proof.
  intros (Hr & Ha & Hj) Hne. split_and!; [|done|].
  - revert Hr. simpl. rewrite !andb_true_iff. intros ?. destruct_and!.
    split_and!; try done. by rewrite bool_decide_false.
  - destruct c. injection Hj as Hid Haddr. unfold json_credentials, with_certificates. simpl. by rewrite Hid, Haddr.
Qed.

(** ** A session *)

Context (service : Service) (ca : CA) (hostname agentVersion : string).

Abbreviation Fleet := (CredentialFile * Database)%type.

(** The file holds those credentials, and they are an enrolled agent's. *)
Definition holding (c : Credentials) (s : Fleet) : Prop := s.1 = Some c /\ enrolled c s.2.

(** The credentials in the file are an enrolled agent's. *)
Definition safe (s : Fleet) : Prop := exists c, holding c s.

(** The agent was told, or not, that its certificate of that serial is the active one. *)
Definition answered (c : Credentials) (serial : string) (connected : bool) (s : Fleet) : Prop :=
  s.1 = Some c /\ sound c /\ row (Creds_DeviceID c)
    (fun r => enrolled_row c r /\ (connected = true -> Device_ActiveCertSerial r = serial)) s.2.

Lemma answered_holding c serial b s : answered c serial b s -> holding c s.
Proof. intros (? & ? & r & ? & ? & _). split; [done|]. split; [done|]. by exists r. Qed.

Lemma sound_id c : sound c -> Creds_DeviceID c <> EmptyString.
Proof. intros ([[[[[[Hid _]%andb_true_iff _]%andb_true_iff _]%andb_true_iff _]%andb_true_iff _]%andb_true_iff _]%andb_true_iff & _).
  by apply negb_true_iff, bool_decide_eq_false in Hid. Qed.

(** The credential file can be read; writing it may fail. *)
Abbreviation readable := (fun _ : nat => false).

Section session.
Context (link : nat -> Link) (ends : nat -> bool).

(** An iteration fails only because the process ended, and leaves the file safe. *)
Definition ended (_ : error) (s : Fleet) : Prop := safe s /\ exists n, ends n = true.

Lemma alive_spec (P : Fleet -> Prop) :
  (forall s, P s -> safe s) -> triple P (alive ends) (fun _ => P) ended.
Proof.
  intros HP. unfold alive. intros env w Hw. unfold mbind, M_bind, draw. simpl.
  destruct (ends (w_step w)) eqn:He; [|done]. split; [by apply HP|by eexists].
Qed.

Lemma connected_spec c u serial :
  usable c (presented c u) serial ->
  triple (holding c) (on_snd (connect service hostname agentVersion link c (presented c u)))
    (fun b => answered c serial b) (fun _ _ => False).
Proof.
  intros Hu. apply triple_on_snd. intros d1. apply triple_at. intros d0 [Hf [Hs (r & Hr & Henr)]].
  eapply triple_conseq;
    [apply (connect_row service hostname agentVersion link c _ serial r); [apply Hu|by apply sound_id]| | |done].
  - intros d ->. by exists r.
  - intros b d (r' & Hr' & Hseen & Hb). split; [done|]. split; [done|]. exists r'. split; [done|].
    split; [by apply (enrolled_row_seen c u serial r)|done].
Qed.

Lemma save_spec c' (P : Fleet -> Prop) :
  sound c' -> (forall s, P s -> safe s) -> (forall s, P s -> row (Creds_DeviceID c') (enrolled_row c') s.2) ->
  triple P (on_fst (Save c')) (fun _ => safe) (fun _ => safe).
Proof.
  intros Hs HP HP'. apply triple_on_fst. intros d2. apply triple_sql.
  - intros t d Hd. destruct Hs as (? & ? & Hj). rewrite Hj. exists c'. split; [done|].
    by split; [|apply (HP' (d, d2))].
  - intros d Hd. by apply (HP (d, d2)).
Qed.

Lemma promote_spec c serial :
  usable c (Creds_PendingCertificate c) serial -> sound c ->
  triple (answered c serial true) (promote c) (fun _ => safe) (fun _ _ => False).
Proof.
  intros Hu Hs. unfold promote, perform.
  apply triple_bind with (R := fun _ => safe); [|intros u; by apply triple_ret].
  apply triple_bind with (R := fun _ => safe); [|intros u; by apply triple_ret].
  eapply triple_attempt; [|intros u s Hd; exact Hd]. apply save_spec.
  - apply sound_with_certificates; [done|apply Hu].
  - intros s Ha. eexists. by eapply answered_holding.
  - intros s (_ & _ & r & Hr & Henr & Ha). exists r. split; [done|]. by eapply enrolled_row_promote; [..|apply Ha].
Qed.

Lemma renewCertificateIfDue_spec c force serial :
  usable c (Creds_Certificate c) serial ->
  triple (answered c serial true) (renewCertificateIfDue ca hostname link ends c force)
    (fun _ => safe) ended.
Proof.
  intros Hu. assert (forall s, answered c serial true s -> safe s) as Hsafe
    by (intros s Ha; eexists; by eapply answered_holding).
  unfold renewCertificateIfDue.
  destruct (pem_Decode (Creds_Certificate c)) as [[block rest]|]; [|by apply triple_ret].
  destruct (ParseCertificate (Block_Bytes block)) as [cert|]; [|by apply triple_ret].
  apply triple_bind_draw. intros at_. destruct (negb force && _); [by apply triple_ret|].
  destruct (GenerateCSRFromKey hostname (Creds_PrivateKey c)) as [csr|]; [|by apply triple_ret].
  destruct (proj2 Hu) as [-> Hag].
  set (R := fun res (s : Fleet) => s.1 = Some c /\ sound c /\ exists r r', devices s.2 !! Creds_DeviceID c = Some r' /\
    enrolled_row c r /\ Device_ActiveCertSerial r = serial /\ renewed (Creds_DeviceID c) r r' /\
    match res with Ok cert => staged cert r' | Err _ => True end).
  assert (forall res s, R res s -> safe s) as HR.
  { intros res s (Hf & Hs & r & r' & Hr' & Henr & Ha & Hren & _). exists c. split; [done|]. split; [done|].
    exists r'. split; [done|]. by apply (enrolled_row_renewed c serial r r'). }
  apply triple_bind with (R := R).
  - apply triple_on_snd. intros d1. apply triple_at. intros d0 (Hf & Hs & r & Hr & Henr & Ha).
    eapply triple_conseq; [apply (request_renewal_row ca link _ csr _ serial r Hag); [by apply sound_id|apply Henr]
      |intros d ->; by exists r| |done].
    intros res d (r' & Hr' & Hren & Hst). split_and!; [done..|]. exists r, r'. by split_and!; [..|apply Ha|done|done].
  - intros answer. apply triple_bind with (R := fun _ => R answer); [by apply alive_spec, HR|]. intros u.
    destruct answer as [newcert|e]; simpl; [|apply triple_ret, HR].
    destruct (applyRenewal c newcert) as [c'|e] eqn:Happ; [|apply triple_ret, HR].
    apply triple_bind with (R := fun _ => safe); [|intros saved; by apply triple_ret].
    eapply triple_attempt; [|intros ? s Hd; exact Hd].
    apply triple_at. intros s (Hf & Hs & r & r' & Hr' & Henr & Ha & Hren & Hst).
    pose proof (applyRenewal_ok _ _ _ Happ) as (Hne & Hc' & _).
    apply save_spec.
    + subst c'. by apply sound_with_certificates; [|apply Hu].
    + intros s' ->. apply (HR (Ok newcert)). split_and!; [done..|]. by exists r, r'.
    + intros s' ->. exists r'. split; [by subst c'|]. by eapply enrolled_row_renewed.
Qed.

(** How a session with an enrolled agent comes out. *)
Definition session_outcome (u connected : bool) (res : Iteration) : Prop :=
  exists l, res = SessionEnded connected l /\ firstConnect l = false /\
    (connected = false -> u = false -> fallbackActive l = false).

Lemma after_readiness_spec c u connected serial :
  usable c (presented c u) serial -> sound c ->
  triple (answered c serial connected) (after_readiness ca hostname link ends c u connected)
    (fun res s => session_outcome u connected res /\ safe s) ended.
Proof.
  intros Hu Hs. assert (forall s, answered c serial connected s -> safe s) as Hsafe
    by (intros s Ha; eexists; by eapply answered_holding).
  unfold after_readiness.
  apply triple_bind with (R := fun _ => answered c serial connected); [by apply alive_spec|]. intros _.
  apply triple_bind with (R := fun _ => safe).
  - destruct connected; simpl; [|by apply triple_ret]. destruct u.
    + eapply triple_conseq; [by apply promote_spec|done|done|done].
    + apply triple_bind with (R := fun _ => safe); [by apply renewCertificateIfDue_spec|].
      intros r. by apply triple_ret.
  - intros c'. apply triple_bind with (R := fun _ => safe); [by apply alive_spec|]. intros _.
    apply triple_ret. intros s Hd. split; [|done]. eexists. split; [reflexivity|]. split; [done|].
    intros -> ->. unfold fallbackAfterConnection. simpl. by destruct (negb (has_pending c')).
Qed.

Lemma agent_session_spec c u serial :
  usable c (presented c u) serial ->
  triple (holding c) (agent_session service ca hostname agentVersion link ends c u (presented c u))
    (fun res s => (exists connected, session_outcome u connected res) /\ safe s) ended.
Proof.
  intros Hu. apply triple_bind with (R := answered c serial).
  - eapply triple_conseq; [by apply connected_spec|done|done|done].
  - intros b. apply triple_at. intros s Ha. pose proof Ha as (_ & Hs & _).
    eapply triple_conseq; [by apply after_readiness_spec|by intros ? ->| |done].
    intros res s' [Ho Hsafe]. split; [by exists b|done].
Qed.

(** In good weather a session with a current certificate is accepted. *)
Lemma agent_session_connects c u serial :
  usable c (presented c u) serial -> (forall n, link n = Answered) -> (forall n, ends n = false) ->
  quietly (fun s => holding c s /\ row (Creds_DeviceID c) (current serial) s.2)
    (agent_session service ca hostname agentVersion link ends c u (presented c u))
    (fun res s => session_outcome u true res /\ safe s).
Proof.
  intros Hu Hlink Hends. apply quietly_at. intros [f d] [Hh Hcur].
  apply quietly_bind with (R := fun b s => b = true /\ answered c serial b s).
  - apply (quietly_triple _ _ (fun b _ => b = true)) with (E := fun _ _ => False).
    + eapply quietly_conseq with (P' := fun s => s.1 = f /\ row (Creds_DeviceID c) (current serial) s.2).
      * apply quietly_on_snd. by apply connect_current; [apply Hu|apply sound_id, Hh|].
      * by intros s ->.
      * by intros b s [_ Hb].
    + eapply triple_conseq; [by apply connected_spec|by intros s ->|done|done].
  - intros b. apply quietly_at. intros s [-> Ha]. apply quietly_total.
    eapply triple_conseq; [apply (after_readiness_spec c u true serial Hu), Ha|by intros ? ->|done|].
    intros e s' [_ [n Hn]]. congruence.
Qed.

(** ** An iteration of the loop *)

(** What the loop remembers between two iterations fits the file. *)
Definition remembers (l : Loop) (s : Fleet) : Prop :=
  exists c, holding c s /\ (firstConnect l = true -> loop_creds l = c).

(** The certificate an iteration presents is usable, and current unless the loop fell
    back to the active one. *)
Lemma enrolled_presents c d fallback :
  enrolled c d ->
  let u := presentPendingCertificate (has_pending c) fallback in
  exists serial, usable c (presented c u) serial /\
    configureAgentMTLS c fallback = (Ok (presented c u), u, false) /\
    (fallback = false -> row (Creds_DeviceID c) (current serial) d).
Proof.
  intros [_ (r & Hr & Hc & sa & Hsa & Hh)] u.
  assert (exists serial, usable c (presented c u) serial /\
    (fallback = false -> row (Creds_DeviceID c) (current serial) d)) as (serial & Hu & Hcur).
  { unfold u, presentPendingCertificate, has_pending, presented.
    destruct fallback; rewrite ?andb_false_r; [by exists sa|]. simpl. rewrite andb_true_r.
    destruct Hh as [[Ha Hp]|(sp & Hsp & _ & Ha & _)].
    - case_bool_decide as Hn; simpl.
      + exists sa. split; [done|]. intros _. exists r. split; [done|]. by left.
      + destruct Hp as [|(sp & Hsp & Hs)]; [done|]. exists sp. split; [done|]. intros _. exists r.
        split; [done|]. right. destruct (Hc sp Hs) as (? & ? & _). by split_and!.
    - rewrite bool_decide_false by apply Hsp. simpl. exists sp. split; [done|]. intros _. exists r.
      split; [done|]. by left. }
  exists serial. split_and!; [done| |done]. unfold configureAgentMTLS. cbv zeta. fold u.
  destruct Hu as (_ & Hm & _). unfold presented in *. by rewrite Hm.
Qed.

Lemma reload_spec l :
  triple (remembers l)
    (if firstConnect l then mret (loop_creds l)
     else on_fst (reloadCredsForReconnect readable (loop_creds l))) holding (fun _ _ => False).
Proof.
  destruct (firstConnect l) eqn:Hl.
  - apply triple_ret. intros s (c & Hh & Hc). by rewrite Hc.
  - intros env [[f d] n] (c & [Hf Hd] & _). simpl in Hf. subst f. by split.
Qed.

Lemma agent_iteration_spec l :
  triple (remembers l) (agent_iteration service ca hostname agentVersion link readable ends l)
    (fun res s => exists u connected, session_outcome u connected res /\ safe s) ended.
Proof.
  apply triple_bind with (R := holding); [eapply triple_conseq; [apply reload_spec|done..]|].
  intros c. apply triple_at. intros s [Hf Henr]. pose proof Henr as [(_ & Haddr & _) _].
  rewrite Haddr. simpl. destruct (enrolled_presents c s.2 (fallbackActive l) Henr) as (serial & Hu & -> & _).
  eapply triple_conseq; [by apply (agent_session_spec c _ serial)|by intros ? ->| |done].
  intros res s' [[b Hb] Hs]. by eexists _, b.
Qed.

Lemma agent_iteration_connects l :
  (forall n, link n = Answered) -> (forall n, ends n = false) ->
  quietly (remembers l) (agent_iteration service ca hostname agentVersion link readable ends l)
    (fun res s => safe s /\ exists connected l', res = SessionEnded connected l' /\ firstConnect l' = false /\
       (connected = false -> fallbackActive l = true /\ fallbackActive l' = false)).
Proof.
  intros Hlink Hends.
  apply quietly_bind with (R := holding); [apply quietly_total, reload_spec|].
  intros c. apply quietly_at. intros s [Hf Henr]. pose proof Henr as [(_ & Haddr & _) _].
  rewrite Haddr. simpl. destruct (enrolled_presents c s.2 (fallbackActive l) Henr) as (serial & Hu & -> & Hcur).
  destruct (fallbackActive l).
  - apply quietly_total. eapply triple_conseq; [by apply (agent_session_spec c _ serial)|by intros ? ->| |].
    + intros res s' [(b & l' & -> & Hl & Hfb) Hs]. split; [done|]. exists b, l'. split_and!; [done..|].
      intros ->. split; [done|]. apply Hfb; [done|]. unfold presentPendingCertificate. by rewrite andb_false_r.
    + intros e s' [_ [n Hn]]. congruence.
  - eapply quietly_conseq; [by apply (agent_session_connects c _ serial)|intros ? ->; split; [done|by apply Hcur]|].
    intros res s' [(l' & -> & Hl & _) Hs]. split; [done|]. by exists true, l'.
Qed.
End session.

(** ** The life of an agent *)

(** The credential file, the control plane, and the loop of the process, if it runs. *)
Abbreviation Life := (Fleet * option Loop)%type.

Definition next_loop (r : result Iteration) : option Loop :=
  match r with
  | Ok (TryActive l) | Ok (SessionEnded _ l) => Some l
  | Ok GaveUp | Err _ => None
  end.

(** The process starts, goes through an iteration in any weather, or is killed; the
    control plane does anything that leaves the device's certificates alone. *)
Inductive life_step : Life -> Life -> Prop :=
| life_start file d env n l w :
    agent_start readable env (mkWorld file n) = (Ok l, w) ->
    life_step ((file, d), None) ((w_db w, d), Some l)
| life_iterate s l link ends env n r w :
    agent_iteration service ca hostname agentVersion link readable ends l env (mkWorld s n) = (r, w) ->
    life_step (s, Some l) (w_db w, next_loop r)
| life_kill s o : life_step (s, o) (s, None)
| life_server file d d' o :
    (forall c r, file = Some c -> devices d !! Creds_DeviceID c = Some r ->
       exists r', devices d' !! Creds_DeviceID c = Some r' /\ same_certificates r r') ->
    life_step ((file, d), o) ((file, d'), o).

(** The file is an enrolled agent's, and what a running loop remembers fits it. *)
Definition living (x : Life) : Prop :=
  exists c, holding c x.1 /\ forall l, x.2 = Some l -> firstConnect l = true -> loop_creds l = c.

Lemma agent_start_spec c n env :
  sound c -> exists w', agent_start readable env (mkWorld (Some c) n) =
    (Ok {| loop_creds := c; fallbackActive := false; firstConnect := true |}, w') /\ w_db w' = Some c.
Proof.
  intros [Hr _]. unfold agent_start, loadCredentials, Load.
  unfold mbind, M_bind, on_error, draw, read_file. simpl in *. rewrite Hr. by eexists.
Qed.

Lemma life_step_living x y : life_step x y -> living x -> living y.
Proof.
  intros Hstep (c & [Hf [Hs Hd]] & Hl). destruct Hstep as [file d env n l w Hrun|s l link ends env n r w Hrun|s o|file d d' o Hsame].
  - simpl in Hf. subst file. destruct (agent_start_spec c n env Hs) as (w' & Hrun' & Hw).
    rewrite Hrun in Hrun'. injection Hrun' as -> ->. exists c. rewrite Hw. split; [by split|].
    by intros ? [= <-].
  - assert (remembers l s) as Hrem by (exists c; split; [by split|]; intros Hfirst; by apply Hl).
    pose proof (agent_iteration_spec link ends l env (mkWorld s n) Hrem) as Hspec. rewrite Hrun in Hspec.
    destruct r as [res|e]; simpl in Hspec.
    + destruct Hspec as (u & b & (l' & -> & Hfirst & _) & c' & Hc'). exists c'. split; [done|].
      simpl. intros ? [= <-]. congruence.
    + destruct Hspec as [(c' & Hc') _]. by exists c'.
  - exists c. by split; [split|].
  - exists c. split; [|done]. split; [done|]. split; [done|]. destruct Hd as (r & Hr & Henr).
    destruct (Hsame c r Hf Hr) as (r' & Hr' & Hc). exists r'. split; [done|]. by eapply enrolled_row_same.
Qed.

Lemma resume_living x :
  living x -> quietly (fun s => s = x.1) (resume readable x.2) (fun l s => remembers l s).
Proof.
  intros (c & [Hf Henr] & Hl). destruct x as [[file d] [l|]]; simpl in *.
  - apply quietly_ret. intros s ->. exists c. split; [done|]. by apply Hl.
  - intros env [s n] _ Hs. simpl in Hs. subst s file.
    destruct (agent_start_spec c n env (proj1 Henr)) as (w' & Hrun & Hw).
    eexists _, _. unfold on_fst. simpl. rewrite Hrun. split; [reflexivity|]. exists c.
    split; [by split|done].
Qed.

Lemma run_until_connected_twice link ends l :
  (forall n, link n = Answered) -> (forall n, ends n = false) ->
  quietly (remembers l)
    (run_until_connected service ca hostname agentVersion link readable ends 2 l)
    (fun b s => b = true /\ safe s).
Proof.
  intros Hlink Hends. simpl.
  eapply quietly_bind; [by apply agent_iteration_connects|]. intros r. apply quietly_at.
  intros s (Hs & b & l1 & -> & Hfirst & Hfb). destruct b; [by apply quietly_ret; intros ? ->|].
  destruct (Hfb eq_refl) as [_ Hfb1].
  eapply quietly_bind.
  { eapply quietly_conseq; [by apply (agent_iteration_connects link ends l1)| |intros ? ? Hq; exact Hq].
    intros s' ->. destruct Hs as [c Hc]. exists c. split; [done|]. congruence. }
  intros r. apply quietly_at. intros s2 (Hs2 & b & l2 & -> & _ & Hfb2).
  destruct b; [by apply quietly_ret; intros ? ->|]. destruct (Hfb2 eq_refl). congruence.
Qed.

(** C1: An enrolled agent is never locked out of its control plane by the rotation of
    its certificate.  Whatever connections are lost, before or after the control
    plane acted, whatever writes of the credential file or statements of the database
    fail, and wherever the agent's process is killed: once the weather is good, the
    agent, running or started anew, has its connection accepted within two iterations
    of its loop, and its credential file stays one this holds of. *)
Theorem agent_reconnects c d x link ends env n :
  enrolled c d -> rtc life_step ((Some c, d), None) x ->
  quiet env -> (forall k, link k = Answered) -> (forall k, ends k = false) ->
  exists w, (l ← resume readable x.2;
             run_until_connected service ca hostname agentVersion link readable ends 2 l)
              env (mkWorld x.1 n) = (Ok true, w) /\ safe (w_db w).
Proof.
  intros Henr Hlife Hq Hlink Hends. assert (living x) as Hx.
  { assert (living ((Some c, d), None)) as Hstart by (exists c; by split; [split|]).
    revert Hstart. induction Hlife as [|x y z Hxy _ IH]; [done|]. intros Hx. by eapply IH, life_step_living. }
  assert (quietly (fun s => s = x.1) (l ← resume readable x.2;
    run_until_connected service ca hostname agentVersion link readable ends 2 l)
    (fun b s => b = true /\ safe s)) as Hrun.
  { eapply quietly_bind; [by apply resume_living|]. intros l. by apply run_until_connected_twice. }
  destruct (Hrun env (mkWorld x.1 n) Hq eq_refl) as (b & w & Hw & -> & Hs). by exists w.
Qed.
End agent.
