(* ===== verification/AgentEnroll.v ===== *)
(** * Enrolling ([agent/internal/deviceauth/enroll.go])

    The agent's side of the enrollment whose server side is [Enrollment].  The key pair
    and its request are saved before the registration, so that an enrollment whose
    answer was lost is repeated with the same identity; the credentials it ends with
    are those [Reconnect] is about. *)

From Stdlib Require Import Ascii.
From S2P Require Import Prelude Hash Engine Pair Quiet Pki Proto Schema Queries QueriesFacts.
From S2P Require Import QueriesFrame.
From S2P Require Import Service Demo Devices Enrollment AgentStream Rotation Strs Delivery.
From S2P Require Import AgentCerts Reconnect.

Open Scope Z_scope.

Record EnrollmentRequest := {
  Enroll_ServerURL : string;
  Enroll_Token : string;
  Enroll_CAPin : string;
  Enroll_Hostname : string;
  Enroll_Version : string;
}.

Record EnrollmentResult := { Enrolled_Credentials : Credentials; AlreadyEnrolled : bool }.

(** [strings.ReplaceAll(s, ":", "")]. *)
Fixpoint without_byte (c : ascii) (s : string) : string :=
  match s with
  | EmptyString => EmptyString
  | String d s => if Ascii.eqb c d then without_byte c s else String d (without_byte c s)
  end.

(** A byte [hex.DecodeString] accepts. *)
Definition is_hex (c : ascii) : bool :=
  let n := byte_of c in
  ((48 <=? n) && (n <=? 57) || (97 <=? n) && (n <=? 102) || (65 <=? n) && (n <=? 70))%N.

Definition normalizePin (pin : string) : result string :=
  let normalized := without_byte ":"%char (TrimSpace pin) in
  if negb (String.length normalized =? 64)%nat
  then Err (ErrNew "CA fingerprint pin is required and must contain 64 hexadecimal characters")
  else if negb (all_bytes is_hex normalized)
  then Err (ErrNew "CA fingerprint pin must contain 64 hexadecimal characters")
  else Ok (ToLower normalized).

Section enrollment.
Context `{!X509, !Tls, !WebAddress}.

(** [crypto.CAFingerprintFromPEM]. *)
Definition CAFingerprintFromPEM (certPEM : bytes) : result string :=
  match pem_Decode certPEM with
  | None => Err (ErrNew "failed to decode certificate PEM")
  | Some (block, _) => Ok (hex_encode (Sum256 (Block_Bytes block)))
  end.

(** [sdk.ValidateHTTPSURL] ([contract/url.go]). *)
Definition ValidateHTTPSURL (raw : string) : result unit :=
  match url_Parse (TrimSpace raw) with
  | None => Err (ErrNew "invalid URL")
  | Some u =>
      if negb (bool_decide (ToLower (Url_Scheme u) = "https"%string))
      then Err (ErrNew "URL must use https")
      else if negb (bool_decide (Url_Opaque u = EmptyString))
      then Err (ErrNew "URL must be https://host, not an opaque URL")
      else if bool_decide (Url_Host u = EmptyString) then Err (ErrNew "URL has no host")
      else if Url_HasUser u then Err (ErrNew "URL must not contain user info")
      else if negb (bool_decide (Url_Fragment u = EmptyString))
      then Err (ErrNew "URL must not contain a fragment")
      else Ok tt
  end.

(** [crypto.GenerateCSR]: a new key pair, its request and the private key. *)
Definition GenerateCSR {D} (hostname : string) : M D (bytes * bytes) :=
  seed ← rand_read 32;
  match seed with
  | None => fail (ErrNew "generate key pair")
  | Some seed =>
      csr ← lift (generateCSR hostname seed);
      match MarshalPKCS8PrivateKey seed with
      | None => fail (ErrNew "marshal private key")
      | Some der => mret (csr, pem_Encode {| Block_Type := "PRIVATE KEY"; Block_Bytes := der |})
      end
  end.

Definition pending_credentials (csr key : bytes) : Credentials := {|
  Creds_DeviceID := EmptyString; Creds_CACert := []; Creds_Certificate := [];
  Creds_PendingCertificate := []; Creds_PendingPrivateKey := key; Creds_PendingCSR := csr;
  Creds_PrivateKey := []; Creds_AgentAddr := EmptyString |}.

Definition issued_credentials (id : string) (ca certificate key : bytes) (addr : string) : Credentials := {|
  Creds_DeviceID := id; Creds_CACert := ca; Creds_Certificate := certificate;
  Creds_PendingCertificate := []; Creds_PendingPrivateKey := []; Creds_PendingCSR := [];
  Creds_PrivateKey := key; Creds_AgentAddr := addr |}.

Context (service : Service) (ca : CA).
Context (link : nat -> Link) (unreadable ends : nat -> bool).

Abbreviation AgentHost := (M (CredentialFile * Database)).

(** [sdk.RegisterAgent] over a connection to the control plane's public listener. *)
Definition RegisterAgent (token hostname agentVersion : string) (csr : bytes)
    : Queries (result RegisterResponse) :=
  how ← draw (fun _ n => link n);
  match how with
  | Lost => mret (Err (ErrNew "register agent"))
  | _ =>
      response ← attempt (Register service ca empty_context token csr hostname agentVersion);
      mret match how with Answered => response | _ => Err (ErrNew "register agent") end
  end.

(** What the answer makes of the key: the CA it names must be the pinned one. *)
Definition accept_registration (pin : string) (key : bytes) (response : RegisterResponse) : result Credentials :=
  if bool_decide (Register_CaCert response = []) || bool_decide (Register_Certificate response = [])
  then Err (ErrNew "server did not provide mTLS certificates")
  else
    got ← CAFingerprintFromPEM (Register_CaCert response);
    if negb (bool_decide (ToLower got = ToLower pin))
    then Err (ErrNew "CA fingerprint mismatch: the server CA does not match the pinned fingerprint")
    else
      let creds := issued_credentials (Register_DeviceId response) (Register_CaCert response)
        (Register_Certificate response) key (Register_ControlUrl response) in
      if negb (Ready (Some creds)) then Err (ErrNew "server returned incomplete credentials") else Ok creds.

Definition checkRequest (request : EnrollmentRequest) : result string :=
  if bool_decide (Enroll_ServerURL request = EmptyString) || bool_decide (Enroll_Token request = EmptyString)
  then Err (ErrNew "server URL and token are required")
  else if bool_decide (Enroll_Hostname request = EmptyString) || bool_decide (Enroll_Version request = EmptyString)
  then Err (ErrNew "hostname and version are required")
  else
    pin ← normalizePin (Enroll_CAPin request);
    _ ← ValidateHTTPSURL (Enroll_ServerURL request);
    Ok pin.

(** The request and its key: those of an enrollment that began, or new ones, saved. *)
Definition enrollment_keys (hostname : string) (stored : option Credentials) : M CredentialFile (bytes * bytes) :=
  match stored with
  | Some stored =>
      if negb (bool_decide (Creds_PendingCSR stored = [])) && negb (bool_decide (Creds_PendingPrivateKey stored = []))
      then mret (Creds_PendingCSR stored, Creds_PendingPrivateKey stored)
      else fail (ErrNew "stored credentials are incomplete")
  | None =>
      keys ← on_error (GenerateCSR hostname) (fun err => fail (ErrWrap "generate CSR" err));
      _ ← on_error (Save (pending_credentials keys.1 keys.2))
        (fun err => fail (ErrWrap "save pending credentials" err));
      mret keys
  end.

(** The registration, from the request and its key on. *)
Definition register_keys (request : EnrollmentRequest) (pin : string) (keys : bytes * bytes)
    : AgentHost EnrollmentResult :=
  _ ← alive ends;
  answer ← on_snd (RegisterAgent (Enroll_Token request) (Enroll_Hostname request) (Enroll_Version request)
    keys.1);
  _ ← alive ends;
  creds ← lift (answer ≫= accept_registration pin keys.2);
  _ ← on_error (on_fst (Save creds)) (fun err => fail (ErrWrap "save credentials" err));
  mret {| Enrolled_Credentials := creds; AlreadyEnrolled := false |}.

(** An enrollment from the credentials stored, which are not ready. *)
Definition enroll_from (request : EnrollmentRequest) (stored : option Credentials) : AgentHost EnrollmentResult :=
  pin ← lift (checkRequest request);
  keys ← on_fst (enrollment_keys (Enroll_Hostname request) stored);
  register_keys request pin keys.

(** [deviceauth.Enroll]. *)
Definition Enroll (request : EnrollmentRequest) : AgentHost EnrollmentResult :=
  loaded ← attempt (on_fst (Load unreadable));
  match loaded with
  | Ok stored =>
      if Ready (Some stored) then mret {| Enrolled_Credentials := stored; AlreadyEnrolled := true |}
      else enroll_from request (Some stored)
  | Err err =>
      if errors_is ErrNotExist err then enroll_from request None
      else fail (ErrWrap "load credentials" err)
  end.
End enrollment.

(** ** What enrolling ends with *)

(** What the standard library documents: a private key reads back, a request carries
    the public key of its private key, a certificate and the private key of its public
    key are a pair, and a pool takes a certificate it can parse. *)
Class TlsLaws `{!X509, !Tls} : Prop := {
  pkcs8_roundtrip : forall seed der,
    MarshalPKCS8PrivateKey seed = Some der -> ParsePKCS8PrivateKey der = Some (Ed25519Private seed);
  created_request : forall hostname seed der, CreateCertificateRequest hostname seed = Some der ->
    exists csr, ParseCertificateRequest der = Some csr /\ Csr_PublicKey csr = Ed25519Key (ed25519_Public seed);
  key_pair : forall certPEM x keyPEM block rest seed,
    parseCertificatePEM certPEM = Ok x -> Cert_PublicKey x = Ed25519Key (ed25519_Public seed) ->
    pem_Decode keyPEM = Some (block, rest) -> Block_Type block = "PRIVATE KEY"%string ->
    ParsePKCS8PrivateKey (Block_Bytes block) = Some (Ed25519Private seed) ->
    X509KeyPair certPEM keyPEM = true;
  pool_of_certificate : forall der x, ParseCertificate der = Some x ->
    AppendCertsFromPEM (pem_Encode {| Block_Type := "CERTIFICATE"; Block_Bytes := der |}) = true;
}.

Section theorems.
Context `{!X509, !X509Laws, !Tls, !TlsLaws, !WebAddress}.
Context (service : Service) (ca : CA) (link : nat -> Link) (ends : nat -> bool).

(** The control plane's rows carry the certificates it issued for their keys. *)
Definition certified_row (id : string) (r : Device) : Prop :=
  consistent id r /\
  exists x, parseCertificatePEM (Device_ActiveCertificatePem r) = Ok x /\ Cert_CommonName x = id /\
    PeerClassFromCert x = Ok PeerClassAgent /\ SerialFromCert x = Ok (Device_ActiveCertSerial r) /\
    Cert_PublicKey x = Ed25519Key (Device_IdentityPublicKey r).

Definition certified (d : Database) : Prop :=
  WellFormed d /\ forall id r, devices d !! id = Some r -> certified_row id r.

(** The request and the private key are a pair. *)
Definition keys_of (csr key : bytes) : Prop :=
  csr <> [] /\ key <> [] /\ exists seed block rest,
    (forall k, EnrollmentIdentityFromCSR csr = Ok k -> k = ed25519_Public seed) /\
    pem_Decode key = Some (block, rest) /\ Block_Type block = "PRIVATE KEY"%string /\
    ParsePKCS8PrivateKey (Block_Bytes block) = Some (Ed25519Private seed).

(** A credential file from which an enrollment begins or goes on. *)
Definition enrolling (file : CredentialFile) : Prop :=
  file = None \/ exists csr key, keys_of csr key /\ file = Some (pending_credentials csr key).

Lemma GenerateCSR_keys {D} (P : D -> Prop) hostname :
  triple P (GenerateCSR hostname) (fun keys d => keys_of keys.1 keys.2 /\ P d) (fun _ => P).
Proof.
  unfold GenerateCSR. apply triple_bind_draw. intros [seed|]; [|by apply triple_fail].
  apply triple_bind_lift; [|done]. intros csr. unfold generateCSR.
  destruct (CreateCertificateRequest hostname seed) as [der|] eqn:Hder; [intros [= <-]|done].
  destruct (MarshalPKCS8PrivateKey seed) as [kder|] eqn:Hk; [|by apply triple_fail].
  apply triple_ret. intros d Hd. split; [|done]. simpl. split_and!; [apply pem_encode_nonempty..|].
  exists seed. do 2 eexists. rewrite pem_decode_encode. split_and!; [|done|done|by apply pkcs8_roundtrip].
  intros k. unfold EnrollmentIdentityFromCSR, parseEnrollmentCSR. rewrite pem_decode_encode. simpl.
  destruct (created_request _ _ _ Hder) as (c & -> & Hpub). rewrite Hpub.
  destruct (negb (Csr_SignatureValid c)); [done|].
  repeat case_match; simpl; intros; simplify_eq; done.
Qed.

(** An answer names the control plane's CA and its agents' address. *)
Lemma Register_endpoint ctx token csr host version :
  triple (fun _ => True) (Register service ca ctx token csr host version)
    (fun resp _ => Register_CaCert resp = CACertPEM ca /\ Register_ControlUrl resp = agentURL service)
    (fun _ _ => True).
Proof.
  unfold Register. cbv zeta. destruct (EnrollmentIdentityFromCSR csr); [|by apply triple_fail].
  eapply triple_bind; [apply triple_any|]. intros [dev|e]; [by apply triple_ret|].
  destruct (negb (IsNotFound e)); [by apply triple_fail|].
  do 6 (eapply triple_bind; [apply triple_any|]; intros ?). by apply triple_ret.
Qed.

(** The device the answer is about. *)
Definition answer_row (csr : bytes) (resp : RegisterResponse) (d : Database) : Prop :=
  exists key r, EnrollmentIdentityFromCSR csr = Ok key /\ devices d !! Register_DeviceId resp = Some r /\
    Device_IdentityPublicKey r = key /\ Register_Certificate resp = Device_ActiveCertificatePem r.

Lemma Register_certified token csr host version :
  triple certified (Register service ca empty_context token csr host version)
    (fun resp d => (answer_row csr resp d /\ Register_CaCert resp = CACertPEM ca /\
       Register_ControlUrl resp = agentURL service) /\ certified d)
    (fun _ => certified).
Proof.
  destruct (EnrollmentIdentityFromCSR csr) as [key|e] eqn:Hkey.
  2: { unfold Register. cbv zeta. rewrite Hkey. by apply triple_fail. }
  apply triple_at. intros d0 [Hwf Hrows].
  eapply triple_conseq.
  - apply triple_and; [apply triple_and|].
    + by apply (Register_spec service ca empty_context token csr host version key d0).
    + apply (Register_endpoint empty_context token csr host version).
    + apply (Register_preserves service ca empty_context token csr host version).
  - by intros d ->.
  - intros resp d [[Hreg [Hca Hurl]] Hwf']. destruct Hreg as [[(r & Hr & Hk & Hc) ->]|Hnew].
    + split; [|by split]. split; [|done]. exists key, r. by split_and!.
    + destruct Hnew as (tok & at_ & cert & serial & _ & _ & _ & Hi & Hs & Hc & Hreg).
      destruct Hreg as (d1 & dev & _ & _ & Hd & _ & _ & Hk & Hpem & Hser & Hp).
      split; [split; [|done]; exists key, dev; rewrite Hd, lookup_insert_eq; split_and!; [done..|congruence]|].
      split; [done|]. intros id r Hr. rewrite Hd in Hr. apply lookup_insert_Some in Hr as [[<- <-]|[Hne Hr]];
        [|by apply Hrows].
      split; [intros s; congruence|]. destruct Hi as (x & s & Hx & Hcn & Hpk & Hcl & Hsc & Hsp & _).
      exists x. split_and!; [congruence|done|done|congruence|congruence].
  - intros e d [[-> _] _]. by split.
Qed.

Lemma RegisterAgent_certified token hostname agentVersion csr :
  triple certified (RegisterAgent service ca link token hostname agentVersion csr)
    (fun res d => certified d /\ match res with
       | Ok resp => answer_row csr resp d /\ Register_CaCert resp = CACertPEM ca /\
                    Register_ControlUrl resp = agentURL service
       | Err _ => True
       end) (fun _ _ => False).
Proof.
  unfold RegisterAgent. apply triple_bind_draw. intros how.
  assert (triple certified (attempt (Register service ca empty_context token csr hostname agentVersion))
    (fun res d => certified d /\ match res with
       | Ok resp => answer_row csr resp d /\ Register_CaCert resp = CACertPEM ca /\
                    Register_ControlUrl resp = agentURL service
       | Err _ => True
       end) (fun _ _ => False)) as Hrun.
  { eapply triple_attempt; [|intros res d Hd; exact Hd].
    eapply triple_conseq; [apply Register_certified|done| |]; [by intros resp d [? ?]|done]. }
  destruct how; [by apply triple_ret|..]; (eapply triple_bind; [exact Hrun|]; intros res; apply triple_ret).
  - by intros d [? _].
  - by destruct res.
Qed.

(** Accepted credentials whose strings are UTF-8 are an enrolled agent's. *)
Lemma accepted_enrolled pin csr key resp creds d x :
  ParseCertificate (CA_Raw ca) = Some x -> requireHTTPSAgentAddr (agentURL service) = true ->
  keys_of csr key -> certified d -> answer_row csr resp d ->
  Register_CaCert resp = CACertPEM ca -> Register_ControlUrl resp = agentURL service ->
  accept_registration pin key resp = Ok creds -> json_credentials creds = creds -> enrolled creds d.
Proof.
  intros Hx Haddr (_ & Hkne & seed & block & rest & Hid & Hdec & Hty & Hparse) [_ Hrows]
    (k & r & Hk & Hr & Hrk & Hpem) Hca Hurl Hacc Hj.
  unfold accept_registration in Hacc.
  destruct (bool_decide (Register_CaCert resp = [])); [done|]. case_bool_decide as Hne; [done|]. simpl in Hacc.
  destruct (CAFingerprintFromPEM (Register_CaCert resp)); simpl in Hacc; [|done].
  destruct (bool_decide (ToLower _ = ToLower _)); simpl in Hacc; [|done].
  destruct (negb (_ && _)) eqn:Hready; [done|]. injection Hacc as <-.
  change (negb (Ready (Some (issued_credentials (Register_DeviceId resp) (Register_CaCert resp)
    (Register_Certificate resp) key (Register_ControlUrl resp)))) = false) in Hready.
  apply negb_false_iff in Hready. rewrite Hca, Hurl in *.
  destruct (Hrows _ _ Hr) as (Hc & y & Hy & Hcn & Hcl & Hsc & Hpk).
  split; [by split_and!|]. exists r. split; [done|]. split; [done|].
  exists (Device_ActiveCertSerial r). split; [|left; split; [done|by left]]. simpl. rewrite Hpem in *.
  split_and!; [done| |by exists y]. unfold WithMTLSFromPEM. simpl.
  rewrite (key_pair _ y _ block rest seed Hy), (pool_of_certificate _ x Hx); [done| |done..].
  by rewrite Hpk, Hrk, <- (Hid k Hk).
Qed.

(** The private key of an enrollment that goes on is the one it began with. *)
Lemma enrollment_keys_spec file hostname :
  enrolling file ->
  triple (fun f => f = file) (enrollment_keys hostname file)
    (fun keys f => keys_of keys.1 keys.2 /\ f = Some (pending_credentials keys.1 keys.2))
    (fun _ f => enrolling f).
Proof.
  intros [->|(csr & key & Hkeys & ->)]; simpl.
  - apply triple_bind with (R := fun keys f => keys_of keys.1 keys.2 /\ f = None).
    + eapply triple_on_error; [apply GenerateCSR_keys|]. intros e. apply triple_fail. intros f ->. by left.
    + intros keys. apply triple_pure. intros Hkeys.
      apply triple_bind with (R := fun _ f => f = Some (pending_credentials keys.1 keys.2));
        [|intros _; apply triple_ret; by intros f ->].
      apply triple_on_error with (E' := fun _ f => f = None); [by apply triple_sql|].
      intros e. apply triple_fail. intros f ->. by left.
  - destruct Hkeys as (Hc & Hk & Hrest). rewrite !bool_decide_false by done. simpl.
    apply triple_ret. intros f ->. by split; [split_and!|].
Qed.

(** The credential file is that of an enrollment that can go on, the control plane's
    rows are certified. *)
Definition resumable (s : CredentialFile * Database) : Prop := enrolling s.1 /\ certified s.2.

Definition resumable_with (csr key : bytes) (s : CredentialFile * Database) : Prop :=
  keys_of csr key /\ s.1 = Some (pending_credentials csr key) /\ certified s.2.

Lemma resumable_with_resumable csr key s : resumable_with csr key s -> resumable s.
Proof. intros (? & ? & ?). split; [|done]. right. eauto. Qed.

Lemma alive_keeps (P : CredentialFile * Database -> Prop) : triple P (alive ends) (fun _ => P) (fun _ => P).
Proof.
  intros env w Hw. unfold alive, mbind, M_bind, draw. simpl. by destruct (ends (w_step w)).
Qed.

Lemma load_resumable unreadable :
  triple resumable (attempt (on_fst (Load unreadable)))
    (fun r s => resumable s /\ match r with
       | Ok c => s.1 = Some c /\ Ready (Some c) = false
       | Err e => errors_is ErrNotExist e = true -> s.1 = None
       end) (fun _ => resumable).
Proof.
  intros env [[f d] n] [Hf Hd]. unfold attempt, on_fst, Load, mbind, M_bind, draw. simpl.
  destruct (unreadable n); [by split|]. unfold read_file. simpl.
  destruct f as [c|]; [|by split]. split; [by split|]. split; [done|]. simpl in Hf.
  destruct Hf as [|(csr & key & (Hne & _) & [= ->])]; [done|]. done.
Qed.

(** An enrollment that returned. *)
Definition enrolled_with (res : EnrollmentResult) (s : CredentialFile * Database) : Prop :=
  let creds := Enrolled_Credentials res in
  AlreadyEnrolled res = false /\ s.1 = Some (json_credentials creds) /\ certified s.2 /\
  (json_credentials creds = creds -> enrolled creds s.2).

Lemma register_keys_spec request pin csr key x :
  ParseCertificate (CA_Raw ca) = Some x -> requireHTTPSAgentAddr (agentURL service) = true ->
  triple (resumable_with csr key) (register_keys service ca link ends request pin (csr, key))
    enrolled_with (fun _ => resumable).
Proof.
  intros Hx Haddr. pose proof (resumable_with_resumable csr key) as Hres.
  apply triple_bind with (R := fun _ => resumable_with csr key).
  { eapply triple_conseq; [apply (alive_keeps (resumable_with csr key))|done|done|by intros e]. }
  intros _. set (R := fun answer s => resumable_with csr key s /\ match answer with
    | Ok resp => answer_row csr resp s.2 /\ Register_CaCert resp = CACertPEM ca /\
                 Register_ControlUrl resp = agentURL service
    | Err _ => True
    end).
  apply triple_bind with (R := R).
  { apply triple_on_snd. intros f. apply triple_at. intros d (Hk & Hf & Hd).
    eapply triple_conseq; [apply RegisterAgent_certified|by intros ? ->| |done].
    intros answer d' [Hd' Ha]. by split; [split_and!|]. }
  intros answer. apply triple_bind with (R := fun _ => R answer).
  { eapply triple_conseq; [apply (alive_keeps (R answer))|done|done|]. intros e s [Hs _]. by apply Hres. }
  intros _. apply triple_bind_lift; [|intros e s _ [Hs _]; by apply Hres].
  intros creds Hacc. destruct answer as [resp|e]; [|done]. simpl in Hacc.
  apply triple_bind with (R := fun _ s => s.1 = Some (json_credentials creds) /\ certified s.2 /\
    (json_credentials creds = creds -> enrolled creds s.2)); [|intros _; by apply triple_ret].
  apply triple_on_error with (E' := fun _ => resumable); [|intros e; by apply triple_fail].
  apply triple_on_fst. intros d2. apply triple_sql.
  - intros t f ((Hk & _ & Hd) & Hrow & Hca & Hurl). split; [done|]. split; [done|]. intros Hj.
    by eapply accepted_enrolled.
  - intros f [Hs _]. by apply (Hres (f, d2)).
Qed.

Lemma enroll_from_spec request stored x :
  ParseCertificate (CA_Raw ca) = Some x -> requireHTTPSAgentAddr (agentURL service) = true ->
  triple (fun s => resumable s /\ s.1 = stored) (enroll_from service ca link ends request stored)
    enrolled_with (fun _ => resumable).
Proof.
  intros Hx Haddr. apply triple_bind_lift; [intros pin _|by intros e s _ [? _]].
  apply triple_bind with (R := fun keys => resumable_with keys.1 keys.2).
  - apply triple_on_fst. intros d2. apply triple_at. intros f [[Hf Hd] Hs]. simpl in *. subst stored.
    eapply triple_conseq; [by apply enrollment_keys_spec|by intros f' ->| |].
    + intros keys f' [Hk ->]. by split_and!.
    + intros e f' Hf'. by split.
  - intros [csr key]. by eapply register_keys_spec.
Qed.

Lemma Enroll_spec unreadable request x :
  ParseCertificate (CA_Raw ca) = Some x -> requireHTTPSAgentAddr (agentURL service) = true ->
  triple resumable (Enroll service ca link unreadable ends request) enrolled_with (fun _ => resumable).
Proof.
  intros Hx Haddr. eapply triple_bind; [apply load_resumable|]. intros [stored|err].
  - apply triple_at. intros s [Hs [Hf Hr]]. rewrite Hr.
    eapply triple_conseq; [by apply (enroll_from_spec request (Some stored) x)|by intros ? ->|done|done].
  - destruct (errors_is ErrNotExist err); [|apply triple_fail; by intros s [? _]].
    eapply triple_conseq; [by apply (enroll_from_spec request None x)| |done|done].
    intros s [Hs Hn]. split; [done|by apply Hn].
Qed.
End theorems.
