(* ===== verification/Text.v ===== *)
(** * Splitting and scanning text

    The functions of Go's [strings], [strconv] and [regexp] that the package managers'
    parsers use, beyond those of [Strs], on strings of bytes.  The classes of the
    regular expressions are ASCII and their negations take every byte of a longer rune,
    so that bytes and runes match alike. *)

From Stdlib Require Import Ascii.
From S2P Require Import Prelude Hash Strs.

Open Scope string_scope.
Open Scope Z_scope.

Definition line_feed : ascii := ascii_of_nat 10.
Definition tab : ascii := ascii_of_nat 9.

(** [strings.Split(s, "\n")], and the parts [strings.SplitSeq] yields. *)
Definition lines (s : string) : list string := Split s line_feed.

(** What is before and after the first [sep]: [strings.SplitN(s, sep, 2)] when it has two
    parts, and [strings.Cut]. *)
Fixpoint cut_at (s sep : string) : option (string * string) :=
  if HasPrefix s sep then Some (EmptyString, drop_bytes (String.length sep) s)
  else match s with
  | EmptyString => None
  | String c s => match cut_at s sep with Some (b, a) => Some (String c b, a) | None => None end
  end.

Definition HasSuffix (s p : string) : bool := HasPrefix (rev_string s EmptyString) (rev_string p EmptyString).

Definition TrimSuffix (s p : string) : string :=
  if HasSuffix s p
  then rev_string (drop_bytes (String.length p) (rev_string s EmptyString)) EmptyString else s.

(** The longest prefix of bytes that satisfy [p], and the rest. *)
Fixpoint span (p : ascii -> bool) (s : string) : string * string :=
  match s with
  | EmptyString => (EmptyString, EmptyString)
  | String c s' => if p c then let (a, b) := span p s' in (String c a, b) else (EmptyString, s)
  end.

(** [strings.TrimRight(s, cutset)] for ASCII bytes. *)
Definition TrimRight (s : string) (cut : ascii -> bool) : string :=
  rev_string (span cut (rev_string s EmptyString)).2 EmptyString.

Definition flush (word : string) : list string :=
  if bool_decide (word = EmptyString) then [] else [word].

(** [strings.Fields] from the word read so far; each step takes a byte or more. *)
Fixpoint fields_from (fuel : nat) (s word : string) : list string :=
  match fuel, s with
  | S fuel, String c rest =>
      match leading space_encodings s with
      | Some p => flush word ++ fields_from fuel (drop_bytes (String.length p) s) EmptyString
      | None => fields_from fuel rest (word ++ String c EmptyString)
      end
  | _, _ => flush word
  end.

Definition Fields (s : string) : list string := fields_from (String.length s) s EmptyString.

(** [strings.LastIndexByte], as what is before and after the byte. *)
Definition cut_last (s : string) (sep : ascii) : option (string * string) :=
  let '(after, before, found) := Cut (rev_string s EmptyString) sep in
  if found : bool then Some (rev_string before EmptyString, rev_string after EmptyString) else None.

(** [strconv.ParseInt(s, 10, 64)]: the value it returns, and whether it has no error; out
    of range the value is the nearest one. *)
Fixpoint decimal (s : string) (acc : Z) : Z :=
  match s with
  | EmptyString => acc
  | String c s => decimal s (acc * 10 + (Z.of_N (byte_of c) - 48))
  end.

Definition ParseInt (s : string) : Z * bool :=
  let '(neg, digits) := match s with
    | String "+" rest => (false, rest)
    | String "-" rest => (true, rest)
    | _ => (false, s)
    end%char in
  if bool_decide (digits = EmptyString) || negb (all_bytes is_digit digits) then (0, false)
  else
    let n := decimal digits 0 in
    let n := if neg : bool then - n else n in
    if 9223372036854775807 <? n then (9223372036854775807, false)
    else if n <? -9223372036854775808 then (-9223372036854775808, false)
    else (n, true).

(** The class [\s] of a regular expression. *)
Definition re_space (c : ascii) : bool :=
  let n := byte_of c in ((n =? 9) || (n =? 10) || (n =? 12) || (n =? 13) || (n =? 32))%N.

Definition re_word (c : ascii) : bool := negb (re_space c).

(** One or more bytes of a class, as many as there are: what follows in the expressions
    here never starts with one of them. *)
Definition some_of (p : ascii -> bool) (s : string) : option (string * string) :=
  let (a, b) := span p s in if bool_decide (a = EmptyString) then None else Some (a, b).

Definition expect (p s : string) : option string :=
  if HasPrefix s p then Some (drop_bytes (String.length p) s) else None.

Definition letter_or_digit (c : ascii) : bool := is_letter c || is_digit c.

(** A byte of [chars]. *)
Definition one_of (chars : string) (c : ascii) : bool := has_byte c chars.

(** [r < ' ' || r == 0x7f] for a rune: one of ASCII. *)
Definition control_byte (c : ascii) : bool := let n := byte_of c in ((n <? 32) || (n =? 127))%N.

Definition hasControlChar (s : string) : bool := negb (all_bytes (fun c => negb (control_byte c)) s).

Example Fields_ex : Fields " a  bc
d " = ["a"; "bc"; "d"].
Proof. reflexivity. Qed.

Example ParseInt_ex : (ParseInt "-42", ParseInt "9223372036854775808", ParseInt "1_0") =
  ((-42, true), (9223372036854775807, false), (0, false)).
Proof. reflexivity. Qed.

(** ** Facts *)

(** A property of bytes is checked on all of them. *)
Lemma all_ascii (p : ascii -> bool) :
  forallb p (ascii_of_nat <$> seq 0 256) = true -> forall c, p c = true.
Proof.
  intros Hall c. rewrite forallb_forall in Hall. apply Hall, list_elem_of_In, list_elem_of_fmap.
  exists (nat_of_ascii c). split; [by rewrite ascii_nat_embedding|]. apply elem_of_seq.
  pose proof (nat_ascii_bounded c). lia.
Qed.

Lemma span_spec p s a b :
  span p s = (a, b) ->
  s = (a ++ b)%string /\ all_bytes p a = true /\ (forall c b', b = String c b' -> p c = false).
Proof.
  revert a b. induction s as [|c s IH]; intros a b; simpl; [by intros [= <- <-]|].
  destruct (p c) eqn:Hc.
  - destruct (span p s) as [a' b']. intros [= <- <-]. destruct (IH a' b' eq_refl) as (-> & Ha & Hb).
    split_and!; [done| |done]. simpl. by rewrite Hc.
  - intros [= <- <-]. split_and!; [done..|]. by intros c' b' [= <- _].
Qed.

Lemma span_all p a b :
  all_bytes p a = true -> (forall c b', b = String c b' -> p c = false) -> span p (a ++ b)%string = (a, b).
Proof.
  intros Ha Hb. induction a as [|c a IH]; simpl in *.
  - destruct b as [|c b]; [done|]. simpl. by rewrite (Hb c b).
  - apply andb_true_iff in Ha as [-> Ha]. change (String.append a b) with (a ++ b)%string. by rewrite IH.
Qed.

Lemma drop_bytes_app p r : drop_bytes (String.length p) (p ++ r)%string = r.
Proof. induction p as [|c p IH]; [by destruct r|]. apply IH. Qed.

Lemma cut_at_eq s sep :
  cut_at s sep =
    if HasPrefix s sep then Some (EmptyString, drop_bytes (String.length sep) s)
    else match s with
    | EmptyString => None
    | String c s => match cut_at s sep with Some (b, a) => Some (String c b, a) | None => None end
    end.
Proof. by destruct s. Qed.

Lemma cut_at_Some s sep b a : cut_at s sep = Some (b, a) -> s = (b ++ sep ++ a)%string.
Proof.
  revert b a. induction s as [|c s IH]; intros b a; rewrite cut_at_eq.
  all: destruct (HasPrefix _ sep) eqn:Hp.
  1: by intros [= <- <-]; destruct sep.
  2: intros [= <- <-]; apply HasPrefix_app in Hp as [r ->]; by rewrite drop_bytes_app.
  - done.
  - destruct (cut_at s sep) as [[b' a']|]; [|done]. intros [= <- <-]. simpl. by rewrite (IH b' a' eq_refl).
Qed.

(** *** Lines *)

Lemma has_byte_app c s t : has_byte c (s ++ t)%string = has_byte c s || has_byte c t.
Proof. induction s as [|d s IH]; simpl; [done|]. by rewrite IH, orb_assoc. Qed.

Lemma Split_not_nil s sep : Split s sep <> [].
Proof. induction s as [|c s IH]; simpl; [done|]. destruct (Ascii.eqb c sep); [done|]. by destruct (Split s sep). Qed.

Lemma Split_app a b sep : Split (a ++ String sep b)%string sep = (Split a sep ++ Split b sep)%list.
Proof.
  induction a as [|c a IH]; simpl.
  - by rewrite Ascii.eqb_refl.
  - change (String.append a (String sep b)) with (a ++ String sep b)%string. rewrite IH.
    destruct (Ascii.eqb c sep); [done|]. pose proof (Split_not_nil a sep). by destruct (Split a sep).
Qed.

Lemma Split_single a sep : has_byte sep a = false -> Split a sep = [a].
Proof.
  induction a as [|c a IH]; simpl; [done|]. rewrite orb_false_iff. intros [Hc Ha].
  rewrite Ascii.eqb_sym in Hc. by rewrite Hc, IH.
Qed.

Lemma Split_parts s sep : Forall (fun p => has_byte sep p = false) (Split s sep).
Proof.
  induction s as [|c s IH]; simpl; [by constructor|]. destruct (Ascii.eqb_spec c sep) as [->|Hne]; [by constructor|].
  assert (Ascii.eqb sep c = false) as Hs by (apply Ascii.eqb_neq; congruence).
  destruct IH as [|p parts Hp Hparts]; constructor; simpl; rewrite ?Hs; [done|done|done|done].
Qed.

(** What follows the last separator is in the last part. *)
Lemma Split_last a b sep :
  has_byte sep b = false -> exists parts p, Split (a ++ b)%string sep = (parts ++ [(p ++ b)%string])%list.
Proof.
  intros Hb. induction a as [|c a IH]; simpl.
  - exists [], EmptyString. by rewrite Split_single.
  - destruct IH as (parts & p & IH). change (String.append a b) with (a ++ b)%string. rewrite IH.
    destruct (Ascii.eqb c sep); [by exists (EmptyString :: parts), p|].
    destruct parts as [|q parts]; [by exists [], (String c p)|by exists (String c q :: parts), p].
Qed.

(** The lines, each with its line feed. *)
Fixpoint unlines (l : list string) : string :=
  match l with [] => EmptyString | x :: l => (x ++ String line_feed (unlines l))%string end.

Lemma lines_app a b : lines (a ++ String line_feed b)%string = (lines a ++ lines b)%list.
Proof. apply Split_app. Qed.

Lemma lines_unlines l :
  Forall (fun x => has_byte line_feed x = false) l -> lines (unlines l) = (l ++ [EmptyString])%list.
Proof.
  induction 1 as [|x l Hx _ IH]; [done|]. change (unlines (x :: l)) with (x ++ String line_feed (unlines l))%string.
  rewrite lines_app, IH. unfold lines. by rewrite Split_single.
Qed.

(** *** Words *)

(** No white space begins in the word. *)
Fixpoint spaceless (w : string) : bool :=
  match w with
  | EmptyString => true
  | String c rest => bool_decide (leading space_encodings w = None) && spaceless rest
  end.

Definition is_word (w : string) : Prop := w <> EmptyString /\ spaceless w = true.

Definition space : ascii := ascii_of_nat 32.

Lemma leading_None prefixes s : leading prefixes s = None <-> Forall (fun p => HasPrefix s p = false) prefixes.
Proof.
  unfold leading. induction prefixes as [|p l IH]; simpl; [done|]. destruct (HasPrefix s p) eqn:Hp.
  - split; [done|]. inversion 1. congruence.
  - rewrite IH. split; [by constructor|by inversion 1].
Qed.
