(* ===== verification/Packages.v ===== *)
(** * What the package managers share ([sdk/pkg])

    The types of [types.go], the validation of everything that reaches an argument
    vector ([validate.go]), and the helpers that run a command and read its output
    ([exec.go]).  The back ends are [Apt], [Dnf], [Pacman] and [Zypper]. *)

From Stdlib Require Import Ascii.
From stdpp Require Import pretty.
From S2P Require Import Prelude Engine Proto Strs Text Exec Executor.

Open Scope string_scope.
Open Scope Z_scope.

(** ** Types ([types.go]) *)

Inductive PackageStatus := PackageStatusUnset | PackageStatusInstalled | PackageStatusAvailable.

Record Package := {
  Package_Name : string;
  Package_Version : string;
  Package_Architecture : string;
  Package_Description : string;
  Package_Status : PackageStatus;
  Package_Size : Z;
  Package_Repository : string;
}.

(** Assignments to the fields of a package. *)
Definition with_version (text : string) (p : Package) : Package := {|
  Package_Name := Package_Name p; Package_Version := text;
  Package_Architecture := Package_Architecture p; Package_Description := Package_Description p;
  Package_Status := Package_Status p; Package_Size := Package_Size p;
  Package_Repository := Package_Repository p |}.

Definition with_architecture (text : string) (p : Package) : Package := {|
  Package_Name := Package_Name p; Package_Version := Package_Version p;
  Package_Architecture := text; Package_Description := Package_Description p;
  Package_Status := Package_Status p; Package_Size := Package_Size p;
  Package_Repository := Package_Repository p |}.

Definition with_description (text : string) (p : Package) : Package := {|
  Package_Name := Package_Name p; Package_Version := Package_Version p;
  Package_Architecture := Package_Architecture p; Package_Description := text;
  Package_Status := Package_Status p; Package_Size := Package_Size p;
  Package_Repository := Package_Repository p |}.

Definition with_status (status : PackageStatus) (p : Package) : Package := {|
  Package_Name := Package_Name p; Package_Version := Package_Version p;
  Package_Architecture := Package_Architecture p; Package_Description := Package_Description p;
  Package_Status := status; Package_Size := Package_Size p;
  Package_Repository := Package_Repository p |}.

Definition with_size (size : Z) (p : Package) : Package := {|
  Package_Name := Package_Name p; Package_Version := Package_Version p;
  Package_Architecture := Package_Architecture p; Package_Description := Package_Description p;
  Package_Status := Package_Status p; Package_Size := size;
  Package_Repository := Package_Repository p |}.

Definition with_repository (text : string) (p : Package) : Package := {|
  Package_Name := Package_Name p; Package_Version := Package_Version p;
  Package_Architecture := Package_Architecture p; Package_Description := Package_Description p;
  Package_Status := Package_Status p; Package_Size := Package_Size p; Package_Repository := text |}.

Definition unknown_package (name : string) (status : PackageStatus) : Package := {|
  Package_Name := name; Package_Version := EmptyString; Package_Architecture := EmptyString;
  Package_Description := EmptyString; Package_Status := status; Package_Size := 0;
  Package_Repository := EmptyString |}.

(** An installed package of which nothing else is known. *)
Definition installed_package (name version : string) : Package :=
  with_version version (unknown_package name PackageStatusInstalled).

Record LocalPackage := { Local_Name : string; Local_Version : string; Local_Arch : string }.

Record PackageUpdate := {
  Update_Name : string;
  Update_CurrentVersion : string;
  Update_NewVersion : string;
  Update_Architecture : string;
  Update_Repository : string;
}.

Record SearchResult := {
  Search_Name : string;
  Search_Version : string;
  Search_Description : string;
  Search_Repository : string;
}.

Record AvailableVersion := { Available_Version : string; Available_Repository : string; Available_Size : Z }.

Record VersionInfo := {
  Info_Name : string;
  Info_Versions : list AvailableVersion;
  Info_Installed : string;
}.

Record InstallLocalOptions := { Local_AllowDowngrade : bool; Local_AllowUnsigned : bool }.

Definition ErrNotFound : error := ErrVar "package not found".
Definition ErrInvalidArgument : error := ErrVar "invalid package argument".

(** ** Validation ([validate.go]) *)

(** [^[a-zA-Z0-9][...]{0,n}$], the class being letters, digits and [extra]. *)
Definition grammar (extra : string) (n : nat) (s : string) : bool :=
  match s with
  | EmptyString => false
  | String c rest =>
      letter_or_digit c && all_bytes (fun c => letter_or_digit c || one_of extra c) rest
      && (String.length rest <=? n)%nat
  end.

Definition validPackageName : string -> bool := grammar "._+:/@~-" 255.
Definition validPackageVersion : string -> bool := grammar "._+:~^-" 127.
Definition validRpmPackageName : string -> bool := grammar "._+-" 255.

Definition ValidatePackageName (name : string) : result unit :=
  if bool_decide (name = EmptyString) then Err (ErrWrap "package name is empty" ErrInvalidArgument)
  else if negb (validPackageName name) then Err (ErrWrap "invalid package name" ErrInvalidArgument)
  else Ok tt.

Fixpoint ValidatePackageNames (names : list string) : result unit :=
  match names with
  | [] => Ok tt
  | n :: names => _ ← ValidatePackageName n; ValidatePackageNames names
  end.

Definition ValidatePackageVersion (version : string) : result unit :=
  if bool_decide (version = EmptyString) then Ok tt
  else if negb (validPackageVersion version)
  then Err (ErrWrap "invalid package version" ErrInvalidArgument)
  else Ok tt.

Definition ValidateRpmPackageName (name : string) : result unit :=
  if bool_decide (name = EmptyString) then Err (ErrWrap "rpm package name is empty" ErrInvalidArgument)
  else if negb (validRpmPackageName name) then Err (ErrWrap "invalid rpm package name" ErrInvalidArgument)
  else Ok tt.

Definition ValidateLocalPackagePath (path : string) : result unit :=
  if bool_decide (path = EmptyString) then Err (ErrWrap "local package path is empty" ErrInvalidArgument)
  else if hasControlChar path
  then Err (ErrWrap "local package path contains control characters" ErrInvalidArgument)
  else if negb (HasPrefix path "/")
  then Err (ErrWrap "local package path must be an absolute path" ErrInvalidArgument)
  else if Contains path ".."
  then Err (ErrWrap "local package path must not contain '..'" ErrInvalidArgument)
  else Ok tt.

Definition ValidateSearchQuery (query : string) : result unit :=
  if HasPrefix query "-"
  then Err (ErrWrap "invalid search query: must not start with '-'" ErrInvalidArgument)
  else if hasControlChar query
  then Err (ErrWrap "search query contains control characters" ErrInvalidArgument)
  else Ok tt.

(** One specification of an install: the name, then the version. *)
Definition validateSpec (spec : InstallSpec) : result unit :=
  _ ← ValidatePackageName (Spec_Name spec);
  ValidatePackageVersion (Spec_Version spec).

(** The operands of an install, or the first invalid specification's error; [sep] joins a
    name and the version it is pinned to. *)
Definition spec_operand (sep : string) (spec : InstallSpec) : string :=
  if bool_decide (Spec_Version spec = EmptyString) then Spec_Name spec
  else Spec_Name spec ++ sep ++ Spec_Version spec.

Fixpoint spec_operands (sep : string) (specs : list InstallSpec) : result (list string) :=
  match specs with
  | [] => Ok []
  | spec :: specs =>
      _ ← validateSpec spec;
      operands ← spec_operands sep specs;
      Ok (spec_operand sep spec :: operands)
  end.

(** ** Sizes ([exec.go]) *)

(** The value of [strconv.ParseFloat(s, 64)] without an error: a finite number is
    [m * 2 ^ e] with [m] of 53 bits. *)
Inductive float64 := Finite (m e : Z) | Infinite | NotANumber.

Class FloatText := { ParseFloat : string -> option float64 }.

Section sizes.
Context `{!FloatText}.

Fixpoint strip_unit (s : string) (units : list (string * Z)) : string * Z :=
  match units with
  | [] => (s, 1)
  | (suffix, mult) :: units => if HasSuffix s suffix then (TrimSuffix s suffix, mult) else strip_unit s units
  end.

(** [m * 2 ^ e < 2 ^ 63]. *)
Definition below_2_63 (m e : Z) : bool := if 0 <=? e then m * 2 ^ e <? 2 ^ 63 else m <? 2 ^ (63 - e).

Definition truncate (m e : Z) : Z := if 0 <=? e then m * 2 ^ e else m / 2 ^ (- e).

(** The multipliers are powers of two, so that scaling is exact; [float64(math.MaxInt64)]
    is [2 ^ 63]. *)
Definition parseSizeWithUnits (s : string) (units : list (string * Z)) : option Z :=
  let '(number, mult) := strip_unit (TrimSpace s) units in
  match ParseFloat (TrimSpace number) with
  | Some (Finite m e) =>
      if m <? 0 then None
      else if negb (below_2_63 (m * mult) e) then None
      else Some (truncate (m * mult) e)
  | _ => None
  end.

(** A size that is parsed fits an [int64], and is not negative. *)
Lemma parseSizeWithUnits_bounds s units n :
  Forall (fun u => 0 < u.2) units -> parseSizeWithUnits s units = Some n -> 0 <= n < 2 ^ 63.
Proof.
  intros Hunits. unfold parseSizeWithUnits.
  assert (forall s, 0 < (strip_unit s units).2) as Hpos.
  { intros t. induction Hunits as [|[suffix mult] units Hm _ IH]; simpl; [lia|]. by destruct (HasSuffix t suffix). }
  specialize (Hpos (TrimSpace s)). destruct (strip_unit _ _) as [number mult]. simpl in Hpos.
  destruct (ParseFloat _) as [[m e| |]|]; [|done..]. destruct (Z.ltb_spec m 0); [done|].
  unfold below_2_63, truncate. destruct (Z.leb_spec 0 e).
  - destruct (Z.ltb_spec (m * mult * 2 ^ e) (2 ^ 63)); [|done]. simpl. intros [= <-]. nia.
  - destruct (Z.ltb_spec (m * mult) (2 ^ (63 - e))) as [Hlt|]; [|done]. simpl. intros [= <-].
    assert (0 < 2 ^ (- e)) by (apply Z.pow_pos_nonneg; lia).
    replace (2 ^ (63 - e)) with (2 ^ (- e) * 2 ^ 63) in Hlt by (rewrite <- Z.pow_add_r by lia; f_equal; lia).
    split; [apply Z.div_pos; nia|by apply Z.div_lt_upper_bound].
Qed.

Definition parseBinarySize (s : string) : option Z :=
  parseSizeWithUnits s [(" KiB", 1024); (" MiB", 1024 * 1024); (" GiB", 1024 * 1024 * 1024); (" B", 1)].
End sizes.

(** ** Lines and columns ([exec.go]) *)

Definition parseColonValue (line : string) : string :=
  match cut_at line ":" with Some (_, value) => TrimSpace value | None => EmptyString end.

Definition splitPositionalFields (data : string) : list string :=
  TrimSpace <$> lines (TrimRight data (Ascii.eqb line_feed)).

Definition countNonEmptyLines (data : string) : Z :=
  Z.of_nat (length (List.filter (fun l => negb (bool_decide (TrimSpace l = EmptyString))) (lines data))).

(** The n-th column, if there is one. *)
Definition column (n : nat) (fields : list string) : string := default EmptyString (fields !! n).

(** The versions in the order they are listed, each once, with the first line that has it
    ([seen]). *)
Fixpoint distinct_versions (seen : list string) (l : list AvailableVersion) : list AvailableVersion :=
  match l with
  | [] => []
  | v :: l =>
      if bool_decide (Available_Version v ∈ seen) then distinct_versions seen l
      else v :: distinct_versions (Available_Version v :: seen) l
  end.

(** A line of columns that tabs separate. *)
Definition tabs (columns : list string) : string := Join columns (String tab EmptyString).

(** ** Running commands ([exec.go]) *)

(** What a back end looks up on the host: a regular file at a path ([os.Stat]), and the
    path of a binary ([exec.LookPath]). *)
Class Binaries (D : Type) := {
  is_file : string -> M D bool;
  lookPath : string -> M D (option string);
}.

(** [path.Base] of a path of a binary. *)
Definition base (path : string) : string := List.last (Split path "/") EmptyString.

Class BinariesLaws D `{Binaries D} : Prop := {
  is_file_returns : forall path, returns (is_file path);
  lookPath_returns : forall name, returns (lookPath name);
  (** [exec.LookPath] finds a file of the name in a directory, or the name is a path. *)
  lookPath_base : forall name, triple (fun _ => True) (lookPath name)
    (fun found _ => forall path, found = Some path -> base path = base name) (fun _ _ => True);
}.

Definition command (escalate : bool) (env : list string) (stdin : option string) (name : string)
    (args : list string) : Command := {|
  Cmd_Name := name; Cmd_Args := args; Cmd_Dir := EmptyString; Cmd_Env := env; Cmd_Stdin := stdin;
  Cmd_ChildPath := EmptyString; Cmd_Escalate := escalate |}.

(** [(e *CommandError) Error()]: what is left of the error is its text. *)
Definition CommandError (name : string) (exit : Z) (stderr : string) : error :=
  let text := TrimSpace stderr in
  ErrNew (if bool_decide (text = EmptyString) then name ++ ": exit " ++ pretty exit
          else name ++ ": exit " ++ pretty exit ++ ": " ++ text).

Definition asCommandError (name : string) (res : ExecResult) : option error :=
  if Exec_ExitCode res =? 0 then None else Some (CommandError name (Exec_ExitCode res) (Exec_Stderr res)).

(** A call that failed before a command ran, and one that had nothing to do. *)
Definition refused (err : error) : outcome := (no_result, Some err).
Definition nothing : outcome := (no_result, None).

Section running.
Context {D : Type} `{!Runner D}.

Definition runRead (ctx : Ctx) (name : string) (args : list string) : M D ExecResult :=
  run ← Run ctx (command false [] None name args);
  match snd (run : outcome) with Some err => fail err | None => mret run.1 end.

Definition probe (ctx : Ctx) (name : string) (args : list string) : M D (string * bool) :=
  res ← runRead ctx name args;
  mret (Exec_Stdout res, Exec_ExitCode res =? 0).

Definition readOut (ctx : Ctx) (name : string) (args : list string) : M D string :=
  res ← runRead ctx name args;
  if negb (Exec_ExitCode res =? 0) then fail (CommandError name (Exec_ExitCode res) (Exec_Stderr res))
  else mret (Exec_Stdout res).

Definition runPriv (ctx : Ctx) (env : list string) (name : string) (args : list string) : M D outcome :=
  Run ctx (command true env None name args).

Definition runPrivStdin (ctx : Ctx) (env : list string) (stdin name : string) (args : list string) : M D outcome :=
  Run ctx (command true env (if bool_decide (stdin = EmptyString) then None else Some stdin) name args).

(** The back ends' [write], with the exit codes that are no failure. *)
Definition write_with (accepted : Z -> bool) (ctx : Ctx) (env : list string) (name : string) (args : list string)
    : M D outcome :=
  run ← runPriv ctx env name args;
  match snd (run : outcome) with
  | Some err => mret (refused err)
  | None => mret (run.1, if accepted (Exec_ExitCode run.1) then None else asCommandError name run.1)
  end.

(** What follows a validation in a call that returns its outcome. *)
Definition checked {A} (r : result A) (k : A -> M D outcome) : M D outcome :=
  match r with Err err => mret (refused err) | Ok a => k a end.

Definition rpmLocalPackageInfo (ctx : Ctx) (path : string) : M D LocalPackage :=
  _ ← lift (ValidateLocalPackagePath path);
  out ← readOut ctx "rpm" ["-qp"; "--qf"; "%{NAME}" ++ newline ++ "%{VERSION}-%{RELEASE}" ++ newline ++ "%{ARCH}"; path];
  match splitPositionalFields out with
  | [] => fail (ErrNew "pkg: rpm -qp reported no name")
  | name :: rest =>
      _ ← on_error (lift (ValidateRpmPackageName name))
        (fun err => fail (ErrWrap "pkg: local .rpm reports an unsafe package name" err));
      mret {| Local_Name := name; Local_Version := column 0 rest; Local_Arch := column 1 rest |}
  end.
(** A call on a list of names, which does nothing without one. *)
Definition on_names (names : list string) (k : list string -> M D outcome) : M D outcome :=
  match names with
  | [] => mret nothing
  | _ => checked (ValidatePackageNames names) (fun _ => k names)
  end.

(** A version that may be missing. *)
Definition version_if_installed (m : M D string) : M D string :=
  on_error m (fun err => if errors_is ErrNotFound err then mret EmptyString else fail err).

(** The names, each with its installed version. *)
Definition with_versions (version : string -> M D string) (names : list string) : M D (list Package) :=
  map_m (fun name => version ← version name; mret (installed_package name version)) names.

End running.
