(* ===== verification/Apt.v ===== *)
(** * The Debian back end ([sdk/pkg/apt.go]) *)

From Stdlib Require Import Ascii.
From S2P Require Import Prelude Engine Proto Strs Text Exec Executor Packages.

Open Scope string_scope.
Open Scope Z_scope.

Module Apt.
Definition aptWriteEnv : list string := ["DEBIAN_FRONTEND=noninteractive"].

Definition dpkgConfOptions : list string :=
  ["-o"; "Dpkg::Options::=--force-confdef"; "-o"; "Dpkg::Options::=--force-confold"].

(** *** Parsers *)

Definition parse_version (out : string) : string := column 1 (Fields out).

Definition search_line (line : string) : option SearchResult :=
  match cut_at line " - " with
  | None => None
  | Some (name, description) =>
      Some {| Search_Name := TrimSpace name; Search_Version := EmptyString;
              Search_Description := TrimSpace description; Search_Repository := EmptyString |}
  end.

Definition list_line (line : string) : option Package :=
  let fields := Split line tab in
  if (length fields <? 5)%nat then None
  else if negb (Contains (column 3 fields) "installed") then None
  else Some {|
    Package_Name := column 0 fields; Package_Version := column 1 fields;
    Package_Architecture := column 2 fields; Package_Description := column 5 fields;
    Package_Status := PackageStatusInstalled;
    Package_Size := int64 ((ParseInt (column 4 fields)).1 * 1024); Package_Repository := EmptyString |}.

(** The groups of [^Inst\s+(\S+)\s+\((\S+)\s+(\S+)]. *)
Definition aptSimulatedInstallRe (line : string) : option (string * string * string) :=
  line ← expect "Inst" line;
  line ← some_of re_space line;
  name ← some_of re_word line.2;
  line ← some_of re_space name.2;
  line ← expect "(" line.2;
  version ← some_of re_word line;
  line ← some_of re_space version.2;
  repository ← some_of re_word line.2;
  Some (name.1, version.1, repository.1).

Definition upgradable_line (line : string) : option PackageUpdate :=
  match aptSimulatedInstallRe line with
  | None => None
  | Some (name, version, repository) =>
      Some {| Update_Name := name; Update_CurrentVersion := EmptyString; Update_NewVersion := version;
              Update_Architecture := EmptyString; Update_Repository := repository |}
  end.

(** One line of [apt-cache show], into what was read so far. *)
Definition show_line (p : Package) (line : string) : Package :=
  let value key := TrimSpace (TrimPrefix line key) in
  if HasPrefix line "Version:" then with_version (value "Version:") p
  else if HasPrefix line "Architecture:" then with_architecture (value "Architecture:") p
  else if HasPrefix line "Description:" then with_description (value "Description:") p
  else if HasPrefix line "Installed-Size:" then
    let (size, ok) := ParseInt (value "Installed-Size:") in
    if ok : bool then with_size (int64 (size * 1024)) p else p
  else p.

Definition version_line (line : string) : option AvailableVersion :=
  let fields := Split line "|" in
  if (length fields <? 3)%nat then None
  else Some {| Available_Version := TrimSpace (column 1 fields);
               Available_Repository := TrimSpace (column 2 fields); Available_Size := 0 |}.

(** [parseControlFields], a later line of a field replacing an earlier one. *)
Definition parseControlFields (out : string) : gmap string string :=
  fold_left (fun fields line =>
    match cut_at line ":" with
    | Some (key, value) => <[TrimSpace key := TrimSpace value]> fields
    | None => fields
    end) (lines out) ∅.

Section apt.
Context {D : Type} `{!Runner D, !Binaries D}.

Definition write (ctx : Ctx) (cmd : string) (args : list string) : M D outcome :=
  let cmd := if bool_decide (cmd = "apt") || bool_decide (cmd = "apt-get") then "apt-get" else cmd in
  write_with (fun _ => false) ctx aptWriteEnv cmd args.

Definition Version (ctx : Ctx) : M D string :=
  out ← readOut ctx "apt-get" ["--version"];
  mret (parse_version out).

Definition Install (ctx : Ctx) (allowDowngrade : bool) (specs : list InstallSpec) : M D outcome :=
  match specs with
  | [] => mret nothing
  | _ => checked (spec_operands "=" specs) (fun operands =>
      write ctx "apt" (["install"; "-y"] ++ (if allowDowngrade then ["--allow-downgrades"] else []) ++ operands)%list)
  end.

Definition InstallLocal (ctx : Ctx) (path : string) (opts : InstallLocalOptions) : M D outcome :=
  checked (ValidateLocalPackagePath path) (fun _ =>
    write ctx "apt" (["install"; "-y"] ++ dpkgConfOptions
      ++ (if Local_AllowDowngrade opts then ["--allow-downgrades"] else []) ++ [path])%list).

Definition Remove (ctx : Ctx) (purge : bool) (packages : list string) : M D outcome :=
  on_names packages (fun names =>
    write ctx "apt" ([if purge then "purge" else "remove"; "-y"] ++ names)%list).

Definition Update (ctx : Ctx) : M D outcome := write ctx "apt" ["update"].

Definition Upgrade (ctx : Ctx) (packages : list string) : M D outcome :=
  on_names packages (fun names =>
    write ctx "apt" (["install"; "-y"; "--only-upgrade"] ++ dpkgConfOptions ++ names)%list).

Definition UpgradeAll (ctx : Ctx) : M D outcome :=
  write ctx "apt-get" (["upgrade"; "-y"] ++ dpkgConfOptions)%list.

(** The first of the two known paths that is a file, or what is on the path. *)
Definition resolveUnattendedUpgrade : M D (result string) :=
  usr ← is_file "/usr/bin/unattended-upgrade";
  if (usr : bool) then mret (Ok "/usr/bin/unattended-upgrade")
  else
    sbin ← is_file "/usr/sbin/unattended-upgrade";
    if (sbin : bool) then mret (Ok "/usr/sbin/unattended-upgrade")
    else
      found ← lookPath "unattended-upgrade";
      mret match found with
        | Some path => Ok path
        | None => Err (ErrWrap "unattended-upgrade not found" ErrBackendUnavailable)
        end.

Definition UpgradeSecurity (ctx : Ctx) : M D outcome :=
  bin ← resolveUnattendedUpgrade;
  checked bin (fun bin => write ctx bin ["-v"]).

Definition Pin (ctx : Ctx) (packages : list string) : M D outcome :=
  on_names packages (fun names => write ctx "apt-mark" ("hold" :: names)).

Definition Unpin (ctx : Ctx) (packages : list string) : M D outcome :=
  on_names packages (fun names => write ctx "apt-mark" ("unhold" :: names)).

Definition Autoremove (ctx : Ctx) : M D outcome := write ctx "apt" ["autoremove"; "-y"].

Definition Search (ctx : Ctx) (query : string) : M D (list SearchResult) :=
  _ ← lift (ValidateSearchQuery query);
  out ← readOut ctx "apt-cache" ["search"; query];
  mret (omap search_line (lines out)).

Definition List (ctx : Ctx) : M D (list Package) :=
  out ← readOut ctx "dpkg-query" ["-W"; "-f=" ++ tabs ["${Package}"; "${Version}"; "${Architecture}"; "${Status}";
    "${Installed-Size}"; "${Description}"] ++ newline];
  mret (omap list_line (lines out)).

Definition ListUpgradable (ctx : Ctx) : M D (list PackageUpdate) :=
  out ← readOut ctx "apt-get" ["-s"; "upgrade"];
  mret (omap upgradable_line (lines out)).

Definition IsInstalled (ctx : Ctx) (name : string) : M D bool :=
  _ ← lift (ValidatePackageName name);
  res ← runRead ctx "dpkg" ["-s"; name];
  mret (Exec_ExitCode res =? 0).

Definition InstalledVersion (ctx : Ctx) (name : string) : M D string :=
  _ ← lift (ValidatePackageName name);
  res ← probe ctx "dpkg-query" ["-W"; "-f=${Version}"; name];
  if negb (res : string * bool).2 then fail (ErrWrap ("apt package " ++ name) ErrNotFound)
  else mret (TrimSpace res.1).

Definition Show (ctx : Ctx) (name : string) : M D Package :=
  _ ← lift (ValidatePackageName name);
  out ← readOut ctx "apt-cache" ["show"; name];
  let p := fold_left show_line (lines out) (unknown_package name PackageStatusUnset) in
  installed ← IsInstalled ctx name;
  mret (with_status (if installed : bool then PackageStatusInstalled else PackageStatusAvailable) p).

Definition ListVersions (ctx : Ctx) (name : string) : M D VersionInfo :=
  _ ← lift (ValidatePackageName name);
  out ← readOut ctx "apt-cache" ["madison"; name];
  installed ← version_if_installed (InstalledVersion ctx name);
  mret {| Info_Name := name; Info_Versions := distinct_versions [] (omap version_line (lines out));
          Info_Installed := installed |}.

Definition LocalPackageInfo (ctx : Ctx) (path : string) : M D LocalPackage :=
  _ ← lift (ValidateLocalPackagePath path);
  out ← readOut ctx "dpkg-deb" ["-f"; path; "Package"; "Version"; "Architecture"];
  let fields := parseControlFields out in
  let name := default EmptyString (fields !! "Package") in
  if bool_decide (name = EmptyString) then fail (ErrNew "pkg: dpkg-deb reported no Package field")
  else
    _ ← on_error (lift (ValidatePackageName name))
      (fun err => fail (ErrWrap "pkg: local .deb reports an unsafe package name" err));
    mret {| Local_Name := name; Local_Version := default EmptyString (fields !! "Version");
            Local_Arch := default EmptyString (fields !! "Architecture") |}.

Definition InstalledCount (ctx : Ctx) : M D Z :=
  out ← readOut ctx "dpkg-query" ["-f"; "." ++ newline; "-W"];
  mret (countNonEmptyLines out).

Definition HasUpdates (ctx : Ctx) : M D bool :=
  out ← readOut ctx "apt-get" ["-s"; "upgrade"];
  mret (existsb (fun line => HasPrefix line "Inst ") (lines out)).

Definition HasSecurityUpdates (ctx : Ctx) : M D bool :=
  bin ← resolveUnattendedUpgrade;
  bin ← lift bin;
  res ← runRead ctx bin ["--dry-run"; "--verbose"];
  match asCommandError bin res with
  | Some err => fail err
  | None =>
      mret (Contains (Exec_Stdout res) "Packages that will be upgraded"
            || Contains (Exec_Stdout res) "The following packages will be upgraded")
  end.

Definition IsPinned (ctx : Ctx) (name : string) : M D bool :=
  _ ← lift (ValidatePackageName name);
  out ← readOut ctx "apt-mark" ["showhold"; name];
  mret (bool_decide (TrimSpace out = name)).

Definition ListPinned (ctx : Ctx) : M D (list Package) :=
  out ← readOut ctx "apt-mark" ["showhold"];
  with_versions (InstalledVersion ctx)
    (List.filter (fun n => negb (bool_decide (n = EmptyString))) (TrimSpace <$> lines out)).
End apt.
End Apt.
