(* ===== verification/Dnf.v ===== *)
(** * The Fedora back end ([sdk/pkg/dnf.go])

    One back end for the commands [dnf] and [dnf5]; the queries of installed packages
    are [rpm]'s. *)

From Stdlib Require Import Ascii.
From S2P Require Import Prelude Engine Proto Strs Text Exec Executor Packages.

Open Scope string_scope.
Open Scope Z_scope.

Module Dnf.
(** *** Names and versions of rpm *)

(** The part before the first match of [-\d+:]. *)
Fixpoint before_epoch (s : string) : option string :=
  match s with
  | EmptyString => None
  | String c rest =>
      let epoch := match some_of is_digit rest with Some (_, after) => HasPrefix after ":" | None => false end in
      if Ascii.eqb c "-" && epoch then Some EmptyString
      else match before_epoch rest with Some b => Some (String c b) | None => None end
  end.

(** The part before the first match of [-\d]. *)
Fixpoint before_version (s : string) : option string :=
  match s with
  | EmptyString => None
  | String c rest =>
      let digit := match rest with String d _ => is_digit d | EmptyString => false end in
      if Ascii.eqb c "-" && digit then Some EmptyString
      else match before_version rest with Some b => Some (String c b) | None => None end
  end.

Definition parseNEVRAName (nevra : string) : string :=
  match before_epoch nevra with
  | Some name => name
  | None => default nevra (before_version nevra)
  end.

Definition splitRPMNameArch (value : string) : string * string :=
  match cut_last value "." with Some (name, arch) => (name, arch) | None => (value, EmptyString) end.

(** *** Parsers *)

Definition search_line (line : string) : option SearchResult :=
  if HasPrefix line "=" || bool_decide (line = EmptyString) then None
  else match cut_at line " : " with
  | None => None
  | Some (name, description) =>
      Some {| Search_Name := (splitRPMNameArch name).1; Search_Version := EmptyString;
              Search_Description := TrimSpace description; Search_Repository := EmptyString |}
  end.

Definition list_line (line : string) : option Package :=
  let fields := Split line tab in
  if (length fields <? 4)%nat then None
  else Some {|
    Package_Name := column 0 fields; Package_Version := column 1 fields;
    Package_Architecture := column 2 fields; Package_Description := column 4 fields;
    Package_Status := PackageStatusInstalled; Package_Size := (ParseInt (column 3 fields)).1;
    Package_Repository := EmptyString |}.

(** The columns of an upgradable package. *)
Definition upgradable_fields (line : string) : option (list string) :=
  let fields := Fields line in
  if bool_decide (line = EmptyString) || (length fields <? 3)%nat then None else Some fields.

Definition version_line (line : string) : option AvailableVersion :=
  let fields := Fields line in
  if bool_decide (line = EmptyString) || HasPrefix line "Installed" || HasPrefix line "Available"
     || (length fields <? 3)%nat then None
  else Some {| Available_Version := column 1 fields; Available_Repository := column 2 fields; Available_Size := 0 |}.

Definition versionlock_line (command line : string) : option string :=
  let line := TrimSpace line in
  if bool_decide (command = "dnf5") then
    if negb (HasPrefix line "Package name:") then None
    else
      let name := TrimSpace (TrimPrefix line "Package name:") in
      match ValidatePackageName name with Ok _ => Some name | Err _ => None end
  else if bool_decide (line = EmptyString) then None else Some (parseNEVRAName line).

Definition versionLockNames (command out : string) : list string := omap (versionlock_line command) (lines out).

Section sizes.
Context `{!FloatText}.

Definition parseSize (s : string) : option Z :=
  parseSizeWithUnits s [(" k", 1024); (" K", 1024); (" M", 1024 * 1024); (" G", 1024 * 1024 * 1024)].

Definition show_line (p : Package) (line : string) : Package :=
  let value := parseColonValue line in
  if HasPrefix line "Version" then with_version value p
  else if HasPrefix line "Release" then
    if bool_decide (Package_Version p = EmptyString) then p
    else with_version (Package_Version p ++ "-" ++ value) p
  else if HasPrefix line "Architecture" then with_architecture value p
  else if HasPrefix line "Size" then
    match parseSize value with Some n => with_size n p | None => p end
  else if HasPrefix line "Summary" then with_description value p
  else if HasPrefix line "Repository" then with_repository value p
  else p.
End sizes.

Section dnf.
Context {D : Type} `{!Runner D, !FloatText}.

(** [dnf] or [dnf5]. *)
Context (command : string).

Definition is_dnf5 : bool := bool_decide (command = "dnf5").

Definition write (ctx : Ctx) (args : list string) : M D outcome :=
  write_with (fun _ => false) ctx [] command args.

Definition Version (ctx : Ctx) : M D string :=
  out ← readOut ctx command ["--version"];
  mret (TrimSpace (column 0 (lines out))).

Definition Install (ctx : Ctx) (allowDowngrade : bool) (specs : list InstallSpec) : M D outcome :=
  match specs with
  | [] => mret nothing
  | _ => checked (spec_operands "-" specs) (fun operands =>
      write ctx (["install"; "-y"] ++ (if allowDowngrade && is_dnf5 then ["--allow-downgrade"] else [])
        ++ operands)%list)
  end.

Definition InstallLocal (ctx : Ctx) (path : string) (opts : InstallLocalOptions) : M D outcome :=
  checked (ValidateLocalPackagePath path) (fun _ =>
    write ctx (["install"; "-y"] ++ (if Local_AllowUnsigned opts then ["--nogpgcheck"] else [])
      ++ (if Local_AllowDowngrade opts && is_dnf5 then ["--allow-downgrade"] else []) ++ [path])%list).

Definition Remove (ctx : Ctx) (purge : bool) (packages : list string) : M D outcome :=
  match packages with
  | [] => mret nothing
  | _ =>
      if purge then mret (refused (ErrWrap "dnf purge" ErrUnsupported))
      else checked (ValidatePackageNames packages) (fun _ => write ctx (["remove"; "-y"] ++ packages)%list)
  end.

Definition Update (ctx : Ctx) : M D outcome :=
  write_with (fun code => code =? 100) ctx [] command ["check-update"].

Definition Upgrade (ctx : Ctx) (packages : list string) : M D outcome :=
  on_names packages (fun names => write ctx (["upgrade"; "-y"] ++ names)%list).

Definition UpgradeAll (ctx : Ctx) : M D outcome := write ctx ["upgrade"; "-y"].

Definition UpgradeSecurity (ctx : Ctx) : M D outcome := write ctx ["upgrade"; "-y"; "--security"].

Definition versionLockAvailable (ctx : Ctx) : M D unit :=
  res ← probe ctx command ["versionlock"; "--help"];
  if negb (res : string * bool).2 then fail (ErrWrap (command ++ " versionlock") ErrUnsupported) else mret tt.

(** A write that needs the versionlock plug-in. *)
Definition versionlock (ctx : Ctx) (verb : string) (packages : list string) : M D outcome :=
  on_names packages (fun names =>
    available ← attempt (versionLockAvailable ctx);
    checked available (fun _ => write ctx (["versionlock"; verb] ++ names)%list)).

Definition Pin (ctx : Ctx) (packages : list string) : M D outcome := versionlock ctx "add" packages.

Definition Unpin (ctx : Ctx) (packages : list string) : M D outcome := versionlock ctx "delete" packages.

Definition Autoremove (ctx : Ctx) : M D outcome := write ctx ["autoremove"; "-y"].

Definition Search (ctx : Ctx) (query : string) : M D (list SearchResult) :=
  _ ← lift (ValidateSearchQuery query);
  res ← runRead ctx command ["search"; "-q"; query];
  if Exec_ExitCode res =? 1 then mret []
  else match asCommandError command res with
  | Some err => fail err
  | None => mret (omap search_line (lines (Exec_Stdout res)))
  end.

Definition List (ctx : Ctx) : M D (list Package) :=
  out ← readOut ctx "rpm" ["-qa"; "--queryformat";
    tabs ["%{NAME}"; "%{VERSION}-%{RELEASE}"; "%{ARCH}"; "%{SIZE}"; "%{SUMMARY}"] ++ newline];
  mret (omap list_line (lines out)).

Definition IsInstalled (ctx : Ctx) (name : string) : M D bool :=
  _ ← lift (ValidatePackageName name);
  res ← runRead ctx "rpm" ["-q"; name];
  mret (Exec_ExitCode res =? 0).

Definition InstalledVersion (ctx : Ctx) (name : string) : M D string :=
  _ ← lift (ValidatePackageName name);
  res ← runRead ctx "rpm" ["-q"; "--queryformat"; "%{VERSION}-%{RELEASE}"; name];
  if negb (Exec_ExitCode res =? 0) then fail (ErrWrap (command ++ " package " ++ name) ErrNotFound)
  else mret (TrimSpace (Exec_Stdout res)).

Definition ListUpgradable (ctx : Ctx) : M D (list PackageUpdate) :=
  res ← runRead ctx command ["check-update"; "-q"];
  if negb (Exec_ExitCode res =? 0) && negb (Exec_ExitCode res =? 100)
  then fail (CommandError command (Exec_ExitCode res) (Exec_Stderr res))
  else map_m (fun fields =>
    let (name, arch) := splitRPMNameArch (column 0 fields) in
    current ← InstalledVersion ctx name;
    mret {| Update_Name := name; Update_CurrentVersion := current; Update_NewVersion := column 1 fields;
            Update_Architecture := arch; Update_Repository := column 2 fields |})
    (omap upgradable_fields (lines (Exec_Stdout res))).

Definition Show (ctx : Ctx) (name : string) : M D Package :=
  _ ← lift (ValidatePackageName name);
  out ← readOut ctx command ["info"; "-q"; name];
  let p := fold_left show_line (lines out) (unknown_package name PackageStatusAvailable) in
  installed ← IsInstalled ctx name;
  mret (if installed : bool then with_status PackageStatusInstalled p else p).

Definition ListVersions (ctx : Ctx) (name : string) : M D VersionInfo :=
  _ ← lift (ValidatePackageName name);
  out ← readOut ctx command ["list"; "--showduplicates"; "-q"; name];
  installed ← version_if_installed (InstalledVersion ctx name);
  mret {| Info_Name := name; Info_Versions := distinct_versions [] (omap version_line (lines out));
          Info_Installed := installed |}.

Definition LocalPackageInfo (ctx : Ctx) (path : string) : M D LocalPackage := rpmLocalPackageInfo ctx path.

Definition InstalledCount (ctx : Ctx) : M D Z :=
  out ← readOut ctx "rpm" ["-qa"; "--qf"; "." ++ newline];
  mret (countNonEmptyLines out).

(** The exit code 100 of [check-update]: there are updates. *)
Definition check_update (ctx : Ctx) (flags : list string) : M D bool :=
  res ← runRead ctx command (["check-update"; "-q"] ++ flags)%list;
  if Exec_ExitCode res =? 0 then mret false
  else if Exec_ExitCode res =? 100 then mret true
  else fail (CommandError command (Exec_ExitCode res) (Exec_Stderr res)).

Definition HasUpdates (ctx : Ctx) : M D bool := check_update ctx [].

Definition HasSecurityUpdates (ctx : Ctx) : M D bool := check_update ctx ["--security"].

Definition pinned_names (ctx : Ctx) : M D (list string) :=
  _ ← versionLockAvailable ctx;
  out ← readOut ctx command ["versionlock"; "list"; "-q"];
  mret (versionLockNames command out).

Definition IsPinned (ctx : Ctx) (name : string) : M D bool :=
  _ ← lift (ValidatePackageName name);
  names ← pinned_names ctx;
  mret (bool_decide (name ∈ (names : list string))).

Definition ListPinned (ctx : Ctx) : M D (list Package) :=
  names ← pinned_names ctx;
  with_versions (InstalledVersion ctx) names.
End dnf.
End Dnf.
