(* ===== verification/Zypper.v ===== *)
(** * The SUSE back end ([sdk/pkg/zypper.go]) *)

From Stdlib Require Import Ascii.
From S2P Require Import Prelude Engine Proto Strs Text Exec Executor Packages.

Open Scope string_scope.
Open Scope Z_scope.

Module Zypper.
Definition isZypperInfoExit (code : Z) : bool := (code =? 0) || ((100 <=? code) && (code <=? 103)).

(** *** Parsers *)

Definition is_rule (line : string) : bool := HasPrefix line "---" || HasPrefix line "+-".

(** The rows of a table: the lines after the first rule, without further rules. *)
Fixpoint table_rows (headerPassed : bool) (l : list string) : list string :=
  match l with
  | [] => []
  | line :: l =>
      if is_rule line then table_rows true l
      else if headerPassed then line :: table_rows headerPassed l else table_rows headerPassed l
  end.

Definition rows (out : string) : list string := table_rows false (lines out).

Definition cell (n : nat) (parts : list string) : string := TrimSpace (column n parts).

Definition search_row (line : string) : option SearchResult :=
  let parts := Split line "|" in
  if (length parts <? 3)%nat || bool_decide (cell 1 parts = EmptyString) then None
  else Some {| Search_Name := cell 1 parts; Search_Version := EmptyString;
               Search_Description := cell 2 parts; Search_Repository := EmptyString |}.

Definition list_line (line : string) : option Package :=
  let fields := Split line tab in
  if (length fields <? 4)%nat then None
  else Some {|
    Package_Name := column 0 fields; Package_Version := column 1 fields;
    Package_Architecture := column 2 fields; Package_Description := column 4 fields;
    Package_Status := PackageStatusInstalled; Package_Size := (ParseInt (column 3 fields)).1;
    Package_Repository := EmptyString |}.

Definition upgradable_row (line : string) : option PackageUpdate :=
  let parts := Split line "|" in
  if (length parts <? 5)%nat || bool_decide (cell 2 parts = EmptyString) then None
  else Some {| Update_Name := cell 2 parts; Update_CurrentVersion := cell 3 parts;
               Update_NewVersion := cell 4 parts; Update_Architecture := cell 5 parts;
               Update_Repository := cell 1 parts |}.

Definition version_row (name line : string) : option AvailableVersion :=
  let parts := Split line "|" in
  if (length parts <? 6)%nat || negb (bool_decide (cell 1 parts = name)) then None
  else Some {| Available_Version := cell 3 parts; Available_Repository := cell 5 parts; Available_Size := 0 |}.

(** What follows [^\s*\d+\s*\|\s*]. *)
Definition lock_rest (line : string) : option string :=
  number ← some_of is_digit (span re_space line).2;
  rest ← expect "|" (span re_space number.2).2;
  Some (span re_space rest).2.

(** The group of [^\s*\d+\s*\|\s*(\S+)]. *)
Definition zypperLockRe (line : string) : option string :=
  rest ← lock_rest line;
  name ← some_of re_word rest;
  Some name.1.

(** [^\s*\d+\s*\|\s*NAME\s*\|] for a name that starts with a letter or digit. *)
Definition locks_name (name line : string) : bool :=
  match (rest ← lock_rest line; expect name rest) with
  | Some rest => HasPrefix (span re_space rest).2 "|"
  | None => false
  end.

(** An update or a patch in the table of [list-updates] or [list-patches]. *)
Definition needed (line : string) : bool := Contains line "v |" || Contains line "i |".

Section sizes.
Context `{!FloatText}.

Definition show_line (p : Package) (line : string) : Package :=
  let value := parseColonValue line in
  if HasPrefix line "Version" then with_version value p
  else if HasPrefix line "Arch" then with_architecture value p
  else if HasPrefix line "Summary" then with_description value p
  else if HasPrefix line "Installed Size" then
    match parseBinarySize value with Some n => with_size n p | None => p end
  else if HasPrefix line "Repository" then with_repository value p
  else if HasPrefix line "Status" then
    if Contains (ToLower value) "installed" then with_status PackageStatusInstalled p else p
  else p.
End sizes.

Section zypper.
Context {D : Type} `{!Runner D, !FloatText}.

Definition write (ctx : Ctx) (args : list string) : M D outcome :=
  write_with isZypperInfoExit ctx [] "zypper" args.

Definition Version (ctx : Ctx) : M D string :=
  out ← readOut ctx "zypper" ["--version"];
  mret (column 1 (Fields out)).

Definition Install (ctx : Ctx) (allowDowngrade : bool) (specs : list InstallSpec) : M D outcome :=
  match specs with
  | [] => mret nothing
  | _ => checked (spec_operands "=" specs) (fun operands =>
      write ctx (["--non-interactive"; "install"] ++ (if allowDowngrade then ["--oldpackage"] else [])
        ++ operands)%list)
  end.

Definition InstallLocal (ctx : Ctx) (path : string) (opts : InstallLocalOptions) : M D outcome :=
  checked (ValidateLocalPackagePath path) (fun _ =>
    write ctx (["--non-interactive"; "install"]
      ++ (if Local_AllowUnsigned opts then ["--allow-unsigned-rpm"] else [])
      ++ (if Local_AllowDowngrade opts then ["--oldpackage"] else []) ++ [path])%list).

Definition Remove (ctx : Ctx) (purge : bool) (packages : list string) : M D outcome :=
  match packages with
  | [] => mret nothing
  | _ =>
      if purge then mret (refused (ErrWrap "zypper purge" ErrUnsupported))
      else checked (ValidatePackageNames packages) (fun _ =>
        write ctx (["--non-interactive"; "remove"] ++ packages)%list)
  end.

Definition Update (ctx : Ctx) : M D outcome := write ctx ["--non-interactive"; "refresh"].

Definition Upgrade (ctx : Ctx) (packages : list string) : M D outcome :=
  on_names packages (fun names => write ctx (["--non-interactive"; "update"] ++ names)%list).

Definition UpgradeAll (ctx : Ctx) : M D outcome := write ctx ["--non-interactive"; "update"].

Definition UpgradeSecurity (ctx : Ctx) : M D outcome :=
  write ctx ["--non-interactive"; "patch"; "--category"; "security"].

Definition Autoremove (ctx : Ctx) : M D outcome :=
  mret (refused (ErrWrap "zypper autoremove" ErrUnsupported)).

Definition Search (ctx : Ctx) (query : string) : M D (list SearchResult) :=
  _ ← lift (ValidateSearchQuery query);
  res ← runRead ctx "zypper" ["--non-interactive"; "search"; query];
  if Exec_ExitCode res =? 104 then mret []
  else match asCommandError "zypper" res with
  | Some err => fail err
  | None => mret (omap search_row (rows (Exec_Stdout res)))
  end.

(** Whether a listing has something to install: by its exit code or by its rows. *)
Definition has_needed (ctx : Ctx) (args : list string) : M D bool :=
  res ← runRead ctx "zypper" ("--non-interactive" :: args);
  if (Exec_ExitCode res =? 100) || (Exec_ExitCode res =? 101) then mret true
  else if negb (isZypperInfoExit (Exec_ExitCode res))
  then fail (CommandError "zypper" (Exec_ExitCode res) (Exec_Stderr res))
  else mret (existsb needed (lines (Exec_Stdout res))).

Definition HasSecurityUpdates (ctx : Ctx) : M D bool :=
  has_needed ctx ["list-patches"; "--category"; "security"].

Definition HasUpdates (ctx : Ctx) : M D bool := has_needed ctx ["list-updates"].

Definition List (ctx : Ctx) : M D (list Package) :=
  out ← readOut ctx "rpm" ["-qa"; "--queryformat";
    tabs ["%{NAME}"; "%{VERSION}-%{RELEASE}"; "%{ARCH}"; "%{SIZE}"; "%{SUMMARY}"] ++ newline];
  mret (omap list_line (lines out)).

Definition ListUpgradable (ctx : Ctx) : M D (list PackageUpdate) :=
  res ← runRead ctx "zypper" ["--non-interactive"; "list-updates"];
  if negb (isZypperInfoExit (Exec_ExitCode res))
  then fail (CommandError "zypper" (Exec_ExitCode res) (Exec_Stderr res))
  else mret (omap upgradable_row (rows (Exec_Stdout res))).

Definition IsInstalled (ctx : Ctx) (name : string) : M D bool :=
  _ ← lift (ValidatePackageName name);
  res ← runRead ctx "rpm" ["-q"; name];
  mret (Exec_ExitCode res =? 0).

Definition InstalledVersion (ctx : Ctx) (name : string) : M D string :=
  _ ← lift (ValidatePackageName name);
  res ← runRead ctx "rpm" ["-q"; "--queryformat"; "%{VERSION}-%{RELEASE}"; name];
  if negb (Exec_ExitCode res =? 0) then fail (ErrWrap ("zypper package " ++ name) ErrNotFound)
  else mret (TrimSpace (Exec_Stdout res)).

Definition Show (ctx : Ctx) (name : string) : M D Package :=
  _ ← lift (ValidatePackageName name);
  out ← readOut ctx "zypper" ["--non-interactive"; "info"; name];
  let p := fold_left show_line (lines out) (unknown_package name PackageStatusAvailable) in
  installed ← IsInstalled ctx name;
  mret (if installed : bool then with_status PackageStatusInstalled p else p).

Definition ListVersions (ctx : Ctx) (name : string) : M D VersionInfo :=
  _ ← lift (ValidatePackageName name);
  res ← runRead ctx "zypper" ["--non-interactive"; "search"; "-s"; "--match-exact"; name];
  installed ← version_if_installed (InstalledVersion ctx name);
  let info versions := {| Info_Name := name; Info_Versions := versions; Info_Installed := installed |} in
  if Exec_ExitCode res =? 104 then mret (info [])
  else match asCommandError "zypper" res with
  | Some err => fail err
  | None => mret (info (distinct_versions [] (omap (version_row name) (rows (Exec_Stdout res)))))
  end.

Definition LocalPackageInfo (ctx : Ctx) (path : string) : M D LocalPackage := rpmLocalPackageInfo ctx path.

Definition InstalledCount (ctx : Ctx) : M D Z :=
  out ← readOut ctx "rpm" ["-qa"; "--qf"; "." ++ newline];
  mret (countNonEmptyLines out).

Definition Pin (ctx : Ctx) (packages : list string) : M D outcome :=
  on_names packages (fun names => write ctx (["--non-interactive"; "addlock"] ++ names)%list).

Definition Unpin (ctx : Ctx) (packages : list string) : M D outcome :=
  on_names packages (fun names => write ctx (["--non-interactive"; "removelock"] ++ names)%list).

Definition ListPinned (ctx : Ctx) : M D (list Package) :=
  out ← readOut ctx "zypper" ["--non-interactive"; "locks"];
  with_versions (InstalledVersion ctx) (omap zypperLockRe (rows out)).

Definition IsPinned (ctx : Ctx) (name : string) : M D bool :=
  _ ← lift (ValidatePackageName name);
  res ← probe ctx "zypper" ["--non-interactive"; "locks"];
  if negb (res : string * bool).2 then mret false
  else mret (existsb (locks_name name) (lines res.1)).
End zypper.
End Zypper.
