(* ===== verification/Pacman.v ===== *)
(** * The Arch back end ([sdk/pkg/pacman.go])

    Pinning is an edit of [/etc/pacman.conf]: the packages held are the words of its
    [IgnorePkg] lines, which a pin replaces by one. *)

From Stdlib Require Import Ascii.
From S2P Require Import Prelude Engine Proto Strs Text Exec Executor Packages.

Open Scope string_scope.
Open Scope Z_scope.

Module Pacman.
(** [^[a-zA-Z0-9][a-zA-Z0-9._+-]*$]. *)
Definition validPacmanPkgName (s : string) : bool :=
  match s with
  | EmptyString => false
  | String c rest => letter_or_digit c && all_bytes (fun c => letter_or_digit c || one_of "._+-" c) rest
  end.

(** *** Parsers *)

(** The first field with a [v] of the first line that has one after [Pacman v]. *)
Fixpoint parse_version (l : list string) : string :=
  match l with
  | [] => EmptyString
  | line :: l =>
      if Contains line "Pacman v" then
        match List.find (fun field => HasPrefix field "v") (Fields line) with
        | Some field => TrimPrefix field "v"
        | None => parse_version l
        end
      else parse_version l
  end.

(** A package line of [-Ss], which an indented line describes. *)
Definition search_name (line : string) : option SearchResult :=
  let fields := Fields line in
  if (length fields <? 2)%nat then None
  else
    let nameParts := Split (column 0 fields) "/" in
    Some {| Search_Name := List.last nameParts EmptyString; Search_Version := column 1 fields;
            Search_Description := EmptyString;
            Search_Repository := if (1 <? length nameParts)%nat then column 0 nameParts else EmptyString |}.

Definition describe (text : string) (r : SearchResult) : SearchResult := {|
  Search_Name := Search_Name r; Search_Version := Search_Version r; Search_Description := text;
  Search_Repository := Search_Repository r |}.

Fixpoint search_lines (current : option SearchResult) (l : list string) : list SearchResult :=
  match l with
  | [] => []
  | line :: l =>
      if HasPrefix line " " then
        match current with
        | Some r => describe (TrimSpace line) r :: search_lines None l
        | None => search_lines None l
        end
      else if bool_decide (line = EmptyString) then search_lines current l
      else search_lines (match search_name line with Some r => Some r | None => current end) l
  end.

Definition list_line (line : string) : option Package :=
  let fields := Fields line in
  if (length fields <? 2)%nat then None else Some (installed_package (column 0 fields) (column 1 fields)).

(** *** The configuration *)

Definition ignore_words (line : string) : list string :=
  let line := TrimSpace line in
  if negb (HasPrefix line "IgnorePkg") then []
  else match cut_at line "=" with
  | Some (_, value) => Fields (TrimSpace value)
  | None => []
  end.

Definition getIgnoredPackages (conf : string) : list string := mjoin (ignore_words <$> lines conf).

Definition is_ignore_line (line : string) : bool := HasPrefix (TrimSpace line) "IgnorePkg".

Definition ignore_line (ignored : list string) : string := "IgnorePkg = " ++ Join ignored " " ++ newline.

(** The lines, with the first [IgnorePkg] line replaced and the others dropped; and
    whether there was one. *)
Fixpoint replace_lines (ignored : list string) (found : bool) (l : list string) : string * bool :=
  match l with
  | [] => (EmptyString, found)
  | line :: l =>
      if is_ignore_line line then
        let '(rest, _) := replace_lines ignored true l in
        (if found then rest
         else match ignored with [] => rest | _ => ignore_line ignored ++ rest end, true)
      else
        let '(rest, found) := replace_lines ignored found l in
        (line ++ newline ++ rest, found)
  end.

(** A new line at the start of the options. *)
Definition insert_line (text content : string) : string :=
  match cut_at content "[options]" with
  | None => content
  | Some (before, after) =>
      match cut_at after newline with
      | None => content
      | Some (header, rest) => before ++ "[options]" ++ header ++ newline ++ text ++ rest
      end
  end.

Definition buildIgnorePkgConf (conf : string) (ignored : list string) : string :=
  let '(content, found) := replace_lines ignored false (lines conf) in
  match found, ignored with
  | false, _ :: _ => insert_line (ignore_line ignored) content
  | _, _ => content
  end.

(** The names added to those already held, each once. *)
Definition pin_names (ignored names : list string) : list string :=
  fold_left (fun ignored name => if bool_decide (name ∈ ignored) then ignored else (ignored ++ [name])%list)
    names ignored.

Section sizes.
Context `{!FloatText}.

Definition show_line (p : Package) (line : string) : Package :=
  let value := parseColonValue line in
  if HasPrefix line "Version" then with_version value p
  else if HasPrefix line "Architecture" then with_architecture value p
  else if HasPrefix line "Description" then with_description value p
  else if HasPrefix line "Installed Size" then
    match parseBinarySize value with Some n => with_size n p | None => p end
  else if HasPrefix line "Repository" then with_repository value p
  else p.
End sizes.

(** The version and the repository of [-Si]. *)
Definition version_line (v : AvailableVersion) (line : string) : AvailableVersion :=
  if HasPrefix line "Version" then {|
    Available_Version := parseColonValue line; Available_Repository := Available_Repository v; Available_Size := 0 |}
  else if HasPrefix line "Repository" then {|
    Available_Version := Available_Version v; Available_Repository := parseColonValue line; Available_Size := 0 |}
  else v.

Definition no_version : AvailableVersion :=
  {| Available_Version := EmptyString; Available_Repository := EmptyString; Available_Size := 0 |}.

(** [line[0] == ' ' || line[0] == '\t'] of a line that is not empty. *)
Definition indented (line : string) : bool :=
  match line with String c _ => Ascii.eqb c " " || Ascii.eqb c tab | EmptyString => false end.

Section pacman.
Context {D : Type} `{!Runner D, !FloatText}.

Definition write (ctx : Ctx) (args : list string) : M D outcome :=
  write_with (fun _ => false) ctx [] "pacman" args.

Definition Version (ctx : Ctx) : M D string :=
  out ← readOut ctx "pacman" ["--version"];
  mret (parse_version (lines out)).

Definition Install (ctx : Ctx) (allowDowngrade : bool) (specs : list InstallSpec) : M D outcome :=
  match specs with
  | [] => mret nothing
  | _ => checked (spec_operands "=" specs) (fun operands =>
      write ctx (["-S"; "--noconfirm"; "--needed"] ++ operands)%list)
  end.

Definition InstallLocal (ctx : Ctx) (path : string) (opts : InstallLocalOptions) : M D outcome :=
  checked (ValidateLocalPackagePath path) (fun _ => write ctx ["-U"; "--noconfirm"; path]).

Definition Remove (ctx : Ctx) (purge : bool) (packages : list string) : M D outcome :=
  on_names packages (fun names => write ctx ([if purge then "-Rns" else "-R"; "--noconfirm"] ++ names)%list).

Definition Update (ctx : Ctx) : M D outcome :=
  mret (refused (ErrWrap "pacman metadata refresh" ErrUnsupported)).

Definition Upgrade (ctx : Ctx) (packages : list string) : M D outcome :=
  on_names packages (fun names => write ctx (["-S"; "--noconfirm"] ++ names)%list).

Definition UpgradeAll (ctx : Ctx) : M D outcome := write ctx ["-Syu"; "--noconfirm"].

Definition UpgradeSecurity (ctx : Ctx) : M D outcome :=
  mret (refused (ErrWrap "pacman security upgrades" ErrUnsupported)).

(** What was installed as a dependency and is needed no more; exit 1 is none. *)
Definition Autoremove (ctx : Ctx) : M D outcome :=
  run ← attempt (runRead ctx "pacman" ["-Qtdq"]);
  match run with
  | Err err => mret (refused err)
  | Ok res =>
      if Exec_ExitCode res =? 1 then mret nothing
      else match asCommandError "pacman" res with
      | Some err => mret (res, Some err)
      | None =>
          match List.filter (fun n => negb (bool_decide (n = EmptyString))) (TrimSpace <$> lines (Exec_Stdout res)) with
          | [] => mret nothing
          | orphans => write ctx (["-Rns"; "--noconfirm"] ++ orphans)%list
          end
      end
  end.

(** A query whose exit 1 is an empty answer. *)
Definition query_lines (ctx : Ctx) (args : list string) : M D (option string) :=
  res ← runRead ctx "pacman" args;
  if Exec_ExitCode res =? 1 then mret None
  else match asCommandError "pacman" res with
  | Some err => fail err
  | None => mret (Some (Exec_Stdout res))
  end.

Definition Search (ctx : Ctx) (query : string) : M D (list SearchResult) :=
  _ ← lift (ValidateSearchQuery query);
  out ← query_lines ctx ["-Ss"; query];
  mret match out with Some out => search_lines None (lines out) | None => [] end.

Definition List (ctx : Ctx) : M D (list Package) :=
  out ← readOut ctx "pacman" ["-Q"];
  mret (omap list_line (lines out)).

Definition IsInstalled (ctx : Ctx) (name : string) : M D bool :=
  _ ← lift (ValidatePackageName name);
  res ← runRead ctx "pacman" ["-Q"; name];
  mret (Exec_ExitCode res =? 0).

Definition InstalledVersion (ctx : Ctx) (name : string) : M D string :=
  _ ← lift (ValidatePackageName name);
  res ← runRead ctx "pacman" ["-Q"; name];
  if negb (Exec_ExitCode res =? 0) then fail (ErrWrap ("pacman package " ++ name) ErrNotFound)
  else mret (column 1 (Fields (Exec_Stdout res))).

Definition update (name current new : string) : PackageUpdate := {|
  Update_Name := name; Update_CurrentVersion := current; Update_NewVersion := new;
  Update_Architecture := EmptyString; Update_Repository := EmptyString |}.

(** The line's own current version, or the installed one. *)
Definition upgradable_line (ctx : Ctx) (fields : list string) : M D PackageUpdate :=
  if (4 <=? length fields)%nat && bool_decide (column 2 fields = "->")
  then mret (update (column 0 fields) (column 1 fields) (column 3 fields))
  else
    current ← InstalledVersion ctx (column 0 fields);
    mret (update (column 0 fields) current (column 1 fields)).

Definition ListUpgradable (ctx : Ctx) : M D (list PackageUpdate) :=
  out ← query_lines ctx ["-Qu"];
  match (out : option string) with
  | None => mret []
  | Some out =>
      map_m (upgradable_line ctx) (List.filter (fun fields => (2 <=? length fields)%nat) (Fields <$> lines out))
  end.

Definition Show (ctx : Ctx) (name : string) : M D Package :=
  _ ← lift (ValidatePackageName name);
  local ← probe ctx "pacman" ["-Qi"; name];
  if (local : string * bool).2
  then mret (fold_left show_line (lines local.1) (unknown_package name PackageStatusInstalled))
  else
    remote ← probe ctx "pacman" ["-Si"; name];
    if negb (remote : string * bool).2 then fail (ErrNew ("package not found: " ++ name))
    else mret (fold_left show_line (lines remote.1) (unknown_package name PackageStatusAvailable)).

Definition ListVersions (ctx : Ctx) (name : string) : M D VersionInfo :=
  _ ← lift (ValidatePackageName name);
  installed ← version_if_installed (InstalledVersion ctx name);
  remote ← probe ctx "pacman" ["-Si"; name];
  let info versions := {| Info_Name := name; Info_Versions := versions; Info_Installed := installed |} in
  if negb (remote : string * bool).2 then mret (info [])
  else
    let v := fold_left version_line (lines remote.1) no_version in
    mret (info (if bool_decide (Available_Version v = EmptyString) then [] else [v])).

Definition LocalPackageInfo (ctx : Ctx) (path : string) : M D LocalPackage :=
  _ ← lift (ValidateLocalPackagePath path);
  out ← readOut ctx "pacman" ["-Qp"; path];
  let line := TrimRight out (fun c => Ascii.eqb c line_feed || Ascii.eqb c (ascii_of_nat 13)) in
  if bool_decide (TrimSpace line = EmptyString) || indented line
  then fail (ErrNew "pkg: pacman -Qp reported no name")
  else
    let fields := Fields line in
    _ ← on_error (lift (ValidatePackageName (column 0 fields)))
      (fun err => fail (ErrWrap "pkg: local package reports an unsafe name" err));
    mret {| Local_Name := column 0 fields; Local_Version := column 1 fields; Local_Arch := EmptyString |}.

Definition InstalledCount (ctx : Ctx) : M D Z :=
  out ← readOut ctx "pacman" ["-Qq"];
  mret (countNonEmptyLines out).

Definition HasUpdates (ctx : Ctx) : M D bool :=
  out ← query_lines ctx ["-Qu"];
  mret match (out : option string) with
    | Some out => negb (bool_decide (TrimSpace out = EmptyString))
    | None => false
    end.

Definition HasSecurityUpdates (ctx : Ctx) : M D bool :=
  fail (ErrWrap "pacman security updates" ErrUnsupported).

Definition readConf (ctx : Ctx) : M D string :=
  on_error (readOut ctx "cat" ["/etc/pacman.conf"])
    (fun err => fail (ErrWrap "failed to read pacman.conf" err)).

Definition writeIgnorePkg (ctx : Ctx) (conf : string) (ignored : list string) : M D outcome :=
  run ← runPrivStdin ctx [] (buildIgnorePkgConf conf ignored) "tee" ["/etc/pacman.conf"];
  mret (no_result, match snd (run : outcome) with Some err => Some err | None => asCommandError "tee" run.1 end).

(** An edit of the names held. *)
Definition edit_ignored (ctx : Ctx) (edit : list string -> list string) : M D outcome :=
  conf ← attempt (readConf ctx);
  match conf with
  | Err err => mret (refused err)
  | Ok conf => writeIgnorePkg ctx conf (edit (getIgnoredPackages conf))
  end.

Definition Pin (ctx : Ctx) (packages : list string) : M D outcome :=
  on_names packages (fun names =>
    if negb (forallb validPacmanPkgName names)
    then mret (refused (ErrWrap "invalid package name" ErrInvalidArgument))
    else edit_ignored ctx (fun ignored => pin_names ignored names)).

Definition Unpin (ctx : Ctx) (packages : list string) : M D outcome :=
  on_names packages (fun names =>
    edit_ignored ctx (List.filter (fun name => negb (bool_decide (name ∈ names))))).

Definition ListPinned (ctx : Ctx) : M D (list Package) :=
  conf ← readConf ctx;
  with_versions (InstalledVersion ctx) (getIgnoredPackages conf).

Definition IsPinned (ctx : Ctx) (name : string) : M D bool :=
  _ ← lift (ValidatePackageName name);
  conf ← readConf ctx;
  mret (bool_decide (name ∈ getIgnoredPackages conf)).
End pacman.
End Pacman.
