(* ===== verification/Words.v ===== *)
(** * Words of a text

    [Fields] and [TrimSpace] on texts of words: the words that [Fields] finds have no
    white space in them, and words joined by spaces are found again. *)

From Stdlib Require Import Ascii.
From S2P Require Import Prelude Strs Text.

Open Scope string_scope.
Open Scope Z_scope.

(** ** Reversal *)

Definition rev (s : string) : string := rev_string s EmptyString.

Lemma rev_string_acc s acc : rev_string s acc = (rev s ++ acc)%string.
Proof.
  unfold rev. revert acc. induction s as [|c s IH]; intros acc; [done|]. simpl.
  rewrite IH, (IH (String c EmptyString)). by rewrite <- append_assoc.
Qed.

Lemma rev_cons c s : rev (String c s) = (rev s ++ String c EmptyString)%string.
Proof. unfold rev at 1. simpl. apply rev_string_acc. Qed.

Lemma rev_app s t : rev (s ++ t)%string = (rev t ++ rev s)%string.
Proof.
  induction s as [|c s IH]; [by rewrite append_nil_r|].
  change (String c s ++ t)%string with (String c (s ++ t)%string). by rewrite !rev_cons, IH, append_assoc.
Qed.

Lemma rev_rev s : rev (rev s) = s.
Proof. induction s as [|c s IH]; [done|]. by rewrite rev_cons, rev_app, IH. Qed.

Lemma has_byte_rev c s : has_byte c (rev s) = has_byte c s.
Proof.
  induction s as [|d s IH]; [done|]. rewrite rev_cons, has_byte_app, IH. simpl. by rewrite orb_false_r, orb_comm.
Qed.

(** ** Prefixes *)

Lemma cut_last_spec s sep a b : cut_last s sep = Some (a, b) -> s = (a ++ String sep b)%string /\ has_byte sep b = false.
Proof.
  unfold cut_last. destruct (Cut (rev_string s EmptyString) sep) as [[after before] []] eqn:Hc; [|done].
  intros [= <- <-]. apply Cut_found in Hc as [Hs Hb]. fold (rev s) in Hs. fold (rev before) (rev after).
  apply (f_equal rev) in Hs. rewrite rev_rev, rev_app, rev_cons in Hs.
  rewrite Hs, <- append_assoc. split; [done|]. by rewrite has_byte_rev.
Qed.

(** A prefix ends in the first part, or goes on into the second. *)
Lemma HasPrefix_split a b p :
  HasPrefix (a ++ b)%string p = true ->
  HasPrefix a p = true \/ exists p', p = (a ++ p')%string /\ p' <> EmptyString /\ HasPrefix b p' = true.
Proof.
  revert p. induction a as [|c a IH]; intros p Hp.
  - destruct p as [|d p]; [by left|]. right. by exists (String d p).
  - destruct p as [|d p]; [by left|].
    change (String c a ++ b)%string with (String c (a ++ b)%string) in Hp. unfold HasPrefix in Hp. simpl in Hp.
    destruct (ascii_dec d c) as [->|]; [|done]. destruct (IH p Hp) as [Ha|(p' & -> & Hne & Hb)].
    + left. unfold HasPrefix. simpl. by destruct (ascii_dec c c).
    + right. by exists p'.
Qed.

Lemma HasPrefix_weaken a b p : HasPrefix a p = true -> HasPrefix (a ++ b)%string p = true.
Proof. intros [r ->]%HasPrefix_app. apply HasPrefix_app. exists (r ++ b)%string. by rewrite append_assoc. Qed.

(** ** White space *)

(** No encoding goes on over a space. *)
Lemma space_encodings_alone p :
  p ∈ space_encodings -> has_byte space p = true -> p = String space EmptyString.
Proof.
  intros Hp Hb. assert (forallb (fun p => negb (has_byte space p) || String.eqb p (String space EmptyString))
    space_encodings = true) as Hall by reflexivity.
  rewrite forallb_forall in Hall. apply list_elem_of_In in Hp. specialize (Hall p Hp). rewrite Hb in Hall.
  by apply String.eqb_eq.
Qed.

Lemma space_encodings_ne p : p ∈ space_encodings -> p <> EmptyString.
Proof.
  intros Hp ->. apply list_elem_of_In in Hp. simpl in Hp. decompose [or] Hp; done.
Qed.

(** What may follow a word. *)
Definition boundary (s : string) : Prop := s = EmptyString \/ exists r, s = String space r.

Lemma spaceless_app a b : spaceless (a ++ b)%string = true -> spaceless a = true /\ spaceless b = true.
Proof.
  induction a as [|c a IH]; [done|]. change (String c a ++ b)%string with (String c (a ++ b)%string).
  cbn [spaceless]. rewrite !andb_true_iff, !bool_decide_eq_true. intros [Hc Hab]. destruct (IH Hab) as [Ha Hb].
  split_and!; [|done|done]. apply leading_None. apply leading_None in Hc. eapply Forall_impl; [exact Hc|]. intros p Hp. cbv beta in *.
  destruct (HasPrefix (String c a) p) eqn:He; [|done].
  apply (HasPrefix_weaken _ b) in He. change (String c a ++ b)%string with (String c (a ++ b)%string) in He. congruence.
Qed.

Lemma spaceless_leading w : spaceless w = true -> leading space_encodings w = None.
Proof. destruct w; [done|]. cbn [spaceless]. rewrite andb_true_iff, bool_decide_eq_true. by intros [? _]. Qed.

Lemma spaceless_line w : spaceless w = true -> has_byte line_feed w = false.
Proof.
  induction w as [|c w IH]; [done|]. cbn [spaceless has_byte]. rewrite andb_true_iff, bool_decide_eq_true.
  intros [Hl Hw]. rewrite IH by done. rewrite orb_false_r. apply Ascii.eqb_neq. intros <-.
  by destruct w.
Qed.

(** No white space begins with a byte of the class. *)
Lemma class_spaceless_app p a w :
  forallb (fun e => match e with String c _ => negb (p c) | EmptyString => false end) space_encodings = true ->
  all_bytes p a = true -> spaceless w = true -> spaceless (a ++ w)%string = true.
Proof.
  intros Hp Ha Hw. induction a as [|c a IH]; [done|]. change (String c a ++ w)%string with (String c (a ++ w)%string).
  cbn [all_bytes] in Ha. apply andb_true_iff in Ha as [Hc Ha]. cbn [spaceless]. rewrite (IH Ha), andb_true_r.
  apply bool_decide_eq_true, leading_None, Forall_forall. intros e He.
  rewrite forallb_forall in Hp. apply list_elem_of_In in He. specialize (Hp e He). destruct e as [|d e]; [done|].
  unfold HasPrefix. cbn [String.prefix]. destruct (ascii_dec d c) as [->|]; [|done].
  by rewrite Hc in Hp.
Qed.

Lemma class_spaceless p s :
  forallb (fun e => match e with String c _ => negb (p c) | EmptyString => false end) space_encodings = true ->
  all_bytes p s = true -> spaceless s = true.
Proof. intros Hp Hs. rewrite <- (append_nil_r s). by apply (class_spaceless_app p). Qed.

(** White space does not begin in a word, whatever follows its end. *)
Lemma leading_word w r :
  w <> EmptyString -> spaceless w = true -> boundary r -> leading space_encodings (w ++ r)%string = None.
Proof.
  intros Hne Hw Hr. apply leading_None, Forall_forall. intros p Hp.
  destruct (HasPrefix (w ++ r)%string p) eqn:He; [|done].
  apply HasPrefix_split in He as [He|(p' & -> & Hp' & He)].
  - apply spaceless_leading, leading_None in Hw. rewrite Forall_forall in Hw. specialize (Hw p Hp). congruence.
  - destruct Hr as [->|[r' ->]]; [by destruct p'|]. destruct p' as [|d p']; [done|].
    unfold HasPrefix in He. simpl in He. destruct (ascii_dec d space) as [->|]; [|done].
    apply space_encodings_alone in Hp; [|rewrite has_byte_app; simpl; by rewrite orb_true_r].
    destruct w as [|c w]; [done|]. destruct w; [|done]. done.
Qed.

(** White space does not end with a word either. *)
Lemma trailing_word t w :
  w <> EmptyString -> spaceless w = true -> (t = EmptyString \/ exists t', t = (t' ++ String space EmptyString)%string) ->
  leading ((fun p => rev p) <$> space_encodings) (rev (t ++ w)%string) = None.
Proof.
  intros Hne Hw Ht. apply leading_None, Forall_forall. intros q (p & -> & Hp)%list_elem_of_fmap.
  destruct (HasPrefix (rev (t ++ w)%string) (rev p)) eqn:He; [|done]. exfalso. rewrite rev_app in He.
  apply HasPrefix_split in He as [He|(p' & Hrev & Hp' & He)].
  - apply HasPrefix_app in He as [r Hr]. apply (f_equal rev) in Hr. rewrite rev_app, !rev_rev in Hr. subst w.
    apply spaceless_app in Hw as [_ Hw]. apply spaceless_leading, leading_None in Hw.
    rewrite Forall_forall in Hw. specialize (Hw p Hp). assert (HasPrefix p p = true) as Hpp
      by (apply HasPrefix_app; exists EmptyString; by rewrite append_nil_r). congruence.
  - destruct Ht as [->|[t' ->]]; [by destruct p'|]. rewrite rev_app in He. destruct p' as [|d p']; [done|].
    unfold HasPrefix in He. simpl in He. destruct (ascii_dec d space) as [->|]; [|done].
    assert (has_byte space (rev (rev p)) = true) as Hb.
    { rewrite Hrev, rev_app, rev_cons, !has_byte_app. simpl. by rewrite orb_true_r. }
    rewrite rev_rev in Hb. apply space_encodings_alone in Hp; [|done]. subst p.
    destruct (rev w) as [|c w'] eqn:Hrw; [|by destruct w'].
    apply (f_equal rev) in Hrw. by rewrite rev_rev in Hrw.
Qed.

Lemma trim_left_tight fuel prefixes s : leading prefixes s = None -> trim_left fuel prefixes s = s.
Proof. intros Hs. destruct fuel; simpl; [done|]. by rewrite Hs. Qed.

Lemma TrimSpace_tight s :
  leading space_encodings s = None -> leading ((fun p => rev p) <$> space_encodings) (rev s) = None ->
  TrimSpace s = s.
Proof.
  intros Hl Hr. unfold TrimSpace. cbv zeta. rewrite (trim_left_tight _ _ s Hl).
  fold (rev s). rewrite trim_left_tight by exact Hr. apply rev_rev.
Qed.

Lemma leading_space s : leading space_encodings (String space s) = Some (String space EmptyString).
Proof. by destruct s. Qed.

Lemma TrimSpace_space s : leading space_encodings s = None -> TrimSpace (String space s) = TrimSpace s.
Proof.
  intros Hs. unfold TrimSpace. cbv zeta.
  assert (trim_left (String.length (String space s)) space_encodings (String space s)
          = trim_left (String.length s) space_encodings s) as ->; [|done].
  cbn [trim_left String.length]. rewrite leading_space. by destruct s.
Qed.

(** ** Fields *)

Lemma fields_from_nil fuel word : fields_from fuel EmptyString word = flush word.
Proof. by destruct fuel. Qed.

(** A word is read up to its end. *)
Lemma fields_from_word fuel w r acc :
  spaceless w = true -> boundary r ->
  fields_from (String.length w + fuel) (w ++ r)%string acc = fields_from fuel r (acc ++ w)%string.
Proof.
  revert acc. induction w as [|c w IH]; intros acc Hw Hr; [by rewrite append_nil_r|].
  change (String c w ++ r)%string with (String c (w ++ r)%string). cbn [fields_from String.length Nat.add].
  change (String c (w ++ r)%string) with (String c w ++ r)%string. rewrite leading_word by done.
  cbn [spaceless] in Hw. apply andb_true_iff in Hw as [_ Hw]. rewrite IH by done.
  by rewrite <- append_assoc.
Qed.

Lemma flush_word w : w <> EmptyString -> flush w = [w].
Proof. intros Hw. unfold flush. by case_bool_decide. Qed.

Lemma Join_cons w words sep : words <> [] -> Join (w :: words) sep = (w ++ sep ++ Join words sep)%string.
Proof. by destruct words. Qed.

(** The fields of words joined by spaces are the words. *)
Lemma Fields_Join words : Forall is_word words -> Fields (Join words (String space EmptyString)) = words.
Proof.
  assert (forall words fuel, Forall is_word words ->
    (String.length (Join words (String space EmptyString)) <= fuel)%nat ->
    fields_from fuel (Join words (String space EmptyString)) EmptyString = words) as Hall.
  { clear words. intros words fuel Hwords. revert fuel.
    induction Hwords as [|w words [Hne Hw] Hwords IH]; intros fuel Hfuel; [apply fields_from_nil|].
    destruct (decide (words = [])) as [->|Hmore].
    - change (Join [w] (String space EmptyString)) with w in *. rewrite <- (append_nil_r w) at 1.
      replace fuel with (String.length w + (fuel - String.length w))%nat by lia.
      rewrite fields_from_word by (try left; done). rewrite fields_from_nil. by apply flush_word.
    - rewrite Join_cons in * by done. rewrite !length_append in Hfuel. simpl String.length in Hfuel.
      replace fuel with (String.length w + S (fuel - String.length w - 1))%nat by lia.
      rewrite fields_from_word by (try (right; eexists); done).
      change (String space EmptyString ++ ?s)%string with (String space s). cbn [fields_from].
      rewrite leading_space. change (EmptyString ++ w)%string with w. rewrite flush_word by done. simpl. f_equal.
      apply IH. lia. }
  intros Hwords. by apply Hall.
Qed.

(** Every byte of [w], in the text [w ++ s], is outside white space. *)
Fixpoint outside (w s : string) : Prop :=
  match w with
  | EmptyString => True
  | String c w' => leading space_encodings (w ++ s)%string = None /\ outside w' s
  end.

Lemma outside_snoc w c s :
  outside w (String c s) -> leading space_encodings (String c s) = None ->
  outside (w ++ String c EmptyString)%string s.
Proof.
  induction w as [|d w IH]; simpl; [by split|].
  change (String.append w (String c EmptyString)) with (w ++ String c EmptyString)%string.
  intros [Hl Hw] Hc. split; [|by apply IH].
  change (String d (w ++ String c EmptyString)%string ++ s)%string
    with (String d ((w ++ String c EmptyString) ++ s)%string).
  by rewrite <- append_assoc.
Qed.

Lemma outside_spaceless w s : outside w s -> spaceless w = true.
Proof.
  induction w as [|c w IH]; [done|]. cbn [outside spaceless]. intros [Hl Hw].
  apply andb_true_iff. split; [|by apply IH]. apply bool_decide_eq_true, leading_None.
  apply leading_None in Hl. eapply Forall_impl; [exact Hl|]. intros p Hp. cbv beta in *.
  destruct (HasPrefix (String c w) p) eqn:He; [|done]. apply (HasPrefix_weaken _ s) in He. congruence.
Qed.

Lemma flush_words w s : outside w s -> Forall is_word (flush w).
Proof.
  intros Hw. unfold flush. case_bool_decide; [constructor|]. constructor; [|constructor].
  split; [done|]. by eapply outside_spaceless.
Qed.

(** Fields are words. *)
Lemma Fields_words s : Forall is_word (Fields s).
Proof.
  unfold Fields. assert (outside EmptyString s) as Hw by done. revert Hw.
  generalize (String.length s) EmptyString. intros fuel. revert s.
  induction fuel as [|fuel IH]; intros s w Hw; [by eapply flush_words|].
  destruct s as [|c s]; [by eapply flush_words|]. cbn [fields_from].
  destruct (leading space_encodings (String c s)) as [p|] eqn:Hl.
  - apply Forall_app. split; [by eapply flush_words|]. by apply IH.
  - apply IH. by apply outside_snoc.
Qed.

(** Words joined by spaces have none around them. *)
Lemma TrimSpace_words words :
  Forall is_word words -> words <> [] ->
  TrimSpace (Join words (String space EmptyString)) = Join words (String space EmptyString).
Proof.
  intros Hw Hne. apply TrimSpace_tight.
  - destruct Hw as [|w words [Hwne Hws] _]; [done|]. destruct words as [|v words].
    + rewrite <- (append_nil_r (Join _ _)). apply leading_word; [done..|by left].
    + rewrite Join_cons by done. apply leading_word; [done..|]. right. by eexists.
  - destruct (exists_last Hne) as (init & x & ->). apply Forall_app in Hw as [_ Hx].
    apply Forall_singleton in Hx as [Hxne Hxs]. destruct init as [|w init].
    + change (Join ([] ++ [x]) (String space EmptyString)) with (EmptyString ++ x)%string.
      apply trailing_word; [done..|by left].
    + assert (Join ((w :: init) ++ [x]) (String space EmptyString)
        = ((Join (w :: init) (String space EmptyString) ++ String space EmptyString) ++ x)%string) as ->.
      { clear. revert w. induction init as [|v init IH]; intros w; [by rewrite <- append_assoc|].
        change ((w :: v :: init) ++ [x])%list with (w :: ((v :: init) ++ [x])%list).
        rewrite Join_cons, IH by done. rewrite (Join_cons w (v :: init)) by done. by rewrite <- !append_assoc. }
      apply trailing_word; [done..|]. right. by eexists.
Qed.

Lemma Join_words_line words : Forall is_word words -> has_byte line_feed (Join words " ") = false.
Proof.
  induction 1 as [|w words [_ Hw] Hwords IH]; [done|]. destruct (decide (words = [])) as [->|].
  - by apply spaceless_line.
  - rewrite Join_cons by done. rewrite !has_byte_app, IH, spaceless_line by done. done.
Qed.
