(* ===== verification/PacmanFacts.v ===== *)
(** * Pinning on Arch

    A pin is an edit of [pacman.conf]; what it writes is read back as the packages that
    are held, and the rest of the file stays. *)

From Stdlib Require Import Ascii.
From S2P Require Import Prelude Engine Proto Strs Text Words Exec Executor Packages Pacman.

Open Scope string_scope.
Open Scope Z_scope.

Import Pacman.

(** ** Lines *)

Lemma unlines_lines s : unlines (lines s) = (s ++ newline)%string.
Proof.
  unfold lines. induction s as [|c s IH]; [done|]. cbn [Split].
  change (String c s ++ newline)%string with (String c (s ++ newline)%string). rewrite <- IH.
  destruct (Ascii.eqb_spec c line_feed) as [->|_]; [done|].
  pose proof (Split_not_nil s line_feed). by destruct (Split s line_feed).
Qed.

Lemma lines_spec s : Forall (fun x => has_byte line_feed x = false) (lines s).
Proof. apply Split_parts. Qed.

(** ** The line of the packages held *)

Definition held_line (ignored : list string) : string := "IgnorePkg = " ++ Join ignored " ".

Lemma ignore_line_eq ignored : ignore_line ignored = (held_line ignored ++ newline)%string.
Proof. unfold ignore_line, held_line. by rewrite <- append_assoc. Qed.

Lemma held_line_line ignored : Forall is_word ignored -> has_byte line_feed (held_line ignored) = false.
Proof. intros Hw. unfold held_line. by rewrite has_byte_app, Join_words_line. Qed.

(** Words joined by spaces begin with one and end with one. *)
Lemma Join_last words :
  words <> [] -> Forall is_word words ->
  exists t w, Join words " " = (t ++ w)%string /\ is_word w /\
    (t = EmptyString \/ exists t', t = (t' ++ String space EmptyString)%string).
Proof.
  intros Hne Hw. induction Hw as [|w words Hw Hwords IH]; [done|].
  destruct (decide (words = [])) as [->|Hmore]; [exists EmptyString, w; split_and!; [done|done|by left]|].
  destruct (IH Hmore) as (t & l & Hj & Hl & Ht). exists (w ++ " " ++ t)%string, l.
  rewrite Join_cons, Hj by done. split_and!; [by rewrite <- !append_assoc|done|]. right.
  destruct Ht as [->|[t' ->]]; [by exists w|]. exists (w ++ " " ++ t')%string. by rewrite <- !append_assoc.
Qed.

Lemma Join_first words :
  words <> [] -> Forall is_word words -> leading space_encodings (Join words " ") = None.
Proof.
  intros Hne Hw. destruct Hw as [|w words [Hw1 Hw2] Hwords]; [done|].
  destruct (decide (words = [])) as [->|Hmore].
  - rewrite <- (append_nil_r (Join [w] " ")). by apply leading_word; [..|left].
  - rewrite Join_cons by done. apply leading_word; [done..|]. right. by eexists.
Qed.

Lemma held_line_read ignored :
  ignored <> [] -> Forall is_word ignored ->
  is_ignore_line (held_line ignored) = true /\ ignore_words (held_line ignored) = ignored.
Proof.
  intros Hne Hw. destruct (Join_last ignored Hne Hw) as (t & w & Hj & [Hw1 Hw2] & Ht).
  assert (TrimSpace (held_line ignored) = held_line ignored) as Htrim.
  { apply TrimSpace_tight; [reflexivity|]. unfold held_line. rewrite Hj, append_assoc. apply trailing_word; [done..|].
    right. destruct Ht as [->|[t' ->]].
    - by exists "IgnorePkg =".
    - exists ("IgnorePkg = " ++ t')%string. by rewrite append_assoc. }
  unfold is_ignore_line, ignore_words. rewrite Htrim. cbv zeta.
  assert (HasPrefix (held_line ignored) "IgnorePkg" = true) as Hp
    by (apply HasPrefix_app; by eexists).
  rewrite Hp. split; [done|]. simpl negb. cbv iota.
  assert (cut_at (held_line ignored) "=" = Some ("IgnorePkg ", " " ++ Join ignored " ")) as ->.
  { unfold held_line. by destruct (Join ignored " "). }
  change (" " ++ Join ignored " ")%string with (String space (Join ignored " ")).
  rewrite TrimSpace_space by (by apply Join_first). rewrite TrimSpace_tight.
  - by apply Fields_Join.
  - by apply Join_first.
  - rewrite Hj. by apply trailing_word.
Qed.

Lemma ignore_words_other line : is_ignore_line line = false -> ignore_words line = [].
Proof. unfold is_ignore_line, ignore_words. by intros ->. Qed.

(** ** The edit *)

(** The lines [replace_lines] keeps. *)
Fixpoint kept (ignored : list string) (found : bool) (l : list string) : list string :=
  match l with
  | [] => []
  | line :: l =>
      if is_ignore_line line then
        ((if found then [] else match ignored with [] => [] | _ => [held_line ignored] end)
         ++ kept ignored true l)%list
      else line :: kept ignored found l
  end.

Lemma replace_lines_eq ignored found l :
  replace_lines ignored found l = (unlines (kept ignored found l), found || existsb is_ignore_line l).
Proof.
  revert found. induction l as [|line l IH]; intros found; simpl; [by rewrite orb_false_r|].
  destruct (is_ignore_line line); simpl.
  - rewrite IH, orb_true_r. destruct found; [done|]. destruct ignored; [done|].
    rewrite ignore_line_eq. simpl. by rewrite <- append_assoc.
  - rewrite IH. done.
Qed.

(** The lines that hold nothing. *)
Definition other_lines (l : list string) : list string := List.filter (fun x => negb (is_ignore_line x)) l.

Lemma kept_facts ignored found l :
  Forall is_word ignored -> Forall (fun x => has_byte line_feed x = false) l ->
  let k := kept ignored found l in
  Forall (fun x => has_byte line_feed x = false) k /\
  mjoin (ignore_words <$> k) = (if found || negb (existsb is_ignore_line l) then [] else ignored) /\
  other_lines k = other_lines l.
Proof.
  intros Hw Hl. cbv zeta. revert found. induction Hl as [|line l Hline Hl IH]; intros found; simpl.
  { split_and!; [done| |done]. by rewrite orb_true_r. }
  destruct (is_ignore_line line) eqn:Hi; simpl.
  - destruct (IH true) as (Hk1 & Hk2 & Hk3). simpl in Hk2. rewrite orb_false_r. destruct found; [done|].
    destruct ignored as [|i ignored]; [done|]. set (held := i :: ignored) in *.
    destruct (held_line_read held) as [Hr1 Hr2]; [done..|].
    split_and!.
    + constructor; [by apply held_line_line|done].
    + change (ignore_words (held_line held) ++ mjoin (ignore_words <$> kept held true l) = held)%list.
      rewrite Hr2, Hk2. apply app_nil_r.
    + unfold other_lines in *. simpl. by rewrite Hr1.
  - destruct (IH found) as (Hk1 & Hk2 & Hk3). split_and!; [by constructor|by rewrite ignore_words_other|].
    unfold other_lines in *. simpl. by rewrite Hi, Hk3.
Qed.

Lemma kept_none ignored l : existsb is_ignore_line l = false -> kept ignored false l = l.
Proof.
  induction l as [|line l IH]; simpl; [done|]. rewrite orb_false_iff. intros [-> Hl]. by rewrite IH.
Qed.

Lemma no_words l : existsb is_ignore_line l = false -> mjoin (ignore_words <$> l) = [].
Proof.
  induction l as [|line l IH]; simpl; [done|]. rewrite orb_false_iff. intros [Hi Hl].
  rewrite ignore_words_other by done. by apply IH.
Qed.

Lemma other_all l : existsb is_ignore_line l = false -> other_lines l = l.
Proof.
  induction l as [|line l IH]; simpl; [done|]. rewrite orb_false_iff. intros [-> Hl]. simpl. by rewrite IH.
Qed.

(** ** Inserting a line *)

Lemma Contains_cut s sub : Contains s sub = true -> exists b a, cut_at s sub = Some (b, a).
Proof.
  induction s as [|c s IH]; rewrite cut_at_eq; cbn [Contains].
  - rewrite orb_false_r. intros ->. by eexists _, _.
  - destruct (HasPrefix (String c s) sub); [by eexists _, _|]. simpl. intros Hs.
    destruct (IH Hs) as (b & a & ->). by eexists _, _.
Qed.

Lemma Contains_app s t sub : Contains s sub = true -> Contains (s ++ t)%string sub = true.
Proof.
  induction s as [|c s IH]; cbn [Contains].
  - rewrite orb_false_r. intros Hp. apply (HasPrefix_weaken _ t) in Hp. change (EmptyString ++ t)%string with t in *.
    destruct t; cbn [Contains]; by rewrite Hp.
  - change (String c s ++ t)%string with (String c (s ++ t)%string). cbn [Contains].
    rewrite !orb_true_iff. intros [Hp|Hs]; [left|right; by apply IH].
    by apply (HasPrefix_weaken _ t) in Hp.
Qed.

Lemma cut_at_byte_None s c : cut_at s (String c EmptyString) = None -> has_byte c s = false.
Proof.
  induction s as [|d s IH]; rewrite cut_at_eq; [done|]. cbn [has_byte]. unfold HasPrefix. cbn [String.prefix].
  destruct (ascii_dec c d) as [->|Hne]; [by destruct s|].
  destruct (cut_at s _) as [[b a]|]; [done|]. intros _. rewrite IH by done. rewrite orb_false_r.
  by apply Ascii.eqb_neq.
Qed.

(** The line goes in after the header of the options; the other lines stay in order. *)
Lemma insert_line_spec text conf :
  has_byte line_feed text = false -> Contains conf "[options]" = true ->
  exists before after, lines conf = (before ++ after)%list /\
    lines (insert_line (text ++ newline) (conf ++ newline)) = (before ++ text :: after ++ [EmptyString])%list.
Proof.
  intros Htext Hc. apply (Contains_app _ newline) in Hc. unfold insert_line.
  destruct (Contains_cut _ _ Hc) as (b & a & Hcut). rewrite Hcut. apply cut_at_Some in Hcut.
  destruct (cut_at a newline) as [[header rest]|] eqn:Hnl.
  - apply cut_at_Some in Hnl. subst a.
    change (newline ++ ?x)%string with (String line_feed x) in *.
    assert (lines conf ++ [EmptyString] = lines (b ++ "[options]" ++ header) ++ lines rest)%list as Hl.
    { change [EmptyString] with (lines EmptyString). rewrite <- !lines_app. f_equal.
      change (String line_feed EmptyString) with newline. rewrite Hcut. by rewrite <- !append_assoc. }
    assert (exists after, lines rest = (after ++ [EmptyString])%list) as [after Hafter].
    { destruct (exists_last (Split_not_nil rest line_feed)) as (after & x & Hx). fold (lines rest) in Hx.
      rewrite Hx, app_assoc in Hl. apply app_inj_tail in Hl as [_ <-]. by exists after. }
    exists (lines (b ++ "[options]" ++ header)), after. split.
    + rewrite Hafter, app_assoc in Hl. by apply app_inj_tail in Hl as [-> _].
    + replace (b ++ "[options]" ++ header ++ String line_feed ((text ++ newline) ++ rest))%string
        with ((b ++ "[options]" ++ header) ++ String line_feed (text ++ String line_feed rest))%string
        by (by rewrite <- !append_assoc).
      rewrite !lines_app, Hafter. unfold lines at 2. by rewrite Split_single.
  - exfalso. apply cut_at_byte_None in Hnl. assert (has_byte line_feed ("[options]" ++ a)%string = false) as Hno
      by (by rewrite has_byte_app).
    destruct (Split_last b _ _ Hno) as (parts & p & Hs). rewrite <- Hcut in Hs.
    fold (lines (conf ++ newline)) in Hs. change newline with (String line_feed EmptyString) in Hs.
    rewrite lines_app in Hs. change (lines EmptyString) with [EmptyString] in Hs.
    apply app_inj_tail in Hs as [_ Hs]. by destruct p.
Qed.

(** There is a line to replace, or a header to insert one after. *)
Definition has_place (conf : string) : bool :=
  existsb is_ignore_line (lines conf) || Contains conf "[options]".

Lemma words_app a b : mjoin (ignore_words <$> a ++ b)%list = (mjoin (ignore_words <$> a) ++ mjoin (ignore_words <$> b))%list.
Proof. by rewrite fmap_app, join_app. Qed.

Lemma other_lines_app a b : other_lines (a ++ b)%list = (other_lines a ++ other_lines b)%list.
Proof. apply List.filter_app. Qed.

Lemma buildIgnorePkgConf_spec conf ignored :
  Forall is_word ignored -> has_place conf = true \/ ignored = [] ->
  getIgnoredPackages (buildIgnorePkgConf conf ignored) = ignored /\
  other_lines (lines (buildIgnorePkgConf conf ignored)) = (other_lines (lines conf) ++ [EmptyString])%list.
Proof.
  intros Hw Hplace. unfold buildIgnorePkgConf. rewrite replace_lines_eq. simpl orb.
  destruct (kept_facts ignored false (lines conf) Hw (lines_spec conf)) as (Hk1 & Hk2 & Hk3).
  assert (lines (unlines (kept ignored false (lines conf))) = kept ignored false (lines conf) ++ [EmptyString])%list as Hl
    by (by apply lines_unlines).
  unfold getIgnoredPackages. destruct (existsb is_ignore_line (lines conf)) eqn:He; simpl in Hk2.
  { rewrite Hl, words_app, Hk2, other_lines_app, Hk3. by rewrite app_nil_r. }
  destruct ignored as [|i ignored].
  { rewrite Hl, words_app, Hk2, other_lines_app, Hk3. done. }
  set (held := i :: ignored) in *. unfold has_place in Hplace. rewrite He in Hplace.
  destruct Hplace as [Hplace|]; [|done]. simpl in Hplace.
  rewrite kept_none, unlines_lines, ignore_line_eq by done.
  destruct (held_line_read held) as [Hr1 Hr2]; [done..|].
  destruct (insert_line_spec (held_line held) conf) as (before & after & Hc & ->);
    [by apply held_line_line|done|].
  rewrite Hc, existsb_app in He. apply orb_false_iff in He as [Hb Ha]. rewrite Hc.
  rewrite words_app, no_words by done. rewrite !other_lines_app, (other_all before) by done.
  assert (other_lines (held_line held :: after ++ [EmptyString]) = after ++ [EmptyString])%list as ->.
  { unfold other_lines at 1. simpl. rewrite Hr1. simpl. fold (other_lines (after ++ [EmptyString])%list).
    by rewrite other_lines_app, (other_all after). }
  change (mjoin (ignore_words <$> held_line held :: after ++ [EmptyString])%list)
    with (ignore_words (held_line held) ++ mjoin (ignore_words <$> (after ++ [EmptyString])%list))%list.
  rewrite Hr2, words_app, no_words, app_nil_r by done.
  rewrite (other_all after) by done. split; [done|]. by rewrite app_assoc.
Qed.

(** ** Names *)

Lemma valid_word name : validPacmanPkgName name = true -> is_word name.
Proof.
  destruct name as [|c rest]; [done|]. simpl. rewrite andb_true_iff. intros [Hc Hrest]. split; [done|].
  apply (class_spaceless (fun c => letter_or_digit c || one_of "._+-" c)); [reflexivity|].
  cbn [all_bytes]. by rewrite Hc.
Qed.

Lemma pin_names_spec ignored names : forall n, n ∈ pin_names ignored names <-> n ∈ ignored \/ n ∈ names.
Proof.
  unfold pin_names. revert ignored. induction names as [|name names IH]; intros ignored n; simpl; [set_solver|].
  rewrite IH. case_bool_decide; set_solver.
Qed.

Lemma getIgnored_words conf : Forall is_word (getIgnoredPackages conf).
Proof.
  unfold getIgnoredPackages. apply Forall_forall. intros n (ws & Hn & (line & -> & _)%list_elem_of_fmap)%list_elem_of_join.
  unfold ignore_words in Hn. cbv zeta in Hn. destruct (negb _); [by apply elem_of_nil in Hn|].
  destruct (cut_at _ _) as [[b v]|]; [|by apply elem_of_nil in Hn].
  pose proof (Fields_words (TrimSpace v)) as Hw. rewrite Forall_forall in Hw. by apply Hw.
Qed.

(** A name is held by a line that can be replaced. *)
Lemma held_has_place conf : getIgnoredPackages conf <> [] -> has_place conf = true.
Proof.
  unfold has_place, getIgnoredPackages. intros Hne. apply orb_true_iff. left.
  destruct (existsb _ _) eqn:He; [done|]. by apply no_words in He.
Qed.

(** ** Pin and Unpin *)

(** The host's configuration file, and what [cat] and [tee] do with it: a command that
    succeeds has printed the file, up to the line feed the capture of a last line adds,
    or has written its input. *)
Class ConfFile (D : Type) `{Runner D} := {
  conf_of : D -> string;
  cat_prints : forall ctx c, triple (fun d => conf_of d = c)
    (Run ctx (command false [] None "cat" ["/etc/pacman.conf"]))
    (fun o d => conf_of d = c /\ (o.2 = None -> Exec_ExitCode o.1 = 0 ->
       Exec_Stdout o.1 = c \/ Exec_Stdout o.1 = (c ++ newline)%string)) (fun _ _ => False);
  tee_writes : forall ctx stdin, triple (fun _ => True)
    (Run ctx (command true [] stdin "tee" ["/etc/pacman.conf"]))
    (fun o d => o.2 = None -> Exec_ExitCode o.1 = 0 -> conf_of d = default EmptyString stdin) (fun _ _ => False);
}.

(** The lines of the file but for those of the names held, and but for empty lines at
    its end. *)
Definition same_rest (a b : string) : Prop :=
  exists n, other_lines (lines a) = (other_lines (lines b) ++ replicate n EmptyString)%list.

Lemma newline_lines c : lines (c ++ newline)%string = (lines c ++ [EmptyString])%list.
Proof. change newline with (String line_feed EmptyString). by rewrite lines_app. Qed.

Lemma printed_same c printed :
  printed = c \/ printed = (c ++ newline)%string ->
  getIgnoredPackages printed = getIgnoredPackages c /\ same_rest printed c /\
  (has_place c = true -> has_place printed = true).
Proof.
  intros [->| ->].
  - split_and!; [done| |done]. exists 0%nat. by rewrite app_nil_r.
  - unfold getIgnoredPackages, same_rest, has_place. rewrite newline_lines, words_app, existsb_app.
    split_and!.
    + by rewrite app_nil_r.
    + exists 1%nat. by rewrite other_lines_app.
    + rewrite !orb_true_iff. intros [He|Hc]; [by left; left|right; by apply Contains_app].
Qed.

Section pinning.
Context {D : Type} `{!Runner D, !ConfFile D}.

(** The names held on the host. *)
Definition held (d : D) : list string := getIgnoredPackages (conf_of d).

Lemma readConf_spec ctx c :
  triple (fun d => conf_of d = c) (readConf ctx)
    (fun printed d => conf_of d = c /\ (printed = c \/ printed = (c ++ newline)%string)) (fun _ d => conf_of d = c).
Proof.
  unfold readConf. apply (triple_on_error _ _ _ _ (fun _ d => conf_of d = c)); [|intros e; by apply triple_fail].
  set (prints := fun res => Exec_ExitCode res = 0 ->
    Exec_Stdout res = c \/ Exec_Stdout res = (c ++ newline)%string).
  unfold readOut, runRead. apply (triple_bind _ _ _ (fun res d => conf_of d = c /\ prints res)).
  - apply (triple_bind _ _ _ (fun o d => conf_of d = c /\ (o.2 = None -> prints o.1))).
    + eapply triple_conseq; [apply cat_prints|intros d Hd; exact Hd|intros o d Ho; exact Ho|by intros].
    + intros [res [err|]]; [apply triple_fail; by intros d [Hd _]|].
      apply triple_ret. intros d [Hd Ho]. split; [done|by apply Ho].
  - intros res. destruct (Z.eqb_spec (Exec_ExitCode res) 0) as [Hz|Hz]; simpl.
    + apply triple_ret. intros d [Hd Ho]. split; [done|by apply Ho].
    + apply triple_fail. by intros d [Hd _].
Qed.

(** An edit that succeeds leaves exactly the names it computes. *)
Lemma edit_ignored_spec ctx c edit :
  (Forall is_word (edit (getIgnoredPackages c))) ->
  has_place c = true \/ edit (getIgnoredPackages c) = [] ->
  triple (fun d => conf_of d = c) (edit_ignored ctx edit)
    (fun o d => o.2 = None -> held d = edit (getIgnoredPackages c) /\ same_rest (conf_of d) c) (fun _ _ => False).
Proof.
  intros Hwords Hplace. set (Q := fun (o : outcome) d =>
    o.2 = None -> held d = edit (getIgnoredPackages c) /\ same_rest (conf_of d) c).
  unfold edit_ignored. apply (triple_bind _ _ _ (fun r _ =>
    forall printed, r = Ok printed -> (printed = c \/ printed = (c ++ newline)%string))).
  { apply (triple_attempt _ _ _ _ (fun r _ =>
      forall printed, r = Ok printed -> (printed = c \/ printed = (c ++ newline)%string))); [|done].
    eapply triple_conseq; [apply readConf_spec|intros d Hd; exact Hd| |by intros].
    intros printed d [_ Hp] ? [= <-]. done. }
  intros [printed|err]; [|by apply triple_ret].
  apply (triple_conseq _ (fun _ => (printed = c \/ printed = (c ++ newline)%string) /\ True) _ Q Q
    (fun _ _ => False) (fun _ _ => False)); [|intros d Hd; split; [by apply Hd|done]|done|done].
  apply triple_pure. intros Hprinted. destruct (printed_same c printed Hprinted) as (Hsame & [n Hrest] & Hp).
  unfold writeIgnorePkg, runPrivStdin. eapply triple_bind; [apply tee_writes|]. intros [res err].
  apply triple_ret. intros d Hw. unfold Q. simpl in *. destruct err as [err|]; [done|]. unfold asCommandError.
  destruct (Z.eqb_spec (Exec_ExitCode res) 0) as [Hz|Hz]; [|done]. intros _. specialize (Hw eq_refl Hz).
  rewrite Hsame in Hw. set (built := buildIgnorePkgConf printed (edit (getIgnoredPackages c))) in *.
  assert (conf_of d = built) as Hbuilt by (rewrite Hw; case_bool_decide as Hb; [by rewrite Hb|done]).
  destruct (buildIgnorePkgConf_spec printed (edit (getIgnoredPackages c))) as [Hg Ho]; [done|tauto|].
  unfold held, same_rest. rewrite Hbuilt. split; [done|]. exists (S n). unfold built.
  rewrite Ho, Hrest, <- app_assoc. f_equal. symmetry. apply replicate_S_end.
Qed.

End pinning.
