(* ===== verification/PackageManagers.v ===== *)
(** * The package managers ([sdk/pkg/pkg.go])

    The interface [Manager] is two types of calls, the queries and the mutations, and a
    back end an interpretation of both; [New] builds one and [Detect] lists the back ends
    a host has.  The executor drives the first ([NewExecutor]). *)

From Stdlib Require Import Ascii.
From stdpp Require Import pretty.
From S2P Require Import Prelude Engine Proto Strs Text Exec Executor Packages.
From S2P Require Import Apt Dnf Zypper Pacman.

Open Scope string_scope.
Open Scope Z_scope.

(** ** The interface *)

Inductive PackageBackend := BackendApt | BackendDnf | BackendDnf5 | BackendPacman | BackendZypper.

#[export] Instance PackageBackend_eq_dec : EqDecision PackageBackend.
Proof. solve_decision. Defined.

(** The constants count from 1; 0 is no back end. *)
Definition PackageBackend_of (b : Z) : option PackageBackend :=
  match b with
  | 1 => Some BackendApt | 2 => Some BackendDnf | 3 => Some BackendDnf5
  | 4 => Some BackendPacman | 5 => Some BackendZypper | _ => None
  end.

(** The methods that look, each with what it answers. *)
Inductive Query : Type -> Type :=
  | QVersion : Query string
  | QSearch (query : string) : Query (list SearchResult)
  | QList : Query (list Package)
  | QListUpgradable : Query (list PackageUpdate)
  | QShow (name : string) : Query Package
  | QListVersions (name : string) : Query VersionInfo
  | QIsInstalled (name : string) : Query bool
  | QLocalPackageInfo (path : string) : Query LocalPackage
  | QInstalledVersion (name : string) : Query string
  | QInstalledCount : Query Z
  | QHasUpdates : Query bool
  | QHasSecurityUpdates : Query bool
  | QIsPinned (name : string) : Query bool
  | QListPinned : Query (list Package).

(** The methods that change the host. *)
Inductive Mutation :=
  | MInstall (allowDowngrade : bool) (specs : list InstallSpec)
  | MInstallLocal (path : string) (opts : InstallLocalOptions)
  | MRemove (purge : bool) (packages : list string)
  | MUpdate
  | MUpgrade (packages : list string)
  | MUpgradeAll
  | MUpgradeSecurity
  | MPin (packages : list string)
  | MUnpin (packages : list string)
  | MAutoremove.

Record PackageManager (D : Type) := {
  Manager_Backend : PackageBackend;
  Manager_query : forall A, Ctx -> Query A -> M D A;
  Manager_mutate : Ctx -> Mutation -> M D outcome;
}.
Arguments Manager_Backend {D}.
Arguments Manager_query {D} _ {A}.
Arguments Manager_mutate {D}.

Definition dnf_command (dnf5 : bool) : string := if dnf5 then "dnf5" else "dnf".

Section managers.
Context {D : Type} `{!Runner D, !Binaries D, !FloatText}.

Definition apt_query A (ctx : Ctx) (q : Query A) : M D A :=
  match q with
  | QVersion => Apt.Version ctx
  | QSearch query => Apt.Search ctx query
  | QList => Apt.List ctx
  | QListUpgradable => Apt.ListUpgradable ctx
  | QShow name => Apt.Show ctx name
  | QListVersions name => Apt.ListVersions ctx name
  | QIsInstalled name => Apt.IsInstalled ctx name
  | QLocalPackageInfo path => Apt.LocalPackageInfo ctx path
  | QInstalledVersion name => Apt.InstalledVersion ctx name
  | QInstalledCount => Apt.InstalledCount ctx
  | QHasUpdates => Apt.HasUpdates ctx
  | QHasSecurityUpdates => Apt.HasSecurityUpdates ctx
  | QIsPinned name => Apt.IsPinned ctx name
  | QListPinned => Apt.ListPinned ctx
  end.

Definition apt_mutate (ctx : Ctx) (m : Mutation) : M D outcome :=
  match m with
  | MInstall allowDowngrade specs => Apt.Install ctx allowDowngrade specs
  | MInstallLocal path opts => Apt.InstallLocal ctx path opts
  | MRemove purge packages => Apt.Remove ctx purge packages
  | MUpdate => Apt.Update ctx
  | MUpgrade packages => Apt.Upgrade ctx packages
  | MUpgradeAll => Apt.UpgradeAll ctx
  | MUpgradeSecurity => Apt.UpgradeSecurity ctx
  | MPin packages => Apt.Pin ctx packages
  | MUnpin packages => Apt.Unpin ctx packages
  | MAutoremove => Apt.Autoremove ctx
  end.

Definition dnf_query (command : string) A (ctx : Ctx) (q : Query A) : M D A :=
  match q with
  | QVersion => Dnf.Version command ctx
  | QSearch query => Dnf.Search command ctx query
  | QList => Dnf.List ctx
  | QListUpgradable => Dnf.ListUpgradable command ctx
  | QShow name => Dnf.Show command ctx name
  | QListVersions name => Dnf.ListVersions command ctx name
  | QIsInstalled name => Dnf.IsInstalled ctx name
  | QLocalPackageInfo path => Dnf.LocalPackageInfo ctx path
  | QInstalledVersion name => Dnf.InstalledVersion command ctx name
  | QInstalledCount => Dnf.InstalledCount ctx
  | QHasUpdates => Dnf.HasUpdates command ctx
  | QHasSecurityUpdates => Dnf.HasSecurityUpdates command ctx
  | QIsPinned name => Dnf.IsPinned command ctx name
  | QListPinned => Dnf.ListPinned command ctx
  end.

Definition dnf_mutate (command : string) (ctx : Ctx) (m : Mutation) : M D outcome :=
  match m with
  | MInstall allowDowngrade specs => Dnf.Install command ctx allowDowngrade specs
  | MInstallLocal path opts => Dnf.InstallLocal command ctx path opts
  | MRemove purge packages => Dnf.Remove command ctx purge packages
  | MUpdate => Dnf.Update command ctx
  | MUpgrade packages => Dnf.Upgrade command ctx packages
  | MUpgradeAll => Dnf.UpgradeAll command ctx
  | MUpgradeSecurity => Dnf.UpgradeSecurity command ctx
  | MPin packages => Dnf.Pin command ctx packages
  | MUnpin packages => Dnf.Unpin command ctx packages
  | MAutoremove => Dnf.Autoremove command ctx
  end.

Definition zypper_query A (ctx : Ctx) (q : Query A) : M D A :=
  match q with
  | QVersion => Zypper.Version ctx
  | QSearch query => Zypper.Search ctx query
  | QList => Zypper.List ctx
  | QListUpgradable => Zypper.ListUpgradable ctx
  | QShow name => Zypper.Show ctx name
  | QListVersions name => Zypper.ListVersions ctx name
  | QIsInstalled name => Zypper.IsInstalled ctx name
  | QLocalPackageInfo path => Zypper.LocalPackageInfo ctx path
  | QInstalledVersion name => Zypper.InstalledVersion ctx name
  | QInstalledCount => Zypper.InstalledCount ctx
  | QHasUpdates => Zypper.HasUpdates ctx
  | QHasSecurityUpdates => Zypper.HasSecurityUpdates ctx
  | QIsPinned name => Zypper.IsPinned ctx name
  | QListPinned => Zypper.ListPinned ctx
  end.

Definition zypper_mutate (ctx : Ctx) (m : Mutation) : M D outcome :=
  match m with
  | MInstall allowDowngrade specs => Zypper.Install ctx allowDowngrade specs
  | MInstallLocal path opts => Zypper.InstallLocal ctx path opts
  | MRemove purge packages => Zypper.Remove ctx purge packages
  | MUpdate => Zypper.Update ctx
  | MUpgrade packages => Zypper.Upgrade ctx packages
  | MUpgradeAll => Zypper.UpgradeAll ctx
  | MUpgradeSecurity => Zypper.UpgradeSecurity ctx
  | MPin packages => Zypper.Pin ctx packages
  | MUnpin packages => Zypper.Unpin ctx packages
  | MAutoremove => Zypper.Autoremove ctx
  end.

Definition pacman_query A (ctx : Ctx) (q : Query A) : M D A :=
  match q with
  | QVersion => Pacman.Version ctx
  | QSearch query => Pacman.Search ctx query
  | QList => Pacman.List ctx
  | QListUpgradable => Pacman.ListUpgradable ctx
  | QShow name => Pacman.Show ctx name
  | QListVersions name => Pacman.ListVersions ctx name
  | QIsInstalled name => Pacman.IsInstalled ctx name
  | QLocalPackageInfo path => Pacman.LocalPackageInfo ctx path
  | QInstalledVersion name => Pacman.InstalledVersion ctx name
  | QInstalledCount => Pacman.InstalledCount ctx
  | QHasUpdates => Pacman.HasUpdates ctx
  | QHasSecurityUpdates => Pacman.HasSecurityUpdates ctx
  | QIsPinned name => Pacman.IsPinned ctx name
  | QListPinned => Pacman.ListPinned ctx
  end.

Definition pacman_mutate (ctx : Ctx) (m : Mutation) : M D outcome :=
  match m with
  | MInstall allowDowngrade specs => Pacman.Install ctx allowDowngrade specs
  | MInstallLocal path opts => Pacman.InstallLocal ctx path opts
  | MRemove purge packages => Pacman.Remove ctx purge packages
  | MUpdate => Pacman.Update ctx
  | MUpgrade packages => Pacman.Upgrade ctx packages
  | MUpgradeAll => Pacman.UpgradeAll ctx
  | MUpgradeSecurity => Pacman.UpgradeSecurity ctx
  | MPin packages => Pacman.Pin ctx packages
  | MUnpin packages => Pacman.Unpin ctx packages
  | MAutoremove => Pacman.Autoremove ctx
  end.

(** *** Building and finding one *)

Definition ErrRunnerRequired : error := ErrVar "runner is required".
Definition ErrUnknownBackend : error := ErrVar "pkg: unknown package-manager backend".

Definition manager_of (b : PackageBackend) : PackageManager D :=
  match b with
  | BackendApt => Build_PackageManager D b apt_query apt_mutate
  | BackendDnf => Build_PackageManager D b (dnf_query "dnf") (dnf_mutate "dnf")
  | BackendDnf5 => Build_PackageManager D b (dnf_query "dnf5") (dnf_mutate "dnf5")
  | BackendPacman => Build_PackageManager D b pacman_query pacman_mutate
  | BackendZypper => Build_PackageManager D b zypper_query zypper_mutate
  end.

(** [New], of a runner that is there: the section's. *)
Definition New (b : Z) : result (PackageManager D) :=
  match PackageBackend_of b with
  | Some b => Ok (manager_of b)
  | None => Err (ErrWrap (pretty b) ErrUnknownBackend)
  end.

(** The back ends' binaries in the order of priority. *)
Definition binaries : list (string * PackageBackend) :=
  [("apt-get", BackendApt); ("dnf5", BackendDnf5); ("dnf", BackendDnf); ("pacman", BackendPacman);
   ("zypper", BackendZypper)].

(** [dnf] next to [dnf5], the last back end found, is the same one. *)
Definition found_next (found : list PackageBackend) (b : PackageBackend) : list PackageBackend :=
  if bool_decide (b = BackendDnf) && bool_decide (list.last found = Some BackendDnf5) then found
  else (found ++ [b])%list.

Fixpoint detect_from (found : list PackageBackend) (l : list (string * PackageBackend))
    : M D (list PackageBackend) :=
  match l with
  | [] => mret found
  | (bin, b) :: l =>
      path ← lookPath bin;
      detect_from (match (path : option string) with Some _ => found_next found b | None => found end) l
  end.

Definition Detect : M D (list PackageBackend) := detect_from [] binaries.

(** The methods the executor calls, of a package manager. *)
Definition executor_manager (m : PackageManager D) : Manager D := {|
  Executor.IsInstalled ctx name := Manager_query m ctx (QIsInstalled name);
  Executor.InstalledVersion ctx name := Manager_query m ctx (QInstalledVersion name);
  Executor.Install ctx allowDowngrade specs := Manager_mutate m ctx (MInstall allowDowngrade specs);
  Executor.Remove ctx purge names := Manager_mutate m ctx (MRemove purge names);
  Executor.Update ctx := Manager_mutate m ctx MUpdate;
  Executor.UpgradeAll ctx := Manager_mutate m ctx MUpgradeAll |}.

(** The package manager of the executor [NewExecutor] makes: the first back end's. *)
Definition NewExecutor : M D (option (Manager D)) :=
  backends ← Detect;
  mret match (backends : list PackageBackend) with
    | b :: _ => Some (executor_manager (manager_of b))
    | [] => None
    end.
End managers.

(** ** Every mutation has an outcome *)

Section outcomes.
Context {D : Type} `{!Runner D, !RunnerLaws D, !Binaries D, !BinariesLaws D, !FloatText}.

Lemma returns_checked {A} (r : result A) (k : A -> M D outcome) :
  (forall a, returns (k a)) -> returns (checked r k).
Proof. intros Hk. unfold checked. destruct r; [apply Hk|apply returns_ret]. Qed.

Lemma returns_on_names names (k : list string -> M D outcome) :
  returns (k names) -> returns (on_names names k).
Proof. intros Hk. unfold on_names. destruct names; [apply returns_ret|by apply returns_checked]. Qed.

Lemma returns_write_with accepted ctx env name args : returns (write_with accepted ctx env name args).
Proof. unfold write_with, runPriv. returning. Qed.

Lemma resolveUnattendedUpgrade_returns : returns Apt.resolveUnattendedUpgrade.
Proof.
  unfold Apt.resolveUnattendedUpgrade. apply returns_bind; [apply is_file_returns|]. intros [].
  { apply returns_ret. }
  apply returns_bind; [apply is_file_returns|]. intros []; [apply returns_ret|].
  apply returns_bind; [apply lookPath_returns|]. intros found. returning.
Qed.

Lemma mutate_returns b ctx m : returns (Manager_mutate (manager_of b) ctx m).
Proof.
  assert (forall conf ignored, returns (Pacman.writeIgnorePkg ctx conf ignored)) as Htee.
  { intros conf ignored. unfold Pacman.writeIgnorePkg, runPrivStdin. returning. }
  assert (forall accepted env name args, returns (write_with accepted ctx env name args)) as Hw
    by (intros; apply returns_write_with).
  destruct b, m as [d specs|path opts|purge names| |names| | |names|names| ]; simpl;
    unfold Apt.Install, Apt.InstallLocal, Apt.Remove, Apt.Update, Apt.Upgrade, Apt.UpgradeAll,
      Apt.UpgradeSecurity, Apt.Pin, Apt.Unpin, Apt.Autoremove, Apt.write,
      Dnf.Install, Dnf.InstallLocal, Dnf.Remove, Dnf.Update, Dnf.Upgrade, Dnf.UpgradeAll,
      Dnf.UpgradeSecurity, Dnf.Pin, Dnf.Unpin, Dnf.Autoremove, Dnf.versionlock, Dnf.write,
      Pacman.Install, Pacman.InstallLocal, Pacman.Remove, Pacman.Update, Pacman.Upgrade, Pacman.UpgradeAll,
      Pacman.UpgradeSecurity, Pacman.Pin, Pacman.Unpin, Pacman.Autoremove, Pacman.edit_ignored, Pacman.write,
      Zypper.Install, Zypper.InstallLocal, Zypper.Remove, Zypper.Update, Zypper.Upgrade,
      Zypper.UpgradeAll, Zypper.UpgradeSecurity, Zypper.Pin, Zypper.Unpin, Zypper.Autoremove, Zypper.write;
    try (apply returns_bind; [apply resolveUnattendedUpgrade_returns|intros ?]);
    repeat first [ apply Hw | apply Htee | progress returning | apply returns_on_names
                 | apply returns_checked; intros ? ].
Qed.

#[export] Instance executor_manager_laws b : ManagerLaws (executor_manager (manager_of b)).
Proof.
  split; intros; [apply (mutate_returns b ctx (MInstall _ _))|apply (mutate_returns b ctx (MRemove _ _))
    |apply (mutate_returns b ctx MUpdate)|apply (mutate_returns b ctx MUpgradeAll)].
Qed.

Lemma Detect_returns : returns (D := D) Detect.
Proof.
  unfold Detect. generalize binaries ([] : list PackageBackend).
  intros l. induction l as [|[bin b] l IH]; intros found; simpl; [apply returns_ret|].
  apply returns_bind; [apply lookPath_returns|]. intros path. destruct path; apply IH.
Qed.

(** C25: An agent answers every action, on a host with any of the package managers or
    with none: whatever its commands do, the executor it is started with returns for an
    action with an id a result for that id, with one of the three outcomes and a
    completion time, and a result that is not a success carries an explanation in one of
    its error streams. *)
Theorem NewExecutor_answers `{!ErrorText} ctx action :
  is_Some (Action_Id action) ->
  triple (fun _ => True) (manager ← NewExecutor; ExecuteAction (D := D) manager ctx (Some action))
    (fun r _ => well_formed_result action r) (fun _ _ => False).
Proof.
  intros Hid. apply (triple_bind _ _ _ (fun manager _ => forall m, manager = Some m -> ManagerLaws m)).
  - unfold NewExecutor. eapply triple_bind; [apply Detect_returns|]. intros [|b backends]; apply triple_ret;
      intros _ _ m; [done|]. intros [= <-]. apply _.
  - intros manager env w Hm. by apply (ExecuteAction_well_formed manager Hm ctx action Hid).
Qed.
End outcomes.
