(* ===== verification/PackageSafety.v ===== *)
(** * What the package managers run

    The commands each call may run are a table of tools and flags per back end; a
    caller's strings only ever follow those flags, and none of them can act as one. *)

From Stdlib Require Import Ascii.
From S2P Require Import Prelude Engine Pair Proto Strs Text Exec Executor Packages.
From S2P Require Import Apt Dnf Zypper Pacman PackageManagers.

Open Scope string_scope.
Open Scope Z_scope.

(** ** What validation establishes *)

(** A string a tool takes for an option, or that ends a line. *)
Definition flag_shaped (s : string) : bool := HasPrefix s "-" || hasControlChar s.

Definition operand (s : string) : Prop := flag_shaped s = false.

Lemma operand_spec c s :
  operand (String c s) <-> c <> "-"%char /\ all_bytes (fun c => negb (control_byte c)) (String c s) = true.
Proof.
  unfold operand, flag_shaped, hasControlChar. rewrite orb_false_iff, negb_false_iff.
  unfold HasPrefix. cbn [String.prefix]. destruct (ascii_dec "-" c) as [<-|Hne].
  - split; [by destruct s; intros [? ?]|by intros [? _]].
  - split; intros [? ?]; (split; [congruence|done]).
Qed.

Lemma class_not_control extra c :
  all_bytes (fun c => negb (control_byte c)) extra = true -> letter_or_digit c || one_of extra c = true ->
  control_byte c = false.
Proof.
  intros Hextra. destruct (letter_or_digit c) eqn:Hl; simpl.
  - intros _. revert Hl. by destruct c as [[] [] [] [] [] [] [] []]; vm_compute.
  - intros Hin. induction extra as [|d extra IH]; [done|]. simpl in *.
    apply andb_true_iff in Hextra as [Hd Hextra]. apply orb_true_iff in Hin as [->%Ascii.eqb_eq|Hin]; [|by apply IH].
    by apply negb_true_iff.
Qed.

Lemma grammar_operand extra n s :
  all_bytes (fun c => negb (control_byte c)) extra = true -> grammar extra n s = true -> operand s.
Proof.
  intros Hextra. destruct s as [|c s]; [done|]. simpl. rewrite !andb_true_iff. intros [[Hc Hs] _].
  apply operand_spec. split.
  - intros ->. by vm_compute in Hc.
  - simpl. apply andb_true_iff. split.
    + apply negb_true_iff, (class_not_control extra); [done|]. by rewrite Hc.
    + revert Hs. apply all_bytes_impl. intros d Hd. by apply negb_true_iff, (class_not_control extra).
Qed.

Lemma grammar_unsafe extra n s :
  all_bytes (fun c => negb (control_byte c)) extra = true -> flag_shaped s = true -> grammar extra n s = false.
Proof.
  intros Hextra Hs. destruct (grammar extra n s) eqn:Hg; [|done].
  apply grammar_operand in Hg; [|done]. unfold operand in Hg. congruence.
Qed.

(** A check that refuses what is no operand as an invalid argument. *)
Definition guards (check : string -> result unit) : Prop :=
  forall s, match check s with
  | Ok _ => s = EmptyString \/ operand s
  | Err e => errors_is ErrInvalidArgument e = true
  end.

Lemma guards_refuses check s :
  guards check -> flag_shaped s = true -> exists e, check s = Err e /\ errors_is ErrInvalidArgument e = true.
Proof.
  intros Hg Hs. specialize (Hg s). destruct (check s) as [[]|e]; [|by exists e].
  unfold operand in Hg. destruct Hg as [->|Hg]; [done|congruence].
Qed.

Lemma operand_nil : operand EmptyString.
Proof. done. Qed.

Lemma guards_operand check s u : guards check -> check s = Ok u -> operand s.
Proof. intros Hg Hs. specialize (Hg s). rewrite Hs in Hg. by destruct Hg as [->|]. Qed.

Lemma ValidatePackageName_guards : guards ValidatePackageName.
Proof.
  intros s. unfold ValidatePackageName. case_bool_decide; [done|].
  destruct (validPackageName s) eqn:Hv; [|done]. right. by eapply grammar_operand, Hv.
Qed.

Lemma ValidatePackageVersion_guards : guards ValidatePackageVersion.
Proof.
  intros s. unfold ValidatePackageVersion. case_bool_decide; [by left|].
  destruct (validPackageVersion s) eqn:Hv; [|done]. right. by eapply grammar_operand, Hv.
Qed.

Lemma ValidateLocalPackagePath_guards : guards ValidateLocalPackagePath.
Proof.
  intros s. unfold ValidateLocalPackagePath. case_bool_decide; [done|].
  destruct (hasControlChar s) eqn:Hc; [done|]. destruct (HasPrefix s "/") eqn:Hp; [|done].
  destruct (Contains s ".."); [done|]. right. apply HasPrefix_app in Hp as [r ->].
  unfold operand, flag_shaped. by rewrite Hc.
Qed.

Lemma ValidateSearchQuery_guards : guards ValidateSearchQuery.
Proof.
  intros s. unfold ValidateSearchQuery. destruct (HasPrefix s "-") eqn:Hp; [done|].
  destruct (hasControlChar s) eqn:Hc; [done|]. right. unfold operand, flag_shaped. by rewrite Hp, Hc.
Qed.

Lemma ValidatePackageNames_spec names :
  match ValidatePackageNames names with
  | Ok _ => Forall operand names
  | Err e => errors_is ErrInvalidArgument e = true
  end.
Proof.
  induction names as [|n names IH]; simpl; [by constructor|]. unfold mbind, result_bind.
  pose proof (ValidatePackageName_guards n) as Hn.
  destruct (ValidatePackageName n) as [[]|e] eqn:Hv; [|done].
  destruct (ValidatePackageNames names) as [[]|e]; [|done].
  constructor; [|done]. by eapply guards_operand, Hv; apply ValidatePackageName_guards.
Qed.

Lemma operand_app a b : operand a -> a <> EmptyString -> hasControlChar b = false -> operand (a ++ b)%string.
Proof.
  destruct a as [|c a]; [done|]. intros [Hc Ha]%operand_spec _ Hb.
  change (String c a ++ b)%string with (String c (a ++ b)%string). apply operand_spec. split; [done|].
  change (String c (a ++ b)%string) with (String c a ++ b)%string. rewrite all_bytes_app, Ha. simpl.
  by apply negb_false_iff.
Qed.

Lemma hasControlChar_app a b : hasControlChar (a ++ b)%string = hasControlChar a || hasControlChar b.
Proof. unfold hasControlChar. by rewrite all_bytes_app, negb_andb. Qed.

(** What a call may install: the operands of valid specifications. *)
Lemma spec_operands_spec sep specs :
  hasControlChar sep = false ->
  match spec_operands sep specs with
  | Ok operands => Forall operand operands /\ operands = spec_operand sep <$> specs
  | Err e => errors_is ErrInvalidArgument e = true
  end.
Proof.
  intros Hsep. induction specs as [|[name version] specs IH]; cbn [spec_operands]; [done|].
  unfold mbind, result_bind, validateSpec, mbind, result_bind. simpl.
  pose proof (ValidatePackageName_guards name) as Hn.
  destruct (ValidatePackageName name) as [[]|e] eqn:Hname; [|done].
  pose proof (ValidatePackageVersion_guards version) as Hv.
  destruct (ValidatePackageVersion version) as [[]|e]; [|done].
  destruct (spec_operands sep specs) as [operands|e]; [|done]. destruct IH as [IH ->].
  split; [|done]. constructor; [|done]. unfold spec_operand. simpl.
  assert (operand name) as Ho by (by eapply guards_operand, Hname; apply ValidatePackageName_guards).
  case_bool_decide; [done|]. apply operand_app; [done|by intros ->|].
  rewrite hasControlChar_app, Hsep. destruct Hv as [->|Hv]; [done|].
  unfold operand, flag_shaped in Hv. by apply orb_false_iff in Hv as [_ ->].
Qed.

(** ** The commands of a back end *)

Definition rpm_columns : string :=
  tabs ["%{NAME}"; "%{VERSION}-%{RELEASE}"; "%{ARCH}"; "%{SIZE}"; "%{SUMMARY}"] ++ newline.

Definition rpm_reads : list (string * list string) :=
  [("rpm", ["-qa"; "--queryformat"; rpm_columns]); ("rpm", ["-q"]);
   ("rpm", ["-q"; "--queryformat"; "%{VERSION}-%{RELEASE}"]); ("rpm", ["-qa"; "--qf"; "." ++ newline]);
   ("rpm", ["-qp"; "--qf"; "%{NAME}" ++ newline ++ "%{VERSION}-%{RELEASE}" ++ newline ++ "%{ARCH}"])].

Definition dnf_reads (c : string) : list (string * list string) :=
  ([(c, ["--version"]); (c, ["search"; "-q"]); (c, ["check-update"; "-q"]);
    (c, ["check-update"; "-q"; "--security"]); (c, ["info"; "-q"]); (c, ["list"; "--showduplicates"; "-q"]);
    (c, ["versionlock"; "--help"]); (c, ["versionlock"; "list"; "-q"])] ++ rpm_reads)%list.

(** The tools that only look, each with what comes before the operands. *)
Definition reads (b : PackageBackend) : list (string * list string) :=
  match b with
  | BackendApt =>
      [("apt-get", ["--version"]); ("apt-get", ["-s"; "upgrade"]); ("apt-cache", ["search"]);
       ("apt-cache", ["show"]); ("apt-cache", ["madison"]); ("apt-mark", ["showhold"]); ("dpkg", ["-s"]);
       ("dpkg-query", ["-W"; "-f=${Version}"]); ("dpkg-query", ["-f"; "." ++ newline; "-W"]);
       ("dpkg-query", ["-W"; "-f=" ++ tabs ["${Package}"; "${Version}"; "${Architecture}"; "${Status}";
         "${Installed-Size}"; "${Description}"] ++ newline]);
       ("dpkg-deb", ["-f"]); ("unattended-upgrade", ["--dry-run"; "--verbose"])]
  | BackendDnf => dnf_reads "dnf"
  | BackendDnf5 => dnf_reads "dnf5"
  | BackendPacman =>
      [("pacman", ["--version"]); ("pacman", ["-Ss"]); ("pacman", ["-Q"]); ("pacman", ["-Qi"]);
       ("pacman", ["-Si"]); ("pacman", ["-Qp"]); ("pacman", ["-Qq"]); ("pacman", ["-Qu"]);
       ("pacman", ["-Qtdq"]); ("cat", ["/etc/pacman.conf"])]
  | BackendZypper =>
      ([("zypper", ["--version"]); ("zypper", ["--non-interactive"; "search"]);
        ("zypper", ["--non-interactive"; "search"; "-s"; "--match-exact"]);
        ("zypper", ["--non-interactive"; "list-patches"; "--category"; "security"]);
        ("zypper", ["--non-interactive"; "list-updates"]); ("zypper", ["--non-interactive"; "info"]);
        ("zypper", ["--non-interactive"; "locks"])] ++ rpm_reads)%list
  end.

(** A flag that an option asks for. *)
Definition flag_if (asked : bool) (flag : string) : list string := if asked then [flag] else [].

Definition dnf_writes (dnf5 : bool) (m : Mutation) : list (string * list string) :=
  let run flags := [(dnf_command dnf5, flags)] in
  match m with
  | MInstall allowDowngrade _ => run (["install"; "-y"] ++ flag_if (allowDowngrade && dnf5) "--allow-downgrade")%list
  | MInstallLocal _ opts =>
      run (["install"; "-y"] ++ flag_if (Local_AllowUnsigned opts) "--nogpgcheck"
             ++ flag_if (Local_AllowDowngrade opts && dnf5) "--allow-downgrade")%list
  | MRemove purge _ => if purge then [] else run ["remove"; "-y"]
  | MUpdate => run ["check-update"]
  | MUpgrade _ | MUpgradeAll => run ["upgrade"; "-y"]
  | MUpgradeSecurity => run ["upgrade"; "-y"; "--security"]
  | MPin _ => run ["versionlock"; "add"]
  | MUnpin _ => run ["versionlock"; "delete"]
  | MAutoremove => run ["autoremove"; "-y"]
  end.

(** The tools a mutation runs with privileges. *)
Definition writes (b : PackageBackend) (m : Mutation) : list (string * list string) :=
  let apt flags := [("apt-get", flags)] in
  let pacman flags := [("pacman", flags)] in
  let zypper flags := [("zypper", "--non-interactive" :: flags)] in
  match b, m with
  | BackendApt, MInstall allowDowngrade _ => apt (["install"; "-y"] ++ flag_if allowDowngrade "--allow-downgrades")%list
  | BackendApt, MInstallLocal _ opts =>
      apt (["install"; "-y"] ++ Apt.dpkgConfOptions ++ flag_if (Local_AllowDowngrade opts) "--allow-downgrades")%list
  | BackendApt, MRemove purge _ => apt [if purge then "purge" else "remove"; "-y"]
  | BackendApt, MUpdate => apt ["update"]
  | BackendApt, MUpgrade _ => apt (["install"; "-y"; "--only-upgrade"] ++ Apt.dpkgConfOptions)%list
  | BackendApt, MUpgradeAll => apt (["upgrade"; "-y"] ++ Apt.dpkgConfOptions)%list
  | BackendApt, MUpgradeSecurity => [("unattended-upgrade", ["-v"])]
  | BackendApt, MPin _ => [("apt-mark", ["hold"])]
  | BackendApt, MUnpin _ => [("apt-mark", ["unhold"])]
  | BackendApt, MAutoremove => apt ["autoremove"; "-y"]
  | BackendDnf, m => dnf_writes false m
  | BackendDnf5, m => dnf_writes true m
  | BackendPacman, MInstall _ _ => pacman ["-S"; "--noconfirm"; "--needed"]
  | BackendPacman, MInstallLocal _ _ => pacman ["-U"; "--noconfirm"]
  | BackendPacman, MRemove purge _ => pacman [if purge then "-Rns" else "-R"; "--noconfirm"]
  | BackendPacman, MUpgrade _ => pacman ["-S"; "--noconfirm"]
  | BackendPacman, MUpgradeAll => pacman ["-Syu"; "--noconfirm"]
  | BackendPacman, (MPin _ | MUnpin _) => [("tee", ["/etc/pacman.conf"])]
  | BackendPacman, _ => []
  | BackendZypper, MInstall allowDowngrade _ => zypper ("install" :: flag_if allowDowngrade "--oldpackage")
  | BackendZypper, MInstallLocal _ opts =>
      zypper ("install" :: flag_if (Local_AllowUnsigned opts) "--allow-unsigned-rpm"
                ++ flag_if (Local_AllowDowngrade opts) "--oldpackage")%list
  | BackendZypper, MRemove purge _ => if purge then [] else zypper ["remove"]
  | BackendZypper, MUpdate => zypper ["refresh"]
  | BackendZypper, (MUpgrade _ | MUpgradeAll) => zypper ["update"]
  | BackendZypper, MUpgradeSecurity => zypper ["patch"; "--category"; "security"]
  | BackendZypper, MPin _ => zypper ["addlock"]
  | BackendZypper, MUnpin _ => zypper ["removelock"]
  | BackendZypper, MAutoremove => []
  end.

(** What a mutation is asked to act on, in the back end's notation. *)
Definition operands_of (b : PackageBackend) (m : Mutation) : list string :=
  match b, m with
  | BackendPacman, (MPin _ | MUnpin _) => []
  | _, MInstall _ specs =>
      spec_operand (if bool_decide (b ∈ [BackendDnf; BackendDnf5]) then "-" else "=") <$> specs
  | _, MInstallLocal path _ => [path]
  | _, (MRemove _ names | MUpgrade names | MPin names | MUnpin names) => names
  | _, _ => []
  end.

(** A tool of the list with its flags and then operands. *)
Definition runs (l : list (string * list string)) (operands : list string) (c : Command) : Prop :=
  exists flags, (base (Cmd_Name c), flags) ∈ l /\ Cmd_Args c = (flags ++ operands)%list /\ Forall operand operands.

Definition read_command (b : PackageBackend) (c : Command) : Prop :=
  Cmd_Escalate c = false /\ Cmd_Env c = [] /\ exists operands, runs (reads b) operands c.

Definition write_command (b : PackageBackend) (m : Mutation) (c : Command) : Prop :=
  Cmd_Escalate c = true /\ Cmd_Env c = (if bool_decide (b = BackendApt) then Apt.aptWriteEnv else []) /\
  runs (writes b m) (operands_of b m) c.

Section commands.
Context {D : Type} `{!Runner D, !Binaries D, !BinariesLaws D, !FloatText}.
Context (I : D -> Prop).

(** The effect of a command is kept. *)
Definition harmless (c : Command) : Prop := forall ctx, preserves I (Run ctx c).

Lemma preserves_runRead ctx name args :
  harmless (command false [] None name args) -> preserves I (runRead ctx name args).
Proof. intros Hc. unfold runRead. preserve. Qed.

Lemma preserves_readOut ctx name args :
  harmless (command false [] None name args) -> preserves I (readOut ctx name args).
Proof. intros Hc. unfold readOut. preserve. by apply preserves_runRead. Qed.

Lemma preserves_probe ctx name args :
  harmless (command false [] None name args) -> preserves I (probe ctx name args).
Proof. intros Hc. unfold probe. preserve. by apply preserves_runRead. Qed.

Lemma preserves_write_with accepted ctx env name args :
  harmless (command true env None name args) -> preserves I (write_with accepted ctx env name args).
Proof. intros Hc. unfold write_with, runPriv. preserve. Qed.

Lemma preserves_checked {A} (r : result A) (k : A -> M D outcome) :
  (forall a, r = Ok a -> preserves I (k a)) -> preserves I (checked r k).
Proof. intros Hk. unfold checked. destruct r; [by apply Hk|]. apply preserves_ret. Qed.

Lemma preserves_checked_names names (k : unit -> M D outcome) :
  (Forall operand names -> preserves I (k tt)) -> preserves I (checked (ValidatePackageNames names) k).
Proof.
  intros Hk. apply preserves_checked. intros [] Hv. apply Hk.
  pose proof (ValidatePackageNames_spec names) as Hs. by rewrite Hv in Hs.
Qed.

Lemma preserves_on_names names (k : list string -> M D outcome) :
  (Forall operand names -> preserves I (k names)) -> preserves I (on_names names k).
Proof.
  intros Hk. unfold on_names. destruct names; [apply preserves_ret|]. by apply preserves_checked_names.
Qed.

Lemma preserves_operands sep specs (k : list string -> M D outcome) :
  hasControlChar sep = false ->
  (Forall operand (spec_operand sep <$> specs) -> preserves I (k (spec_operand sep <$> specs))) ->
  preserves I (checked (spec_operands sep specs) k).
Proof.
  intros Hsep Hk. apply preserves_checked. intros operands Hv.
  pose proof (spec_operands_spec sep specs Hsep) as Hs. rewrite Hv in Hs. destruct Hs as [Ho ->]. by apply Hk.
Qed.

(** A query of a checked string. *)
Lemma preserves_guarded {A} check s (k : unit -> M D A) :
  guards check -> (operand s -> preserves I (k tt)) -> preserves I (lift (check s) ≫= k).
Proof.
  intros Hg Hk. apply preserves_bind_lift. intros [] Hs. apply Hk. by eapply guards_operand.
Qed.

Lemma preserves_guarded_write (check : string -> result unit) s (k : unit -> M D outcome) :
  guards check -> (operand s -> preserves I (k tt)) -> preserves I (checked (check s) k).
Proof. intros Hg Hk. apply preserves_checked. intros [] Hs. apply Hk. by eapply guards_operand. Qed.

Lemma preserves_with_versions (version : string -> M D string) names :
  (forall name, preserves I (version name)) -> preserves I (with_versions version names).
Proof. intros Hv. unfold with_versions. apply preserves_map_m. intros name. preserve. Qed.

Lemma preserves_version_if_installed (m : M D string) :
  preserves I m -> preserves I (version_if_installed m).
Proof. intros Hm. unfold version_if_installed. preserve. Qed.

Lemma preserves_guarded_wrapped {A} (check : string -> result unit) s g (k : unit -> M D A) :
  (forall u, preserves I (k u)) -> preserves I (on_error (lift (check s)) (fun e => fail (g e)) ≫= k).
Proof. intros Hk. preserve. Qed.
End commands.

(** Proves a command one of a table's: its flags are the first arguments, as many as fit. *)
Ltac split_arguments n :=
  match goal with
  | |- exists operands, runs _ operands ?c =>
      exists (skipn n (Cmd_Args c)), (firstn n (Cmd_Args c)); split_and!;
      [ apply (bool_decide_unpack _); vm_compute; exact I
      | by rewrite firstn_skipn
      | cbn [skipn Cmd_Args command]; repeat constructor; assumption ]
  end.

Ltac reading :=
  match goal with Hreads : forall c, read_command _ c -> _ |- harmless _ _ =>
    apply Hreads; split_and!; [done|done|];
    first [split_arguments 1%nat | split_arguments 2%nat | split_arguments 3%nat
          | split_arguments 4%nat | split_arguments 5%nat]
  end.

Create HintDb guards discriminated.
#[export] Hint Resolve ValidatePackageName_guards ValidatePackageVersion_guards
  ValidateLocalPackagePath_guards ValidateSearchQuery_guards : guards.

Ltac command_step :=
  match goal with
  | |- preserves _ (readOut _ _ _) => apply preserves_readOut
  | |- preserves _ (runRead _ _ _) => apply preserves_runRead
  | |- preserves _ (probe _ _ _) => apply preserves_probe
  | |- preserves _ (write_with _ _ _ _ _) => apply preserves_write_with
  | |- preserves _ (with_versions _ _) => apply preserves_with_versions; intros ?
  | |- preserves _ (version_if_installed _) => apply preserves_version_if_installed
  | |- preserves _ (mbind _ (lift _)) =>
      eapply preserves_guarded; [solve [eauto with guards]|intros ?]
  | |- preserves _ (mbind _ (on_error (lift _) _)) =>
      eapply preserves_guarded_wrapped; intros ?
  | |- preserves _ (checked (spec_operands _ _) _) => apply preserves_operands; [done|intros ?]
  | |- preserves _ (checked (ValidatePackageNames _) _) => apply preserves_checked_names; intros ?
  | |- preserves _ (checked (_ _) _) =>
      eapply preserves_guarded_write; [solve [eauto with guards]|intros ?]
  | |- preserves _ (checked _ _) => apply preserves_checked; intros ? ?
  | |- preserves _ (on_names _ _) => apply preserves_on_names; intros ?
  | |- _ => preserve_step
  end.

(** Walks a call of a back end. *)
Ltac commanding := cbv zeta; repeat first [reading | solve [eauto 2 with preserve nocore] | command_step].

Section queries.
Context {D : Type} `{!Runner D, !Binaries D, !BinariesLaws D, !FloatText}.
Context (I : D -> Prop).

Lemma rpmLocalPackageInfo_reads b ctx path :
  b ∈ [BackendDnf; BackendDnf5; BackendZypper] -> (forall c, read_command b c -> harmless I c) ->
  preserves I (rpmLocalPackageInfo ctx path).
Proof.
  intros Hb Hreads. unfold rpmLocalPackageInfo.
  repeat (apply elem_of_cons in Hb as [->|Hb]; [by commanding|]). by apply elem_of_nil in Hb.
Qed.

Lemma pacman_query_reads A ctx (q : Query A) :
  (forall c, read_command BackendPacman c -> harmless I c) -> preserves I (pacman_query A ctx q).
Proof.
  intros Hreads. assert (forall name, preserves I (Pacman.InstalledVersion ctx name)) as Hv.
  { intros name. unfold Pacman.InstalledVersion. commanding. }
  destruct q; simpl; try apply Hv; unfold Pacman.Version, Pacman.Search, Pacman.List, Pacman.ListUpgradable,
    Pacman.Show, Pacman.ListVersions, Pacman.IsInstalled, Pacman.LocalPackageInfo, Pacman.InstalledCount,
    Pacman.HasUpdates, Pacman.HasSecurityUpdates, Pacman.IsPinned, Pacman.ListPinned, Pacman.query_lines,
    Pacman.readConf, Pacman.upgradable_line; commanding.
Qed.

Lemma zypper_query_reads A ctx (q : Query A) :
  (forall c, read_command BackendZypper c -> harmless I c) -> preserves I (zypper_query A ctx q).
Proof.
  intros Hreads. assert (forall name, preserves I (Zypper.InstalledVersion ctx name)) as Hv.
  { intros name. unfold Zypper.InstalledVersion. commanding. }
  destruct q; simpl; try apply Hv; unfold Zypper.Version, Zypper.Search, Zypper.List, Zypper.ListUpgradable,
    Zypper.Show, Zypper.ListVersions, Zypper.IsInstalled, Zypper.LocalPackageInfo, Zypper.InstalledCount,
    Zypper.HasUpdates, Zypper.HasSecurityUpdates, Zypper.IsPinned, Zypper.ListPinned, Zypper.has_needed;
    commanding.
  apply (rpmLocalPackageInfo_reads BackendZypper); [set_solver|done].
Qed.

Lemma dnf_query_reads dnf5 A ctx (q : Query A) :
  let b := if dnf5 : bool then BackendDnf5 else BackendDnf in
  (forall c, read_command b c -> harmless I c) -> preserves I (dnf_query (dnf_command dnf5) A ctx q).
Proof.
  intros b Hreads. assert (forall name, preserves I (Dnf.InstalledVersion (dnf_command dnf5) ctx name)) as Hv.
  { intros name. unfold Dnf.InstalledVersion. destruct dnf5; commanding. }
  destruct q; simpl; try apply Hv; unfold Dnf.Version, Dnf.Search, Dnf.List, Dnf.ListUpgradable,
    Dnf.Show, Dnf.ListVersions, Dnf.IsInstalled, Dnf.LocalPackageInfo, Dnf.InstalledCount,
    Dnf.HasUpdates, Dnf.HasSecurityUpdates, Dnf.IsPinned, Dnf.ListPinned, Dnf.check_update, Dnf.pinned_names,
    Dnf.versionLockAvailable; try (apply (rpmLocalPackageInfo_reads b); [destruct dnf5; set_solver|done]);
    destruct dnf5; commanding.
Qed.

Context (Hfile : forall path, preserves I (is_file path)) (Hpath : forall name, preserves I (lookPath name)).

Lemma resolveUnattendedUpgrade_spec :
  triple I Apt.resolveUnattendedUpgrade
    (fun r d => (forall bin, r = Ok bin -> base bin = "unattended-upgrade") /\ I d) (fun _ => I).
Proof.
  unfold Apt.resolveUnattendedUpgrade.
  apply (triple_bind _ _ _ (fun _ => I)); [apply Hfile|]. intros [].
  { apply triple_ret. by split; [intros bin [= <-]|]. }
  apply (triple_bind _ _ _ (fun _ => I)); [apply Hfile|]. intros [].
  { apply triple_ret. by split; [intros bin [= <-]|]. }
  apply (triple_bind _ _ _ (fun found d =>
    I d /\ forall path, found = Some path -> base path = "unattended-upgrade")).
  - eapply triple_conseq; [apply triple_and; [apply Hpath|apply (lookPath_base "unattended-upgrade")]|..].
    + by intros d Hd.
    + by intros found d [? ?].
    + by intros e d [? ?].
  - intros found. apply triple_ret. intros d [Hd Hbase]. split; [|done].
    intros bin. destruct found as [p|]; [|done]. intros [= <-]. by apply Hbase.
Qed.

Lemma apt_query_reads A ctx (q : Query A) :
  (forall c, read_command BackendApt c -> harmless I c) -> preserves I (apt_query A ctx q).
Proof.
  intros Hreads. assert (forall name, preserves I (Apt.InstalledVersion ctx name)) as Hv.
  { intros name. unfold Apt.InstalledVersion. commanding. }
  destruct q; simpl; try apply Hv; unfold Apt.Version, Apt.Search, Apt.List, Apt.ListUpgradable,
    Apt.Show, Apt.ListVersions, Apt.IsInstalled, Apt.LocalPackageInfo, Apt.InstalledCount,
    Apt.HasUpdates, Apt.IsPinned, Apt.ListPinned; try solve [commanding].
  unfold Apt.HasSecurityUpdates. eapply triple_bind; [apply resolveUnattendedUpgrade_spec|].
  intros r. apply triple_pure. intros Hbase. apply preserves_bind_lift. intros bin Hr.
  apply preserves_bind; [|intros res; commanding]. apply preserves_runRead, Hreads. split_and!; [done|done|].
  exists [], ["--dry-run"; "--verbose"]. split_and!; [|done|constructor].
  simpl. rewrite (Hbase bin Hr). apply (bool_decide_unpack _). vm_compute. exact Logic.I.
Qed.
End queries.

(** Proves a command one of the mutation's, with the flags of one of its entries. *)
Ltac with_entry l :=
  match l with
  | (_, ?flags) :: ?l =>
      first
        [ exists flags; split_and!;
          [ apply (bool_decide_unpack _); vm_compute; exact Logic.I
          | reflexivity
          | first [assumption | repeat constructor; assumption] ]
        | with_entry l ]
  end.

Ltac writing :=
  match goal with Hwrites : forall c, write_command ?b ?m c -> _ |- harmless _ _ =>
    apply Hwrites; split_and!; [done|reflexivity|];
    let l := eval vm_compute in (writes b m) in with_entry l
  end.

Ltac mutating := cbv zeta; repeat first [reading | writing | solve [eauto 2 with preserve nocore] | command_step].

Section mutations.
Context {D : Type} `{!Runner D, !Binaries D, !BinariesLaws D, !FloatText}.
Context (I : D -> Prop).

Lemma pacman_mutate_writes ctx m :
  m <> MAutoremove ->
  (forall c, read_command BackendPacman c -> harmless I c) ->
  (forall c, write_command BackendPacman m c -> harmless I c) -> preserves I (pacman_mutate ctx m).
Proof.
  intros Hm Hreads Hwrites.
  assert (m = MPin (operands_of BackendApt m) \/ m = MUnpin (operands_of BackendApt m) ->
    forall conf ignored, preserves I (Pacman.writeIgnorePkg ctx conf ignored)) as Htee.
  { intros Hpin conf ignored. unfold Pacman.writeIgnorePkg, runPrivStdin.
    apply preserves_bind; [|intros ?; preserve].
    apply Hwrites. destruct Hpin as [-> | ->]; (split_and!; [done|done|]);
      exists ["/etc/pacman.conf"]; split_and!; try done;
      apply (bool_decide_unpack _); vm_compute; exact Logic.I. }
  destruct m as [d specs|path opts|[] names| |names| | |names|names| ]; [..|done]; simpl;
    unfold Pacman.Install, Pacman.InstallLocal, Pacman.Remove, Pacman.Update, Pacman.Upgrade, Pacman.UpgradeAll,
      Pacman.UpgradeSecurity, Pacman.Pin, Pacman.Unpin, Pacman.edit_ignored, Pacman.readConf, Pacman.write;
    try (specialize (Htee ltac:(auto))); try destruct specs; mutating; apply Htee.
Qed.

Lemma zypper_mutate_writes ctx m :
  (forall c, read_command BackendZypper c -> harmless I c) ->
  (forall c, write_command BackendZypper m c -> harmless I c) -> preserves I (zypper_mutate ctx m).
Proof.
  intros Hreads Hwrites.
  destruct m as [[] specs|path [[] []]|[] names| |names| | |names|names| ]; simpl;
    unfold Zypper.Install, Zypper.InstallLocal, Zypper.Remove, Zypper.Update, Zypper.Upgrade,
      Zypper.UpgradeAll, Zypper.UpgradeSecurity, Zypper.Pin, Zypper.Unpin, Zypper.Autoremove, Zypper.write;
    try destruct specs; mutating.
Qed.

Lemma dnf_mutate_writes dnf5 ctx m :
  let b := if dnf5 : bool then BackendDnf5 else BackendDnf in
  (forall c, read_command b c -> harmless I c) ->
  (forall c, write_command b m c -> harmless I c) -> preserves I (dnf_mutate (dnf_command dnf5) ctx m).
Proof.
  intros b Hreads Hwrites.
  destruct dnf5, m as [[] specs|path [[] []]|[] names| |names| | |names|names| ]; simpl;
    unfold Dnf.Install, Dnf.InstallLocal, Dnf.Remove, Dnf.Update, Dnf.Upgrade, Dnf.UpgradeAll,
      Dnf.UpgradeSecurity, Dnf.Pin, Dnf.Unpin, Dnf.Autoremove, Dnf.versionlock, Dnf.versionLockAvailable,
      Dnf.write;
    try destruct specs; mutating.
Qed.

Context (Hfile : forall path, preserves I (is_file path)) (Hpath : forall name, preserves I (lookPath name)).

Lemma apt_mutate_writes ctx m :
  (forall c, read_command BackendApt c -> harmless I c) ->
  (forall c, write_command BackendApt m c -> harmless I c) -> preserves I (apt_mutate ctx m).
Proof.
  intros Hreads Hwrites.
  destruct m as [[] specs|path [[] []]|[] names| |names| | |names|names| ]; simpl;
    unfold Apt.Install, Apt.InstallLocal, Apt.Remove, Apt.Update, Apt.Upgrade, Apt.UpgradeAll,
      Apt.Pin, Apt.Unpin, Apt.Autoremove, Apt.write;
    try destruct specs; try solve [mutating].
  unfold Apt.UpgradeSecurity. eapply triple_bind; [by apply resolveUnattendedUpgrade_spec|].
  intros r. apply triple_pure. intros Hbase. apply preserves_checked. intros bin Hr.
  specialize (Hbase bin Hr). unfold Apt.write.
  rewrite !bool_decide_false by (intros ->; by vm_compute in Hbase).
  apply preserves_write_with, Hwrites. split_and!; [done|done|]. exists ["-v"].
  split_and!; [|done|constructor]. simpl. rewrite Hbase. apply (bool_decide_unpack _). vm_compute. exact Logic.I.
Qed.
End mutations.

Section calls.
Context {D : Type} `{!Runner D, !Binaries D, !BinariesLaws D, !FloatText}.
Context (I : D -> Prop).
Context (Hfile : forall path, preserves I (is_file path)) (Hpath : forall name, preserves I (lookPath name)).

Lemma query_reads b A ctx (q : Query A) :
  (forall c, read_command b c -> harmless I c) -> preserves I (Manager_query (manager_of b) ctx q).
Proof.
  intros Hr. destruct b; [apply apt_query_reads|apply (dnf_query_reads _ false)|apply (dnf_query_reads _ true)
    |apply pacman_query_reads|apply zypper_query_reads]; auto.
Qed.

Lemma mutate_writes b ctx m :
  (b, m) <> (BackendPacman, MAutoremove) ->
  (forall c, read_command b c -> harmless I c) -> (forall c, write_command b m c -> harmless I c) ->
  preserves I (Manager_mutate (manager_of b) ctx m).
Proof.
  intros Hm Hr Hw.
  destruct b; [apply apt_mutate_writes|apply (dnf_mutate_writes _ false)|apply (dnf_mutate_writes _ true)
    |apply pacman_mutate_writes|apply zypper_mutate_writes]; auto; congruence.
Qed.
End calls.

(** ** What is refused *)

(** The caller's strings. *)
Definition query_strings {A} (q : Query A) : list string :=
  match q with
  | QSearch s | QShow s | QListVersions s | QIsInstalled s | QLocalPackageInfo s | QInstalledVersion s
  | QIsPinned s => [s]
  | _ => []
  end.

Definition mutation_strings (m : Mutation) : list string :=
  match m with
  | MInstall _ specs => mjoin ((fun spec => [Spec_Name spec; Spec_Version spec]) <$> specs)
  | MInstallLocal path _ => [path]
  | MRemove _ names | MUpgrade names | MPin names | MUnpin names => names
  | _ => []
  end.

Section refusals.
Context {D : Type} `{!Runner D, !Binaries D, !FloatText}.
Implicit Types (P : D -> Prop).

Definition invalid (e : error) : Prop := errors_is ErrInvalidArgument e = true.

Lemma refused_query {A B} P (r : result A) (k : A -> M D B) :
  (exists e, r = Err e /\ invalid e) ->
  triple P (lift r ≫= k) (fun _ _ => False) (fun e d => P d /\ invalid e).
Proof. intros (e & -> & He). by apply triple_bind_lift; [|intros ? ? [= <-]]. Qed.

Lemma query_refuses b P A ctx (q : Query A) s :
  s ∈ query_strings q -> flag_shaped s = true ->
  triple P (Manager_query (manager_of b) ctx q) (fun _ _ => False) (fun e d => P d /\ invalid e).
Proof.
  intros Hs Hflag.
  destruct q; simpl in Hs; try (by apply elem_of_nil in Hs); apply list_elem_of_singleton in Hs as ->;
    destruct b; eapply refused_query, guards_refuses; eauto with guards.
Qed.

(** The call does nothing and says why. *)
Definition refusal (o : outcome) : Prop := exists e, o = refused e /\ (invalid e \/ errors_is ErrUnsupported e = true).

Lemma refused_write {A} P (r : result A) (k : A -> M D outcome) :
  (exists e, r = Err e /\ invalid e) ->
  triple P (checked r k) (fun o d => P d /\ refusal o) (fun _ _ => False).
Proof. intros (e & -> & He). apply triple_ret. intros d Hd. split; [done|]. exists e. auto. Qed.

Lemma names_refused names s :
  s ∈ names -> flag_shaped s = true -> exists e, ValidatePackageNames names = Err e /\ invalid e.
Proof.
  intros Hs Hflag. pose proof (ValidatePackageNames_spec names) as Hv.
  destruct (ValidatePackageNames names) as [u|e]; [|by exists e].
  rewrite Forall_forall in Hv. specialize (Hv s Hs). unfold operand in Hv. congruence.
Qed.

Lemma on_names_refused P names s (k : list string -> M D outcome) :
  s ∈ names -> flag_shaped s = true ->
  triple P (on_names names k) (fun o d => P d /\ refusal o) (fun _ _ => False).
Proof.
  intros Hs Hflag. unfold on_names. destruct names as [|n names]; [by apply elem_of_nil in Hs|].
  eapply refused_write, names_refused; eauto.
Qed.

Lemma specs_refused sep specs s :
  s ∈ mutation_strings (MInstall false specs) -> flag_shaped s = true ->
  exists e, spec_operands sep specs = Err e /\ invalid e.
Proof.
  simpl. intros Hs Hflag. induction specs as [|[name version] specs IH]; simpl in *; [by apply elem_of_nil in Hs|].
  unfold mbind, result_bind, validateSpec, mbind, result_bind. simpl.
  pose proof (ValidatePackageName_guards name) as Hn. pose proof (ValidatePackageVersion_guards version) as Hv.
  destruct (ValidatePackageName name) as [[]|e] eqn:Hname; [|by exists e].
  destruct (ValidatePackageVersion version) as [[]|e] eqn:Hversion; [|by exists e].
  apply (guards_operand _ _ _ ValidatePackageName_guards) in Hname.
  apply (guards_operand _ _ _ ValidatePackageVersion_guards) in Hversion.
  unfold operand in *. rewrite !elem_of_cons in Hs. destruct Hs as [->|[->|Hs]]; [congruence..|].
  destruct (IH Hs) as (e & -> & He). by exists e.
Qed.

Lemma mutate_refuses b P ctx m s :
  s ∈ mutation_strings m -> flag_shaped s = true ->
  triple P (Manager_mutate (manager_of b) ctx m) (fun o d => P d /\ refusal o) (fun _ _ => False).
Proof.
  intros Hs Hflag.
  assert (forall text, triple P (mret (refused (ErrWrap text ErrUnsupported)))
    (fun o d => P d /\ refusal o) (fun _ _ => False)) as Hun.
  { intros text. apply triple_ret. intros d Hd. split; [done|]. eexists. split; [done|]. by right. }
  destruct m as [d specs|path opts|purge names| |names| | |names|names| ];
    try (by apply elem_of_nil in Hs).
  - pose proof (fun sep => specs_refused sep specs s Hs Hflag) as Hspecs.
    destruct specs as [|spec specs]; [by apply elem_of_nil in Hs|]. destruct b; apply refused_write, Hspecs.
  - apply list_elem_of_singleton in Hs as ->.
    destruct b; eapply refused_write, guards_refuses; eauto with guards.
  - destruct names as [|n names]; [by apply elem_of_nil in Hs|].
    destruct b, purge;
      first [eapply on_names_refused; by eauto | apply Hun | eapply refused_write, names_refused; by eauto].
  - destruct b; eapply on_names_refused; by eauto.
  - destruct b; eapply on_names_refused; by eauto.
  - destruct b; eapply on_names_refused; by eauto.
Qed.
End refusals.

(** ** A runner that keeps a record *)

Section recording.
Context {D : Type} `{!Runner D, !Binaries D, !BinariesLaws D, !FloatText}.

Definition record_command (c : Command) : M (list Command) unit := fun _ w =>
  (Ok tt, mkWorld (w_db w ++ [c])%list (w_step w)).

(** The host, and the commands that ran on it. *)
#[local] Instance recording_runner : Runner (D * list Command) := {|
  Run ctx c := _ ← on_snd (record_command c); on_fst (Run ctx c); Backend := Backend |}.

#[local] Instance recording_binaries : Binaries (D * list Command) := {|
  is_file path := on_fst (is_file path); lookPath name := on_fst (lookPath name) |}.

Lemma on_fst_record {A} (I : list Command -> Prop) (m : M D A) : preserves (fun d => I d.2) (on_fst m).
Proof. apply triple_on_fst. intros l env w Hw. by destruct (m env w) as [[a|e] w']. Qed.

#[local] Instance recording_binaries_laws : BinariesLaws (D * list Command).
Proof.
  split; intros.
  - apply triple_on_fst. intros l. apply is_file_returns.
  - apply triple_on_fst. intros l. apply lookPath_returns.
  - apply triple_on_fst. intros l. apply lookPath_base.
Qed.

(** Every command of the record satisfies [allowed]. *)
Definition only (allowed : Command -> Prop) (d : D * list Command) : Prop := Forall allowed d.2.

Lemma only_is_file allowed path : preserves (only allowed) (is_file path).
Proof. apply (on_fst_record (Forall allowed)). Qed.

Lemma only_lookPath allowed name : preserves (only allowed) (lookPath name).
Proof. apply (on_fst_record (Forall allowed)). Qed.

Lemma allowed_harmless (allowed : Command -> Prop) c : allowed c -> harmless (only allowed) c.
Proof.
  intros Hc ctx. unfold only. apply preserves_bind; [|intros []; by apply (on_fst_record (Forall allowed))].
  apply triple_on_snd. intros d env [l n] Hl. simpl in *. apply Forall_app. split; [done|].
  by apply Forall_singleton.
Qed.


(** What a package action may run: the reading tools, the refresh of the index, and the
    installation or the removal of its one package. *)
Definition action_command (b : PackageBackend) (params : PackageActionParams) (c : Command) : Prop :=
  read_command b c \/ write_command b MUpdate c \/
  write_command b (MInstall false [{| Spec_Name := pkg_Name params; Spec_Version := pkg_Version params |}]) c \/
  write_command b (MRemove false [pkg_Name params]) c.

(** A package action, whatever name and version the control plane sends with it,
    runs on the host only the reading tools of its back end, the refresh of the package
    index, and the installation or removal of exactly that package, as an operand. *)
Theorem package_action_commands `{!ErrorText} b ctx action params :
  Action_Params action = Some (Action_Package params) ->
  preserves (only (action_command b params))
    (ExecuteAction (Some (executor_manager (manager_of b))) ctx (Some action)).
Proof.
  intros Hparams. set (I := only (action_command b params)).
  assert (forall c, read_command b c -> harmless I c) as Hr
    by (intros c Hc; apply allowed_harmless; by left).
  assert (forall A ctx (q : Query A), preserves I (Manager_query (manager_of b) ctx q)) as Hq.
  { intros. apply query_reads; [apply only_is_file|apply only_lookPath|done]. }
  assert (forall ctx m, (b, m) <> (BackendPacman, MAutoremove) ->
    (forall c, write_command b m c -> action_command b params c) ->
    preserves I (Manager_mutate (manager_of b) ctx m)) as Hm.
  { intros ctx' m Hne Hc. apply mutate_writes; [apply only_is_file|apply only_lookPath|done|done|].
    intros c Hw. by apply allowed_harmless, Hc. }
  unfold ExecuteAction, executeParams, executePackage, installPackage, finish, WithTimeout, ctx_Err, now.
  rewrite Hparams. preserve.
  1: exact (Hq _ _ (QIsInstalled _)).
  1: exact (Hq _ _ (QInstalledVersion _)).
  all: first [apply (Hm _ MUpdate) | apply (Hm _ (MInstall _ _)) | apply (Hm _ (MRemove _ _))];
    [congruence|unfold action_command; tauto].
Qed.
End recording.
