(* ===== verification/Guards.v ===== *)
(** * Guards the library offers its clients ([sdk/crypto], [sdk/sys/exec], [sdk/pkg])

    Checks that neither program calls yet: whether a CA may follow another
    ([cert.go], [VerifyCAContinuity]), secrets that do not show in a log ([secret.go]), the
    tools a host can escalate with ([detect.go]), and references to the keys packages are
    signed with ([validate.go], [ValidateGpgKeyRef]). *)

From Stdlib Require Import Ascii.
From S2P Require Import Prelude Hash Engine Pki Service Strs Text Exec Packages.

Open Scope string_scope.
Open Scope Z_scope.

(** ** One CA after another *)

(** [newCert.CheckSignatureFrom(oldCert)]. *)
Class CertificateChains := { CheckSignatureFrom : X509Certificate -> X509Certificate -> bool }.

Section continuity.
Context `{!X509, !CertificateChains}.

Definition VerifyCAContinuity (oldCAPEM newCAPEM : bytes) : result unit :=
  if bool_decide (newCAPEM = []) then Err (ErrNew "new CA is empty")
  else match pem_Decode oldCAPEM with
  | None => Err (ErrNew "enrolled CA: failed to decode PEM")
  | Some (oldBlock, _) =>
      match pem_Decode newCAPEM with
      | None => Err (ErrNew "new CA: failed to decode PEM")
      | Some (newBlock, _) =>
          if bool_decide (Block_Bytes oldBlock = Block_Bytes newBlock) then Ok tt
          else match ParseCertificate (Block_Bytes oldBlock), ParseCertificate (Block_Bytes newBlock) with
          | None, _ => Err (ErrNew "enrolled CA")
          | Some _, None => Err (ErrNew "new CA")
          | Some oldCert, Some newCert =>
              if CheckSignatureFrom newCert oldCert then Ok tt
              else Err (ErrNew "new CA does not chain to the enrolled CA")
          end
      end
  end.

(** The new CA is the old one, or certified by it. *)
Definition continues (old new : bytes) : Prop :=
  old = new \/ exists oldCert newCert, ParseCertificate old = Some oldCert /\ ParseCertificate new = Some newCert /\
    CheckSignatureFrom newCert oldCert = true.

Lemma VerifyCAContinuity_exact oldCAPEM newCAPEM :
  VerifyCAContinuity oldCAPEM newCAPEM = Ok tt <->
  newCAPEM <> [] /\ exists oldBlock r newBlock r', pem_Decode oldCAPEM = Some (oldBlock, r) /\
    pem_Decode newCAPEM = Some (newBlock, r') /\ continues (Block_Bytes oldBlock) (Block_Bytes newBlock).
Proof.
  unfold VerifyCAContinuity, continues. split.
  - case_bool_decide as Hne; [done|]. destruct (pem_Decode oldCAPEM) as [[ob r]|]; [|done].
    destruct (pem_Decode newCAPEM) as [[nb r']|]; [|done]. case_bool_decide as He; [eauto 10|].
    destruct (ParseCertificate (Block_Bytes ob)) as [oc|] eqn:Ho; [|done].
    destruct (ParseCertificate (Block_Bytes nb)) as [nc|] eqn:Hn; [|done].
    destruct (CheckSignatureFrom nc oc) eqn:Hs; [|done]. intros _. split; [done|]. do 4 eexists. split_and!; [done..|eauto 10].
  - intros (Hne & ob & r & nb & r' & -> & -> & Hc). rewrite (bool_decide_false _ Hne).
    case_bool_decide as He; [done|]. destruct Hc as [|(oc & nc & -> & -> & Hs)]; [done|]. by rewrite Hs.
Qed.
End continuity.

(** ** Secrets *)

Definition ErrSecretContainsNewline : error := ErrVar "secret contains a newline or carriage return".

Record Secret := { plaintext : string }.

Definition line_breaks : string := String line_feed (String (ascii_of_nat 13) EmptyString).

Definition NewSecret (v : string) : result Secret :=
  if ContainsAny v line_breaks then Err ErrSecretContainsNewline else Ok {| plaintext := v |}.

Definition NewMultilineSecret (v : string) : Secret := {| plaintext := v |}.

Definition Secret_String (s : Secret) : string := "[REDACTED]".
Definition GoString (s : Secret) : string := "[REDACTED]".
Definition Reveal (s : Secret) : string := plaintext s.
Definition Secret_IsZero (s : Secret) : bool := bool_decide (plaintext s = EmptyString).
Definition HasNewline (s : Secret) : bool := ContainsAny (plaintext s) line_breaks.

Lemma breakless v : ContainsAny v line_breaks = false -> has_byte line_feed v = false.
Proof.
  unfold ContainsAny. rewrite negb_false_iff. induction v as [|c v IH]; [done|]. cbn [all_bytes has_byte].
  rewrite andb_true_iff. intros [Hc Hv]. rewrite (IH Hv), orb_false_r. apply negb_true_iff in Hc.
  apply orb_false_iff in Hc as [Hc _]. by rewrite Ascii.eqb_sym.
Qed.

(** A secret is one record of what it is piped to, and no text of it tells it apart. *)
Lemma NewSecret_record v s rest :
  NewSecret v = Ok s ->
  Reveal s = v /\ HasNewline s = false /\ lines (Reveal s ++ String line_feed rest) = Reveal s :: lines rest.
Proof.
  unfold NewSecret. destruct (ContainsAny v line_breaks) eqn:Hv; [done|]. intros [= <-]. split_and!; [done..|].
  unfold Reveal. simpl. rewrite lines_app. unfold lines at 1. by rewrite Split_single by by apply breakless.
Qed.

(** ** The tools to escalate with *)

Definition Escalators {D} `{!Binaries D} : M D (list PrivilegeBackend) :=
  sudo ← lookPath "sudo"; doas ← lookPath "doas";
  let usable (found : option string) b := match found with Some _ => [b] | None => [] end in
  mret ((usable sudo Sudo ++ usable doas Doas)%list).

Lemma Escalators_never_direct {D} `{!Binaries D, !BinariesLaws D} :
  triple (fun _ : D => True) Escalators (fun l _ => Direct ∉ l /\ NoDup l) (fun _ _ => False).
Proof.
  intros env w Hw. unfold Escalators, mbind, M_bind. pose proof (lookPath_returns "sudo" env w Hw) as Hs.
  destruct (lookPath "sudo" env w) as [[sudo|e] w']; [|done]. pose proof (lookPath_returns "doas" env w' I) as Hd.
  destruct (lookPath "doas" env w') as [[doas|e] w'']; [|done]. simpl.
  destruct sudo, doas; split; by apply (bool_decide_unpack _).
Qed.

(** ** References to keys *)

Definition hasCtrlOrSpace (s : string) : bool :=
  negb (all_bytes (fun c => negb (control_byte c || (byte_of c =? 32)%N)) s).

Section keys.
Context `{!WebAddress}.

Definition ValidateGpgKeyRef (ref : string) : result unit :=
  let refuse msg := Err (ErrWrap msg ErrInvalidArgument) in
  if bool_decide (ref = EmptyString) then refuse "gpg key ref is empty"
  else if hasCtrlOrSpace ref then refuse "gpg key ref contains whitespace or control characters"
  else if HasPrefix ref "-" then refuse "gpg key ref is flag-shaped (leading '-')"
  else if HasPrefix ref "https://" then
    match url_Parse ref with
    | None => refuse "gpg key ref is not a valid URL"
    | Some u => if bool_decide (Url_Host u = EmptyString) then refuse "gpg key https ref has no host" else Ok tt
    end
  else if HasPrefix ref "file://" then
    match url_Parse ref with
    | None => refuse "gpg key ref is not a valid URL"
    | Some u =>
        if negb (bool_decide (Url_Host u = EmptyString)) then refuse "gpg key file ref must be file:///absolute/path (no host)"
        else if negb (HasPrefix (Url_Path u) "/") || Contains (Url_Path u) ".."
        then refuse "gpg key file ref must be an absolute path with no '..'"
        else Ok tt
    end
  else if HasPrefix ref "/" then
    if Contains ref ".." then refuse "gpg key path ref must not contain '..'" else Ok tt
  else refuse "gpg key ref must be an https URL, a file:// absolute path, or an absolute filesystem path".

(** What is accepted is one word, no option, and comes over https or from a file whose path
    goes nowhere else. *)
Lemma ValidateGpgKeyRef_accepts ref :
  ValidateGpgKeyRef ref = Ok tt ->
  hasCtrlOrSpace ref = false /\ HasPrefix ref "-" = false /\
  (HasPrefix ref "https://" = true \/
   (exists u, HasPrefix ref "file://" = true /\ url_Parse ref = Some u /\ Url_Host u = EmptyString /\
      HasPrefix (Url_Path u) "/" = true /\ Contains (Url_Path u) ".." = false) \/
   HasPrefix ref "/" = true /\ Contains ref ".." = false).
Proof.
  unfold ValidateGpgKeyRef. cbv zeta. case_bool_decide; [done|]. destruct (hasCtrlOrSpace ref) eqn:Hs; [done|].
  destruct (HasPrefix ref "-") eqn:Hf; [done|]. intros Hok. do 2 (split; [done|]). revert Hok.
  destruct (HasPrefix ref "https://"); [by left|]. intros Hok. right. revert Hok. destruct (HasPrefix ref "file://").
  - destruct (url_Parse ref) as [u|]; [|done]. case_bool_decide as Hh; [|done]. simpl in *.
    destruct (HasPrefix (Url_Path u) "/") eqn:Hp; [|done]. destruct (Contains (Url_Path u) "..") eqn:Hd; [done|].
    left. by exists u.
  - destruct (HasPrefix ref "/"); [|done]. destruct (Contains ref ".."); [done|]. by right.
Qed.
End keys.
