(* ===== verification/Paths.v ===== *)
(** * Paths

    Go's [path.Clean] and its relatives, which are [filepath]'s on Unix, and what they
    mean: the components a path resolves to without looking at the file system. *)

From Stdlib Require Import Ascii.
From S2P Require Import Prelude Strs Text Words.

Open Scope string_scope.
Open Scope Z_scope.

Definition slash : ascii := "/"%char.

Definition IsAbs (p : string) : bool := HasPrefix p "/".

(** The components after one more: an empty one and [.] stay, and [..] goes back, but not
    above the root, nor above the start of a relative path.  The last one is first. *)
Definition step_into (rooted : bool) (stack : list string) (c : string) : list string :=
  if bool_decide (c = EmptyString \/ c = ".") then stack
  else if bool_decide (c = "..") then
    match stack with
    | [] => if rooted then [] else [".."]
    | top :: rest => if bool_decide (top = "..") then ".." :: stack else rest
    end
  else c :: stack.

Definition components (p : string) : list string :=
  reverse (fold_left (step_into (IsAbs p)) (Split p slash) []).

Definition Clean (p : string) : string :=
  let body := Join (components p) "/" in
  if IsAbs p then "/" ++ body else if bool_decide (body = EmptyString) then "." else body.

(** [path.Base]. *)
Definition Base (p : string) : string :=
  if bool_decide (p = EmptyString) then "."
  else
    let stripped := TrimRight p (Ascii.eqb slash) in
    if bool_decide (stripped = EmptyString) then "/" else List.last (Split stripped slash) EmptyString.

(** [path.Dir]: what is before the last slash, with it, cleaned. *)
Definition Dir (p : string) : string :=
  match cut_last p slash with Some (before, _) => Clean (before ++ "/") | None => "." end.

Example Clean_ex : Clean <$> ["/etc/../etc/sudoers.d"; "a//./b/.."; "/.."; ""; "../../x"; "/a/b/"] =
  ["/etc/sudoers.d"; "a"; "/"; "."; "../../x"; "/a/b"].
Proof. reflexivity. Qed.

Example Base_ex : Base <$> ["/bin/sh"; "/bin/sh/"; "//"; ""; "sh"] = ["sh"; "sh"; "/"; "."; "sh"].
Proof. reflexivity. Qed.

Example Dir_ex : Dir <$> ["/etc/passwd"; "/x"; "a/b"; "a"; "/a/b//c"] = ["/etc"; "/"; "a"; "."; "/a/b"].
Proof. reflexivity. Qed.

(** ** Facts *)

(** A component that is a name. *)
Definition proper (c : string) : Prop := c <> EmptyString /\ c <> "." /\ has_byte slash c = false.

Definition named (c : string) : Prop := proper c /\ c <> "..".

Lemma Split_cons_sep s : Split (String slash s) slash = EmptyString :: Split s slash.
Proof. reflexivity. Qed.

(** What is joined by slashes is split again. *)
Lemma Split_Join parts :
  parts <> [] -> Forall (fun c => has_byte slash c = false) parts -> Split (Join parts "/") slash = parts.
Proof.
  intros Hne Hp. induction Hp as [|c parts Hc Hparts IH]; [done|]. destruct parts as [|d parts].
  - by apply Split_single.
  - change (Join (c :: d :: parts) "/") with (c ++ String slash (Join (d :: parts) "/"))%string.
    by rewrite Split_app, Split_single, IH.
Qed.

Lemma fold_named rooted stack l :
  Forall named l -> fold_left (step_into rooted) l stack = (reverse l ++ stack)%list.
Proof.
  intros Hl. revert stack. induction Hl as [|c l [(Hne & Hdot & _) Hdd] Hl IH]; intros stack; [done|].
  simpl. rewrite IH. unfold step_into. rewrite !bool_decide_false by naive_solver.
  by rewrite reverse_cons, <- app_assoc.
Qed.

(** The components of an absolute path are names. *)
Lemma rooted_named stack l :
  Forall named stack -> Forall (fun c => has_byte slash c = false) l ->
  Forall named (fold_left (step_into true) l stack).
Proof.
  intros Hs Hl. revert stack Hs. induction Hl as [|c l Hc Hl IH]; intros stack Hs; [done|]. simpl. apply IH.
  unfold step_into. case_bool_decide as Hskip; [done|]. case_bool_decide as Hdd.
  - destruct Hs as [|top stack Htop Hs]; [done|]. case_bool_decide; [|done]. by destruct Htop.
  - constructor; [|done]. split; [|done]. unfold proper. naive_solver.
Qed.

Lemma components_named p : IsAbs p = true -> Forall named (components p).
Proof.
  intros Ha. unfold components. rewrite Ha. apply Forall_reverse, rooted_named; [constructor|]. apply Split_parts.
Qed.

Lemma named_slashless l : Forall named l -> Forall (fun c => has_byte slash c = false) l.
Proof. intros Hl. eapply Forall_impl; [exact Hl|]. by intros c [(_ & _ & ?) _]. Qed.

(** A path of names is its own components. *)
Lemma components_Join l : Forall named l -> components ("/" ++ Join l "/") = l.
Proof.
  intros Hl. unfold components. change ("/" ++ Join l "/")%string with (String slash (Join l "/")).
  assert (IsAbs (String slash (Join l "/")) = true) as -> by (apply HasPrefix_app; by eexists).
  rewrite Split_cons_sep. simpl. destruct l as [|c l]; [done|].
  rewrite Split_Join; [|done|by apply named_slashless].
  rewrite fold_named by done. by rewrite app_nil_r, reverse_involutive.
Qed.

Lemma Clean_abs p : IsAbs p = true -> Clean p = ("/" ++ Join (components p) "/")%string.
Proof. intros Ha. unfold Clean. by rewrite Ha. Qed.

Lemma Clean_IsAbs p : IsAbs p = true -> IsAbs (Clean p) = true.
Proof. intros Ha. rewrite Clean_abs by done. apply HasPrefix_app. by eexists. Qed.

(** Cleaning keeps the components, so that it is done after once. *)
Lemma components_Clean p : IsAbs p = true -> components (Clean p) = components p.
Proof. intros Ha. rewrite Clean_abs by done. by apply components_Join, components_named. Qed.

Lemma Clean_idempotent p : IsAbs p = true -> Clean (Clean p) = Clean p.
Proof.
  intros Ha. rewrite (Clean_abs (Clean p)) by (by apply Clean_IsAbs). rewrite components_Clean by done.
  by rewrite Clean_abs.
Qed.

(** ** Below a directory *)

Lemma Join_app_cons (a : list string) c b :
  a <> [] -> Join (a ++ c :: b) "/" = (Join a "/" ++ String slash (Join (c :: b) "/"))%string.
Proof.
  induction a as [|x a IH]; [done|]. intros _. destruct a as [|y a]; [done|].
  change (Join ((x :: y :: a) ++ c :: b) "/") with (x ++ String slash (Join ((y :: a) ++ c :: b) "/"))%string.
  rewrite IH by done. change (Join (x :: y :: a) "/") with (x ++ String slash (Join (y :: a) "/"))%string.
  by rewrite <- append_assoc.
Qed.

Lemma Join_inj a b :
  Forall named a -> Forall named b -> Join a "/" = Join b "/" -> a = b.
Proof.
  intros Ha Hb Hj. rewrite <- (components_Join a Ha), <- (components_Join b Hb). by rewrite Hj.
Qed.

(** The prefix test of the text of a clean path is the one of its components, when the
    prefix ends with a slash. *)
Lemma below_spec p root :
  IsAbs p = true -> Forall named root -> root <> [] ->
  HasPrefix (Clean p) ("/" ++ Join root "/" ++ "/") = true <->
  exists c rest, components p = (root ++ c :: rest)%list.
Proof.
  intros Ha Hroot Hne. rewrite Clean_abs by done. pose proof (components_named p Ha) as Hp. split.
  - intros [t Ht]%HasPrefix_app.
    assert (Join (components p) "/" = Join root "/" ++ String slash t)%string as Hj.
    { injection Ht as Ht. change (Join (components p) "/" = ((Join root "/" ++ "/") ++ t)%string) in Ht.
      rewrite Ht. by rewrite <- append_assoc. }
    assert (Split (Join (components p) "/") slash = root ++ Split t slash)%list as Hs.
    { rewrite Hj, Split_app, Split_Join by (try done; by apply named_slashless). done. }
    destruct (decide (components p = [])) as [He|He].
    { rewrite He in Hj. destruct (Join root "/"); done. }
    rewrite Split_Join in Hs by (try done; by apply named_slashless). rewrite Hs.
    pose proof (Split_not_nil t slash). destruct (Split t slash) as [|c rest]; [done|]. by exists c, rest.
  - intros (c & rest & ->). apply HasPrefix_app. exists (Join (c :: rest) "/").
    rewrite Join_app_cons by done. by rewrite <- !append_assoc.
Qed.

(** ** Names in a directory *)

Lemma IsAbs_app a b : IsAbs a = true -> IsAbs (a ++ b)%string = true.
Proof. apply HasPrefix_weaken. Qed.

Lemma has_slash p : IsAbs p = true -> has_byte slash p = true.
Proof. unfold IsAbs. intros [r ->]%HasPrefix_app. reflexivity. Qed.

(** An absolute path, cut at its last slash. *)
Lemma last_slash p :
  IsAbs p = true -> exists before c, cut_last p slash = Some (before, c) /\ p = (before ++ String slash c)%string /\
    has_byte slash c = false /\ IsAbs (before ++ "/")%string = true.
Proof.
  intros Ha. destruct (cut_last p slash) as [[before c]|] eqn:Hc.
  - exists before, c. pose proof (cut_last_spec _ _ _ _ Hc) as [-> Hs]. split_and!; try done.
    unfold IsAbs in *. apply HasPrefix_app in Ha as [r Hr]. destruct before as [|d before]; [done|].
    injection Hr as -> _. apply HasPrefix_app. by eexists.
  - exfalso. unfold cut_last in Hc. destruct (Cut (rev_string p EmptyString) slash) as [[a b] []] eqn:Hcut; [done|].
    apply Cut_not_found in Hcut as (_ & _ & Hb). fold (rev p) in Hb. rewrite has_byte_rev, has_slash in Hb; done.
Qed.

(** What an absolute path resolves to, one component at a time. *)
Lemma components_before before c :
  IsAbs (before ++ "/")%string = true -> IsAbs (before ++ String slash c)%string = true ->
  has_byte slash c = false ->
  components (before ++ String slash c) = reverse (step_into true (reverse (components (before ++ "/"))) c).
Proof.
  intros Hb Hp Hc. unfold components. rewrite Hb, Hp. change (before ++ "/")%string with (before ++ String slash "")%string.
  rewrite !Split_app, (Split_single c) by done. change (Split EmptyString slash) with [EmptyString].
  rewrite !fold_left_app. simpl. by rewrite reverse_involutive.
Qed.

Lemma components_Dir p before c :
  IsAbs p = true -> cut_last p slash = Some (before, c) -> IsAbs (before ++ "/")%string = true ->
  components (Dir p) = components (before ++ "/").
Proof. intros Ha Hc Hb. unfold Dir. rewrite Hc. by apply components_Clean. Qed.

Lemma Dir_IsAbs p : IsAbs p = true -> IsAbs (Dir p) = true.
Proof.
  intros Ha. destruct (last_slash p Ha) as (before & c & Hc & _ & _ & Hb). unfold Dir. rewrite Hc. by apply Clean_IsAbs.
Qed.

Lemma span_stops p s : match s with String c _ => p c = false | EmptyString => True end -> span p s = (EmptyString, s).
Proof. destruct s as [|c s]; [done|]. simpl. by intros ->. Qed.

(** The last component, when it is not empty, is the name of the path. *)
Lemma Base_last before c :
  c <> EmptyString -> has_byte slash c = false -> Base (before ++ String slash c) = c.
Proof.
  intros Hne Hc. unfold Base. rewrite bool_decide_false by (by destruct before).
  assert (TrimRight (before ++ String slash c) (Ascii.eqb slash) = (before ++ String slash c)%string) as ->.
  { unfold TrimRight. fold (rev (before ++ String slash c)).
    assert (exists d r, rev (before ++ String slash c) = String d r /\ Ascii.eqb slash d = false) as (d & r & Hr & Hd).
    { rewrite rev_app, rev_cons, <- !append_assoc. rewrite <- has_byte_rev in Hc.
      destruct (rev c) as [|d r] eqn:Hrev.
      - exfalso. apply Hne. rewrite <- (rev_rev c), Hrev. done.
      - exists d, (r ++ "/" ++ rev before)%string. split; [done|]. simpl in Hc. by apply orb_false_iff in Hc as [? _]. }
    rewrite Hr, span_stops by done. cbn [snd]. change (rev (String d r) = (before ++ String slash c)%string). by rewrite <- Hr, rev_rev. }
  rewrite bool_decide_false by (by destruct before). rewrite Split_app, (Split_single c) by done. by rewrite List.last_last.
Qed.

(** A name made from a path's own is not the path, when put beside it. *)
Lemma beside_differs p a z :
  IsAbs p = true -> a <> EmptyString -> components p <> (components (Dir p) ++ [(a ++ Base p ++ z)%string])%list.
Proof.
  intros Ha Hne Heq. destruct (last_slash p Ha) as (before & c & Hcut & Hp & Hc & Hb).
  rewrite (components_Dir p before c) in Heq by done. rewrite Hp in Heq at 1. rewrite Hp in Ha.
  rewrite components_before in Heq by done. apply (f_equal reverse) in Heq.
  rewrite reverse_involutive, reverse_app in Heq. simpl in Heq.
  set (st := reverse (components (before ++ "/"))) in Heq. unfold step_into in Heq.
  case_bool_decide as Hskip; [apply (f_equal length) in Heq; simpl in Heq; lia|].
  assert (c <> (a ++ Base p ++ z)%string) as Hc'.
  { intros Hn. rewrite Hp, Base_last in Hn by naive_solver. apply (f_equal String.length) in Hn.
    rewrite !length_append in Hn. destruct a; [done|]. simpl in Hn. lia. }
  case_bool_decide as Hdd; [|by injection Heq].
  destruct st as [|top st]; [done|]. case_bool_decide.
  - subst c. congruence.
  - apply (f_equal length) in Heq. simpl in Heq. lia.
Qed.

(** ** The last component of a clean path *)

Lemma Dir_Base p l c :
  IsAbs p = true -> components p = (l ++ [c])%list -> components (Dir (Clean p)) = l /\ Base (Clean p) = c.
Proof.
  intros Ha Hk. pose proof (components_named p Ha) as Hn. rewrite Hk in Hn.
  pose proof (Clean_IsAbs p Ha) as Hca. rewrite (Clean_abs p Ha), Hk in *.
  destruct (last_slash _ Hca) as (before & c' & Hcut & Hp & Hc & Hb).
  assert (Split before slash ++ [c'] = "" :: l ++ [c])%list as Hs.
  { rewrite <- (Split_single c' slash) by done. rewrite <- Split_app, <- Hp.
    change ("/" ++ Join (l ++ [c]) "/")%string with (String slash (Join (l ++ [c]) "/")).
    rewrite Split_cons_sep, Split_Join; [done|by destruct l|by apply named_slashless]. }
  rewrite app_comm_cons in Hs. apply app_inj_tail in Hs as [Hbefore ->].
  apply Forall_app in Hn as [Hl [[[Hne [Hdot _]] Hdd] _]%Forall_cons].
  split; [|rewrite Hp; by apply Base_last].
  rewrite (components_Dir _ before c) by done.
  assert (components (before ++ String slash c) = l ++ [c])%list as Hcs.
  { rewrite <- Hp. apply components_Join, Forall_app. split; [done|]. by repeat constructor. }
  rewrite components_before in Hcs by (rewrite <- ?Hp; done). unfold step_into in Hcs.
  rewrite !bool_decide_false in Hcs by naive_solver. rewrite reverse_cons, reverse_involutive in Hcs.
  by apply app_inj_tail in Hcs as [-> _].
Qed.

(** The directory of a clean path is clean, and shorter. *)
Lemma Dir_shorter p :
  IsAbs p = true -> Clean p = p -> p <> "/" ->
  IsAbs (Dir p) = true /\ Clean (Dir p) = Dir p /\ (String.length (Dir p) < String.length p)%nat.
Proof.
  intros Ha Hclean Hp. pose proof (Dir_IsAbs p Ha) as Hd.
  assert (Clean (Dir p) = Dir p) as Hdc.
  { destruct (last_slash p Ha) as (before & c & Hc & _ & _ & Hb). unfold Dir. rewrite Hc. by apply Clean_idempotent. }
  split_and!; [done..|]. destruct (components p) as [|c l] eqn:Hk using rev_ind.
  { exfalso. apply Hp. rewrite <- Hclean, Clean_abs, Hk by done. reflexivity. }
  clear IHl. destruct (Dir_Base p l c Ha Hk) as [Hl _]. rewrite Hclean in Hl.
  rewrite <- Hdc, Clean_abs, Hl by done. rewrite <- Hclean, Clean_abs, Hk by done.
  pose proof (components_named p Ha) as Hn. rewrite Hk in Hn. apply Forall_app in Hn as [_ [[[Hne _] _] _]%Forall_cons].
  rewrite !length_append. simpl. destruct l as [|x l].
  - simpl. destruct c; [done|]. simpl. lia.
  - rewrite Join_app_cons by done. rewrite length_append. simpl. lia.
Qed.
