(* ===== verification/Units.v ===== *)
(** * Unit files ([sdk/sys/service/unitcontent.go], [systemd.go])

    The names of units and the policy on what a unit file may say: PID 1 runs what it
    names as root. *)

From Stdlib Require Import Ascii.
From S2P Require Import Prelude Engine Strs Text Words Paths.

Open Scope string_scope.
Open Scope Z_scope.

(** ** Names *)

Definition hex_byte (c : ascii) : bool := is_digit c || one_of "abcdefABCDEF" c.

(** [(?:[a-zA-Z0-9@_:-]|\\x[0-9A-Fa-f]{2})] and then the same with a dot, any number of
    times. *)
Fixpoint unit_tokens (first : bool) (s : string) : bool :=
  match s with
  | EmptyString => negb first
  | String c rest =>
      if Ascii.eqb c "\" then
        match rest with
        | String x (String h (String l rest)) =>
            Ascii.eqb x "x" && hex_byte h && hex_byte l && unit_tokens false rest
        | _ => false
        end
      else (letter_or_digit c || one_of (if first then "@_:-" else "@._:-") c) && unit_tokens false rest
  end.

Definition unit_types : list string :=
  ["service"; "socket"; "device"; "timer"; "mount"; "automount"; "swap"; "target"; "path"; "slice"; "scope"].

(** No type has a dot, so that the last one of the name is before it. *)
Definition validSystemdUnitName (unit : string) : bool :=
  match cut_last unit "." with
  | Some (name, type) => bool_decide (type ∈ unit_types) && unit_tokens true name
  | None => false
  end.

Definition ValidateUnitName (name : string) : result unit :=
  if validSystemdUnitName name then Ok tt else Err (ErrNew "invalid systemd unit name").

(** ** The policy *)

Definition ErrUnsafeUnitContent : error := ErrVar "unsafe systemd unit content".

Definition execDirectives : list string :=
  ["execstart"; "execstartpre"; "execstartpost"; "execstop"; "execstoppost"; "execreload"; "execcondition"].

Definition shellInterpreters : list string := ["sh"; "bash"; "dash"; "zsh"; "ksh"; "ash"; "busybox"].

Definition untrustedExecPrefixes : list string := ["/tmp/"; "/var/tmp/"; "/dev/shm/"].

Definition dangerousEnvVars : list string := ["LD_PRELOAD"; "LD_LIBRARY_PATH"; "LD_AUDIT"].

Definition isExecDirective (key : string) : bool := bool_decide (key ∈ execDirectives).

(** The runes beyond ASCII whose lower or upper case is an ASCII letter: the dotted
    capital I and the Kelvin sign, the dotless i and the long s. *)
Fixpoint ascii_lower_runes (s : string) : string :=
  match s with
  | String "196" (String "176" rest) => String "i" (ascii_lower_runes rest)
  | String "226" (String "132" (String "170" rest)) => String "k" (ascii_lower_runes rest)
  | String c rest => String c (ascii_lower_runes rest)
  | EmptyString => EmptyString
  end%char.

Fixpoint ascii_upper_runes (s : string) : string :=
  match s with
  | String "196" (String "177" rest) => String "I" (ascii_upper_runes rest)
  | String "197" (String "191" rest) => String "S" (ascii_upper_runes rest)
  | String c rest => String c (ascii_upper_runes rest)
  | EmptyString => EmptyString
  end%char.

Definition trailingBackslashes (s : string) : nat :=
  String.length (span (Ascii.eqb "\") (rev_string s EmptyString)).1.

(** A line that ends in an odd number of backslashes goes on in the next one; [pending] is
    what there is of it. *)
Fixpoint join_lines (pending : option string) (l : list string) : list string :=
  match l with
  | [] => match pending with Some p => [p] | None => [] end
  | x :: l =>
      let trimmed := TrimRight x (fun c => Ascii.eqb c " " || Ascii.eqb c tab) in
      if Nat.odd (trailingBackslashes trimmed)
      then join_lines (Some (default EmptyString pending ++ TrimSuffix trimmed "\" ++ " ")) l
      else (default EmptyString pending ++ x) :: join_lines None l
  end.

Definition joinContinuationLines (content : string) : list string := join_lines None (lines content).

Definition isShellCFlag (arg : string) : bool :=
  match arg with
  | String "-" rest => negb (HasPrefix rest "-") && has_byte "c" rest
  | _ => false
  end%char.

Definition untrusted (p : string) : bool := existsb (HasPrefix (Clean p)) untrustedExecPrefixes.

(** The command of an [Exec] line, without its prefixes. *)
Definition exec_command (value : string) : list string :=
  Fields (TrimSpace (span (one_of "-@+!:") value).2).

Definition validateExecLine (value : string) : result unit :=
  match exec_command value with
  | [] => Ok tt
  | exe :: args =>
      if bool_decide (Base exe ∈ shellInterpreters) && existsb isShellCFlag args
      then Err (ErrWrap "shells out via -c" ErrUnsafeUnitContent)
      else if untrusted exe
      then Err (ErrWrap "runs from a world-writable directory" ErrUnsafeUnitContent)
      else Ok tt
  end.

Definition quote_mark (c : ascii) : bool := one_of "'" c || Ascii.eqb c "034".

(** The variable a part of an [Environment] line sets. *)
Definition env_name (pair : string) : string :=
  ToUpper (ascii_upper_runes (TrimRight (span quote_mark (TrimSpace (Cut pair "=").1.1)).2 quote_mark)).

Definition validateEnvLine (value : string) : result unit :=
  if existsb (fun pair => bool_decide (env_name pair ∈ dangerousEnvVars)) (Fields value)
  then Err (ErrWrap "a dynamic-linker override" ErrUnsafeUnitContent) else Ok tt.

(** The key and the value of a line that sets something. *)
Definition directive (raw : string) : option (string * string) :=
  let line := TrimSpace raw in
  if bool_decide (line = EmptyString) || HasPrefix line "#" || HasPrefix line ";" then None
  else
    let '(key, value, found) := Cut line "=" in
    if negb found || bool_decide (key = EmptyString) then None
    else Some (ToLower (ascii_lower_runes (TrimSpace key)), TrimSpace value).

Definition environment_file (value : string) : string := TrimSpace (TrimPrefix value "-").

Definition validateLine (raw : string) : result unit :=
  match directive raw with
  | None => Ok tt
  | Some (key, value) =>
      if isExecDirective key then validateExecLine value
      else if bool_decide (key = "environmentfile") then
        if untrusted (environment_file value)
        then Err (ErrWrap "EnvironmentFile references a world-writable path" ErrUnsafeUnitContent) else Ok tt
      else if bool_decide (key = "environment") then validateEnvLine value
      else Ok tt
  end.

Fixpoint validateLines (l : list string) : result unit :=
  match l with
  | [] => Ok tt
  | raw :: l => _ ← validateLine raw; validateLines l
  end.

Definition validateUnitContent (content : string) : result unit := validateLines (joinContinuationLines content).

Definition unit_with (line : string) : string :=
  "[Service]" ++ String line_feed (line ++ String line_feed EmptyString).

Example policy_ex : validateUnitContent <$>
  [unit_with "ExecStart=/usr/bin/app --flag"; unit_with "ExecStart=-/bin/sh -ec id"; unit_with "execstartpre = /tmp/../tmp/x";
   unit_with "Environment=A=1 'LD_PRELOAD=/x'"; unit_with "EnvironmentFile=-/dev/shm/e"] =
  [Ok tt; Err (ErrWrap "shells out via -c" ErrUnsafeUnitContent);
   Err (ErrWrap "runs from a world-writable directory" ErrUnsafeUnitContent);
   Err (ErrWrap "a dynamic-linker override" ErrUnsafeUnitContent);
   Err (ErrWrap "EnvironmentFile references a world-writable path" ErrUnsafeUnitContent)].
Proof. vm_compute. reflexivity. Qed.

(** ** Facts *)

Definition unit_byte (c : ascii) : bool := letter_or_digit c || one_of "@._:-\" c.

Lemma hex_byte_unit c : hex_byte c = true -> unit_byte c = true.
Proof. apply implb_true_iff. revert c. by apply all_ascii. Qed.

Lemma unit_class_byte (first : bool) c :
  (letter_or_digit c || one_of (if first then "@_:-" else "@._:-") c) = true -> unit_byte c = true.
Proof. apply implb_true_iff. revert c. by destruct first; apply all_ascii. Qed.

Lemma unit_tokens_bytes first s : unit_tokens first s = true -> all_bytes unit_byte s = true.
Proof.
  assert (forall n first s, (String.length s <= n)%nat -> unit_tokens first s = true ->
    all_bytes unit_byte s = true) as Hall; [|by eapply Hall].
  clear. induction n as [|n IH]; intros first [|c s] Hlen Ht; try done; [simpl in Hlen; lia|].
  simpl in Hlen. cbn [unit_tokens] in Ht. destruct (Ascii.eqb_spec c "\") as [->|Hne].
  - destruct s as [|x [|h [|l rest]]]; try done. simpl in Hlen. rewrite !andb_true_iff in Ht.
    destruct Ht as [[[->%Ascii.eqb_eq Hh] Hl] Hr]. cbn [all_bytes].
    rewrite (hex_byte_unit h), (hex_byte_unit l), (IH false rest) by (try done; lia). done.
  - apply andb_true_iff in Ht as [Hc Hs]. cbn [all_bytes]. rewrite (unit_class_byte _ _ Hc).
    eapply IH; [|exact Hs]. lia.
Qed.

(** A unit's name is one component of a path, no option, and one line. *)
Lemma ValidateUnitName_spec name u :
  ValidateUnitName name = Ok u -> all_bytes unit_byte name = true /\ named name.
Proof.
  unfold ValidateUnitName, validSystemdUnitName. destruct (cut_last name ".") as [[pre type]|] eqn:Hc; [|done].
  apply cut_last_spec in Hc as [-> _]. case_bool_decide as Htype; [|done]. simpl.
  destruct (unit_tokens true pre) eqn:Hpre; [|done]. intros _.
  pose proof (unit_tokens_bytes _ _ Hpre) as Hb.
  assert (all_bytes unit_byte type = true) as Ht.
  { unfold unit_types in Htype. repeat (apply elem_of_cons in Htype as [->|Htype]; [reflexivity|]).
    by apply elem_of_nil in Htype. }
  assert (all_bytes unit_byte (pre ++ String "." type)%string = true) as Hall
    by (rewrite all_bytes_app, Hb; simpl; by rewrite Ht).
  split; [done|]. assert (has_byte slash (pre ++ String "." type)%string = false) as Hslash.
  { revert Hall. generalize (pre ++ String "." type)%string. intros s. induction s as [|c s IH]; [done|].
    cbn [all_bytes has_byte]. rewrite andb_true_iff. intros [Hc Hs]. rewrite IH by done. rewrite orb_false_r.
    by destruct (Ascii.eqb_spec slash c) as [<-|]. }
  assert (pre <> EmptyString) as Hne by (by intros ->).
  destruct pre as [|c pre]; [done|]. assert (c <> "."%char) as Hdot.
  { intros ->. by cbn in Hpre. }
  split; [split_and!; [done| |done]|]; intros Heq; by injection Heq.
Qed.

(** ** What the policy establishes *)

(** A path in a directory every user may write to. *)
Definition world_writable (p : string) : Prop :=
  IsAbs p = true /\ exists root c rest,
    root ∈ [["tmp"]; ["var"; "tmp"]; ["dev"; "shm"]] /\ components p = (root ++ c :: rest)%list.

Lemma HasPrefix_slash p t : HasPrefix (Clean p) (String slash t) = true -> IsAbs p = true.
Proof.
  unfold Clean. destruct (IsAbs p) eqn:Ha; [done|]. case_bool_decide as Hb; [by intros [r ?]%HasPrefix_app|].
  intros [r Hr]%HasPrefix_app. exfalso.
  assert (Forall (fun c => c <> EmptyString /\ has_byte slash c = false) (components p)) as Hc.
  { unfold components. rewrite Ha. apply Forall_reverse.
    assert (forall l stack, Forall (fun c => has_byte slash c = false) l ->
      Forall (fun c => c <> EmptyString /\ has_byte slash c = false) stack ->
      Forall (fun c => c <> EmptyString /\ has_byte slash c = false) (fold_left (step_into false) l stack)) as Hall.
    { intros l stack Hl. revert stack. induction Hl as [|c l Hc Hl IH]; intros stack Hs; [done|]. simpl.
      apply IH. unfold step_into. case_bool_decide; [done|]. case_bool_decide.
      - destruct Hs as [|top stack Htop Hs]; [constructor; [by split|constructor]|].
        case_bool_decide; [|done]. constructor; [by split|by constructor].
      - constructor; [|done]. naive_solver. }
    apply Hall; [apply Split_parts|constructor]. }
  destruct Hc as [|c l [Hne Hs] _]; [done|]. destruct c as [|d c]; [done|].
  assert (d = slash) as ->; [|by cbn in Hs].
  destruct l as [|x l]; simpl in Hr; by injection Hr as -> _.
Qed.

Lemma untrusted_spec p : untrusted p = true <-> world_writable p.
Proof.
  unfold untrusted, world_writable, untrustedExecPrefixes. simpl. rewrite orb_false_r, !orb_true_iff. split.
  - intros Hp. assert (IsAbs p = true) as Ha
      by (destruct Hp as [Hp|[Hp|Hp]]; by apply (HasPrefix_slash p) in Hp).
    split; [done|]. destruct Hp as [Hp|[Hp|Hp]].
    + apply (below_spec p ["tmp"]) in Hp as (c & rest & Hc); [|done|by repeat constructor|done].
      exists ["tmp"], c, rest. set_solver.
    + apply (below_spec p ["var"; "tmp"]) in Hp as (c & rest & Hc); [|done|by repeat constructor|done].
      exists ["var"; "tmp"], c, rest. set_solver.
    + apply (below_spec p ["dev"; "shm"]) in Hp as (c & rest & Hc); [|done|by repeat constructor|done].
      exists ["dev"; "shm"], c, rest. set_solver.
  - intros (Ha & root & c & rest & Hroot & Hc).
    assert (Forall named root /\ root <> []) as [Hn Hne].
    { repeat (apply elem_of_cons in Hroot as [->|Hroot]; [split; [by repeat constructor|done]|]).
      by apply elem_of_nil in Hroot. }
    assert (HasPrefix (Clean p) ("/" ++ Join root "/" ++ "/") = true) as Hb
      by (apply below_spec; eauto).
    repeat (apply elem_of_cons in Hroot as [->|Hroot]; [by auto|]). by apply elem_of_nil in Hroot.
Qed.

(** What a line may set: no command that a shell runs from its arguments or that is in a
    world-writable directory, no such file of variables, and no override of the dynamic
    linker. *)
Definition safe_directive (key value : string) : Prop :=
  (key ∈ execDirectives -> forall exe args, exec_command value = exe :: args ->
     ~ world_writable exe /\
     (Base exe ∈ shellInterpreters -> forall arg, arg ∈ args -> isShellCFlag arg = false)) /\
  (key = "environmentfile" -> ~ world_writable (environment_file value)) /\
  (key = "environment" -> forall pair, pair ∈ Fields value -> env_name pair ∉ dangerousEnvVars).

Lemma existsb_false {A} (f : A -> bool) l : existsb f l = false <-> forall x, x ∈ l -> f x = false.
Proof.
  induction l as [|x l IH]; simpl; [split; [by intros _ y ?%elem_of_nil|done]|].
  rewrite orb_false_iff, IH. split.
  - intros [Hx Hl] y [->|Hy]%elem_of_cons; auto.
  - intros Hall. split; [|intros y Hy]; apply Hall; [left|by right].
Qed.

Lemma not_untrusted p : untrusted p = false <-> ~ world_writable p.
Proof. rewrite <- untrusted_spec. by destruct (untrusted p). Qed.

Lemma validateExecLine_spec value :
  validateExecLine value = Ok tt <->
  forall exe args, exec_command value = exe :: args ->
    ~ world_writable exe /\ (Base exe ∈ shellInterpreters -> forall arg, arg ∈ args -> isShellCFlag arg = false).
Proof.
  unfold validateExecLine. destruct (exec_command value) as [|exe args].
  - split; [by intros _ exe args|done].
  - split.
    + intros Hv exe' args' [= <- <-]. case_bool_decide as Hsh; simpl in Hv.
      * destruct (existsb isShellCFlag args) eqn:He; [done|]. rewrite existsb_false in He.
        destruct (untrusted exe) eqn:Hu; [done|]. by apply not_untrusted in Hu.
      * destruct (untrusted exe) eqn:Hu; [done|]. by apply not_untrusted in Hu.
    + intros Hsafe. destruct (Hsafe exe args eq_refl) as [Hu Hsh]. apply not_untrusted in Hu. rewrite Hu.
      case_bool_decide as Hb; simpl; [|done]. by rewrite (proj2 (existsb_false _ _) (Hsh Hb)).
Qed.

Lemma validateLine_spec raw :
  validateLine raw = Ok tt <-> forall key value, directive raw = Some (key, value) -> safe_directive key value.
Proof.
  unfold validateLine. destruct (directive raw) as [[key value]|]; [|split; [by intros _ key value|done]].
  assert ((forall k v, Some (key, value) = Some (k, v) -> safe_directive k v) <-> safe_directive key value) as ->.
  { split; [intros Hall; by apply Hall|]. by intros Hs k v [= <- <-]. }
  unfold safe_directive, isExecDirective. case_bool_decide as Hexec.
  - rewrite validateExecLine_spec. split; [|by intros [? _]; auto]. intros Hv. split_and!; [done|..];
      intros ->; by vm_compute in Hexec; set_solver.
  - case_bool_decide as Hfile; [|case_bool_decide as Henv].
    + subst. destruct (untrusted _) eqn:Hu.
      * split; [done|]. intros (_ & Hn & _). apply untrusted_spec in Hu. by destruct (Hn eq_refl).
      * apply not_untrusted in Hu. split; [|done]. intros _. by split_and!.
    + subst. unfold validateEnvLine. destruct (existsb _ _) eqn:He.
      * split; [done|]. intros (_ & _ & Hn). apply existsb_exists in He as (pair & Hp & Hd).
        apply bool_decide_eq_true in Hd. by apply (Hn eq_refl pair) in Hd; [|by apply list_elem_of_In].
      * split; [|done]. intros _. split_and!; [done..|]. intros _ pair Hp. rewrite existsb_false in He.
        specialize (He pair Hp). by apply bool_decide_eq_false in He.
    + split; [|done]. intros _. by split_and!.
Qed.

Lemma validateUnitContent_ok content :
  validateUnitContent content = Ok tt <->
  forall raw key value, raw ∈ joinContinuationLines content -> directive raw = Some (key, value) ->
    safe_directive key value.
Proof.
  unfold validateUnitContent. induction (joinContinuationLines content) as [|raw l IH]; simpl.
  { split; [by intros _ raw key value ?%elem_of_nil|done]. }
  unfold mbind, result_bind. destruct (validateLine raw) as [[]|e] eqn:Hv.
  - rewrite IH. pose proof (proj1 (validateLine_spec raw) Hv) as Hraw. split.
    + intros Hl raw' key value [->|Hr]%elem_of_cons; [apply Hraw|by apply Hl].
    + intros Hl raw' key value Hr. apply Hl. by right.
  - split; [done|]. intros Hl. assert (validateLine raw = Ok tt) as Hok; [|congruence].
    apply validateLine_spec. intros key value. apply Hl. left.
Qed.
