(* ===== verification/Files.v ===== *)
(** * Files ([sdk/sys/fs])

    The guards on paths, modes and owners, and the operations on files: of a root process
    ([Direct]) through the system calls of [OS], and otherwise through commands run with
    privileges.  A file is written next to its place and renamed into it. *)

From Stdlib Require Import Ascii.
From S2P Require Import Prelude Engine Pair Strs Text Paths Exec Packages.

Open Scope string_scope.
Open Scope Z_scope.

(** ** Errors *)

Definition ErrInvalidPath : error := ErrVar "invalid filesystem path".
Definition ErrUnsafeParentDir : error := ErrVar "parent directory is writable by non-root".
Definition ErrUnsafeMode : error := ErrVar "setuid/setgid mode is not permitted".
Definition ErrProtectedTarget : error :=
  ErrVar "recursive ownership change of a protected system tree is not permitted".
Definition ErrExists : error := ErrVar "destination exists".
Definition os_ErrNotExist : error := ErrVar "file does not exist".

(** ** Paths *)

Definition NUL : ascii := ascii_of_nat 0.

Definition ValidatePath (path : string) : result unit :=
  if bool_decide (path = EmptyString) then Err (ErrWrap "path is empty" ErrInvalidPath)
  else if has_byte NUL path then Err (ErrWrap "path contains NUL byte" ErrInvalidPath)
  else if HasPrefix path "-" then Err (ErrWrap "path begins with '-'" ErrInvalidPath)
  else Ok tt.

Definition dangerousPaths : list string :=
  ["/"; "/boot"; "/dev"; "/etc"; "/proc"; "/run"; "/sys"; "/usr"; "/var"; "/bin"; "/sbin"; "/lib"; "/lib64"; "/home";
   "/root"; "/lib32"; "/libx32"; "/media"; "/mnt"; "/opt"; "/srv"; "/tmp"; "/snap"].

Definition protectedPrefixRoots : list string :=
  ["/etc"; "/boot"; "/usr"; "/home"; "/root"; "/var/lib"; "/bin"; "/sbin"; "/lib"; "/lib64"; "/lib32"; "/libx32";
   "/proc"; "/sys"; "/dev"; "/run"].

Definition protectedExactPaths : list string := ["/"; "/var"].

(** ** Modes and owners *)

(** An [os.FileMode]: the permissions and the bits 23, 22 and 20. *)
Definition ModeSetuid : Z := 8388608.
Definition ModeSetgid : Z := 4194304.
Definition ModeSticky : Z := 1048576.

Definition has_bit (m bit : Z) : bool := negb (Z.land m bit =? 0).

Definition validateMode (m : Z) : result unit :=
  if has_bit m (Z.lor ModeSetuid ModeSetgid) then Err (ErrWrap "mode requests setuid/setgid" ErrUnsafeMode) else Ok tt.

Definition Perm (m : Z) : Z := Z.land m 511.

Definition octal_digit (n : Z) : ascii := ascii_of_N (48 + Z.to_N (n mod 8)).

(** [%04o] of a number below 8^4. *)
Definition octal (n : Z) : string :=
  String (octal_digit (n / 512)) (String (octal_digit (n / 64)) (String (octal_digit (n / 8))
    (String (octal_digit n) EmptyString))).

Definition modeArg (m : Z) : string :=
  octal (Z.lor (Z.lor (Z.lor (Perm m) (if has_bit m ModeSetuid then 2048 else 0))
                 (if has_bit m ModeSetgid then 1024 else 0)) (if has_bit m ModeSticky then 512 else 0)).

Example modeArg_ex : modeArg <$> [420; 384; ModeSticky + 511] = ["0644"; "0600"; "1777"].
Proof. reflexivity. Qed.

Definition Ownership (owner group : string) : string :=
  if bool_decide (owner = EmptyString) && bool_decide (group = EmptyString) then EmptyString
  else if bool_decide (group = EmptyString) then owner
  else if bool_decide (owner = EmptyString) then ":" ++ group
  else owner ++ ":" ++ group.

Record WriteOptions := { Write_Mode : Z; Write_Owner : string; Write_Group : string; Write_Backup : string }.

Record MkdirOptions := { Mkdir_Mode : Z; Mkdir_Owner : string; Mkdir_Group : string; Mkdir_Recursive : bool }.

(** ** The system calls *)

(** What [renameat2] without replacing answers. *)
Inductive rename_answer := Renamed | AlreadyThere | NotSupported | RenameFailed (err : error).

(** What [os.Stat] tells. *)
Record FileStat := { Stat_Uid : Z; Stat_Gid : Z; Stat_Mode : Z }.

Record DirEntry := { Entry_Name : string; Entry_IsDir : bool }.

(** The operating system: a call either answers or fails with its error. *)
Class OS (D : Type) := {
  (** An open file, whatever its path leads to by now. *)
  Handle : Type;
  Getwd : M D string;
  (** A new file in the directory, whose name begins with the text. *)
  CreateTemp : string -> string -> M D string;
  (** Opening without following a link; [None] when there is no such file. *)
  OpenNoFollow : string -> M D (option Handle);
  OpenDirNoFollow : string -> M D Handle;
  FdIsRegular : Handle -> M D bool;
  FdRead : Handle -> M D string;
  FdWrite : Handle -> string -> M D unit;
  FdChmod : Handle -> Z -> M D unit;
  FdChown : Handle -> Z -> Z -> M D unit;
  FdSync : Handle -> M D unit;
  FdClose : Handle -> M D unit;
  (** Opening a directory, and writing it to the disk. *)
  SyncDir : string -> M D unit;
  Unlink : string -> M D unit;
  Rename : string -> string -> M D unit;
  RenameNoReplace : string -> string -> M D rename_answer;
  (** Whether there is something at a path, a link itself included. *)
  Lstat : string -> M D bool;
  os_Stat : string -> M D (option FileStat);
  os_ReadFile : string -> M D string;
  os_ReadDir : string -> M D (list DirEntry);
  EvalSymlinks : string -> M D string;
  LookupUser : string -> M D string;
  LookupGroup : string -> M D string;
  LookupId : Z -> M D string;
  LookupGroupId : Z -> M D string;
}.

Definition wrapped {D A} (text : string) (m : M D A) : M D A := on_error m (fun err => fail (ErrWrap text err)).

Section direct.
Context {D : Type} `{!OS D}.

(** ** Protected paths ([protected.go]) *)

(** [filepath.Abs] of a path that is not absolute is below the working directory. *)
Definition absolute (clean : string) : M D (option string) :=
  if IsAbs clean then mret (Some clean)
  else cwd ← attempt Getwd; mret match cwd with Ok dir => Some (Clean (dir ++ "/" ++ clean)) | Err _ => None end.

Definition IsProtectedPath (path : string) : M D bool :=
  abs ← absolute (Clean path);
  mret match abs with Some clean => bool_decide (clean ∈ dangerousPaths) | None => true end.

Definition under_root (clean root : string) : bool := bool_decide (clean = root) || HasPrefix clean (root ++ "/").

Definition protected_clean (clean : string) : bool :=
  bool_decide (clean ∈ protectedExactPaths) || existsb (under_root clean) protectedPrefixRoots.

Definition IsUnderProtectedPrefix (path : string) : M D bool :=
  abs ← absolute (Clean path);
  mret match abs with Some clean => protected_clean clean | None => true end.

(** ** Resolving a path ([validate.go]) *)

(** The nearest parent that is there, and what is missing below it; a directory's text gets
    shorter with every step. *)
Fixpoint existing_parent (fuel : nat) (dir missingTail : string) : M D (string * string) :=
  match fuel with
  | O => mret ("/", missingTail)
  | S fuel =>
      if bool_decide (dir = "/" \/ dir = ".") then mret ("/", missingTail)
      else
        st ← wrapped "cannot stat" (os_Stat dir);
        match (st : option FileStat) with
        | Some _ => mret (dir, missingTail)
        | None => existing_parent fuel (Dir dir)
                    (if bool_decide (missingTail = EmptyString) then Clean (Base dir)
                     else Clean (Base dir ++ "/" ++ missingTail))
        end
  end.

Definition ResolveAndValidatePath (path : string) : M D string :=
  let clean := Clean path in
  if negb (IsAbs clean) then fail (ErrNew "path must be absolute")
  else
    found ← existing_parent (String.length (Dir clean)) (Dir clean) EmptyString;
    let '(existingParent, missingTail) := (found : string * string) in
    resolved ← wrapped "resolve symlinks" (EvalSymlinks existingParent);
    mret (if bool_decide (missingTail = EmptyString) then Clean (resolved ++ "/" ++ Base clean)
          else Clean (resolved ++ "/" ++ missingTail ++ "/" ++ Base clean)).

(** ** Open files ([safe_fd_unix.go], [ownership_unix.go]) *)

(** [defer f.Close()]. *)
Definition closing {A} (h : Handle) (m : M D A) : M D A :=
  r ← attempt m; _ ← perform (FdClose h); lift r.

Definition OpenRealDir (path : string) : M D Handle := wrapped "open real dir" (OpenDirNoFollow path).

Definition SetDirPermissionsNoFollow (path : string) (mode uid gid : Z) : M D unit :=
  f ← OpenRealDir path;
  closing f (
    _ ← wrapped "fchmod dir" (FdChmod f mode);
    if negb (uid =? -1) || negb (gid =? -1) then wrapped "fchown dir" (FdChown f uid gid) else mret tt).

Definition resolveID (name : string) (lookup : string -> M D string) : M D Z :=
  found ← attempt (lookup name);
  match found with
  | Ok id => let (n, ok) := ParseInt id in if ok : bool then mret n else fail (ErrNew "parse id")
  | Err _ => let (n, ok) := ParseInt name in
             if ok : bool then mret n else fail (ErrNew "unknown name and not a numeric id")
  end.

Definition ResolveOwnership (owner group : string) : M D (Z * Z) :=
  uid ← (if bool_decide (owner = EmptyString) then mret (-1) else wrapped "resolve owner" (resolveID owner LookupUser));
  gid ← (if bool_decide (group = EmptyString) then mret (-1) else wrapped "resolve group" (resolveID group LookupGroup));
  mret (uid, gid).

Definition FchownNoFollow (path : string) (uid gid : Z) : M D unit :=
  opened ← wrapped "open without following symlinks" (OpenNoFollow path);
  match (opened : option Handle) with
  | None => fail (ErrWrap "open without following symlinks" os_ErrNotExist)
  | Some f =>
      closing f (
        regular ← wrapped "stat" (FdIsRegular f);
        if negb regular then fail (ErrNew "refusing to chown non-regular file")
        else wrapped "fchown" (FdChown f uid gid))
  end.

Definition ok_or {A} (a : A) (r : result A) : A := match r with Ok a => a | Err _ => a end.

(** Every failure leaves a name empty. *)
Definition GetOwnership (path : string) : M D (string * string) :=
  st ← attempt (os_Stat path);
  match (st : result (option FileStat)) with
  | Ok (Some st) =>
      owner ← attempt (LookupId (Stat_Uid st));
      group ← attempt (LookupGroupId (Stat_Gid st));
      mret (ok_or EmptyString owner, ok_or EmptyString group)
  | _ => mret (EmptyString, EmptyString)
  end.

(** ** Replacing a file ([safe_replace.go], [safe_rename_linux.go]) *)

(** A step on the temporary file: when it fails the file is closed and removed. *)
Definition or_discard {A} (f : Handle) (tmp text : string) (m : M D A) : M D A :=
  on_error m (fun err => _ ← perform (FdClose f); _ ← perform (Unlink tmp); fail (ErrWrap text err)).

Definition or_remove {A} (tmp : string) (m : M D A) : M D A :=
  on_error m (fun err => _ ← perform (Unlink tmp); fail err).

Definition safeRename (oldPath newPath : string) (removeExisting : bool) : M D unit :=
  if removeExisting then wrapped "rename" (Rename oldPath newPath)
  else
    answer ← RenameNoReplace oldPath newPath;
    match answer with
    | Renamed => mret tt
    | AlreadyThere => fail (ErrWrap "rename" ErrExists)
    | RenameFailed err => fail (ErrWrap "renameat2" err)
    | NotSupported =>
        there ← wrapped "lstat" (Lstat newPath);
        if (there : bool) then fail (ErrWrap "rename" ErrExists) else wrapped "rename" (Rename oldPath newPath)
    end.

(** The temporary file, opened again and filled. *)
Definition fill_temp (tmp data : string) (perm : Z) : M D unit :=
  f ← or_remove tmp (wrapped "reopen temp with O_NOFOLLOW"
    (opened ← OpenNoFollow tmp; match (opened : option Handle) with Some f => mret f | None => fail os_ErrNotExist end));
  _ ← or_discard f tmp "write temp" (FdWrite f data);
  _ ← or_discard f tmp "chmod temp" (FdChmod f perm);
  _ ← or_discard f tmp "fsync temp" (FdSync f);
  or_remove tmp (wrapped "close temp" (FdClose f)).

Definition safeReplaceFile (path data : string) (perm : Z) (removeExisting : bool) : M D unit :=
  let dir := Dir path in
  tmp ← wrapped "create temp" (CreateTemp dir ("." ++ Base path ++ ".tmp-"));
  _ ← fill_temp tmp data perm;
  _ ← or_remove tmp (safeRename tmp path removeExisting);
  perform (SyncDir dir).

(** The regular file's content, the file closed again. *)
Definition read_current (f : Handle) : M D string :=
  regular ← on_error (FdIsRegular f) (fun err => _ ← perform (FdClose f); fail (ErrWrap "stat current" err));
  if negb regular then _ ← perform (FdClose f); fail (ErrNew "refusing to back up non-regular file")
  else
    current ← on_error (FdRead f) (fun err => _ ← perform (FdClose f); fail (ErrWrap "read current for backup" err));
    _ ← wrapped "close current" (FdClose f);
    mret current.

Definition safeBackupAndReplace (path backupPath newContent : string) (perm : Z) (removeExistingBackup : bool)
    : M D unit :=
  opened ← wrapped "open current for backup" (OpenNoFollow path);
  match (opened : option Handle) with
  | None => safeReplaceFile path newContent perm true
  | Some f =>
      current ← read_current f;
      _ ← wrapped "backup current" (safeReplaceFile backupPath current perm removeExistingBackup);
      safeReplaceFile path newContent perm true
  end.

(** ** Writing as root ([write.go]) *)

Definition default_perm (mode : Z) : Z := if mode =? 0 then 420 else mode.

Definition set_ownership (path : string) (opts : WriteOptions) : M D unit :=
  if bool_decide (Write_Owner opts = EmptyString) && bool_decide (Write_Group opts = EmptyString) then mret tt
  else
    ids ← ResolveOwnership (Write_Owner opts) (Write_Group opts);
    wrapped "set ownership" (FchownNoFollow path (fst (ids : Z * Z)) ids.2).

Definition writeDirect (path data : string) (opts : WriteOptions) : M D unit :=
  let perm := default_perm (Write_Mode opts) in
  _ ← wrapped "write file"
    (if bool_decide (Write_Backup opts = EmptyString) then safeReplaceFile path data perm true
     else safeBackupAndReplace path (Write_Backup opts) data perm true);
  set_ownership path opts.

Definition writeExclusiveDirect (path data : string) (opts : WriteOptions) : M D unit :=
  _ ← on_error (safeReplaceFile path data (default_perm (Write_Mode opts)) false)
    (fun err => fail (ErrWrap "write file" (if errors_is ErrExists err then ErrExists else err)));
  set_ownership path opts.
End direct.

(** ** The manager ([fs.go], [write.go], [read.go], [dir.go], [readdir.go], [mount.go]) *)

(** A script of the shell, in which a backquote stands for a quotation mark. *)
Definition script (text : string) : string := map_bytes (fun c => if Ascii.eqb c "`" then "034"%char else c) text.

Definition escalatedWriteExclusiveScript : string := script "set -eu
target=$1; mode=$2; owner=$3
dir=$(dirname -- `$target`)
tmp=$(mktemp `$dir/.cadestro-XXXXXXXXXX`)
trap 'rm -f -- `$tmp`' EXIT
cat > `$tmp`
chmod `$mode` -- `$tmp`
if [ -n `$owner` ]; then
	chown `$owner` -- `$tmp`
fi
if ln -- `$tmp` `$target` 2>/dev/null; then
	exit 0
fi
exit 3
".

Definition escalatedWriteScript : string := script "set -eu
target=$1; mode=$2; owner=$3; backup=$4
dir=$(dirname -- `$target`)
if [ -n `$backup` ] && [ -e `$target` ]; then
	cp -f -- `$target` `$backup`
fi
tmp=$(mktemp `$dir/.cadestro-XXXXXXXXXX`)
trap 'rm -f -- `$tmp`' EXIT
cat > `$tmp`
chmod `$mode` -- `$tmp`
if [ -n `$owner` ]; then
	chown `$owner` -- `$tmp`
fi
mv -T -- `$tmp` `$target`
trap - EXIT
".

Definition exclusiveExistsExit : Z := 3.

Record MountInfo := { Mount_Source : string; Mount_Target : string; Mount_FSType : string; Mount_ReadOnly : bool }.

Definition isENOENTStderr (stderr : string) : bool := HasSuffix (TrimSpace stderr) "No such file or directory".

Definition mountOptionsReadOnly (options : string) : bool := bool_decide ("ro" ∈ Split options ",").

Definition mount_line (line : string) : option MountInfo :=
  match Fields line with
  | source :: target :: fstype :: options :: _ =>
      Some {| Mount_Source := source; Mount_Target := target; Mount_FSType := fstype;
              Mount_ReadOnly := mountOptionsReadOnly options |}
  | _ => None
  end.

(** [type/name], neither of them empty. *)
Definition find_line (line : string) : option DirEntry :=
  match Cut line "/" with
  | (type, name, true) =>
      if bool_decide (type = EmptyString) || bool_decide (name = EmptyString) then None
      else Some {| Entry_Name := name; Entry_IsDir := bool_decide (type = "d") |}
  | _ => None
  end.

Definition output_lines (stdout : string) : list string :=
  List.filter (fun line => negb (bool_decide (line = EmptyString))) (lines (TrimRight stdout (Ascii.eqb line_feed))).

Section manager.
Context {D : Type} `{!OS D, !Runner D}.

Definition direct : bool := bool_decide (Backend = Direct).

Definition cmdError (name : string) (res : ExecResult) : M D unit :=
  if Exec_ExitCode res =? 0 then mret tt else fail (CommandError name (Exec_ExitCode res) (Exec_Stderr res)).

(** [(m *Manager) runPriv], [runPrivStdin] and [runQuery], with the error of running. *)
Definition run_as (escalate : bool) (ctx : Ctx) (stdin : option string) (name : string) (args : list string)
    : M D ExecResult :=
  run ← Run ctx (command escalate [] stdin name args);
  match snd (run : outcome) with Some err => fail err | None => mret run.1 end.

Definition stdin_of (data : string) : option string := if bool_decide (data = EmptyString) then None else Some data.

Definition runChecked (ctx : Ctx) (name : string) (args : list string) : M D unit :=
  res ← run_as true ctx None name args; cmdError name res.

(** A directory in which nobody but root can plant a link. *)
Definition escalatedParentSafe (dir : string) : M D unit :=
  st ← wrapped "escalated write: stat parent" (os_Stat dir);
  match (st : option FileStat) with
  | None => fail (ErrWrap "escalated write: stat parent" os_ErrNotExist)
  | Some st =>
      let writable := has_bit (Perm (Stat_Mode st)) 18 in
      if negb (Stat_Uid st =? 0) || (writable && negb (has_bit (Stat_Mode st) ModeSticky))
      then fail (ErrWrap "a non-root user could plant a symlink here" ErrUnsafeParentDir) else mret tt
  end.

Definition writeEscalated (ctx : Ctx) (path data : string) (opts : WriteOptions) : M D unit :=
  _ ← escalatedParentSafe (Dir path);
  wrapped "write file" (
    res ← run_as true ctx (stdin_of data) "sh"
      ["-c"; escalatedWriteScript; "sh"; path; modeArg (default_perm (Write_Mode opts));
       Ownership (Write_Owner opts) (Write_Group opts); Write_Backup opts];
    cmdError "write file" res).

Definition writeExclusiveEscalated (ctx : Ctx) (path data : string) (opts : WriteOptions) : M D unit :=
  _ ← escalatedParentSafe (Dir path);
  wrapped "write file" (
    res ← run_as true ctx (stdin_of data) "sh"
      ["-c"; escalatedWriteExclusiveScript; "sh"; path; modeArg (default_perm (Write_Mode opts));
       Ownership (Write_Owner opts) (Write_Group opts)];
    if Exec_ExitCode res =? exclusiveExistsExit then fail ErrExists else cmdError "write file" res).

Definition not_cancelled (ctx : Ctx) : M D unit :=
  err ← ctx_Err ctx; match err with Some err => fail err | None => mret tt end.

Definition WriteFile (ctx : Ctx) (path data : string) (opts : WriteOptions) : M D unit :=
  _ ← not_cancelled ctx;
  _ ← lift (ValidatePath path);
  _ ← lift (validateMode (Write_Mode opts));
  _ ← (if bool_decide (Write_Backup opts = EmptyString) then mret tt
       else
         _ ← lift (ValidatePath (Write_Backup opts));
         if bool_decide (Clean (Write_Backup opts) = Clean path)
         then fail (ErrWrap "backup path must differ from the target path" ErrInvalidPath) else mret tt);
  if direct then writeDirect path data opts else writeEscalated ctx path data opts.

Definition WriteFileExclusive (ctx : Ctx) (path data : string) (opts : WriteOptions) : M D unit :=
  _ ← not_cancelled ctx;
  _ ← lift (ValidatePath path);
  _ ← lift (validateMode (Write_Mode opts));
  if negb (bool_decide (Write_Backup opts = EmptyString))
  then fail (ErrWrap "WriteFileExclusive never replaces existing content" ErrInvalidPath)
  else if direct then writeExclusiveDirect path data opts else writeExclusiveEscalated ctx path data opts.

Definition SetMode (ctx : Ctx) (path : string) (mode : Z) : M D unit :=
  _ ← lift (ValidatePath path);
  _ ← lift (validateMode mode);
  runChecked ctx "chmod" [modeArg mode; "--"; path].

Definition SetOwnership (ctx : Ctx) (path owner group : string) : M D unit :=
  let ownership := Ownership owner group in
  if bool_decide (ownership = EmptyString) then mret tt
  else _ ← lift (ValidatePath path); runChecked ctx "chown" ["--"; ownership; path].

Definition SetOwnershipRecursive (ctx : Ctx) (path owner group : string) : M D unit :=
  let ownership := Ownership owner group in
  if bool_decide (ownership = EmptyString) then mret tt
  else
    _ ← lift (ValidatePath path);
    protected ← IsProtectedPath path;
    if (protected : bool) then fail (ErrWrap "recursive" ErrProtectedTarget)
    else runChecked ctx "chown" ["-R"; "--"; ownership; path].

(** The mode and the owner a caller asked for, each if it did. *)
Definition apply_mode (ctx : Ctx) (path : string) (mode : Z) : M D unit :=
  if mode =? 0 then mret tt else SetMode ctx path mode.

Definition Copy (ctx : Ctx) (src dst : string) (opts : WriteOptions) : M D unit :=
  _ ← lift (ValidatePath src);
  _ ← lift (ValidatePath dst);
  _ ← lift (validateMode (Write_Mode opts));
  _ ← wrapped "copy file" (runChecked ctx "cp" ["--"; src; dst]);
  _ ← apply_mode ctx dst (Write_Mode opts);
  SetOwnership ctx dst (Write_Owner opts) (Write_Group opts).

Definition CopyTree (ctx : Ctx) (src dst : string) (opts : WriteOptions) : M D unit :=
  _ ← lift (ValidatePath src);
  _ ← lift (ValidatePath dst);
  _ ← lift (validateMode (Write_Mode opts));
  _ ← wrapped "copy tree" (runChecked ctx "cp" ["-a"; "-T"; "--"; src; dst]);
  _ ← apply_mode ctx dst (Write_Mode opts);
  SetOwnershipRecursive ctx dst (Write_Owner opts) (Write_Group opts).

Definition Mkdir (ctx : Ctx) (path : string) (opts : MkdirOptions) : M D unit :=
  _ ← lift (ValidatePath path);
  _ ← runChecked ctx "mkdir" ((if Mkdir_Recursive opts then ["-p"] else []) ++ ["--"; path])%list;
  _ ← apply_mode ctx path (Mkdir_Mode opts);
  SetOwnership ctx path (Mkdir_Owner opts) (Mkdir_Group opts).

Definition Remove (ctx : Ctx) (path : string) : M D unit :=
  _ ← lift (ValidatePath path);
  runChecked ctx "rm" ["-f"; "--"; path].

Definition ReadFile (ctx : Ctx) (path : string) : M D string :=
  _ ← lift (ValidatePath path);
  if direct then os_ReadFile path
  else
    res ← run_as true ctx None "cat" ["--"; path];
    if Exec_ExitCode res =? 0 then mret (Exec_Stdout res)
    else if isENOENTStderr (Exec_Stderr res) then fail (ErrWrap "read" os_ErrNotExist)
    else _ ← cmdError "cat" res; mret EmptyString.

Definition Exists (ctx : Ctx) (path : string) : M D bool :=
  _ ← lift (ValidatePath path);
  if direct then st ← os_Stat path; mret (bool_decide (is_Some (st : option FileStat)))
  else
    res ← run_as true ctx None "test" ["-e"; path];
    if Exec_ExitCode res =? 0 then mret true
    else if Exec_ExitCode res =? 1 then mret false
    else _ ← cmdError "test" res; mret false.

Definition readDirEscalated (ctx : Ctx) (path : string) : M D (list DirEntry) :=
  res ← run_as true ctx None "find" [path ++ "/"; "-maxdepth"; "1"; "-mindepth"; "1"; "-printf"; "%y/%f\n"];
  if Exec_ExitCode res =? 0 then mret (omap find_line (output_lines (Exec_Stdout res)))
  else if isENOENTStderr (Exec_Stderr res) then fail (ErrWrap "read dir" os_ErrNotExist)
  else _ ← cmdError "find" res; mret [].

Definition ReadDir (ctx : Ctx) (path : string) : M D (list DirEntry) :=
  _ ← lift (ValidatePath path);
  if direct then os_ReadDir path else readDirEscalated ctx path.

Definition IsReadOnly (ctx : Ctx) (path : string) : M D bool :=
  _ ← lift (ValidatePath path);
  res ← run_as false ctx None "findmnt" ["-n"; "-o"; "OPTIONS"; "--target"; path];
  _ ← cmdError "findmnt" res;
  mret (mountOptionsReadOnly (TrimSpace (Exec_Stdout res))).

Definition ListMounts (ctx : Ctx) : M D (list MountInfo) :=
  res ← run_as false ctx None "findmnt" ["-rn"; "-o"; "SOURCE,TARGET,FSTYPE,OPTIONS"];
  _ ← cmdError "findmnt" res;
  mret (omap mount_line (output_lines (Exec_Stdout res))).

Definition RemountRW (ctx : Ctx) (path : string) : M D unit :=
  _ ← lift (ValidatePath path);
  wrapped "remount read-write" (runChecked ctx "mount" ["-o"; "remount,rw"; "--"; path]).
End manager.
