(* ===== verification/FilesFacts.v ===== *)
(** * What the files promise

    The documented behaviour of the system calls on a tree of files without links, and
    the promise of the manager for a root process: a file that is written has its old
    content or the new one at every path through the calls, whichever of them fail. *)

From Stdlib Require Import Ascii.
From S2P Require Import Prelude Engine Pair Strs Text Words Paths Exec Packages Units Files.

Open Scope string_scope.
Open Scope Z_scope.

(** The directory entries, by the components of their path, the contents of the inodes, and
    what is not files. *)
Record FileHost (X : Type) := {
  Host_Entries : gmap (list string) N;
  Host_Contents : gmap N string;
  Host_Rest : X;
}.
Arguments Host_Entries {X} f.
Arguments Host_Contents {X} f.
Arguments Host_Rest {X} f.

Section host.
Context {X : Type}.
Implicit Types (s t : FileHost X) (k : list string) (n : N).

Definition with_entries (f : gmap (list string) N -> gmap (list string) N) s : FileHost X :=
  {| Host_Entries := f (Host_Entries s); Host_Contents := Host_Contents s; Host_Rest := Host_Rest s |}.

Definition with_contents (f : gmap N string -> gmap N string) s : FileHost X :=
  {| Host_Entries := Host_Entries s; Host_Contents := f (Host_Contents s); Host_Rest := Host_Rest s |}.

Definition content s k : option string := Host_Entries s !! k ≫= fun n => Host_Contents s !! n.

(** Neither the name nor the inode is in use. *)
Definition unused s k n : Prop :=
  Host_Entries s !! k = None /\ Host_Contents s !! n = None /\ forall k', Host_Entries s !! k' <> Some n.

(** A new file. *)
Definition with_temp s k n (c : string) : FileHost X := with_contents <[n := c]> (with_entries <[k := n]> s).

(** Everything there is under another name stays as it is. *)
Definition same_but (changed : list (list string)) s t : Prop :=
  Host_Rest t = Host_Rest s /\
  forall k, k ∉ changed -> is_Some (Host_Entries s !! k) ->
    Host_Entries t !! k = Host_Entries s !! k /\ content t k = content s k.

Lemma same_but_refl changed s : same_but changed s s.
Proof. by split. Qed.

Lemma same_but_trans a b s t u : same_but a s t -> same_but b t u -> same_but (a ++ b)%list s u.
Proof.
  intros [Hr Hs] [Hr' Ht]. split; [congruence|]. intros k Hk Hsome.
  apply not_elem_of_app in Hk as [Ha Hb]. destruct (Hs k Ha Hsome) as [He Hc].
  destruct (Ht k Hb) as [He' Hc']; [by rewrite He|]. split; congruence.
Qed.

Lemma same_but_weaken a b s t : a ⊆ b -> same_but a s t -> same_but b s t.
Proof. intros Hab [Hr Hs]. split; [done|]. intros k Hk. apply Hs. set_solver. Qed.

Lemma same_but_nil changed s t : same_but [] s t -> same_but changed s t.
Proof. apply same_but_weaken, list_subseteq_nil. Qed.

(** The temporary file is there, or only what was in its inode. *)
Definition scratch s k n t : Prop :=
  exists c, t = with_temp s k n c \/ t = with_contents <[n := c]> s.

Lemma content_other s n c k :
  (forall k', Host_Entries s !! k' <> Some n) -> content (with_contents <[n := c]> s) k = content s k.
Proof.
  intros Hn. unfold content. simpl. destruct (Host_Entries s !! k) as [m|] eqn:Hm; [|done]. simpl.
  apply lookup_insert_ne. intros ->. by apply (Hn k).
Qed.

Lemma content_temp_ne s k n c k' :
  (forall k', Host_Entries s !! k' <> Some n) -> k' <> k -> content (with_temp s k n c) k' = content s k'.
Proof.
  intros Hn Hk. rewrite <- (content_other s n c k') by done. unfold content. simpl. by rewrite lookup_insert_ne.
Qed.

Lemma scratch_same s k n t :
  unused s k n -> scratch s k n t -> same_but [] s t /\ forall k', k' <> k -> content t k' = content s k'.
Proof.
  intros (Hk & _ & Hn) [c [-> | ->]]; (split; [split; [done|]|]).
  - intros k' _ Hsome. assert (k' <> k) by (intros ->; rewrite Hk in Hsome; by destruct Hsome).
    rewrite content_temp_ne by done. split; [|done]. simpl. by rewrite lookup_insert_ne.
  - intros k' Hne. by apply content_temp_ne.
  - intros k' _ _. split; [done|]. by apply content_other.
  - intros k' _. by apply content_other.
Qed.

(** The temporary file under its name. *)
Definition renamed s a b n : FileHost X := with_entries (fun e => <[b := n]> (delete a e)) s.

Lemma renamed_temp s k n c b :
  unused s k n -> b <> k ->
  same_but [b] s (renamed (with_temp s k n c) k b n) /\ content (renamed (with_temp s k n c) k b n) b = Some c.
Proof.
  intros (Hk & _ & Hn) Hb. split; [split; [done|]|].
  - intros k' Hk' Hsome. apply not_elem_of_cons in Hk' as [Hk' _].
    assert (k' <> k) by (intros ->; rewrite Hk in Hsome; by destruct Hsome).
    assert (Host_Entries (renamed (with_temp s k n c) k b n) !! k' = Host_Entries s !! k') as He.
    { simpl. by rewrite lookup_insert_ne, lookup_delete_ne, lookup_insert_ne. }
    split; [done|]. rewrite <- (content_other s n c k') by done. unfold content. by rewrite He.
  - unfold content. simpl. by rewrite lookup_insert_eq; simpl; rewrite lookup_insert_eq.
Qed.
End host.

(** ** The system calls *)

(** A call without an effect on the files or the rest. *)
Definition silent {D X A} (observe : D -> X) (m : M D A) : Prop := forall s, preserves (fun d => observe d = s) m.

(** The entries after a file has been renamed over whatever had the name, other than a link
    to the same file. *)
Definition moves {X} (s t : FileHost X) (a b : list string) : Prop :=
  exists n, Host_Entries s !! a = Some n /\ (Host_Entries s !! b <> Some n -> t = renamed s a b n).

Class OSLaws (D X : Type) `{!OS D} := {
  observe : D -> FileHost X;
  node : Handle -> N;
  CreateTemp_spec : forall dir prefix s, IsAbs dir = true ->
    triple (fun d => observe d = s) (CreateTemp dir prefix)
      (fun tmp d => exists suffix n, IsAbs tmp = true /\ components tmp = (components dir ++ [(prefix ++ suffix)%string])%list /\
         unused s (components tmp) n /\ observe d = with_temp s (components tmp) n EmptyString)
      (fun _ d => observe d = s);
  OpenNoFollow_spec : forall path s, IsAbs path = true ->
    triple (fun d => observe d = s) (OpenNoFollow path)
      (fun opened d => Host_Entries s !! components path = node <$> opened /\ observe d = s)
      (fun _ d => observe d = s);
  FdRead_spec : forall h s,
    triple (fun d => observe d = s) (FdRead h)
      (fun c d => Host_Contents s !! node h = Some c /\ observe d = s) (fun _ d => observe d = s);
  (** Written from the start of the file; cut short when it fails. *)
  FdWrite_spec : forall h data s, Host_Contents s !! node h = Some EmptyString ->
    triple (fun d => observe d = s) (FdWrite h data)
      (fun _ d => observe d = with_contents <[node h := data]> s)
      (fun _ d => exists c, observe d = with_contents <[node h := c]> s);
  Unlink_spec : forall path s, IsAbs path = true ->
    triple (fun d => observe d = s) (Unlink path)
      (fun _ d => observe d = with_entries (delete (components path)) s) (fun _ d => observe d = s);
  Rename_spec : forall a b s, IsAbs a = true -> IsAbs b = true ->
    triple (fun d => observe d = s) (Rename a b)
      (fun _ d => moves s (observe d) (components a) (components b)) (fun _ d => observe d = s);
  RenameNoReplace_spec : forall a b s, IsAbs a = true -> IsAbs b = true ->
    triple (fun d => observe d = s) (RenameNoReplace a b)
      (fun answer d => match answer with
         | Renamed => Host_Entries s !! components b = None /\ moves s (observe d) (components a) (components b)
         | _ => observe d = s
         end)
      (fun _ d => observe d = s);
  Lstat_spec : forall path s, IsAbs path = true ->
    triple (fun d => observe d = s) (Lstat path)
      (fun there d => there = bool_decide (is_Some (Host_Entries s !! components path)) /\ observe d = s)
      (fun _ d => observe d = s);
  ReadFile_spec : forall path s, IsAbs path = true ->
    triple (fun d => observe d = s) (os_ReadFile path)
      (fun c d => content s (components path) = Some c /\ observe d = s)
      (fun err d => (errors_is os_ErrNotExist err = true -> Host_Entries s !! components path = None) /\ observe d = s);
  FdIsRegular_silent : forall h, silent observe (FdIsRegular h);
  FdChmod_silent : forall h mode, silent observe (FdChmod h mode);
  FdChown_silent : forall h uid gid, silent observe (FdChown h uid gid);
  FdSync_silent : forall h, silent observe (FdSync h);
  FdClose_silent : forall h, silent observe (FdClose h);
  SyncDir_silent : forall dir, silent observe (SyncDir dir);
  LookupUser_silent : forall name, silent observe (LookupUser name);
  LookupGroup_silent : forall name, silent observe (LookupGroup name);
}.
Arguments OSLaws D X {_}.

Section writing.
Context {D X : Type} `{!OS D, !OSLaws D X}.
Implicit Types (s : FileHost X).

(** What is known of the files before and after. *)
Definition on_host (I : FileHost X -> Prop) (d : D) : Prop := I (observe d).

Lemma on_host_at {A} (I : FileHost X -> Prop) (m : M D A) Q E :
  (forall s, I s -> triple (fun d => observe d = s) m Q E) -> triple (on_host I) m Q E.
Proof. intros Hm. apply triple_at. intros d0 Hd. eapply triple_conseq; [by apply Hm|..]; naive_solver. Qed.

Lemma silent_on_host {A} (I : FileHost X -> Prop) (m : M D A) : silent observe m -> preserves (on_host I) m.
Proof.
  intros Hm. apply on_host_at. intros s Hs. eapply triple_conseq; [apply (Hm s)|..]; unfold on_host; naive_solver.
Qed.

Lemma triple_err {A} (E' : error -> D -> Prop) P (m : M D A) Q E :
  triple P m Q E' -> (forall e d, E' e d -> E e d) -> triple P m Q E.
Proof. intros Hm HE. eapply triple_conseq; [exact Hm|auto..]. Qed.

Lemma triple_perform {A} P (m : M D A) (Q : D -> Prop) E :
  triple P m (fun _ => Q) (fun _ => Q) -> triple P (perform m) (fun _ => Q) E.
Proof.
  intros Hm. eapply triple_bind with (R := fun _ => Q); [by eapply triple_attempt with (Q0 := fun _ => Q)|].
  intros r. by apply triple_ret.
Qed.

Lemma Unlink_scratch s tmp n :
  IsAbs tmp = true -> unused s (components tmp) n ->
  preserves (on_host (scratch s (components tmp) n)) (Unlink tmp).
Proof.
  intros Ha (Hk & _ & _). apply on_host_at. intros t [c Ht].
  eapply triple_conseq; [by apply Unlink_spec|intros d Hd; exact Hd| |].
  2: { intros e d Hd. cbv beta in Hd. unfold on_host. rewrite Hd. by exists c. }
  intros [] d Hd. unfold on_host, scratch. rewrite Hd. exists c. right.
  destruct Ht as [-> | ->]; unfold with_temp, with_entries, with_contents; simpl; f_equal.
  - by apply delete_insert_id.
  - by apply delete_id.
Qed.

Section temp.
Context (s : FileHost X) (tmp : string) (n : N) (Ha : IsAbs tmp = true) (Hun : unused s (components tmp) n).

Definition at_temp (c : string) (d : D) : Prop := observe d = with_temp s (components tmp) n c.

Definition on_scratch : D -> Prop := on_host (scratch s (components tmp) n).

Lemma at_temp_scratch c d : at_temp c d -> on_scratch d.
Proof. intros Hd. exists c. by left. Qed.

Lemma or_remove_triple {A} P (m : M D A) Q :
  triple P m Q (fun _ => on_scratch) -> triple P (or_remove tmp m) Q (fun _ => on_scratch).
Proof.
  intros Hm. eapply triple_on_error; [exact Hm|]. intros err.
  eapply triple_bind; [apply preserves_perform, Unlink_scratch; done|]. intros []. by apply triple_fail.
Qed.

Lemma or_discard_triple {A} P f text (m : M D A) Q :
  triple P m Q (fun _ => on_scratch) -> triple P (or_discard f tmp text m) Q (fun _ => on_scratch).
Proof.
  intros Hm. eapply triple_on_error; [exact Hm|]. intros err.
  eapply triple_bind; [apply preserves_perform, silent_on_host, FdClose_silent|]. intros [].
  eapply triple_bind; [apply preserves_perform, Unlink_scratch; done|]. intros []. by apply triple_fail.
Qed.

Lemma silent_at_temp {A} (m : M D A) c :
  silent observe m -> triple (at_temp c) m (fun _ => at_temp c) (fun _ => on_scratch).
Proof. intros Hm. eapply triple_conseq; [apply Hm|done..|]. intros ? d. apply at_temp_scratch. Qed.

Lemma wrapped_triple {A} P text (m : M D A) Q (E : D -> Prop) :
  triple P m Q (fun _ => E) -> triple P (wrapped text m) Q (fun _ => E).
Proof. intros Hm. eapply triple_on_error; [exact Hm|]. intros err. by apply triple_fail. Qed.

Lemma fill_temp_spec data perm :
  triple (at_temp EmptyString) (fill_temp tmp data perm) (fun _ => at_temp data) (fun _ => on_scratch).
Proof.
  unfold fill_temp.
  eapply triple_bind with (R := fun f d => node f = n /\ at_temp EmptyString d).
  { apply or_remove_triple, wrapped_triple. eapply triple_bind.
    - eapply triple_conseq; [by apply OpenNoFollow_spec|intros d Hd; exact Hd|intros opened d Hd; exact Hd|].
      intros ? d. apply at_temp_scratch.
    - intros [f|].
      + apply triple_ret. intros d [Hn Hd]. split; [|done]. simpl in Hn. rewrite lookup_insert_eq in Hn. by injection Hn.
      + apply triple_fail. intros d [_ Hd]. by apply (at_temp_scratch EmptyString). }
  intros f. apply triple_pure. intros Hf.
  eapply triple_bind with (R := fun _ => at_temp data).
  { apply or_discard_triple. assert (forall c d, observe d = with_contents <[node f := c]>
      (with_temp s (components tmp) n EmptyString) -> at_temp c d) as Hw.
    { intros c d Hd. unfold at_temp. rewrite Hd, Hf. unfold with_temp, with_contents. simpl. f_equal. apply insert_insert_eq. }
    eapply triple_conseq; [apply (FdWrite_spec f data (with_temp s (components tmp) n EmptyString)); simpl; rewrite Hf; apply lookup_insert_eq|done|..].
    - intros [] d Hd. by apply Hw.
    - intros ? d [c Hd]. apply (at_temp_scratch c). by apply Hw. }
  intros []. eapply triple_bind; [apply or_discard_triple, silent_at_temp, FdChmod_silent|]. intros [].
  eapply triple_bind; [apply or_discard_triple, silent_at_temp, FdSync_silent|]. intros [].
  apply or_remove_triple, wrapped_triple, silent_at_temp, FdClose_silent.
Qed.

(** The name a file is renamed to. *)
Lemma safeRename_spec path data (removeExisting : bool) :
  IsAbs path = true -> components path <> components tmp ->
  triple (at_temp data) (safeRename tmp path removeExisting)
    (fun _ d => (removeExisting = false -> Host_Entries s !! components path = None) /\
       observe d = renamed (with_temp s (components tmp) n data) (components tmp) (components path) n)
    (fun _ => on_scratch).
Proof.
  intros Hp Hne. set (t := with_temp s (components tmp) n data).
  assert (forall d, moves t (observe d) (components tmp) (components path) ->
    observe d = renamed t (components tmp) (components path) n) as Hmoves.
  { intros d (m & Hm & Hd). simpl in Hm. rewrite lookup_insert_eq in Hm. injection Hm as <-. apply Hd. simpl.
    rewrite lookup_insert_ne by done. apply Hun. }
  assert (Host_Entries t !! components path = Host_Entries s !! components path) as Hpath
    by (simpl; by rewrite lookup_insert_ne).
  assert (triple (fun d => observe d = t) (wrapped "rename" (Rename tmp path))
    (fun _ d => observe d = renamed t (components tmp) (components path) n) (fun _ => on_scratch)) as Hren.
  { apply wrapped_triple. eapply triple_conseq; [by apply (Rename_spec tmp path t)|done|intros []; apply Hmoves|].
    intros ? d. apply at_temp_scratch. }
  unfold safeRename. destruct removeExisting.
  { eapply triple_conseq; [exact Hren|done| |done]. intros [] d Hd. by split. }
  eapply triple_bind; [eapply triple_conseq; [by apply (RenameNoReplace_spec tmp path t)|done|intros ? ? Hd; exact Hd|]|].
  { intros ? d. apply at_temp_scratch. }
  intros [| | |err].
  - apply triple_ret. intros d [Hnone Hd]. split; [by rewrite <- Hpath|by apply Hmoves].
  - apply triple_fail. intros d. apply at_temp_scratch.
  - eapply triple_bind with (R := fun there d => there = bool_decide (is_Some (Host_Entries t !! components path)) /\ observe d = t).
    + apply wrapped_triple. eapply triple_conseq; [by apply (Lstat_spec path t)|done|done|]. intros ? d. apply at_temp_scratch.
    + intros there. apply triple_pure. intros ->. case_bool_decide as Hthere.
      * apply triple_fail. intros d. apply at_temp_scratch.
      * eapply triple_conseq; [exact Hren|done| |done]. intros [] d Hd. split; [|done]. intros _.
        rewrite <- Hpath. by apply eq_None_not_Some.
  - apply triple_fail. intros d. apply at_temp_scratch.
Qed.
End temp.

(** Nothing there has changed, and the path has the content it had. *)
Definition unchanged s path t : Prop := same_but [] s t /\ content t (components path) = content s (components path).

Definition replaced s path data t : Prop :=
  same_but [components path] s t /\ content t (components path) = Some data.

Lemma safeReplaceFile_spec path data perm (removeExisting : bool) s :
  IsAbs path = true ->
  triple (fun d => observe d = s) (safeReplaceFile path data perm removeExisting)
    (fun _ d => (removeExisting = false -> Host_Entries s !! components path = None) /\ replaced s path data (observe d))
    (fun _ d => unchanged s path (observe d)).
Proof.
  intros Hp. unfold safeReplaceFile. pose proof (Dir_IsAbs path Hp) as Hdir.
  eapply triple_bind.
  { apply wrapped_triple. eapply triple_conseq; [by apply (CreateTemp_spec _ _ s)|done|intros tmp d Hd; exact Hd|].
    intros ? d Hd. unfold unchanged. rewrite Hd. split; [apply same_but_refl|done]. }
  intros tmp. apply triple_exists. intros suffix. apply triple_exists. intros n.
  apply triple_pure. intros Htmp. apply triple_pure. intros Hk. apply triple_pure. intros Hun.
  assert (components path <> components tmp) as Hne.
  { rewrite Hk. pose proof (beside_differs path "." (".tmp-" ++ suffix) Hp) as Hb.
    intros Heq. apply Hb; [done|]. rewrite Heq. f_equal. f_equal. rewrite <- !append_assoc. done. }
  assert (forall d, on_scratch s tmp n d -> unchanged s path (observe d)) as Hscratch.
  { intros d Hd. apply (scratch_same s _ _ _ Hun) in Hd as [Hs Hc]. split; [done|]. by apply Hc. }
  apply (triple_err (fun _ => on_scratch s tmp n)); [|by intros ? d; apply Hscratch].
  eapply triple_bind; [by apply fill_temp_spec|]. intros [].
  eapply triple_bind; [apply or_remove_triple; [done..|by apply safeRename_spec]|]. intros [].
  apply triple_pure. intros Hnone.
  apply triple_perform. eapply triple_conseq; [apply SyncDir_silent|intros d Hd; exact Hd|..];
    intros ? d Hd; cbv beta in Hd; (split; [done|]); rewrite Hd; by apply renamed_temp.
Qed.

(** ** Owners and backups *)

Lemma silent_preserves {A} s (m : M D A) : silent observe m -> preserves (fun d => observe d = s) m.
Proof. intros Hm. apply Hm. Qed.

Lemma close_preserves s h : preserves (fun d => observe d = s) (perform (FdClose h)).
Proof. apply preserves_perform, FdClose_silent. Qed.

#[local] Hint Resolve close_preserves FdIsRegular_silent FdChmod_silent FdChown_silent FdSync_silent FdClose_silent SyncDir_silent
  LookupUser_silent LookupGroup_silent : preserve.
#[local] Hint Resolve silent_preserves : preserve.

Lemma OpenNoFollow_silent path : IsAbs path = true -> silent observe (OpenNoFollow path).
Proof. intros Ha s. eapply triple_conseq; [by apply (OpenNoFollow_spec path s)|naive_solver..]. Qed.

Lemma set_ownership_silent path opts : IsAbs path = true -> silent observe (set_ownership path opts).
Proof.
  intros Ha s. pose proof (OpenNoFollow_silent path Ha).
  unfold set_ownership, ResolveOwnership, resolveID, FchownNoFollow, closing, wrapped. preserve.
Qed.

Lemma keep_bind {A B} s (m : M D A) (k : A -> M D B) Q (E : error -> D -> Prop) :
  preserves (fun d => observe d = s) m -> (forall a, triple (fun d => observe d = s) (k a) Q E) ->
  (forall e d, observe d = s -> E e d) -> triple (fun d => observe d = s) (m ≫= k) Q E.
Proof. intros Hm Hk HE. eapply triple_bind; [eapply triple_err; [exact Hm|exact HE]|exact Hk]. Qed.

Lemma read_current_spec f s :
  triple (fun d => observe d = s) (read_current f)
    (fun c d => Host_Contents s !! node f = Some c /\ observe d = s) (fun _ d => observe d = s).
Proof.
  unfold read_current. apply keep_bind; [preserve| |done]. intros [|]; simpl.
  - eapply triple_bind with (R := fun c d => Host_Contents s !! node f = Some c /\ observe d = s).
    + eapply triple_on_error; [apply FdRead_spec|]. intros err. apply keep_bind; [preserve| |done].
      intros []. by apply triple_fail.
    + intros c. apply triple_pure. intros Hc. apply keep_bind; [unfold wrapped; preserve| |done].
      intros []. by apply triple_ret.
  - apply keep_bind; [preserve| |done]. intros []. by apply triple_fail.
Qed.

(** The file has been written, and what it had before is in the backup. *)
Definition written (backups : list string) path data s t : Prop :=
  same_but (components path :: (components <$> backups)) s t /\ content t (components path) = Some data /\
  forall b c, b ∈ backups -> content s (components path) = Some c -> content t (components b) = Some c.

(** The file is as it was, and each backup has what it had or what the file has. *)
Definition intact (backups : list string) path s t : Prop :=
  same_but (components <$> backups) s t /\ content t (components path) = content s (components path) /\
  forall b, b ∈ backups -> is_Some (Host_Entries s !! components b) ->
    content t (components b) = content s (components b) \/ content t (components b) = content s (components path).

Lemma unchanged_intact backups path s t : unchanged s path t -> intact backups path s t.
Proof.
  intros [Hs Hc]. split_and!; [by apply same_but_nil|done|]. intros b _ Hb. left. by apply Hs; [apply not_elem_of_nil|].
Qed.

Lemma intact_refl backups path s : intact backups path s s.
Proof. apply unchanged_intact. split; [apply same_but_refl|done]. Qed.

Lemma content_entry s k c : content s k = Some c -> is_Some (Host_Entries s !! k).
Proof. unfold content. destruct (Host_Entries s !! k); [by eexists|done]. Qed.

Lemma same_but_content changed s t k c :
  same_but changed s t -> k ∉ changed -> content s k = Some c -> content t k = Some c.
Proof. intros [_ Hs] Hk Hc. destruct (Hs k Hk) as [_ ->]; [by eapply content_entry|done]. Qed.

(** After the backup has been made. *)
Lemma backed_up path b data cur s s1 t :
  components b <> components path -> content s (components path) = Some cur -> replaced s b cur s1 ->
  (replaced s1 path data t -> written [b] path data s t) /\ (unchanged s1 path t -> intact [b] path s t).
Proof.
  intros Hne Hcur [Hs1 Hb]. split.
  - intros [Ht Hdata]. split_and!; [|done|].
    + by apply (same_but_weaken ([components b] ++ [components path])); [set_solver|eapply same_but_trans].
    + intros b' c Hb' Hc. apply list_elem_of_singleton in Hb' as ->. rewrite Hcur in Hc. injection Hc as <-.
      by eapply same_but_content; [exact Ht|set_solver|].
  - intros [Ht Hc]. split_and!.
    + by apply (same_but_weaken ([components b] ++ [])); [set_solver|eapply same_but_trans].
    + rewrite Hc, Hcur. by eapply same_but_content; [exact Hs1|set_solver|].
    + intros b' Hb' _. apply list_elem_of_singleton in Hb' as ->. right. rewrite Hcur.
      by eapply same_but_content; [exact Ht|set_solver|].
Qed.

Lemma safeBackupAndReplace_spec path b data perm s :
  IsAbs path = true -> IsAbs b = true -> components b <> components path ->
  triple (fun d => observe d = s) (safeBackupAndReplace path b data perm true)
    (fun _ d => written [b] path data s (observe d)) (fun _ d => intact [b] path s (observe d)).
Proof.
  intros Hp Hb Hne. unfold safeBackupAndReplace.
  assert (forall d, observe d = s -> intact [b] path s (observe d)) as Hsame by (intros d ->; apply intact_refl).
  eapply triple_bind.
  { apply wrapped_triple. eapply triple_err; [by apply (OpenNoFollow_spec path s)|]. intros ? d. apply Hsame. }
  intros [f|]; apply triple_pure; intros Hentry.
  - eapply triple_bind; [eapply triple_err; [apply read_current_spec|]; intros ? d; apply Hsame|].
    intros cur. apply triple_pure. intros Hcur.
    assert (content s (components path) = Some cur) as Hc by (unfold content; by rewrite Hentry).
    eapply triple_bind.
    { apply wrapped_triple. eapply triple_err; [by apply (safeReplaceFile_spec b cur perm true)|].
      intros ? d [Hs Hb']. split_and!; [by apply same_but_nil| |].
      - rewrite Hc. by eapply same_but_content; [exact Hs|set_solver|].
      - intros b' ->%list_elem_of_singleton _. by left. }
    intros []. apply triple_at. intros d1 [_ Hd1].
    eapply triple_conseq; [apply (safeReplaceFile_spec path data perm true (observe d1) Hp)|by intros d ->|..];
      intros ? d Hd; eapply backed_up; naive_solver.
  - eapply triple_conseq; [apply (safeReplaceFile_spec path data perm true s Hp)|done|..].
    + intros [] d [_ [Hs Hc]]. split_and!; [by apply (same_but_weaken [components path]); [set_solver|]|done|].
      intros b' c _ Hc'. unfold content in Hc'. by rewrite Hentry in Hc'.
    + intros ? d. apply unchanged_intact.
Qed.

(** ** The manager on a root process *)

Definition backups (opts : WriteOptions) : list string :=
  if bool_decide (Write_Backup opts = EmptyString) then [] else [Write_Backup opts].

Lemma writeDirect_spec path data opts s :
  IsAbs path = true -> (forall b, b ∈ backups opts -> IsAbs b = true /\ components b <> components path) ->
  triple (fun d => observe d = s) (writeDirect path data opts)
    (fun _ d => written (backups opts) path data s (observe d))
    (fun _ d => intact (backups opts) path s (observe d) \/ written (backups opts) path data s (observe d)).
Proof.
  intros Hp Hb. unfold writeDirect, backups in *.
  eapply triple_bind with (R := fun _ d => written (backups opts) path data s (observe d)).
  - apply wrapped_triple. unfold backups. case_bool_decide.
    + eapply triple_conseq; [by apply (safeReplaceFile_spec path data _ true s)|done|..].
      * intros [] d [_ [Hs Hc]]. split_and!; [done..|]. by intros b c ?%elem_of_nil.
      * intros ? d Hd. left. by apply unchanged_intact.
    + destruct (Hb (Write_Backup opts)) as [Ha Hne]; [set_solver|].
      eapply triple_err; [by apply safeBackupAndReplace_spec|]. intros ? d Hd. by left.
  - intros []. change (fun d => written (backups opts) path data s (observe d))
      with (on_host (written (backups opts) path data s)).
    eapply triple_err; [by apply silent_on_host, set_ownership_silent|]. intros ? d Hd. by right.
Qed.

Lemma writeExclusiveDirect_spec path data opts s :
  IsAbs path = true ->
  triple (fun d => observe d = s) (writeExclusiveDirect path data opts)
    (fun _ d => Host_Entries s !! components path = None /\ replaced s path data (observe d))
    (fun _ d => unchanged s path (observe d) \/
       (Host_Entries s !! components path = None /\ replaced s path data (observe d))).
Proof.
  intros Hp. unfold writeExclusiveDirect.
  eapply triple_bind with
    (R := fun _ => on_host (fun t => Host_Entries s !! components path = None /\ replaced s path data t)).
  - eapply triple_on_error.
    + eapply triple_conseq; [by apply (safeReplaceFile_spec path data _ false s)|done| |].
      * intros [] d [Hnone Hd]. split; [by apply Hnone|done].
      * intros ? d Hd. exact Hd.
    + intros err. apply triple_fail. intros d Hd. by left.
  - intros []. eapply triple_err; [by apply silent_on_host, set_ownership_silent|]. intros ? d Hd. by right.
Qed.

Context `{!Runner D}.

Lemma not_cancelled_keeps {A} ctx (k : unit -> M D A) s Q (E : error -> D -> Prop) :
  triple (fun d => observe d = s) (k tt) Q E -> (forall e d, observe d = s -> E e d) ->
  triple (fun d => observe d = s) (not_cancelled ctx ≫= k) Q E.
Proof. intros Hk HE. apply keep_bind; [unfold not_cancelled, ctx_Err; preserve| |done]. by intros []. Qed.

Lemma checks_keep {A B} (r : result B) (k : B -> M D A) s Q (E : error -> D -> Prop) :
  (forall b, r = Ok b -> triple (fun d => observe d = s) (k b) Q E) -> (forall e d, observe d = s -> E e d) ->
  triple (fun d => observe d = s) (lift r ≫= k) Q E.
Proof. intros Hk HE. apply triple_bind_lift; [exact Hk|]. intros e d _. apply HE. Qed.

Lemma same_components p q : IsAbs p = true -> IsAbs q = true -> components p = components q -> Clean p = Clean q.
Proof. intros Hp Hq Hc. by rewrite !Clean_abs, Hc. Qed.

(** A successful write asked for no bit that would make a program privileged. *)
Lemma validateMode_ok m u :
  validateMode m = Ok u -> has_bit m ModeSetuid = false /\ has_bit m ModeSetgid = false.
Proof.
  unfold validateMode, has_bit. destruct (Z.land m (Z.lor ModeSetuid ModeSetgid) =? 0) eqn:Hm; [|done]. intros _.
  apply Z.eqb_eq in Hm. rewrite Z.land_lor_distr_r in Hm. apply Z.lor_eq_0_iff in Hm as [-> ->]. done.
Qed.

Lemma WriteFile_spec ctx path data opts s :
  Backend = Direct -> IsAbs path = true -> Forall (fun b => IsAbs b = true) (backups opts) ->
  triple (fun d => observe d = s) (WriteFile ctx path data opts)
    (fun _ d => written (backups opts) path data s (observe d) /\
       has_bit (Write_Mode opts) ModeSetuid = false /\ has_bit (Write_Mode opts) ModeSetgid = false)
    (fun _ d => intact (backups opts) path s (observe d) \/ written (backups opts) path data s (observe d)).
Proof.
  intros Hdirect Hp Hb. unfold WriteFile, direct. rewrite Hdirect. simpl.
  assert (forall e : error, forall d, observe d = s -> intact (backups opts) path s (observe d) \/
    written (backups opts) path data s (observe d)) as Hsame by (intros _ d ->; left; apply intact_refl).
  apply not_cancelled_keeps; [|done]. apply checks_keep; [intros _ _|done].
  apply checks_keep; [|done]. intros u Hmode. apply validateMode_ok in Hmode.
  eapply triple_bind with (R := fun _ d =>
    (forall b, b ∈ backups opts -> components b <> components path) /\ observe d = s).
  - unfold backups in *. case_bool_decide as He; [apply triple_ret; intros d Hd; split; [by intros b ?%elem_of_nil|done]|].
    rewrite Forall_singleton in Hb. apply checks_keep; [intros _ _|done].
    case_bool_decide as Hclean; [apply triple_fail; intros d; by apply (Hsame ErrNoRows)|].
    apply triple_ret. intros d Hd. split; [|done]. intros b ->%list_elem_of_singleton Hc. by apply Hclean, same_components.
  - intros []. apply triple_pure. intros Hne. rewrite Forall_forall in Hb.
    eapply triple_conseq; [apply (writeDirect_spec path data opts s Hp); auto|done| |done].
    intros [] d Hd. by split.
Qed.

Lemma WriteFileExclusive_spec ctx path data opts s :
  Backend = Direct -> IsAbs path = true ->
  triple (fun d => observe d = s) (WriteFileExclusive ctx path data opts)
    (fun _ d => Host_Entries s !! components path = None /\ replaced s path data (observe d))
    (fun _ d => unchanged s path (observe d) \/
       (Host_Entries s !! components path = None /\ replaced s path data (observe d))).
Proof.
  intros Hdirect Hp. unfold WriteFileExclusive, direct. rewrite Hdirect. simpl.
  assert (forall e : error, forall d, observe d = s -> unchanged s path (observe d) \/
    (Host_Entries s !! components path = None /\ replaced s path data (observe d))) as Hsame.
  { intros _ d ->. left. split; [apply same_but_refl|done]. }
  apply not_cancelled_keeps; [|done]. apply checks_keep; [intros _ _|done]. apply checks_keep; [intros _ _|done].
  destruct (negb _); [apply triple_fail; intros d; by apply (Hsame ErrNoRows)|]. by apply writeExclusiveDirect_spec.
Qed.

(** C15: On a root process a file is written as a whole, whichever system calls fail, or if all
    of them do from some point on, as after a crash: [WriteFile] that succeeds leaves the
    new content, and the previous one in the backup it was asked for; when it fails the file
    has its old content or the new one, and the backup is as it was or has the old one.
    It never succeeds with a mode that makes a privileged program.  [WriteFileExclusive]
    never touches a file that is there.  Every other file stays as it was. *)
Theorem files_written_whole ctx path data opts s :
  Backend = Direct -> IsAbs path = true -> Forall (fun b => IsAbs b = true) (backups opts) ->
  triple (fun d => observe d = s) (WriteFile ctx path data opts)
    (fun _ d => written (backups opts) path data s (observe d) /\
       has_bit (Write_Mode opts) ModeSetuid = false /\ has_bit (Write_Mode opts) ModeSetgid = false)
    (fun _ d => intact (backups opts) path s (observe d) \/ written (backups opts) path data s (observe d)) /\
  triple (fun d => observe d = s) (WriteFileExclusive ctx path data opts)
    (fun _ d => Host_Entries s !! components path = None /\ replaced s path data (observe d))
    (fun _ d => unchanged s path (observe d) \/
       (Host_Entries s !! components path = None /\ replaced s path data (observe d))).
Proof. intros. split; [by apply WriteFile_spec|by apply WriteFileExclusive_spec]. Qed.
End writing.

(** ** Protected paths *)

(** The trees whose files are the system's or a user's. *)
Definition protected_roots : list (list string) :=
  [["etc"]; ["boot"]; ["usr"]; ["home"]; ["root"]; ["var"; "lib"]; ["bin"]; ["sbin"]; ["lib"]; ["lib64"]; ["lib32"];
   ["libx32"]; ["proc"]; ["sys"]; ["dev"]; ["run"]].

Definition protected (k : list string) : Prop :=
  k = [] \/ k = ["var"] \/ exists root, root ∈ protected_roots /\ root `prefix_of` k.

Lemma Clean_eq p k : IsAbs p = true -> Forall named k -> Clean p = ("/" ++ Join k "/")%string <-> components p = k.
Proof.
  intros Ha Hk. rewrite Clean_abs by done. split; [|by intros ->].
  intros Heq. apply Join_inj; [by apply components_named|done|]. by injection Heq.
Qed.

Lemma under_root_spec p root :
  IsAbs p = true -> Forall named root -> root <> [] ->
  under_root (Clean p) ("/" ++ Join root "/") = true <-> root `prefix_of` components p.
Proof.
  intros Ha Hroot Hne. unfold under_root. rewrite orb_true_iff, bool_decide_eq_true, Clean_eq by done.
  rewrite <- append_assoc. rewrite below_spec by done. split.
  - intros [->|(c & rest & ->)]; [by exists []; rewrite app_nil_r|by exists (c :: rest)].
  - intros [[|c rest] Hk]; [left; by rewrite Hk, app_nil_r|right; by exists c, rest].
Qed.

Lemma protectedPrefixRoots_eq : protectedPrefixRoots = (fun root => ("/" ++ Join root "/")%string) <$> protected_roots.
Proof. reflexivity. Qed.

Lemma protected_roots_named root : root ∈ protected_roots -> Forall named root /\ root <> [].
Proof.
  unfold protected_roots. intros Hin.
  repeat (apply elem_of_cons in Hin as [->|Hin]; [split; [by repeat constructor|done]|]). by apply elem_of_nil in Hin.
Qed.

Lemma protected_clean_spec p : IsAbs p = true -> protected_clean (Clean p) = true <-> protected (components p).
Proof.
  intros Ha. unfold protected_clean, protected. rewrite orb_true_iff, bool_decide_eq_true. split.
  - intros [Hin|Hex].
    + unfold protectedExactPaths in Hin. apply elem_of_cons in Hin as [Hc|[Hc|Hin%elem_of_nil]%elem_of_cons]; [| |done].
      * left. by apply (Clean_eq p []).
      * right. left. apply (Clean_eq p ["var"]); [done|by repeat constructor|done].
    + right. right. apply existsb_exists in Hex as (root & Hin & Hu). rewrite protectedPrefixRoots_eq in Hin.
      apply list_elem_of_In, list_elem_of_fmap in Hin as (k & -> & Hk). exists k. split; [done|].
      destruct (protected_roots_named k Hk). by apply under_root_spec.
  - intros [Hk|[Hk|(root & Hin & Hk)]].
    + left. rewrite (proj2 (Clean_eq p [] Ha (List.Forall_nil _)) Hk). unfold protectedExactPaths. set_solver.
    + left. rewrite (proj2 (Clean_eq p ["var"] Ha ltac:(by repeat constructor)) Hk). unfold protectedExactPaths. set_solver.
    + right. apply existsb_exists. exists ("/" ++ Join root "/")%string. split.
      * apply list_elem_of_In. rewrite protectedPrefixRoots_eq. apply list_elem_of_fmap. by exists root.
      * destruct (protected_roots_named root Hin). by apply under_root_spec.
Qed.

(** Looking for the nearest parent never runs out of steps: more of them change nothing. *)
Lemma existing_parent_steps {D} `{!OS D} n dir tail :
  IsAbs dir = true -> Clean dir = dir -> (String.length dir <= n)%nat ->
  forall env w, existing_parent n dir tail env w = existing_parent (String.length dir) dir tail env w.
Proof.
  intros Ha Hclean Hn. remember (String.length dir) as m eqn:Hm. assert (String.length dir <= m)%nat as Hlen by lia. clear Hm.
  revert m n dir tail Ha Hclean Hn Hlen. induction m as [|m IH]; intros n dir tail Ha Hclean Hn Hlen env w.
  { destruct dir; [done|]. simpl in Hlen. lia. }
  destruct n as [|n]; [lia|]. simpl. case_bool_decide as Hroot; [done|].
  unfold mbind, M_bind. destruct (wrapped _ (os_Stat dir) env w) as [[[st|]|e] w']; try done.
  destruct (Dir_shorter dir Ha Hclean) as (Hda & Hdc & Hdl); [tauto|]. apply IH; [done|done|lia|lia].
Qed.

(** A path is refused as protected exactly when what it names, with its doubled slashes, [.]
    and [..] resolved, is the root, [/var] itself, or one of the system's and the users'
    trees or something in one.  And however the path of a top directory is written, its
    owner is never changed recursively. *)
Theorem protected_prefix_exact {D} `{!OS D, !Runner D} path env w :
  IsAbs path = true ->
  (exists refused, IsUnderProtectedPrefix path env w = (Ok refused, w) /\
     (refused = true <-> protected (components path))) /\
  (forall ctx owner group dir, dir ∈ dangerousPaths -> components path = components dir ->
     match SetOwnershipRecursive ctx path owner group env w with
     | (Ok _, w') => Ownership owner group = EmptyString /\ w' = w
     | (Err e, w') => (errors_is ErrProtectedTarget e = true \/ errors_is ErrInvalidPath e = true) /\ w' = w
     end).
Proof.
  intros Ha. pose proof (Clean_IsAbs path Ha) as Hc. split.
  - exists (protected_clean (Clean path)). split; [|by apply protected_clean_spec].
    unfold IsUnderProtectedPrefix, absolute. by rewrite Hc.
  - intros ctx owner group dir Hdir Hk. unfold SetOwnershipRecursive. case_bool_decide; [done|].
    unfold mbind, M_bind, lift. destruct (ValidatePath path) as [[]|e] eqn:Hv.
    + assert (Clean path = dir) as Hdirc.
      { rewrite Clean_abs, Hk by done. unfold dangerousPaths in Hdir.
        repeat (apply elem_of_cons in Hdir as [->|Hdir]; [reflexivity|]). by apply elem_of_nil in Hdir. }
      unfold IsProtectedPath, absolute. rewrite Hc. unfold mbind, M_bind, mret, M_ret. rewrite Hdirc, bool_decide_true by done.
      simpl. split; [by left|done].
    + split; [|done]. right. unfold ValidatePath in Hv.
      repeat (case_bool_decide || destruct (has_byte _ _) || destruct (HasPrefix _ _)); by simplify_eq.
Qed.
