(* ===== verification/RemoveDir.v ===== *)
(** * Removing a tree ([sdk/sys/fs/remove_dir_unix.go], [dir.go])

    [RemoveDir] refuses protected paths; a root process then walks from the root by
    descriptors, each opened without following a link, and removes the tree below.  The
    calls on descriptors are the class [Removal].  The walk is given the depth it may go to;
    [RemoveDirFacts] shows that the tree's own depth is enough. *)

From S2P Require Import Prelude Engine Pair Strs Text Words Paths Exec Packages Units Files.

Open Scope string_scope.
Open Scope Z_scope.

(** What [fstatat] says of an entry, the entry itself when it is a link. *)
Inductive FileKind := RegularOrOther | Symlink | Directory.

#[export] Instance FileKind_eq_dec : EqDecision FileKind.
Proof. solve_decision. Defined.

(** The system calls on directory descriptors; opening never follows a link. *)
Class Removal (D : Type) := {
  Fd : Type;
  OpenRoot : M D Fd;
  Openat : Fd -> string -> M D Fd;
  Fstatat : Fd -> string -> M D FileKind;
  Unlinkat : Fd -> string -> M D unit;
  UnlinkatDir : Fd -> string -> M D unit;
  Readdirnames : Fd -> M D (list string);
  CloseFd : Fd -> M D unit;
}.

(** The walk was not given enough depth; it never ends with this error. *)
Definition ErrTooDeep : error := ErrVar "too deep".

Section removal.
Context {D : Type} `{!OS D, !Runner D, !Removal D}.

Fixpoint open_chain (fd : Fd) (names : list string) : M D Fd :=
  match names with
  | [] => mret fd
  | name :: names =>
      if bool_decide (name = EmptyString \/ name = ".") then open_chain fd names
      else
        next ← attempt (Openat fd name);
        _ ← perform (CloseFd fd);
        match next with
        | Err err => fail (ErrWrap "open component without following symlinks" err)
        | Ok next => open_chain next names
        end
  end.

Definition openNoFollowChain (dir : string) : M D Fd :=
  let clean := Clean dir in
  fd ← wrapped "open /" OpenRoot;
  if bool_decide (clean = "/") then mret fd
  else open_chain fd (Split (TrimPrefix clean "/") slash).

Fixpoint removeAtRecursive (depth : nat) (ctx : Ctx) (dirfd : Fd) (name : string) : M D unit :=
  match depth with
  | O => fail ErrTooDeep
  | S depth =>
      cancelled ← ctx_Err ctx;
      match (cancelled : option error) with
      | Some err => fail err
      | None =>
          kind ← wrapped "stat" (Fstatat dirfd name);
          if negb (bool_decide (kind = Directory)) then wrapped "unlink" (Unlinkat dirfd name)
          else
            cfd ← wrapped "open dir" (Openat dirfd name);
            removed ← attempt (
              children ← wrapped "read dir" (Readdirnames cfd);
              for_each (fun child =>
                if bool_decide (child = "." \/ child = "..") then mret tt
                else removeAtRecursive depth ctx cfd child) children);
            match removed with
            | Err err => _ ← perform (CloseFd cfd); fail err
            | Ok _ =>
                _ ← wrapped "close dir" (CloseFd cfd);
                wrapped "rmdir" (UnlinkatDir dirfd name)
            end
      end
  end.

Definition removeDirSecure (depth : nat) (ctx : Ctx) (path : string) : M D unit :=
  let base := Base path in
  pfd ← openNoFollowChain (Dir path);
  removed ← attempt (
    kind ← wrapped "stat" (Fstatat pfd base);
    match kind with
    | Symlink => fail (ErrNew "refusing to remove symlink")
    | Directory => removeAtRecursive depth ctx pfd base
    | RegularOrOther => fail (ErrNew "refusing to remove non-directory")
    end);
  _ ← perform (CloseFd pfd);
  lift removed.

Definition RemoveDir (depth : nat) (ctx : Ctx) (path : string) : M D unit :=
  _ ← lift (ValidatePath path);
  let clean := Clean path in
  if negb (IsAbs clean) then fail (ErrNew "path must be absolute")
  else
    protected ← IsUnderProtectedPrefix clean;
    if (protected : bool) then fail (ErrNew "refusing to remove protected path")
    else if direct then removeDirSecure depth ctx clean
    else runChecked ctx "rm" ["-rf"; "--"; clean].
End removal.
