(* ===== verification/RemoveDirFacts.v ===== *)
(** * What removing a tree removes

    The documented behaviour of the calls on descriptors, over a tree of entries by the
    components of their path in which links are entries like others; and that [RemoveDir]
    removes what is below its path, nothing else, and all of it unless a call fails. *)

From S2P Require Import Prelude Engine Pair Quiet Strs Text Words Paths Exec Packages Units Files.
From S2P Require Import FilesFacts RemoveDir.

Open Scope string_scope.
Open Scope Z_scope.

Abbreviation Tree := (gmap (list string) FileKind).

(** ** Trees *)

Definition below (p k : list string) : Prop := p `prefix_of` k.

#[export] Instance below_dec p k : Decision (below p k) := prefix_dec p k.

(** The tree without what is at a path and below it. *)
Definition without (p : list string) (s : Tree) : Tree := filter (fun e => ~ below p (fst e)) s.

(** Entries are in directories. *)
Definition rooted (s : Tree) : Prop :=
  forall k c, is_Some (s !! (k ++ [c])%list) -> k = [] \/ s !! k = Some Directory.

(** Some entries at the path or below it are gone, no other. *)
Definition pruned (p : list string) (s t : Tree) : Prop :=
  t ⊆ s /\ forall k, ~ below p k -> t !! k = s !! k.

Lemma without_lookup p s k : ~ below p k -> without p s !! k = s !! k.
Proof.
  intros Hk. unfold without. destruct (s !! k) as [x|] eqn:Hx.
  - by apply map_lookup_filter_Some.
  - apply map_lookup_filter_None. by left.
Qed.

Lemma without_below p s k : below p k -> without p s !! k = None.
Proof. intros Hk. apply map_lookup_filter_None. right. by intros x _ []. Qed.

Lemma without_pruned p q s : below q p -> pruned q s (without p s).
Proof.
  intros Hq. split; [apply map_filter_subseteq|]. intros k Hk. apply without_lookup. intros Hp. apply Hk.
  by etrans.
Qed.

Lemma pruned_refl p s : pruned p s s.
Proof. by split. Qed.

Lemma pruned_trans p s t u : pruned p s t -> pruned p t u -> pruned p s u.
Proof.
  intros [Hs Hks] [Ht Hkt]. split; [by etrans|]. intros k Hk. rewrite Hkt, Hks; done.
Qed.

Lemma pruned_weaken p q s t : below q p -> pruned p s t -> pruned q s t.
Proof.
  intros Hq [Hs Hk]. split; [done|]. intros k Hnk. apply Hk. intros Hp. apply Hnk. by etrans.
Qed.

Lemma rooted_without p s : p <> [] -> rooted s -> rooted (without p s).
Proof.
  intros Hp Hs k c [x Hx]. apply map_lookup_filter_Some in Hx as [Hx Hk]. simpl in Hk.
  destruct (Hs k c) as [|Hd]; [by eexists|by left|]. right. rewrite without_lookup; [done|].
  intros Hb. apply Hk. etrans; [exact Hb|]. by eexists.
Qed.

Lemma rooted_ancestor s p l : rooted s -> p <> [] -> is_Some (s !! (p ++ l)%list) -> is_Some (s !! p).
Proof.
  intros Hs Hp. induction l as [|c l IH] using rev_ind; [by rewrite app_nil_r|]. rewrite app_assoc.
  intros [He|Hd]%Hs; [by destruct p|]. apply IH. by eexists.
Qed.

(** Nothing is below what is not a directory. *)
Lemma leaf_below s p k :
  rooted s -> p <> [] -> s !! p <> Some Directory -> below p k -> is_Some (s !! k) -> k = p.
Proof.
  intros Hs Hp Hd [l ->]. revert Hd. induction l as [|c l IH] using rev_ind; intros Hd Hk; [by rewrite app_nil_r|].
  exfalso. rewrite app_assoc in Hk. destruct (Hs _ _ Hk) as [He|He]; [by destruct p|].
  assert (p ++ l = p)%list as Hl by (apply IH; [done|by eexists]). by rewrite Hl in He.
Qed.

(** The last entry of a tree. *)
Lemma without_delete p s :
  (forall k, below p k -> is_Some (s !! k) -> k = p) -> without p s = delete p s.
Proof.
  intros Honly. apply map_eq. intros k. destruct (decide (below p k)) as [Hb|Hb].
  - rewrite without_below by done. destruct (decide (k = p)) as [-> |Hne]; [by rewrite lookup_delete_eq|].
    rewrite lookup_delete_ne by done. destruct (s !! k) as [x|] eqn:Hx; [|done]. exfalso. apply Hne, Honly; eauto.
  - rewrite without_lookup, lookup_delete_ne; [done| |done]. intros ->. by apply Hb.
Qed.

(** ** The calls *)

Class RemovalLaws (D : Type) `{!Removal D} := {
  tree : D -> Tree;
  (** The path a descriptor was opened by. *)
  walk : Fd -> list string;
  OpenRoot_spec : forall s, triple (fun d => tree d = s) OpenRoot
    (fun fd d => walk fd = [] /\ tree d = s) (fun e d => tree d = s /\ errors_is ErrTooDeep e = false);
  Openat_spec : forall fd name s, triple (fun d => tree d = s) (Openat fd name)
    (fun fd' d => s !! (walk fd ++ [name])%list = Some Directory /\ walk fd' = (walk fd ++ [name])%list /\ tree d = s)
    (fun e d => tree d = s /\ errors_is ErrTooDeep e = false);
  Fstatat_spec : forall fd name s, triple (fun d => tree d = s) (Fstatat fd name)
    (fun kind d => s !! (walk fd ++ [name])%list = Some kind /\ tree d = s)
    (fun e d => tree d = s /\ errors_is ErrTooDeep e = false);
  Unlinkat_spec : forall fd name s, triple (fun d => tree d = s) (Unlinkat fd name)
    (fun _ d => s !! (walk fd ++ [name])%list <> Some Directory /\ tree d = delete (walk fd ++ [name])%list s)
    (fun e d => tree d = s /\ errors_is ErrTooDeep e = false);
  (** A directory is removed when nothing is in it any more. *)
  UnlinkatDir_spec : forall fd name s, triple (fun d => tree d = s) (UnlinkatDir fd name)
    (fun _ d => (forall c, s !! (walk fd ++ [name; c])%list = None) /\ tree d = delete (walk fd ++ [name])%list s)
    (fun e d => tree d = s /\ errors_is ErrTooDeep e = false);
  Readdirnames_spec : forall fd s, triple (fun d => tree d = s) (Readdirnames fd)
    (fun names d => NoDup names /\ (forall c, c ∈ names <-> is_Some (s !! (walk fd ++ [c])%list)) /\ tree d = s)
    (fun e d => tree d = s /\ errors_is ErrTooDeep e = false);
  CloseFd_spec : forall fd s, triple (fun d => tree d = s) (CloseFd fd) (fun _ d => tree d = s)
    (fun e d => tree d = s /\ errors_is ErrTooDeep e = false);
  (** Without faults the calls do what they are asked when they can. *)
  OpenRoot_quiet : quietly (fun _ => True) OpenRoot (fun _ _ => True);
  Openat_quiet : forall fd name s, s !! (walk fd ++ [name])%list = Some Directory ->
    quietly (fun d => tree d = s) (Openat fd name) (fun _ _ => True);
  Fstatat_quiet : forall fd name s, is_Some (s !! (walk fd ++ [name])%list) ->
    quietly (fun d => tree d = s) (Fstatat fd name) (fun _ _ => True);
  Unlinkat_quiet : forall fd name s kind, s !! (walk fd ++ [name])%list = Some kind -> kind <> Directory ->
    quietly (fun d => tree d = s) (Unlinkat fd name) (fun _ _ => True);
  UnlinkatDir_quiet : forall fd name s, s !! (walk fd ++ [name])%list = Some Directory ->
    (forall c, s !! (walk fd ++ [name; c])%list = None) ->
    quietly (fun d => tree d = s) (UnlinkatDir fd name) (fun _ _ => True);
  Readdirnames_quiet : forall fd s, walk fd = [] \/ s !! walk fd = Some Directory ->
    quietly (fun d => tree d = s) (Readdirnames fd) (fun _ _ => True);
  CloseFd_quiet : forall fd, quietly (fun _ => True) (CloseFd fd) (fun _ _ => True);
}.
Arguments RemovalLaws D {_}.

Section removal.
Context {D : Type} `{!OS D, !Runner D, !Removal D, !RemovalLaws D}.
Implicit Types (s t : Tree).

(** The walk may go as deep as the tree is. *)
Definition deep_enough (depth : nat) (p : list string) s : Prop :=
  forall k, below p k -> is_Some (s !! k) -> (length k < length p + depth)%nat.

Lemma deep_enough_child depth p c s :
  deep_enough (S depth) p s -> deep_enough depth (p ++ [c]) s.
Proof.
  intros Hd k Hk Hs. rewrite length_app. simpl. enough (length k < length p + S depth)%nat by lia.
  apply Hd; [|done]. etrans; [|exact Hk]. by eexists.
Qed.

Lemma deep_enough_pruned depth p s t : t ⊆ s -> deep_enough depth p s -> deep_enough depth p t.
Proof. intros Ht Hd k Hk [x Hx]. apply Hd; [done|]. exists x. by eapply lookup_weaken. Qed.

Lemma wrapped_stops {A} P text (m : M D A) Q s :
  triple P m Q (fun e d => tree d = s /\ errors_is ErrTooDeep e = false) ->
  triple P (wrapped text m) Q (fun e d => tree d = s /\ errors_is ErrTooDeep e = false).
Proof.
  intros Hm. eapply triple_on_error; [exact Hm|]. intros err. apply triple_fail. intros d [Hd He]. by split.
Qed.

Lemma perform_close fd s E : triple (fun d => tree d = s) (perform (CloseFd fd)) (fun _ d => tree d = s) E.
Proof.
  apply (triple_perform (fun d => tree d = s) (CloseFd fd) (fun d => tree d = s)).
  eapply triple_conseq; [apply (CloseFd_spec fd s)|done|done|]. by intros e d [? _].
Qed.

(** The error of a walk: what it leaves, and that it was not for want of depth. *)
Definition stopped (p : list string) (s : Tree) (ok : Prop) (e : error) (d : D) : Prop :=
  pruned p s (tree d) /\ (ok -> errors_is ErrTooDeep e = false).

Lemma stopped_unchanged p s ok e d : tree d = s /\ errors_is ErrTooDeep e = false -> stopped p s ok e d.
Proof. unfold stopped. intros [-> He]. split; [apply pruned_refl|]. by intros _. Qed.

(** The components of a clean path, as the walk from the root takes them. *)
Lemma chain_names l :
  Forall named l -> ("/" ++ Join l "/")%string <> "/" -> Split (TrimPrefix ("/" ++ Join l "/") "/") slash = l.
Proof.
  intros Hl Hroot. assert (TrimPrefix ("/" ++ Join l "/") "/" = Join l "/") as ->.
  { unfold TrimPrefix. rewrite (proj2 (HasPrefix_app _ _)) by (by eexists). apply drop_bytes_app. }
  apply Split_Join; [|by apply named_slashless]. intros ->. by apply Hroot.
Qed.

Lemma open_chain_spec fd names s :
  Forall named names ->
  triple (fun d => tree d = s) (open_chain fd names)
    (fun fd' d => walk fd' = (walk fd ++ names)%list /\ tree d = s)
    (fun e d => tree d = s /\ errors_is ErrTooDeep e = false).
Proof.
  intros Hn. revert fd. induction Hn as [|c names [(Hne & Hdot & _) _] _ IH]; intros fd; simpl.
  - apply triple_ret. intros d Hd. by rewrite app_nil_r.
  - rewrite bool_decide_false by naive_solver.
    eapply (triple_bind _ _ _ (fun r d => tree d = s /\ match r with
      | Ok fd' => walk fd' = (walk fd ++ [c])%list
      | Err e => errors_is ErrTooDeep e = false
      end)).
    { eapply (triple_attempt _ _ _ _ (fun r d => tree d = s /\ match r with
        | Ok fd' => walk fd' = (walk fd ++ [c])%list
        | Err e => errors_is ErrTooDeep e = false
        end)); [|intros r d Hd; exact Hd].
      eapply triple_conseq; [apply (Openat_spec fd c s)|done|naive_solver|done]. }
    intros r. eapply triple_conseq with (P' := fun d => match r with
      | Ok fd' => walk fd' = (walk fd ++ [c])%list
      | Err e => errors_is ErrTooDeep e = false
      end /\ tree d = s); [|naive_solver|intros ? ? Hd; exact Hd|intros ? ? Hd; exact Hd].
    apply triple_pure. intros Hr.
    eapply triple_bind; [apply perform_close|]. intros [].
    destruct r as [fd'|e].
    + eapply triple_conseq; [apply (IH fd')|done| |done]. intros fd2 d [-> Hd]. rewrite Hr. by rewrite <- app_assoc.
    + apply triple_fail. intros d Hd. by split.
Qed.

Lemma openNoFollowChain_spec dir s :
  IsAbs dir = true ->
  triple (fun d => tree d = s) (openNoFollowChain dir)
    (fun fd d => walk fd = components dir /\ tree d = s)
    (fun e d => tree d = s /\ errors_is ErrTooDeep e = false).
Proof.
  intros Ha. unfold openNoFollowChain. cbv zeta. rewrite Clean_abs by done.
  pose proof (components_named dir Ha) as Hn.
  eapply triple_bind; [apply wrapped_stops, OpenRoot_spec|]. intros fd. apply triple_pure. intros Hfd.
  case_bool_decide as Hroot.
  - apply triple_ret. intros d Hd. split; [|done]. rewrite Hfd.
    destruct (components dir) as [|c [|c' l]]; [done| |]; destruct (Forall_inv Hn) as [[Hne _] _]; by destruct c.
  - assert (Split (TrimPrefix ("/" ++ Join (components dir) "/") "/") slash = components dir) as ->.
    { assert (TrimPrefix ("/" ++ Join (components dir) "/") "/" = Join (components dir) "/") as ->.
      { unfold TrimPrefix. rewrite (proj2 (HasPrefix_app _ _)) by (by eexists). apply drop_bytes_app. }
      apply Split_Join; [|by apply named_slashless]. intros Hnil. by rewrite Hnil in Hroot. }
    eapply triple_conseq; [by apply (open_chain_spec fd _ s)|done| |done]. intros fd' d [-> Hd]. by rewrite Hfd.
Qed.

Lemma ctx_Err_triple ctx s (E : error -> D -> Prop) :
  triple (fun d => tree d = s) (ctx_Err ctx) (fun r d => tree d = s /\
    match r with Some e => errors_is ErrTooDeep e = false | None => True end) E.
Proof.
  intros env w Hw. simpl. split; [done|].
  destruct (ctx_cancelled ctx _); [done|]. by destruct (deadline_passed _ _).
Qed.

(** The entry is there and the walk may go deep enough. *)
Definition walkable (depth : nat) (p : list string) s : Prop := is_Some (s !! p) /\ deep_enough depth p s.

Lemma walkable_now p s : ~ walkable 0 p s.
Proof. intros [Hp Hd]. specialize (Hd p (reflexivity p) Hp). lia. Qed.

(** The children are removed one after the other. *)
Lemma children_spec depth ctx cfd p s children :
  walk cfd = p -> p <> [] -> NoDup children ->
  (forall name t, rooted t ->
    triple (fun d => tree d = t) (removeAtRecursive depth ctx cfd name)
      (fun _ d => tree d = without (p ++ [name]) t)
      (stopped (p ++ [name]) t (walkable depth (p ++ [name]) t))) ->
  triple (fun d => pruned p s (tree d) /\ rooted (tree d) /\
      forall c, c ∈ children -> is_Some (tree d !! (p ++ [c])%list))
    (for_each (fun child => if bool_decide (child = "." \/ child = "..") then mret tt
                            else removeAtRecursive depth ctx cfd child) children)
    (fun _ d => pruned p s (tree d) /\ rooted (tree d))
    (stopped p s (deep_enough (S depth) p s)).
Proof.
  intros Hw Hp Hnd IH. induction Hnd as [|c children Hc Hnd IHl]; simpl.
  { apply triple_ret. naive_solver. }
  apply triple_bind with (R := fun _ d => pruned p s (tree d) /\ rooted (tree d) /\
    forall c, c ∈ children -> is_Some (tree d !! (p ++ [c])%list)); [|intros []; exact IHl].
  case_bool_decide as Hdot.
  { apply triple_ret. intros d (? & ? & Hsome). split_and!; try done. intros c' Hc'. apply Hsome. by right. }
  apply triple_at. intros d0 (Hpr & Hr & Hsome).
  eapply triple_conseq; [apply (IH c (tree d0) Hr)|by intros d ->| |].
  - intros [] d Hd. cbv beta in Hd. rewrite Hd.
    assert (below p (p ++ [c])) as Hb by (by eexists). split_and!.
    + eapply pruned_trans; [done|]. by apply without_pruned.
    + apply rooted_without; [by destruct p|done].
    + intros c' Hc'. rewrite without_lookup; [apply Hsome; by right|].
      intros [l Hl]. rewrite <- app_assoc in Hl. apply app_inv_head in Hl. injection Hl as -> _. done.
  - intros e d [Hpr' He]. split.
    + eapply pruned_trans; [done|]. eapply pruned_weaken; [|done]. by eexists.
    + intros Hdeep. apply He. split; [apply Hsome; by left|]. apply deep_enough_child.
      eapply deep_enough_pruned; [apply Hpr|done].
Qed.

(** What the walk below a path removes. *)
Lemma removeAtRecursive_spec depth ctx fd name s :
  rooted s ->
  triple (fun d => tree d = s) (removeAtRecursive depth ctx fd name)
    (fun _ d => tree d = without (walk fd ++ [name]) s)
    (stopped (walk fd ++ [name]) s (walkable depth (walk fd ++ [name]) s)).
Proof.
  revert fd name s. induction depth as [|depth IH]; intros fd name s Hs; simpl.
  { apply triple_fail. intros d Hd. split; [rewrite Hd; apply pruned_refl|]. by intros ?%walkable_now. }
  set (p := (walk fd ++ [name])%list) in *.
  assert (p <> []) as Hp by (unfold p; by destruct (walk fd)).
  eapply triple_bind; [apply ctx_Err_triple|]. intros [e|].
  { apply triple_fail. intros d [Hd He]. by apply stopped_unchanged. }
  eapply triple_conseq with (P' := fun d => tree d = s); [|naive_solver|intros ? ? Hd; exact Hd|intros ? ? Hd; exact Hd].
  eapply triple_bind.
  { eapply triple_err; [apply wrapped_stops, (Fstatat_spec fd name s)|]. intros e d. apply stopped_unchanged. }
  intros kind. apply triple_pure. intros Hkind. fold p in Hkind.
  case_bool_decide as Hdir; simpl.
  - subst kind. eapply triple_bind.
    { eapply triple_err; [apply wrapped_stops, (Openat_spec fd name s)|]. intros e d. apply stopped_unchanged. }
    intros cfd. apply triple_pure. intros _. apply triple_pure. intros Hcfd. fold p in Hcfd.
    apply triple_bind with (R := fun r d => match r with
      | Ok _ => pruned p s (tree d) /\ rooted (tree d)
      | Err e => stopped p s (deep_enough (S depth) p s) e d
      end).
    { eapply triple_attempt with (Q0 := fun r d => match r with
        | Ok _ => pruned p s (tree d) /\ rooted (tree d)
        | Err e => stopped p s (deep_enough (S depth) p s) e d
        end); [|intros r d Hd; exact Hd].
      eapply triple_bind.
      { eapply triple_err; [apply wrapped_stops, (Readdirnames_spec cfd s)|]. intros e d. apply stopped_unchanged. }
      intros children. apply triple_pure. intros Hnd.
      eapply triple_conseq; [apply (children_spec depth ctx cfd p s children); [done..|]| |intros ? ? Hd; exact Hd|intros ? ? Hd; exact Hd].
      + intros name' t Ht. rewrite <- Hcfd. by apply IH.
      + intros d [Hnames Hd]. rewrite Hd. split_and!; [apply pruned_refl|done|]. intros c Hc. rewrite <- Hcfd. by apply Hnames. }
    intros [[]|e].
    + apply triple_at. intros d0 [Hpr Hr]. set (t := tree d0) in *.
      assert (forall e d, tree d = t /\ errors_is ErrTooDeep e = false -> stopped p s (walkable (S depth) p s) e d) as Hstop.
      { intros e d [Hd He]. unfold stopped. by rewrite Hd. }
      eapply triple_conseq with (P' := fun d => tree d = t); [|by intros d ->|intros ? ? Hd; exact Hd|intros ? ? Hd; exact Hd].
      eapply triple_bind; [eapply triple_err; [apply wrapped_stops, (CloseFd_spec cfd t)|exact Hstop]|]. intros [].
      eapply triple_err; [|exact Hstop]. apply wrapped_stops.
      eapply triple_conseq; [apply (UnlinkatDir_spec fd name t)|intros d Hd; exact Hd| |intros e d Hd; exact Hd].
      intros [] d [Hempty Hd]. fold p in Hd. rewrite Hd. apply map_eq. intros k.
      destruct (decide (below p k)) as [Hb|Hb].
      * rewrite without_below by done. destruct (decide (k = p)) as [-> |Hne]; [apply lookup_delete_eq|].
        rewrite lookup_delete_ne by done. apply eq_None_not_Some. intros Hk.
        destruct Hb as [[|c l] ->]; [by rewrite app_nil_r in Hne|].
        change (c :: l) with ([c] ++ l)%list in Hk. rewrite app_assoc in Hk. apply rooted_ancestor in Hk; [|done|by destruct p].
        unfold p in Hk. rewrite <- app_assoc in Hk. simpl in Hk. rewrite Hempty in Hk. by destruct Hk.
      * rewrite without_lookup, lookup_delete_ne; [by apply Hpr|by intros ->|done].
    + apply triple_at. intros d0 [Hpr He].
      eapply triple_conseq with (P' := fun d => tree d = tree d0); [|by intros d ->|intros ? ? Hd; exact Hd|intros ? ? Hd; exact Hd].
      eapply triple_bind; [apply perform_close|]. intros []. apply triple_fail. intros d Hd.
      unfold stopped. rewrite Hd. split; [done|]. intros [_ Hdeep]. auto.
  - eapply triple_err; [|intros e d; apply stopped_unchanged]. apply wrapped_stops.
    eapply triple_conseq; [apply (Unlinkat_spec fd name s)|intros d Hd; exact Hd| |intros e d Hd; exact Hd].
    intros [] d [_ Hd]. fold p in Hd. rewrite Hd. symmetry. apply without_delete. intros k Hk Hsome.
    eapply leaf_below; eauto. congruence.
Qed.

(** ** The whole of [RemoveDir], for a root process *)

Lemma removeDirSecure_spec depth ctx path l base s :
  rooted s -> IsAbs path = true -> Clean path = path -> components path = (l ++ [base])%list ->
  triple (fun d => tree d = s) (removeDirSecure depth ctx path)
    (fun _ d => s !! components path = Some Directory /\ tree d = without (components path) s)
    (stopped (components path) s (deep_enough depth (components path) s)).
Proof.
  intros Hs Ha Hclean Hk. pose proof (Dir_Base path l base Ha Hk) as [Hdir Hbase]. rewrite Hclean in Hdir, Hbase.
  unfold removeDirSecure. cbv zeta. rewrite Hbase, Hk.
  eapply triple_bind.
  { eapply triple_err; [apply (openNoFollowChain_spec (Dir path) s); by apply Dir_IsAbs|]. intros e d. apply stopped_unchanged. }
  intros pfd. apply triple_pure. rewrite Hdir. intros Hpfd.
  set (p := (l ++ [base])%list). set (Q := fun (_ : unit) d => s !! p = Some Directory /\ tree d = without p s).
  set (E := stopped p s (deep_enough depth p s)).
  apply triple_bind with (R := fun r d => match r with Ok a => Q a d | Err e => E e d end).
  { eapply triple_attempt with (Q0 := fun r d => match r with Ok a => Q a d | Err e => E e d end);
      [|intros r d Hd; exact Hd].
    eapply triple_bind.
    { eapply triple_err; [apply wrapped_stops, (Fstatat_spec pfd base s)|]. intros e d. apply stopped_unchanged. }
    intros kind. apply triple_pure. rewrite Hpfd. fold p. intros Hkind.
    destruct kind; [apply triple_fail; intros d Hd; by apply stopped_unchanged..|].
    eapply triple_conseq; [apply (removeAtRecursive_spec depth ctx pfd base s Hs)|intros d Hd; exact Hd|..]; rewrite Hpfd; fold p.
    - intros [] d Hd. by split.
    - intros e d [Hpr He]. split; [done|]. intros Hdeep. apply He. split; [by eexists|done]. }
  intros r. apply triple_at. intros d0 Hr.
  eapply triple_conseq with (P' := fun d => tree d = tree d0); [|by intros d ->|intros ? ? Hd; exact Hd|intros ? ? Hd; exact Hd].
  eapply triple_bind; [apply perform_close|]. intros [].
  destruct r as [[]|e]; [apply triple_ret|apply triple_fail]; intros d Hd; unfold Q, E, stopped in *; by rewrite Hd.
Qed.

(** ** Without faults *)

(** The names of a tree are names. *)
Definition proper_names s : Prop := forall k c, is_Some (s !! (k ++ [c])%list) -> c <> "." /\ c <> "..".

Lemma proper_names_subset s t : t ⊆ s -> proper_names s -> proper_names t.
Proof. intros Ht Hs k c [x Hx]. apply (Hs k c). exists x. by eapply lookup_weaken. Qed.

Lemma quietly_known {A : Type} (P : D -> Prop) (m : M D A) Q E : quietly P m (fun _ _ => True) -> triple P m Q E -> quietly P m Q.
Proof. intros Hq Ht. eapply quietly_conseq; [by eapply quietly_triple|done|]. by intros a d [_ ?]. Qed.

Lemma quietly_at_tree {A : Type} (I : Tree -> Prop) (m : M D A) Q :
  (forall t, I t -> quietly (fun d => tree d = t) m Q) -> quietly (fun d => I (tree d)) m Q.
Proof. intros Hm env w Hq Hw. by apply (Hm _ Hw). Qed.

Definition never_ends (ctx : Ctx) : Prop := ctx_deadline ctx = None /\ forall n, ctx_cancelled ctx n = false.

Lemma ctx_Err_quiet ctx s : never_ends ctx -> quietly (fun d => tree d = s) (ctx_Err ctx) (fun r d => r = None /\ tree d = s).
Proof.
  intros [Hd Hc] env w _ Hw. exists None, (mkWorld (w_db w) (S (w_step w))).
  unfold ctx_Err, draw. rewrite Hd, Hc. done.
Qed.

Lemma children_quiet depth ctx cfd p children :
  walk cfd = p -> p <> [] -> NoDup children -> Forall (fun c => c <> "." /\ c <> "..") children ->
  (forall name t, rooted t -> proper_names t -> walkable depth (p ++ [name]) t ->
    quietly (fun d => tree d = t) (removeAtRecursive depth ctx cfd name)
      (fun _ d => tree d = without (p ++ [name]) t)) ->
  quietly (fun d => rooted (tree d) /\ proper_names (tree d) /\ deep_enough (S depth) p (tree d) /\
      tree d !! p = Some Directory /\ forall c, c ∈ children <-> is_Some (tree d !! (p ++ [c])%list))
    (for_each (fun child => if bool_decide (child = "." \/ child = "..") then mret tt
                            else removeAtRecursive depth ctx cfd child) children)
    (fun _ d => tree d !! p = Some Directory /\ forall c, tree d !! (p ++ [c])%list = None).
Proof.
  intros Hw Hp Hnd Hnames IH. induction Hnd as [|c children Hc Hnd IHl]; simpl.
  { apply quietly_ret. intros d (_ & _ & _ & Hdir & Hall). split; [done|]. intros c. apply eq_None_not_Some.
    intros Hs%Hall. by apply elem_of_nil in Hs. }
  apply Forall_cons in Hnames as [[Hdot Hdd] Hnames].
  apply quietly_bind with (R := fun _ d => rooted (tree d) /\ proper_names (tree d) /\
    deep_enough (S depth) p (tree d) /\ tree d !! p = Some Directory /\
    forall c, c ∈ children <-> is_Some (tree d !! (p ++ [c])%list)); [|intros []; by apply IHl].
  rewrite bool_decide_false by (by intros [|]).
  apply (quietly_at_tree (fun t => rooted t /\ proper_names t /\ deep_enough (S depth) p t /\
      t !! p = Some Directory /\ forall c', c' ∈ c :: children <-> is_Some (t !! (p ++ [c'])%list))).
  intros t (Hr & Hpn & Hdeep & Hdir & Hall).
  assert (below p (p ++ [c])) as Hb by (by eexists).
  eapply quietly_conseq; [apply (IH c t Hr Hpn)|done|].
  { split; [apply Hall; by left|by apply deep_enough_child]. }
  intros [] d ->. split_and!.
  - apply rooted_without; [by destruct p|done].
  - eapply proper_names_subset; [apply (without_pruned _ p t Hb)|done].
  - eapply deep_enough_pruned; [apply (without_pruned _ p t Hb)|done].
  - rewrite without_lookup; [done|]. intros [l Hl]. apply (f_equal length) in Hl. rewrite !length_app in Hl. simpl in Hl. lia.
  - intros c'. destruct (decide (c' = c)) as [-> |Hne].
    + rewrite without_below by done. split; [done|by intros []].
    + rewrite without_lookup; [|intros [l Hl]; rewrite <- app_assoc in Hl; apply app_inv_head in Hl; by injection Hl as ? _].
      rewrite <- Hall, elem_of_cons. split; [by right|by intros [|]].
Qed.

Lemma removeAtRecursive_quiet depth ctx fd name s :
  never_ends ctx -> rooted s -> proper_names s -> walkable depth (walk fd ++ [name]) s ->
  quietly (fun d => tree d = s) (removeAtRecursive depth ctx fd name)
    (fun _ d => tree d = without (walk fd ++ [name]) s).
Proof.
  intros Hctx. revert fd name s. induction depth as [|depth IH]; intros fd name s Hs Hnames Hwalk.
  { by apply walkable_now in Hwalk. }
  apply quietly_known with (E := stopped (walk fd ++ [name]) s (walkable (S depth) (walk fd ++ [name]) s));
    [|by apply removeAtRecursive_spec].
  simpl. set (p := (walk fd ++ [name])%list) in *. destruct Hwalk as [[kind Hkind] Hdeep].
  assert (p <> []) as Hp by (unfold p; by destruct (walk fd)).
  eapply quietly_bind; [by apply (ctx_Err_quiet ctx s)|]. intros r. apply quietly_pure. intros ->.
  eapply quietly_bind.
  { apply quietly_on_error. eapply quietly_known; [apply (Fstatat_quiet fd name s); by eexists|apply (Fstatat_spec fd name s)]. }
  intros kind'. apply quietly_pure. fold p. rewrite Hkind. intros [= <-].
  case_bool_decide as Hdir; simpl.
  2: { apply quietly_on_error. by apply (Unlinkat_quiet fd name s kind). }
  subst kind. eapply quietly_bind.
  { apply quietly_on_error. eapply quietly_known; [by apply (Openat_quiet fd name s)|apply (Openat_spec fd name s)]. }
  intros cfd. apply quietly_pure. intros _. apply quietly_pure. fold p. intros Hcfd.
  eapply quietly_bind.
  { apply quietly_attempt. eapply quietly_bind.
    { apply quietly_on_error. eapply quietly_known; [apply (Readdirnames_quiet cfd s); right; by rewrite Hcfd|apply (Readdirnames_spec cfd s)]. }
    intros children. apply quietly_pure. intros Hnd. apply quietly_pure. intros Hall. rewrite Hcfd in Hall.
    eapply quietly_conseq; [apply (children_quiet depth ctx cfd p children); try done| |intros ? ? Hd; exact Hd].
    - apply Forall_forall. intros c Hc. apply (Hnames p). by apply Hall.
    - intros name' t Hr Hpn Hwalk. rewrite <- Hcfd in Hwalk |- *. by apply IH.
    - intros d Hd. cbv beta. by rewrite Hd. }
  intros [[]|e]; [|intros env w _ (? & [=] & _)].
  apply quietly_conseq with (P' := fun d => tree d !! p = Some Directory /\ forall c, tree d !! (p ++ [c])%list = None)
    (Q' := fun _ _ => True); [|naive_solver|done].
  apply (quietly_at_tree (fun t => t !! p = Some Directory /\ forall c, t !! (p ++ [c])%list = None)).
  intros t [Hdir Hempty]. eapply quietly_bind.
  { apply quietly_on_error. eapply quietly_known; [|apply (CloseFd_spec cfd t)].
    eapply quietly_conseq; [apply CloseFd_quiet|done|done]. }
  intros []. apply quietly_on_error. apply (UnlinkatDir_quiet fd name t); [done|].
  intros c. specialize (Hempty c). unfold p in Hempty. by rewrite <- app_assoc in Hempty.
Qed.

Lemma open_chain_quiet fd names s :
  Forall named names -> (forall a c b, names = (a ++ c :: b)%list -> s !! (walk fd ++ a ++ [c])%list = Some Directory) ->
  quietly (fun d => tree d = s) (open_chain fd names) (fun _ _ => True).
Proof.
  intros Hn. revert fd. induction Hn as [|c names [(Hne & Hdot & _) _] _ IH]; intros fd Hdirs; simpl.
  { by apply quietly_ret. }
  rewrite bool_decide_false by (by intros [|]). eapply quietly_bind.
  { apply quietly_attempt. eapply quietly_known; [|apply (Openat_spec fd c s)].
    apply (Openat_quiet fd c s), (Hdirs [] c names). done. }
  intros r. eapply quietly_bind with (R := fun _ d => exists fd', r = Ok fd' /\ walk fd' = (walk fd ++ [c])%list /\ tree d = s).
  { apply quietly_at. intros d0 (fd' & -> & _ & Hfd' & Hd0). apply quietly_perform.
    eapply quietly_conseq with (P' := fun d => tree d = s) (Q' := fun _ d => tree d = s); [|by intros d ->|by eauto].
    eapply quietly_known; [|apply (CloseFd_spec fd s)]. eapply quietly_conseq; [apply CloseFd_quiet|done|done]. }
  intros []. apply quietly_at. intros d0 (fd' & -> & Hfd' & Hd0).
  eapply quietly_conseq; [apply (IH fd')|by intros d ->|done].
  intros a c' b Heq. rewrite Hfd', <- app_assoc. apply (Hdirs (c :: a) c' b). by rewrite Heq.
Qed.

Lemma rooted_parents s a c b :
  rooted s -> s !! (a ++ c :: b)%list = Some Directory -> s !! (a ++ [c])%list = Some Directory.
Proof.
  intros Hs. induction b as [|x b IH] using rev_ind; [done|]. intros Hd. apply IH.
  rewrite app_comm_cons, app_assoc in Hd. destruct (Hs (a ++ c :: b)%list x) as [He|?]; [by eexists|by destruct a|done].
Qed.

Lemma removeDirSecure_quiet depth ctx path l base s :
  never_ends ctx -> rooted s -> proper_names s -> IsAbs path = true -> Clean path = path ->
  components path = (l ++ [base])%list -> s !! components path = Some Directory ->
  deep_enough depth (components path) s ->
  quietly (fun d => tree d = s) (removeDirSecure depth ctx path) (fun _ _ => True).
Proof.
  intros Hctx Hs Hnames Ha Hclean Hk Hdir Hdeep. pose proof (Dir_Base path l base Ha Hk) as [Hl Hbase].
  rewrite Hclean in Hl, Hbase. rewrite Hk in Hdir, Hdeep. unfold removeDirSecure. cbv zeta. rewrite Hbase.
  pose proof (Dir_IsAbs path Ha) as Hda.
  eapply quietly_bind.
  { eapply quietly_known; [|by apply (openNoFollowChain_spec (Dir path) s)]. unfold openNoFollowChain. cbv zeta.
    eapply quietly_bind.
    { apply quietly_on_error. eapply quietly_known; [|apply (OpenRoot_spec s)].
      eapply quietly_conseq; [apply OpenRoot_quiet|done|done]. }
    intros fd. apply quietly_pure. intros Hfd. rewrite Clean_abs, Hl by done. case_bool_decide as Hroot; [by apply quietly_ret|].
    pose proof (components_named (Dir path) Hda) as Hn. rewrite Hl in Hn. rewrite chain_names by done.
    apply open_chain_quiet; [done|]. intros a c b ->. rewrite Hfd. simpl. apply (rooted_parents s a c (b ++ [base])); [done|].
    by rewrite <- app_assoc in Hdir. }
  intros pfd. apply quietly_pure. rewrite Hl. intros Hpfd.
  eapply quietly_bind.
  { apply quietly_attempt. eapply quietly_bind.
    { apply quietly_on_error. eapply quietly_known; [apply (Fstatat_quiet pfd base s); rewrite Hpfd; by eexists|apply (Fstatat_spec pfd base s)]. }
    intros kind. apply quietly_pure. rewrite Hpfd, Hdir. intros [= <-].
    rewrite <- Hpfd in Hdir, Hdeep. apply (removeAtRecursive_quiet depth ctx pfd base s); try done. }
  intros [[]|e]; [|intros env w _ (? & [=] & _)].
  eapply quietly_bind with (R := fun _ _ => True); [|intros []; by apply quietly_ret].
  apply quietly_perform. eapply quietly_conseq; [apply CloseFd_quiet|done|done].
Qed.
Lemma protected_prefix_abs path :
  IsAbs path = true -> IsUnderProtectedPrefix (D := D) (Clean path) = mret (protected_clean (Clean path)).
Proof.
  intros Ha. unfold IsUnderProtectedPrefix, absolute. rewrite Clean_idempotent, Clean_IsAbs by done. reflexivity.
Qed.

Lemma RemoveDir_spec depth ctx path s :
  Backend = Direct -> rooted s -> IsAbs path = true -> (forall k, is_Some (s !! k) -> (length k < depth)%nat) ->
  triple (fun d => tree d = s) (RemoveDir depth ctx path)
    (fun _ d => ~ protected (components path) /\ s !! components path = Some Directory /\
       tree d = without (components path) s)
    (fun e d => errors_is ErrTooDeep e = false /\ pruned (components path) s (tree d) /\
       (protected (components path) -> tree d = s)).
Proof.
  intros Hdirect Hs Ha Hdepth. pose proof (Clean_IsAbs path Ha) as Hc.
  unfold RemoveDir. apply triple_bind_lift; [intros [] _|].
  2: { intros e d Hv ->. split; [|split; [apply pruned_refl|done]]. unfold ValidatePath in Hv.
       repeat (case_bool_decide || destruct (has_byte _ _) || destruct (HasPrefix _ _)); by simplify_eq. }
  cbv zeta. rewrite Hc. simpl.
  rewrite protected_prefix_abs by done.
  apply triple_bind with (R := fun b d => b = protected_clean (Clean path) /\ tree d = s); [by apply triple_ret|].
  intros b. apply triple_pure. intros ->. destruct (protected_clean (Clean path)) eqn:Hprot.
  { apply triple_fail. intros d ->. split; [done|]. split; [apply pruned_refl|done]. }
  assert (~ protected (components path)) as Hnot by (rewrite <- protected_clean_spec by done; by rewrite Hprot).
  unfold direct. rewrite bool_decide_true by done.
  destruct (components path) as [|c rest] eqn:Hk using rev_ind; [by destruct Hnot; left|]. clear IHrest.
  eapply triple_conseq; [apply (removeDirSecure_spec depth ctx (Clean path) rest c s)|intros d Hd; exact Hd|..];
    rewrite ?components_Clean, ?Clean_idempotent by done; try done.
  - intros [] d [Hd Ht]. by rewrite Hk in Hd, Ht.
  - intros e d [Hpr He]. rewrite Hk in Hpr, He. split_and!; [|done|done]. apply He. intros k _ Hsome.
    specialize (Hdepth k Hsome). lia.
Qed.


(** C16: [RemoveDir] of a root process, whichever calls fail.  For a path that is protected, however it
    is written, nothing is removed; otherwise what the path names, a directory and not a link, is gone with
    all that was below it, or the call failed and only such entries are missing: links inside are
    removed and not followed, and the walk never fails for want of depth.  When no call fails it
    is gone. *)
Theorem RemoveDir_removes depth ctx path s :
  Backend = Direct -> rooted s -> IsAbs path = true -> (forall k, is_Some (s !! k) -> (length k < depth)%nat) ->
  triple (fun d => tree d = s) (RemoveDir depth ctx path)
    (fun _ d => ~ protected (components path) /\ s !! components path = Some Directory /\
       tree d = without (components path) s)
    (fun e d => errors_is ErrTooDeep e = false /\ pruned (components path) s (tree d) /\
       (protected (components path) -> tree d = s)) /\
  (never_ends ctx -> proper_names s -> ValidatePath path = Ok tt -> ~ protected (components path) ->
   s !! components path = Some Directory ->
   quietly (fun d => tree d = s) (RemoveDir depth ctx path) (fun _ d => tree d = without (components path) s)).
Proof.
  intros Hdirect Hs Ha Hdepth. pose proof (RemoveDir_spec depth ctx path s Hdirect Hs Ha Hdepth) as Hspec.
  split; [exact Hspec|]. intros Hctx Hnames Hvalid Hnot Hdir. pose proof (Clean_IsAbs path Ha) as Hc.
  eapply quietly_conseq; [eapply quietly_known; [|exact Hspec]|done|by intros [] d (_ & _ & ?)].
  unfold RemoveDir. rewrite Hvalid. cbv zeta. rewrite Hc. simpl. rewrite protected_prefix_abs by done.
  apply quietly_bind with (R := fun _ d => tree d = s); [by apply quietly_ret|]. intros [].
  apply quietly_bind with (R := fun b d => b = false /\ tree d = s).
  { apply quietly_ret. intros d Hd. split; [|done]. apply not_true_is_false. by rewrite protected_clean_spec. }
  intros b. apply quietly_pure. intros ->. unfold direct. rewrite bool_decide_true by done.
  destruct (components path) as [|c rest] eqn:Hk using rev_ind; [by destruct Hnot; left|]. clear IHrest.
  apply (removeDirSecure_quiet depth ctx (Clean path) rest c s);
    rewrite ?components_Clean, ?Clean_idempotent by done; try done; rewrite Hk; [done|].
  intros k _ Hsome. specialize (Hdepth k Hsome). lia.
Qed.
End removal.
