(* ===== verification/HostFiles.v ===== *)
(** * The programs' own files ([os])

    The calls that [server/cmd/cadestro], [server/internal/store] and
    [agent/internal/credentials] make on files and directories of their own, next to those
    of [OS], and what the type bits of an [os.FileMode] say. *)

From S2P Require Import Prelude Engine Pair Files.

Open Scope string_scope.
Open Scope Z_scope.

(** Bits 31, 27, 26, 25, 24, 21 and 19. *)
Definition ModeDir : Z := 2147483648.

Definition ModeType : Z := 2147483648 + 134217728 + 67108864 + 33554432 + 16777216 + 2097152 + 524288.

Definition IsDir (mode : Z) : bool := has_bit mode ModeDir.

Definition IsRegular (mode : Z) : bool := Z.land mode ModeType =? 0.

(** [info.Mode().Perm()&0o077 != 0]. *)
Definition others_access (mode : Z) : bool := negb (Z.land (Perm mode) 63 =? 0).

Example modes_ex :
  IsDir (ModeDir + 448) = true /\ IsRegular (ModeDir + 448) = false /\ IsRegular 384 = true /\
  others_access 384 = false /\ others_access 416 = true.
Proof. by vm_compute. Qed.

(** [os.MkdirAll], [os.Chmod] and the mode [os.Lstat] tells. *)
Class Folders (D : Type) := {
  os_MkdirAll : string -> Z -> M D unit;
  os_Chmod : string -> Z -> M D unit;
  os_LstatMode : string -> M D (option Z);
}.

(** [os.Getenv]. *)
Class EnvironmentVariables := { Getenv : string -> string }.

(** The SQLite driver and the migrations: [sql.Open], [goose.Up], [db.Close]. *)
Class Sqlite (D : Type) := {
  sqlite_Open : string -> M D unit;
  goose_Up : M D unit;
  sqlite_Close : M D unit;
}.

(** What follows [db, err := sql.Open(...)]: a failure closes the database. *)
Definition closeOnError {D} `{!Sqlite D} (text : string) (m : M D unit) : M D unit :=
  on_error m (fun err => _ ← perform sqlite_Close; fail (ErrWrap text err)).

(** How the drivers are asked to open a database. *)
Definition sqlite_pragmas : string :=
  "?_pragma=foreign_keys(1)&_pragma=busy_timeout(5000)&_pragma=journal_mode(WAL)&_pragma=synchronous(FULL)".
