(* ===== verification/CredentialStore.v ===== *)
(** * The agent's credential file ([agent/internal/credentials/credentials.go])

    [Save] and [Load] as calls on files and directories: a directory and a file only their
    owner may use, the file replaced as a whole by the manager of files.  [AgentCerts] and
    [AgentEnroll] see one file that is there or not; the theorem here says that these calls
    implement it. *)

From Stdlib Require Import Ascii.
From S2P Require Import Prelude Hash Engine Pair Strs Text Paths Exec Packages Files FilesFacts.
From S2P Require Import HostFiles AgentCerts.

Open Scope string_scope.
Open Scope Z_scope.

(** [encoding/json] on the credentials. *)
Class Json := {
  json_Marshal : Credentials -> option string;
  json_Unmarshal : string -> option Credentials;
}.

Definition credentialsFile : string := "credentials.json".
Definition DefaultDataDir : string := "/var/lib/cadestro".

(** A store; its manager of files has a direct runner. *)
Record Store := { dataDir : string }.

Definition NewStore (dir : string) : Store :=
  {| dataDir := if bool_decide (dir = EmptyString) then DefaultDataDir else dir |}.

Section store.
Context {D : Type} `{!OS D, !Folders D, !Runner D, !Json}.
Context (store : Store).

(** [filepath.Join(s.dataDir, credentialsFile)]. *)
Definition credPath : string := Clean (dataDir store ++ "/" ++ credentialsFile).

Definition writeFile (ctx : Ctx) (path data : string) : M D unit :=
  WriteFile ctx path data {| Write_Mode := 384; Write_Owner := ""; Write_Group := ""; Write_Backup := "" |}.

Definition requireOwnerOnlyDir (dir : string) : M D unit :=
  info ← wrapped "stat store directory" (os_Stat dir);
  match (info : option FileStat) with
  | None => fail (ErrWrap "stat store directory" os_ErrNotExist)
  | Some info =>
      if negb (IsDir (Stat_Mode info)) then fail (ErrNew "store path is not a directory")
      else if negb (Perm (Stat_Mode info) =? 448)
      then fail (ErrNew "store directory must have owner-only permissions (0700)")
      else mret tt
  end.

Definition SaveFile (ctx : Ctx) (creds : Credentials) : M D unit :=
  _ ← wrapped "create data directory" (os_MkdirAll (dataDir store) 448);
  _ ← wrapped "secure data directory" (os_Chmod (dataDir store) 448);
  _ ← requireOwnerOnlyDir (dataDir store);
  match json_Marshal creds with
  | None => fail (ErrNew "marshal credentials")
  | Some plaintext => wrapped "write credentials" (writeFile ctx credPath plaintext)
  end.

Definition LoadFile : M D Credentials :=
  _ ← requireOwnerOnlyDir (dataDir store);
  info ← wrapped "stat credentials" (os_LstatMode credPath);
  match (info : option Z) with
  | None => fail (ErrWrap "stat credentials" os_ErrNotExist)
  | Some mode =>
      if negb (IsRegular mode) || negb (Perm mode =? 384)
      then fail (ErrNew "credentials file must be a regular owner-only file (0600)")
      else
        plaintext ← wrapped "read credentials" (os_ReadFile credPath);
        match json_Unmarshal plaintext with
        | None => fail (ErrNew "unmarshal credentials")
        | Some creds => mret creds
        end
  end.
End store.

(** ** The laws *)

(** What is written reads back, but for the bytes that belong to no rune. *)
Class JsonLaws `{!Json} : Prop := {
  json_roundtrip : forall c text, json_Marshal c = Some text -> json_Unmarshal text = Some (json_credentials c);
}.

(** Directories: making and securing one leaves the files; what has no directory is not
    there. *)
Class FolderLaws (D X : Type) `{!OS D, !OSLaws D X, !Folders D} := {
  mode_at : D -> string -> option Z;
  MkdirAll_files : forall path mode s, IsAbs path = true ->
    triple (fun d => observe d = s) (os_MkdirAll path mode)
      (fun _ d => same_but [] s (observe d) /\ forall k, content (observe d) k = content s k)
      (fun _ d => same_but [] s (observe d) /\ forall k, content (observe d) k = content s k);
  Chmod_silent : forall path mode, silent observe (os_Chmod path mode);
  Stat_folder : forall path d0, IsAbs path = true ->
    triple (fun d => d = d0) (os_Stat path)
      (fun st d => d = d0 /\ Stat_Mode <$> st = mode_at d0 path /\
         (st = None -> forall k, components path `prefix_of` k -> Host_Entries (observe d0) !! k = None))
      (fun err d => d = d0 /\ errors_is os_ErrNotExist err = false);
  LstatMode_entry : forall path d0, IsAbs path = true ->
    triple (fun d => d = d0) (os_LstatMode path)
      (fun mode d => d = d0 /\ mode = mode_at d0 path /\
         (mode = None -> Host_Entries (observe d0) !! components path = None))
      (fun err d => d = d0 /\ errors_is os_ErrNotExist err = false);
}.

(** ** Refinement *)

(** Every outcome of the program on the host is one of an abstract program on a related
    state, which ends in a related state again; [agree] relates the errors. *)
Definition refines {D C A} (R : D -> C -> Prop) (agree : error -> error -> Prop) (m : M D A)
    (abstract : M C A -> Prop) : Prop :=
  forall env w c, R (w_db w) c ->
    let (r, w') := m env w in
    exists m' env' c' n' r', abstract m' /\ m' env' (mkWorld c 0) = (r', mkWorld c' n') /\ R (w_db w') c' /\
      match r, r' with
      | Ok a, Ok a' => a = a'
      | Err e, Err e' => agree e e'
      | _, _ => False
      end.

Section refinement.
Context {D C A : Type} (R : D -> C -> Prop) (agree : error -> error -> Prop) (abstract : M C A -> Prop).

(** An outcome of the abstract program. *)
Definition may (c : C) (r : result A) (c' : C) : Prop :=
  exists m' env' n', abstract m' /\ m' env' (mkWorld c 0) = (r, mkWorld c' n').

Lemma refines_triple (m : M D A) :
  (forall c, triple (fun d => R d c) m (fun a d => exists c', R d c' /\ may c (Ok a) c')
     (fun e d => exists e' c', R d c' /\ agree e e' /\ may c (Err e') c')) ->
  refines R agree m abstract.
Proof.
  intros Hm env w c Hc. specialize (Hm c env w Hc). destruct (m env w) as [[a|e] w'].
  - destruct Hm as (c' & HR & m' & env' & n' & Ha & Hrun). by exists m', env', c', n', (Ok a).
  - destruct Hm as (e' & c' & HR & He & m' & env' & n' & Ha & Hrun). by exists m', env', c', n', (Err e').
Qed.
End refinement.

(** An environment in which every call fails, or none. *)
Definition steady (faults : bool) : Env := {|
  env_fault _ := faults; env_now _ := 0; env_sql_now _ := 0; env_ulid _ := EmptyString; env_rand _ := None |}.

Section refined.
Context {D X : Type} `{!OS D, !OSLaws D X, !Folders D, !FolderLaws D X, !Runner D, !Json, !JsonLaws}.
Context (store : Store) (Habs : IsAbs (dataDir store) = true) (Hroot : Backend = Direct).
Implicit Types (s t : FileHost X) (creds : Credentials) (file : CredentialFile).

(** The credentials in the file. *)
Definition stores s file : Prop :=
  match file with
  | None => content s (components (credPath store)) = None
  | Some creds => exists text, content s (components (credPath store)) = Some text /\ json_Unmarshal text = Some creds
  end.

Definition holds_file (d : D) file : Prop := stores (observe d) file.

Lemma credPath_IsAbs : IsAbs (credPath store) = true.
Proof. apply Clean_IsAbs. by apply IsAbs_app. Qed.

Lemma credPath_components : components (credPath store) = (components (dataDir store) ++ [credentialsFile])%list.
Proof.
  unfold credPath. rewrite components_Clean by by apply IsAbs_app.
  unfold components. rewrite Habs, IsAbs_app by done.
  change (dataDir store ++ "/" ++ credentialsFile) with (dataDir store ++ String slash credentialsFile).
  rewrite Split_app, fold_left_app. change (Split credentialsFile slash) with [credentialsFile].
  generalize (fold_left (step_into true) (Split (dataDir store) slash) []). intros stack.
  change (reverse (credentialsFile :: stack) = (reverse stack ++ [credentialsFile])%list). by rewrite reverse_cons.
Qed.

(** Without an owner or a backup, a write that fails leaves the file. *)
Lemma writeFile_spec ctx path text s :
  IsAbs path = true ->
  triple (fun d => observe d = s) (writeFile ctx path text)
    (fun _ d => content (observe d) (components path) = Some text)
    (fun _ d => content (observe d) (components path) = content s (components path)).
Proof.
  intros Hp. unfold writeFile, WriteFile, direct. rewrite Hroot. simpl.
  apply not_cancelled_keeps; [|by intros _ d ->]. apply checks_keep; [intros _ _|by intros _ d ->].
  apply checks_keep; [intros _ _|by intros _ d ->]. apply keep_bind; [apply preserves_ret|intros []|by intros _ d ->].
  unfold writeDirect, set_ownership. simpl.
  eapply triple_bind with (R := fun _ d => content (observe d) (components path) = Some text);
    [apply wrapped_triple; eapply triple_conseq; [apply (safeReplaceFile_spec path text 384 true s Hp)|done| |]|].
  - intros [] d [_ [_ Hd]]. exact Hd.
  - by intros e d [_ Hd].
  - intros []. by apply triple_ret.
Qed.

Lemma missing_file s file k :
  stores s file -> k = components (credPath store) -> Host_Entries s !! k = None -> file = None.
Proof.
  intros Hs -> Hk. destruct file as [creds|]; [|done]. destruct Hs as (text & Htext & _).
  unfold content in Htext. by rewrite Hk in Htext.
Qed.

(** The directory: its mode, or that the file is not there. *)
Lemma requireOwnerOnlyDir_spec d0 :
  triple (fun d => d = d0) (requireOwnerOnlyDir (dataDir store))
    (fun _ d => d = d0 /\ exists mode, mode_at d0 (dataDir store) = Some mode /\ IsDir mode = true /\ Perm mode = 448)
    (fun err d => d = d0 /\ (errors_is os_ErrNotExist err = true ->
       Host_Entries (observe d0) !! components (credPath store) = None)).
Proof.
  unfold requireOwnerOnlyDir.
  eapply triple_bind with (R := fun st d => d = d0 /\ Stat_Mode <$> st = mode_at d0 (dataDir store) /\
    (st = None -> Host_Entries (observe d0) !! components (credPath store) = None)).
  { eapply triple_on_error.
    - eapply triple_conseq; [by apply (Stat_folder (dataDir store) d0)|done| |intros e d Hd; exact Hd].
      intros st d (-> & Hst & Hnone). split_and!; [done..|]. intros Hst'. apply (Hnone Hst').
      rewrite credPath_components. by exists [credentialsFile].
    - intros err. apply triple_fail. intros d [-> He]. split; [done|]. simpl. by rewrite He. }
  intros [info|]; apply triple_at; intros d1 (-> & Hst & Hnone).
  - destruct (IsDir (Stat_Mode info)) eqn:Hdir; simpl; [|apply triple_fail; by intros d ->].
    destruct (Perm (Stat_Mode info) =? 448) eqn:Hperm; simpl; [|apply triple_fail; by intros d ->].
    apply triple_ret. intros d ->. split; [done|]. exists (Stat_Mode info). split_and!; [done..|lia].
  - apply triple_fail. intros d ->. split; [done|]. intros _. by apply Hnone.
Qed.

(** ** Saving *)

Lemma SaveFile_outcomes ctx creds file :
  triple (fun d => holds_file d file) (SaveFile store ctx creds)
    (fun _ d => holds_file d (Some (json_credentials creds))) (fun _ d => holds_file d file).
Proof.
  unfold SaveFile. pose proof credPath_IsAbs as Hc.
  assert (forall s t, stores s file -> (forall k, content t k = content s k) -> stores t file) as Hsame.
  { intros s t Hs Hk. destruct file as [c|]; unfold stores in *; by rewrite Hk. }
  eapply triple_bind with (R := fun _ d => holds_file d file).
  { apply wrapped_triple. apply triple_at. intros d0 Hd.
    eapply triple_conseq; [by apply (MkdirAll_files (dataDir store) 448 (observe d0))|by intros d ->|..];
      intros ? d [_ Hk]; by eapply Hsame. }
  intros []. eapply triple_bind with (R := fun _ d => holds_file d file).
  { apply wrapped_triple. apply (silent_on_host (fun s => stores s file)), Chmod_silent. }
  intros []. eapply triple_bind with (R := fun _ d => holds_file d file).
  { apply triple_at. intros d0 Hd. eapply triple_conseq; [apply (requireOwnerOnlyDir_spec d0)|done|..].
    - by intros [] d [-> _].
    - by intros e d [-> _]. }
  intros []. destruct (json_Marshal creds) as [text|] eqn:Htext; [|by apply triple_fail].
  apply wrapped_triple. apply triple_at. intros d0 Hd.
  eapply triple_conseq; [by apply (writeFile_spec ctx (credPath store) text (observe d0))|by intros d ->|..].
  - intros [] d Hnew. exists text. split; [exact Hnew|]. by apply json_roundtrip.
  - intros e d Hold. unfold holds_file, stores in *. by destruct file; rewrite Hold.
Qed.

(** ** Loading *)

Lemma LoadFile_outcomes d0 file :
  holds_file d0 file ->
  triple (fun d => d = d0) (LoadFile store)
    (fun creds d => holds_file d file /\ file = Some creds /\
       (exists mode, mode_at d0 (dataDir store) = Some mode /\ IsDir mode = true /\ Perm mode = 448) /\
       exists mode, mode_at d0 (credPath store) = Some mode /\ IsRegular mode = true /\ Perm mode = 384)
    (fun err d => holds_file d file /\ (errors_is os_ErrNotExist err = true -> file = None)).
Proof.
  intros Hfile. unfold LoadFile. pose proof credPath_IsAbs as Hc.
  eapply triple_bind.
  { eapply triple_conseq; [apply (requireOwnerOnlyDir_spec d0)|done|intros a d Hd; exact Hd|].
    intros e d [-> He]. split; [done|]. intros Hn. eapply missing_file; [exact Hfile|reflexivity|by apply He]. }
  intros []. apply triple_at. intros d1 [-> Hdir].
  eapply triple_bind with (R := fun info d => d = d0 /\ info = mode_at d0 (credPath store) /\ (info = None -> file = None)).
  { eapply triple_on_error.
    - eapply triple_conseq; [by apply (LstatMode_entry (credPath store) d0)|done| |intros e d Hd; exact Hd].
      intros info d (-> & Hinfo & Hnone). split_and!; [done..|]. intros Hi.
      eapply missing_file; [exact Hfile|reflexivity|by apply Hnone].
    - intros err. apply triple_fail. intros d [-> He]. split; [done|]. simpl. by rewrite He. }
  intros [mode|]; apply triple_at; intros d1 (-> & Hmode & Hnone).
  2: { apply triple_fail. intros d ->. split; [done|]. intros _. by apply Hnone. }
  destruct (negb (IsRegular mode) || negb (Perm mode =? 384)) eqn:Hperm; [apply triple_fail; by intros d ->|].
  apply orb_false_iff in Hperm as [Hreg%negb_false_iff Hperm%negb_false_iff%Z.eqb_eq].
  eapply triple_bind with (R := fun text d => holds_file d file /\ content (observe d0) (components (credPath store)) = Some text).
  { eapply triple_on_error.
    - eapply triple_conseq; [by apply (ReadFile_spec (credPath store) (observe d0))|by intros d ->| |intros e d Hd; exact Hd].
      intros text d [Htext Hd]. split; [|done]. unfold holds_file. by rewrite Hd.
    - intros err. apply triple_fail. intros d [He Hd]. split; [unfold holds_file; by rewrite Hd|].
      simpl. intros Hn.
      eapply missing_file; [exact Hfile|reflexivity|by apply He]. }
  intros text. apply triple_at. intros d1 [Hd1 Htext].
  assert (exists creds, file = Some creds /\ json_Unmarshal text = Some creds) as (creds & Hcreds & ->).
  { unfold holds_file, stores in Hfile. destruct file as [creds|]; [|congruence].
    destruct Hfile as (text' & Htext' & Hcreds). exists creds. split; [done|]. congruence. }
  apply triple_ret. intros d ->. split_and!; [done..|by exists mode].
Qed.
Lemma SaveFile_refines ctx creds :
  refines holds_file (fun _ _ => True) (SaveFile store ctx creds) (fun m => m = AgentCerts.Save creds).
Proof.
  apply refines_triple. intros file. eapply triple_conseq; [apply SaveFile_outcomes|intros d Hd; exact Hd|..].
  - intros [] d Hd. exists (Some (json_credentials creds)). split; [exact Hd|].
    by exists (AgentCerts.Save creds), (steady false), 1%nat.
  - intros e d Hd. exists ErrDatabase, file. split_and!; [exact Hd|done|].
    by exists (AgentCerts.Save creds), (steady true), 1%nat.
Qed.

Lemma LoadFile_refines :
  refines holds_file (fun e e' => errors_is os_ErrNotExist e = errors_is os_ErrNotExist e') (LoadFile store)
    (fun m => exists unreadable, m = Load unreadable).
Proof.
  apply refines_triple. intros file. apply triple_at. intros d0 Hfile.
  eapply triple_conseq; [by apply (LoadFile_outcomes d0 file)|done|..].
  - intros creds d (Hd & -> & _). exists (Some creds). split; [exact Hd|].
    exists (Load (fun _ => false)), (steady false), 1%nat. split; [by eexists|done].
  - intros e d [Hd He]. destruct (errors_is os_ErrNotExist e) eqn:Hn.
    + rewrite (He eq_refl) in *. exists (ErrWrap "stat credentials" ErrNotExist), None. split_and!; [exact Hd|done|].
      exists (Load (fun _ => false)), (steady false), 1%nat. split; [by eexists|done].
    + exists (ErrNew "stat store directory"), file. split_and!; [exact Hd|done|].
      exists (Load (fun _ => true)), (steady false), 1%nat. split; [by eexists|done].
Qed.
End refined.

(** C13: The calls on files and directories implement the credential file that the enrollment,
    the rotation of certificates and the reconnection are proved against.  Whatever fails or
    is interrupted, a [Save] is one of the file that is replaced as a whole or left, and a
    [Load] is one that reads what is there, says that nothing is, or cannot tell; what was
    saved is loaded again.  Credentials are loaded only from a regular file of mode 0600 in a
    directory of mode 0700. *)
Theorem credential_store_refines {D X} `{!OS D, !OSLaws D X, !Folders D, !FolderLaws D X, !Runner D, !Json, !JsonLaws}
    dir ctx creds :
  let store := NewStore dir in
  IsAbs (dataDir store) = true -> Backend = Direct ->
  refines (holds_file (X := X) store) (fun _ _ => True) (SaveFile store ctx creds) (fun m => m = AgentCerts.Save creds) /\
  refines (holds_file (X := X) store) (fun e e' => errors_is os_ErrNotExist e = errors_is os_ErrNotExist e')
    (LoadFile store) (fun m => exists unreadable, m = Load unreadable) /\
  (forall file, triple (fun d => holds_file (X := X) store d file) (_ ← SaveFile store ctx creds; LoadFile store)
     (fun loaded _ => loaded = json_credentials creds) (fun _ _ => True)) /\
  (forall d0 file, holds_file (X := X) store d0 file ->
     triple (fun d => d = d0) (LoadFile store)
       (fun _ _ => (exists mode, mode_at d0 (dataDir store) = Some mode /\ IsDir mode = true /\ Perm mode = 448) /\
          exists mode, mode_at d0 (credPath store) = Some mode /\ IsRegular mode = true /\ Perm mode = 384)
       (fun _ d => holds_file (X := X) store d file)).
Proof.
  intros store Habs Hroot. split_and!; [by apply SaveFile_refines|by apply LoadFile_refines|..].
  - intros file. eapply triple_bind; [eapply triple_conseq; [by apply (SaveFile_outcomes store Habs Hroot ctx creds file)|done|intros a d Hd; exact Hd|done]|].
    intros []. apply triple_at. intros d0 Hd0. eapply triple_conseq; [by apply (LoadFile_outcomes store Habs d0 _ Hd0)|done| |done].
    by intros loaded d (_ & [= <-] & _).
  - intros d0 file Hfile. eapply triple_conseq; [by apply (LoadFile_outcomes store Habs d0 file Hfile)|done|..].
    + by intros c d (_ & _ & Hdir & Hmode).
    + by intros e d [Hd _].
Qed.
