(* ===== verification/Services.v ===== *)
(** * Services ([sdk/sys/service])

    The manager of systemd's units: what each call asks of [systemctl], and the unit files
    it writes.  It works over a runner of commands and a manager of files, the interface
    [FsManager], which [Files] implements. *)

From Stdlib Require Import Ascii.
From S2P Require Import Prelude Engine Pair Strs Text Words Paths Exec Packages Units Files.

Open Scope string_scope.
Open Scope Z_scope.

Record UnitStatus := { Unit_Enabled : bool; Unit_Active : bool; Unit_Masked : bool; Unit_Static : bool }.

(** The interface [fsManager]. *)
Class FsManager (D : Type) := {
  fsm_ReadFile : Ctx -> string -> M D string;
  fsm_WriteFile : Ctx -> string -> string -> WriteOptions -> M D unit;
  fsm_Remove : Ctx -> string -> M D unit;
}.

#[export] Instance files_manager {D} `{!OS D, !Runner D} : FsManager D :=
  {| fsm_ReadFile := ReadFile; fsm_WriteFile := WriteFile; fsm_Remove := Remove |}.

(** What a query may answer. *)
Definition enabled_outputs : list string :=
  ["enabled"; "enabled-runtime"; "linked"; "linked-runtime"; "alias"; "masked"; "masked-runtime"; "static"; "indirect";
   "disabled"; "generated"; "transient"].

Definition active_outputs : list string := ["active"; "reloading"; "inactive"; "failed"; "activating"; "deactivating"].

Definition validSystemctlOutputs (verb : string) : option (list string) :=
  if bool_decide (verb = "is-enabled") then Some enabled_outputs
  else if bool_decide (verb = "is-active") then Some active_outputs else None.

(** Thirty seconds. *)
Definition systemctlQueryTimeout : Z := 30000000000.

Definition ensureCtx {D} (ctx : Ctx) : M D Ctx :=
  match ctx_deadline ctx with Some _ => mret ctx | None => WithTimeout ctx systemctlQueryTimeout end.

Definition unit_path (name : string) : string := "/etc/systemd/system/" ++ name.

Definition unit_options : WriteOptions :=
  {| Write_Mode := 420; Write_Owner := "root"; Write_Group := "root"; Write_Backup := EmptyString |}.

Section services.
Context {D : Type} `{!Runner D, !FsManager D}.

Definition systemctl (ctx : Ctx) (args : list string) : M D ExecResult :=
  ctx ← ensureCtx ctx; runRead ctx "systemctl" args.

Definition query_unit (ctx : Ctx) (name verb : string) : M D string :=
  res ← wrapped "systemctl" (systemctl ctx [verb; "--"; name]);
  let trimmed := TrimSpace (Exec_Stdout res) in
  match validSystemctlOutputs verb with
  | None => fail (ErrNew "unsupported query verb")
  | Some allowed => if bool_decide (trimmed ∈ allowed) then mret trimmed else fail (ErrNew "unrecognised output")
  end.

Definition mutate (ctx : Ctx) (args : list string) : M D unit := runChecked ctx "systemctl" args.

Definition Status (ctx : Ctx) (name : string) : M D UnitStatus :=
  _ ← lift (ValidateUnitName name);
  enabled ← query_unit ctx name "is-enabled";
  active ← query_unit ctx name "is-active";
  mret {| Unit_Enabled := bool_decide (enabled ∈ ["enabled"; "enabled-runtime"]);
          Unit_Active := bool_decide (active = "active");
          Unit_Masked := bool_decide (enabled ∈ ["masked"; "masked-runtime"]);
          Unit_Static := bool_decide (enabled ∈ ["static"; "indirect"; "generated"]) |}.

Definition IsEnabled (ctx : Ctx) (name : string) : M D bool :=
  _ ← lift (ValidateUnitName name);
  out ← query_unit ctx name "is-enabled";
  mret (bool_decide (out ∈ ["enabled"; "enabled-runtime"])).

Definition IsMasked (ctx : Ctx) (name : string) : M D bool :=
  _ ← lift (ValidateUnitName name);
  out ← query_unit ctx name "is-enabled";
  mret (bool_decide (out ∈ ["masked"; "masked-runtime"])).

Definition IsActive (ctx : Ctx) (name : string) : M D bool :=
  _ ← lift (ValidateUnitName name);
  out ← query_unit ctx name "is-active";
  mret (bool_decide (out = "active")).

(** The calls that change one unit. *)
Inductive UnitMutation := UEnable | UDisable | UEnableNow | UDisableNow | UStart | UStop | URestart | UReload | UMask | UUnmask.

Definition mutation_args (m : UnitMutation) : list string :=
  match m with
  | UEnable => ["enable"]
  | UDisable => ["disable"]
  | UEnableNow => ["enable"; "--now"]
  | UDisableNow => ["disable"; "--now"]
  | UStart => ["start"]
  | UStop => ["stop"]
  | URestart => ["restart"]
  | UReload => ["reload"]
  | UMask => ["mask"]
  | UUnmask => ["unmask"]
  end.

Definition mutate_unit (m : UnitMutation) (ctx : Ctx) (name : string) : M D unit :=
  _ ← lift (ValidateUnitName name);
  mutate ctx (mutation_args m ++ ["--"; name])%list.

Definition DaemonReload (ctx : Ctx) : M D unit := mutate ctx ["daemon-reload"].

Definition WriteUnit (ctx : Ctx) (name content : string) : M D unit :=
  _ ← lift (ValidateUnitName name);
  _ ← lift (validateUnitContent content);
  fsm_WriteFile ctx (unit_path name) content unit_options.

Definition ReadUnit (ctx : Ctx) (name : string) : M D string :=
  _ ← lift (ValidateUnitName name);
  fsm_ReadFile ctx (unit_path name).

Definition RemoveUnit (ctx : Ctx) (name : string) : M D unit :=
  _ ← lift (ValidateUnitName name);
  wrapped "remove systemd unit" (fsm_Remove ctx (unit_path name)).

Definition NeedsReload (ctx : Ctx) (name : string) : M D bool :=
  _ ← lift (ValidateUnitName name);
  res ← wrapped "systemctl show" (systemctl ctx ["show"; "--property=NeedDaemonReload"; "--"; name]);
  let out := TrimSpace (Exec_Stdout res) in
  if bool_decide (out = "NeedDaemonReload=yes") then mret true
  else if bool_decide (out = "NeedDaemonReload=no") then mret false
  else fail (ErrNew "unexpected NeedDaemonReload output").

(** The first number among the words. *)
Fixpoint first_number (words : list string) : option Z :=
  match words with
  | [] => None
  | tok :: words => let (v, ok) := ParseInt tok in if ok : bool then Some v else first_number words
  end.

Definition Version (ctx : Ctx) : M D Z :=
  res ← wrapped "systemctl --version" (systemctl ctx ["--version"]);
  match first_number (Fields (Cut (Exec_Stdout res) line_feed).1.1) with
  | Some v => mret v
  | None => fail (ErrNew "no version token")
  end.
End services.
