(* ===== verification/ServicesFacts.v ===== *)
(** * What the service manager does

    A record of the commands and the file operations each call asks for; and [Files] as
    the manager of files [Services] asks for. *)

From Stdlib Require Import Ascii.
From S2P Require Import Prelude Engine Pair Strs Text Words Paths Exec Packages Units Files.
From S2P Require Import FilesFacts Services.

Open Scope string_scope.
Open Scope Z_scope.

(** ** The calls on a unit *)

Inductive ServiceCall :=
| CallStatus | CallIsEnabled | CallIsMasked | CallIsActive | CallNeedsReload
| CallMutate (m : UnitMutation)
| CallWriteUnit (content : string)
| CallReadUnit
| CallRemoveUnit.

Definition call_unit {D} `{!Runner D, !FsManager D} (call : ServiceCall) (ctx : Ctx) (name : string) : M D unit :=
  match call with
  | CallStatus => _ ← Status ctx name; mret tt
  | CallIsEnabled => _ ← IsEnabled ctx name; mret tt
  | CallIsMasked => _ ← IsMasked ctx name; mret tt
  | CallIsActive => _ ← IsActive ctx name; mret tt
  | CallNeedsReload => _ ← NeedsReload ctx name; mret tt
  | CallMutate m => mutate_unit m ctx name
  | CallWriteUnit content => WriteUnit ctx name content
  | CallReadUnit => _ ← ReadUnit ctx name; mret tt
  | CallRemoveUnit => RemoveUnit ctx name
  end.

(** What a call asks the host for. *)
Inductive Effect :=
| Ran (c : Command)
| Wrote (path content : string) (opts : WriteOptions)
| ReadAt (path : string)
| Removed (path : string).

(** [systemctl], with the unit as its only operand. *)
Definition unit_command (escalate : bool) (flags : list string) (name : string) : Effect :=
  Ran (command escalate [] None "systemctl" (flags ++ ["--"; name])%list).

Definition effects_of (call : ServiceCall) (name : string) : list Effect :=
  match call with
  | CallStatus => [unit_command false ["is-enabled"] name; unit_command false ["is-active"] name]
  | CallIsEnabled | CallIsMasked => [unit_command false ["is-enabled"] name]
  | CallIsActive => [unit_command false ["is-active"] name]
  | CallNeedsReload => [unit_command false ["show"; "--property=NeedDaemonReload"] name]
  | CallMutate m => [unit_command true (mutation_args m) name]
  | CallWriteUnit content => [Wrote (unit_path name) content unit_options]
  | CallReadUnit => [ReadAt (unit_path name)]
  | CallRemoveUnit => [Removed (unit_path name)]
  end.

(** What lets a call through: the name is one component of a path, of the bytes names are
    made of, and a unit to be written says nothing unsafe. *)
Definition accepted (call : ServiceCall) (name : string) : Prop :=
  named name /\ all_bytes unit_byte name = true /\
  match call with
  | CallWriteUnit content =>
      forall raw key value, raw ∈ joinContinuationLines content -> directive raw = Some (key, value) ->
        safe_directive key value
  | _ => True
  end.

Lemma unit_path_components name : named name -> components (unit_path name) = ["etc"; "systemd"; "system"; name].
Proof.
  intros Hn. apply (components_Join (["etc"; "systemd"; "system"] ++ [name])). apply Forall_app.
  split; [by repeat constructor|by apply Forall_singleton].
Qed.

(** ** A host that keeps a record *)

Section recording.
Context {D : Type} `{!Runner D, !FsManager D}.

Definition record_effect (e : Effect) : M (list Effect) unit := fun _ w =>
  (Ok tt, mkWorld (w_db w ++ [e])%list (w_step w)).

Definition recorded {A} (e : Effect) (m : M D A) : M (D * list Effect) A :=
  _ ← on_snd (record_effect e); on_fst m.

#[local] Instance effect_runner : Runner (D * list Effect) :=
  {| Run ctx c := recorded (Ran c) (Run ctx c); Backend := Backend |}.

#[local] Instance effect_files : FsManager (D * list Effect) := {|
  fsm_ReadFile ctx path := recorded (ReadAt path) (fsm_ReadFile ctx path);
  fsm_WriteFile ctx path content opts := recorded (Wrote path content opts) (fsm_WriteFile ctx path content opts);
  fsm_Remove ctx path := recorded (Removed path) (fsm_Remove ctx path);
|}.

Implicit Types (r : list Effect).

(** The record so far. *)
Definition record_is r (d : D * list Effect) : Prop := d.2 = r.

Lemma recorded_triple {A} r e (m : M D A) :
  triple (record_is r) (recorded e m) (fun _ => record_is (r ++ [e])) (fun _ => record_is (r ++ [e])).
Proof.
  unfold recorded, record_is. eapply triple_bind with (R := fun _ d => d.2 = (r ++ [e])%list).
  - apply triple_on_snd. intros d env [l n] Hl. simpl in *. by subst.
  - intros []. apply triple_on_fst. intros l env w Hw. by destruct (m env w) as [[a|err] w'].
Qed.

(** A call whose effects are some of a list, all of it when it succeeds. *)
Definition performs {A} (effects : list Effect) (m : M (D * list Effect) A) : Prop :=
  forall r, triple (record_is r) m (fun _ => record_is (r ++ effects)%list)
    (fun _ d => exists n, record_is (r ++ take n effects)%list d).

Lemma performs_none {A} (m : M (D * list Effect) A) :
  (forall r, preserves (record_is r) m) -> performs [] m.
Proof.
  intros Hm r. eapply triple_conseq; [apply (Hm r)|done|..]; intros ? d Hd; rewrite ?app_nil_r; [done|].
  exists 0%nat. by rewrite app_nil_r.
Qed.

Lemma performs_ret {A} (a : A) : performs [] (mret a).
Proof. apply performs_none. intros r. apply preserves_ret. Qed.

Lemma performs_fail {A} effects e : performs effects (fail e : M (D * list Effect) A).
Proof. intros r. apply triple_fail. intros d Hd. exists 0%nat. by rewrite app_nil_r. Qed.

Lemma performs_bind {A B} e1 e2 (m : M (D * list Effect) A) (k : A -> M (D * list Effect) B) :
  performs e1 m -> (forall a, performs e2 (k a)) -> performs (e1 ++ e2) (m ≫= k).
Proof.
  intros Hm Hk r. eapply triple_bind.
  - eapply triple_conseq; [apply (Hm r)|done|intros a d Hd; exact Hd|]. intros ? d [n Hd].
    exists (min n (length e1)). red in Hd |- *. rewrite Hd. f_equal.
    rewrite take_app_le by lia. destruct (decide (n <= length e1)%nat).
    + by rewrite Nat.min_l.
    + rewrite Nat.min_r by lia. by rewrite !take_ge by lia.
  - intros a. eapply triple_conseq; [apply (Hk a)|done|..].
    + intros ? d Hd. by rewrite app_assoc.
    + intros ? d [n Hd]. exists (length e1 + n)%nat. red in Hd |- *. rewrite Hd, <- app_assoc. f_equal.
      by rewrite take_app_add.
Qed.

Lemma performs_recorded {A} e (m : M D A) : performs [e] (recorded e m).
Proof. intros r. eapply triple_conseq; [apply recorded_triple|done..|]. intros ? d Hd. by exists 1%nat. Qed.

Lemma performs_wrapped {A} effects text (m : M (D * list Effect) A) :
  performs effects m -> performs effects (wrapped text m).
Proof. intros Hm r. eapply triple_on_error; [apply Hm|]. intros e. by apply triple_fail. Qed.

Lemma performs_runRead ctx name args : performs [Ran (command false [] None name args)] (runRead ctx name args).
Proof.
  unfold runRead. apply (performs_bind [_] []); [apply performs_recorded|]. intros [res [err|]];
    [apply performs_fail|apply performs_ret].
Qed.

Lemma performs_runChecked ctx name args : performs [Ran (command true [] None name args)] (runChecked ctx name args).
Proof.
  unfold runChecked, run_as. apply (performs_bind [_] []).
  - apply (performs_bind [_] []); [apply performs_recorded|]. intros [res [err|]]; [apply performs_fail|apply performs_ret].
  - intros res. unfold cmdError. destruct (_ =? 0); [apply performs_ret|apply performs_fail].
Qed.

Lemma performs_systemctl ctx args : performs [Ran (command false [] None "systemctl" args)] (systemctl ctx args).
Proof.
  unfold systemctl. apply (performs_bind [] [_]); [|intros ?; apply performs_runRead].
  apply performs_none. intros r. unfold ensureCtx, WithTimeout, now. preserve.
Qed.

Lemma performs_query ctx name verb : performs [unit_command false [verb] name] (query_unit ctx name verb).
Proof.
  unfold query_unit. apply (performs_bind [_] []); [apply performs_wrapped, performs_systemctl|]. intros res.
  destruct (validSystemctlOutputs verb); [|apply performs_fail]. case_bool_decide; [apply performs_ret|apply performs_fail].
Qed.

Lemma performs_read_if {A} ctx name verb (f : string -> A) :
  performs [unit_command false [verb] name] (out ← query_unit ctx name verb; mret (f out)).
Proof. apply (performs_bind [_] []); [apply performs_query|]. intros out. apply performs_ret. Qed.

(** The outcome of a call of the manager. *)
Definition effects_triple {A} (call : ServiceCall) name r (m : M (D * list Effect) A) : Prop :=
  triple (record_is r) m (fun _ d => accepted call name /\ record_is (r ++ effects_of call name)%list d)
    (fun _ d => record_is r d \/
       (accepted call name /\ exists n, record_is (r ++ take n (effects_of call name))%list d)).

Lemma accepted_performs {A} call name r (m : M (D * list Effect) A) :
  accepted call name -> performs (effects_of call name) m -> effects_triple call name r m.
Proof.
  intros Ha Hm. eapply triple_conseq; [apply (Hm r)|done|..]; intros ? d Hd; [by split|]. by right.
Qed.

(** The name is checked first. *)
Lemma name_checked {A} call name r (k : unit -> M (D * list Effect) A) :
  (named name -> all_bytes unit_byte name = true -> effects_triple call name r (k tt)) ->
  effects_triple call name r (lift (ValidateUnitName name) ≫= k).
Proof.
  intros Hk. apply triple_bind_lift; [|intros e d _; by left]. intros [] Hv.
  apply ValidateUnitName_spec in Hv as [Hb Hn]. by apply Hk.
Qed.

Lemma discard {A} call name r (m : M (D * list Effect) A) :
  effects_triple call name r m -> effects_triple call name r (_ ← m; mret tt).
Proof. intros Hm. eapply triple_bind; [exact Hm|]. intros a. by apply triple_ret. Qed.

Lemma call_effects call ctx name r : effects_triple call name r (call_unit call ctx name).
Proof.
  destruct call; cbn [call_unit]; try apply discard; apply name_checked; intros Hn Hb;
    try (apply accepted_performs; [by split_and!|]).
  - apply (performs_bind [_] [_]); [apply performs_query|]. intros enabled. apply performs_read_if.
  - apply performs_read_if.
  - apply performs_read_if.
  - apply performs_read_if.
  - apply (performs_bind [_] []); [apply performs_wrapped, performs_systemctl|]. intros res. cbv zeta.
    repeat case_bool_decide; first [apply performs_ret|apply performs_fail].
  - apply performs_runChecked.
  - apply triple_bind_lift; [|intros e d _; by left]. intros [] Hc.
    pose proof (proj1 (validateUnitContent_ok content) Hc) as Hsafe.
    apply accepted_performs; [by split_and!|]. apply performs_recorded.
  - apply performs_recorded.
  - apply performs_wrapped, performs_recorded.
Qed.

End recording.

(** ** The files a manager of services works with *)

(** What a manager of files promises of the file at an absolute path, and of what is not
    files. *)
Class FsManagerLaws (D X : Type) `{!FsManager D} := {
  file_at : D -> list string -> option string;
  rest_of : D -> X;
  fsm_ReadFile_spec : forall ctx path f x, IsAbs path = true ->
    triple (fun d => file_at d (components path) = f /\ rest_of d = x) (fsm_ReadFile ctx path)
      (fun data d => f = Some data /\ file_at d (components path) = f /\ rest_of d = x)
      (fun err d => (errors_is os_ErrNotExist err = true -> f = None) /\
         file_at d (components path) = f /\ rest_of d = x);
  fsm_WriteFile_spec : forall ctx path data opts f x, IsAbs path = true -> Write_Backup opts = EmptyString ->
    triple (fun d => file_at d (components path) = f /\ rest_of d = x) (fsm_WriteFile ctx path data opts)
      (fun _ d => file_at d (components path) = Some data /\ rest_of d = x)
      (fun _ d => (file_at d (components path) = f \/ file_at d (components path) = Some data) /\ rest_of d = x);
}.

(** The process is root's. *)
Class RootProcess (D : Type) `{!Runner D} : Prop := backend_direct : Backend = Direct.

Section files.
Context {D X : Type} `{!OS D, !OSLaws D X, !Runner D, !RootProcess D}.

Lemma ReadFile_file ctx path s :
  IsAbs path = true ->
  triple (fun d => observe d = s) (ReadFile ctx path)
    (fun data d => content s (components path) = Some data /\ observe d = s)
    (fun err d => (errors_is os_ErrNotExist err = true -> content s (components path) = None) /\ observe d = s).
Proof.
  intros Ha. unfold ReadFile. apply triple_bind_lift.
  - intros [] _. unfold direct. rewrite backend_direct, bool_decide_true by done.
    eapply triple_conseq; [by apply (ReadFile_spec path s)|done|done|]. intros err d [Hnone Hd]. split; [|done].
    intros He. unfold content. by rewrite (Hnone He).
  - intros err d Hv ->. split; [|done]. unfold ValidatePath in Hv.
    repeat (case_bool_decide || destruct (has_byte _ _) || destruct (HasPrefix _ _)); simplify_eq; intros He; by vm_compute in He.
Qed.

#[export] Program Instance files_laws : FsManagerLaws D X :=
  {| file_at d := content (observe d); rest_of d := Host_Rest (observe d) |}.
Next Obligation.
  intros ctx path f x Ha. apply triple_at. intros d0 [Hf Hx].
  eapply triple_conseq; [by apply (ReadFile_file ctx path (observe d0))|by intros d ->|..]; intros ? d [Hc ->];
    rewrite <- Hf; by split.
Qed.
Next Obligation.
  intros ctx path data opts f x Ha Hb. apply triple_at. intros d0 [Hf Hx].
  assert (backups opts = []) as Hnone by (unfold backups; by rewrite bool_decide_true).
  eapply triple_conseq; [apply (WriteFile_spec ctx path data opts (observe d0))|by intros d ->|..].
  - apply backend_direct.
  - done.
  - by rewrite Hnone.
  - intros [] d [([Hr _] & Hc & _) _]. split; [done|congruence].
  - intros ? d [([Hr _] & Hc & _)|([Hr _] & Hc & _)]; (split; [|congruence]); [left; congruence|by right].
Qed.
End files.
