(* ===== verification/AgentUnit.v ===== *)
(** * The agent's own unit ([agent/internal/unit])

    The unit file the agent runs under: it is rendered from a template, written when it
    differs from what is on the disk, and systemd is asked to read it again.  The manager
    of units is the interface [UnitManager], which [Services] implements. *)

From Stdlib Require Import Ascii.
From S2P Require Import Prelude Engine Pair Strs Text Words Paths Exec Packages Units Files.
From S2P Require Import Services.

Open Scope string_scope.
Open Scope Z_scope.

Definition ServiceName : string := "cadestrod".
Definition UnitName : string := ServiceName ++ ".service".

(** The interface [unit.Manager]. *)
Class UnitManager (D : Type) := {
  um_ReadUnit : Ctx -> string -> M D string;
  um_WriteUnit : Ctx -> string -> string -> M D unit;
  um_DaemonReload : Ctx -> M D unit;
  um_NeedsReload : Ctx -> string -> M D bool;
}.

#[export] Instance services_unit_manager {D} `{!Runner D, !FsManager D} : UnitManager D :=
  {| um_ReadUnit := ReadUnit; um_WriteUnit := WriteUnit; um_DaemonReload := DaemonReload; um_NeedsReload := NeedsReload |}.

Record UnitParams := { BinaryPath : string; DataDir : string }.

(** The template, around its two actions. *)
Definition unit_head : string := "[Unit]
Description=Cadestro Agent
After=network-online.target
Wants=network-online.target

[Service]
Type=simple
User=root
Group=root
".

Definition unit_tail : string := "
Restart=always
RestartSec=10
RuntimeDirectory=cadestro
RuntimeDirectoryMode=0700
ProtectControlGroups=true
StandardOutput=journal
StandardError=journal
SyslogIdentifier=cadestrod

[Install]
WantedBy=multi-user.target
".

Definition exec_line (params : UnitParams) : string :=
  "ExecStart=" ++ BinaryPath params ++ " -data-dir=" ++ DataDir params ++ " -log-level=info".

Definition unitTemplate (params : UnitParams) : string := unit_head ++ exec_line params ++ unit_tail.

(** Space, tab, line ends, quotation marks, the backslash, percent and dollar. *)
Definition interpreted (c : ascii) : bool :=
  one_of " '\%$" c || bool_decide (c ∈ [tab; "013"; line_feed; "034"])%char.

Definition validateUnitPath (field value : string) : result unit :=
  if negb (HasPrefix value "/") then Err (ErrNew (field ++ " must be an absolute path"))
  else if negb (all_bytes (fun c => negb (interpreted c)) value)
  then Err (ErrNew (field ++ " contains a character interpreted by systemd")) else Ok tt.

Definition Render (params : UnitParams) : result string :=
  _ ← validateUnitPath "BinaryPath" (BinaryPath params);
  _ ← validateUnitPath "DataDir" (DataDir params);
  Ok (unitTemplate params).

Section sync.
Context {D : Type} `{!UnitManager D}.

(** A step of [sync]: its failure ends it, with what [changed] is by then. *)
Definition or_report (changed : bool) (text : string) (m : M D unit) (k : M D (bool * option error))
    : M D (bool * option error) :=
  r ← attempt m;
  match r with Ok _ => k | Err err => mret (changed, Some (ErrWrap text err)) end.

Definition apply_rendered (ctx : Ctx) (params : UnitParams) (current : string) : M D (bool * option error) :=
  match Render params with
  | Err err => mret (false, Some err)
  | Ok rendered =>
      if bool_decide (current = rendered) then
        pending ← attempt (um_NeedsReload ctx UnitName);
        match pending with
        | Ok true => or_report false "reload systemd" (um_DaemonReload ctx) (mret (false, None))
        | _ => mret (false, None)
        end
      else
        or_report false "write unit" (um_WriteUnit ctx UnitName rendered)
          (or_report true "reload systemd" (um_DaemonReload ctx) (mret (true, None)))
  end.

Definition sync (ctx : Ctx) (params : UnitParams) (create : bool) : M D (bool * option error) :=
  current ← attempt (um_ReadUnit ctx UnitName);
  match current with
  | Ok current => apply_rendered ctx params current
  | Err err =>
      if errors_is os_ErrNotExist err then
        if create then apply_rendered ctx params EmptyString else mret (false, None)
      else mret (false, Some (ErrWrap "read unit" err))
  end.

Definition Reconcile (ctx : Ctx) (params : UnitParams) : M D (bool * option error) := sync ctx params false.

Definition EnsureInstalled (ctx : Ctx) (params : UnitParams) : M D (option error) :=
  r ← sync ctx params true; mret (snd (r : bool * option error)).
End sync.

(** ** What the manager promises *)

(** The unit's file, and what systemd runs by, which is what the file was when it was last
    read. *)
Class UnitManagerLaws (D : Type) `{!UnitManager D} := {
  on_disk : D -> option string;
  loaded : D -> option string;
  um_ReadUnit_spec : forall ctx f l,
    triple (fun d => on_disk d = f /\ loaded d = l) (um_ReadUnit ctx UnitName)
      (fun current d => f = Some current /\ on_disk d = f /\ loaded d = l)
      (fun err d => (errors_is os_ErrNotExist err = true -> f = None) /\ on_disk d = f /\ loaded d = l);
  um_WriteUnit_spec : forall ctx content f l,
    triple (fun d => on_disk d = f /\ loaded d = l) (um_WriteUnit ctx UnitName content)
      (fun _ d => on_disk d = Some content /\ loaded d = l)
      (fun _ d => (on_disk d = f \/ on_disk d = Some content) /\ loaded d = l);
  um_DaemonReload_spec : forall ctx f l,
    triple (fun d => on_disk d = f /\ loaded d = l) (um_DaemonReload ctx)
      (fun _ d => on_disk d = f /\ loaded d = f)
      (fun _ d => on_disk d = f /\ (loaded d = l \/ loaded d = f));
  um_NeedsReload_spec : forall ctx f l,
    triple (fun d => on_disk d = f /\ loaded d = l) (um_NeedsReload ctx UnitName)
      (fun pending d => (pending = false -> l = f) /\ on_disk d = f /\ loaded d = l)
      (fun _ d => on_disk d = f /\ loaded d = l);
}.

Section synced.
Context {D : Type} `{!UnitManager D, !UnitManagerLaws D}.

(** Whether systemd can be asked if the unit has to be read again. *)
Definition reload_answers (ctx : Ctx) : Prop := forall f l,
  triple (fun d => on_disk d = f /\ loaded d = l) (um_NeedsReload ctx UnitName) (fun _ _ => True) (fun _ _ => False).

(** The rendered unit is on the disk, [changed] says whether it was not before, and systemd
    runs by it, unless it could not be asked. *)
Definition installed (ctx : Ctx) (params : UnitParams) (f l : option string) (changed : bool) (d : D) : Prop :=
  exists content, Render params = Ok content /\ on_disk d = Some content /\
    changed = negb (bool_decide (f = Some content)) /\ (loaded d = Some content \/ (~ reload_answers ctx /\ f = Some content /\ loaded d = l)).

(** Every failure leaves the file as it was or as it should be, and systemd with what it
    had or with one of these. *)
Definition interrupted (params : UnitParams) (f l : option string) (d : D) : Prop :=
  (on_disk d = f \/ exists content, Render params = Ok content /\ on_disk d = Some content) /\
  (loaded d = l \/ loaded d = on_disk d).

Definition synced (ctx : Ctx) (params : UnitParams) (f l : option string) (r : bool * option error) (d : D) : Prop :=
  match r.2 with None => installed ctx params f l r.1 d | Some _ => interrupted params f l d end.

(** A call that fails is not one that never does. *)
Lemma triple_not_total {A} P (m : M D A) Q E :
  triple P m Q E -> triple P m Q (fun e d => E e d /\ ~ triple P m (fun _ _ => True) (fun _ _ => False)).
Proof.
  intros Hm env w Hw. specialize (Hm env w Hw). destruct (m env w) as [[a|e] w'] eqn:Hrun; [done|].
  split; [done|]. intros Ht. specialize (Ht env w Hw). by rewrite Hrun in Ht.
Qed.

Lemma or_report_triple P changed text (m : M D unit) k R E (Q : bool * option error -> D -> Prop) :
  triple P m (fun _ => R) (fun _ => E) -> triple R k Q (fun _ _ => False) ->
  (forall err d, E d -> Q (changed, Some (ErrWrap text err)) d) ->
  triple P (or_report changed text m k) Q (fun _ _ => False).
Proof.
  intros Hm Hk HE. unfold or_report.
  eapply triple_bind with (R := fun r d => match r with Ok _ => R d | Err _ => E d end).
  - by eapply triple_attempt with (Q0 := fun r d => match r with Ok _ => R d | Err _ => E d end).
  - intros [u|err]; [done|]. apply triple_ret. apply HE.
Qed.

Lemma reload_triple ctx changed f l (k : M D (bool * option error)) (Q : bool * option error -> D -> Prop) :
  triple (fun d => on_disk d = f /\ loaded d = f) k Q (fun _ _ => False) ->
  (forall err d, on_disk d = f -> (loaded d = l \/ loaded d = f) -> Q (changed, Some (ErrWrap "reload systemd" err)) d) ->
  triple (fun d => on_disk d = f /\ loaded d = l) (or_report changed "reload systemd" (um_DaemonReload ctx) k) Q
    (fun _ _ => False).
Proof.
  intros Hk HE. eapply or_report_triple; [|exact Hk|].
  - eapply triple_conseq; [apply (um_DaemonReload_spec ctx f l)|done|by intros []|intros ? d Hd; exact Hd].
  - intros err d [Hf Hl]. by apply HE.
Qed.

Lemma apply_rendered_spec ctx params f l current :
  match f with Some c => current = c | None => current = EmptyString end ->
  triple (fun d => on_disk d = f /\ loaded d = l) (apply_rendered ctx params current) (synced ctx params f l)
    (fun _ _ => False).
Proof.
  intros Hcur. unfold apply_rendered. destruct (Render params) as [rendered|err] eqn:Hr.
  2: { apply triple_ret. intros d [Hf Hl]. split; by left. }
  assert (rendered <> EmptyString) as Hne.
  { unfold Render, mbind, result_bind in Hr. destruct (validateUnitPath "BinaryPath" _); [|done].
    destruct (validateUnitPath "DataDir" _); [|done]. by injection Hr as <-. }
  case_bool_decide as Hsame.
  - assert (f = Some rendered) as -> by (destruct f; congruence).
    assert (forall d, on_disk d = Some rendered -> (loaded d = Some rendered \/ (~ reload_answers ctx /\ loaded d = l)) ->
      synced ctx params (Some rendered) l (false, None) d) as Hok.
    { intros d Hd Hl. exists rendered. split_and!; [done..|by rewrite bool_decide_true|]. tauto. }
    set (Q0 := fun (r : result bool) d =>
      match r with Ok false => l = Some rendered | Ok true => True | Err _ => ~ reload_answers ctx end /\
      on_disk d = Some rendered /\ loaded d = l).
    eapply triple_bind with (R := Q0).
    + eapply triple_attempt with (Q0 := Q0); [|done].
      eapply triple_conseq; [apply (triple_not_total _ _ _ _ (um_NeedsReload_spec ctx (Some rendered) l))|done|..].
      * intros [] d (Hp & Hd); split; auto.
      * intros ? d [Hd Hn]. split; [|done]. intros Ha. apply Hn, Ha.
    + intros [[|]|err]; apply triple_pure; intros Hpending.
      * apply reload_triple; [apply triple_ret; intros d [Hd Hl]; auto|]. intros err d Hd Hl. split; [by left|].
        rewrite Hd. tauto.
      * apply triple_ret. intros d [Hd Hl]. apply Hok; [done|]. left. congruence.
      * apply triple_ret. intros d [Hd Hl]. auto.
  - assert (f <> Some rendered) as Hf by (intros ->; congruence).
    eapply or_report_triple with (R := fun d => on_disk d = Some rendered /\ loaded d = l).
    + eapply triple_conseq; [apply (um_WriteUnit_spec ctx rendered f l)|done|by intros []|intros ? d Hd; exact Hd].
    + apply reload_triple.
      * apply triple_ret. intros d [Hd Hl]. exists rendered. split_and!; [done..|by rewrite bool_decide_false|by left].
      * intros err d Hd Hl. split; [right; by exists rendered|]. rewrite Hd. tauto.
    + intros err d [[Hd|Hd] Hl]; (split; [|by left]); [by left|right; by exists rendered].
Qed.

Lemma sync_spec ctx params create f l :
  triple (fun d => on_disk d = f /\ loaded d = l) (sync ctx params create)
    (fun r d => if negb create && bool_decide (f = None) then r.1 = false /\ on_disk d = None /\ loaded d = l
                else synced ctx params f l r d)
    (fun _ _ => False).
Proof.
  unfold sync.
  set (Q0 := fun (r : result string) d =>
    match r with Ok c => f = Some c | Err err => errors_is os_ErrNotExist err = true -> f = None end /\
    on_disk d = f /\ loaded d = l).
  eapply triple_bind with (R := Q0).
  { eapply triple_attempt with (Q0 := Q0); [|done]. eapply triple_conseq; [apply (um_ReadUnit_spec ctx f l)|done..]. }
  intros [current|err]; apply triple_pure; intros Hf.
  - eapply triple_conseq; [apply (apply_rendered_spec ctx params f l current); by subst f|done| |done].
    intros r d Hr. subst f. by rewrite bool_decide_false, andb_false_r.
  - destruct (errors_is os_ErrNotExist err) eqn:He.
    + specialize (Hf eq_refl). subst f. rewrite bool_decide_true by done. destruct create; simpl.
      * by apply apply_rendered_spec.
      * apply triple_ret. by intros d [Hd Hl].
    + apply triple_ret. intros d [Hd Hl]. destruct (negb create && bool_decide (f = None)) eqn:Hc.
      * apply andb_true_iff in Hc as [_ ->%bool_decide_eq_true]. done.
      * split; by left.
Qed.

Lemma EnsureInstalled_spec ctx params f l :
  triple (fun d => on_disk d = f /\ loaded d = l) (EnsureInstalled ctx params)
    (fun err d => match err with None => exists changed, installed ctx params f l changed d
                  | Some _ => interrupted params f l d end) (fun _ _ => False).
Proof.
  unfold EnsureInstalled. eapply triple_bind; [apply (sync_spec ctx params true)|]. intros [changed err].
  apply triple_ret. intros d Hd. unfold synced in Hd. simpl in *. destruct err; [done|by exists changed].
Qed.

End synced.
