(* ===== verification/AgentUnitFacts.v ===== *)
(** * The agent's unit and systemd

    The rendered unit against the policy on unit files, and [Services] as the manager
    that [AgentUnit] asks for, over files and commands that do what they promise. *)

From Stdlib Require Import Ascii.
From S2P Require Import Prelude Engine Pair Strs Text Words Paths Exec Packages Units Files.
From S2P Require Import FilesFacts Services.
From S2P Require Import ServicesFacts AgentUnit.

Open Scope string_scope.
Open Scope Z_scope.

(** ** The rendered unit *)

Definition head_lines : list string := Eval vm_compute in removelast (lines unit_head).
Definition tail_lines : list string := Eval vm_compute in List.tl (lines unit_tail).

Lemma lines_join a b c :
  lines (a ++ String line_feed (b ++ String line_feed c))%string = (lines a ++ lines b ++ lines c)%list.
Proof. by rewrite !lines_app. Qed.

Lemma unit_lines params :
  has_byte line_feed (exec_line params) = false ->
  lines (unitTemplate params) = (head_lines ++ exec_line params :: tail_lines)%list.
Proof.
  intros Hl. unfold unitTemplate.
  change unit_head with (Join head_lines (String line_feed EmptyString) ++ String line_feed EmptyString).
  change unit_tail with (String line_feed (Join tail_lines (String line_feed EmptyString))).
  rewrite <- append_assoc.
  change ((String line_feed EmptyString ++ exec_line params ++ String line_feed (Join tail_lines (String line_feed EmptyString)))%string)
    with (String line_feed (exec_line params ++ String line_feed (Join tail_lines (String line_feed EmptyString)))%string).
  rewrite lines_join. f_equal. unfold lines at 1. by rewrite Split_single.
Qed.

(** Lines that do not end in a backslash stand by themselves. *)
Lemma join_lines_id l :
  Forall (fun x => trailingBackslashes (TrimRight x (fun c => Ascii.eqb c " " || Ascii.eqb c tab)) = 0%nat) l ->
  join_lines None l = l.
Proof. induction 1 as [|x l Hx Hl IH]; [done|]. cbn [join_lines]. cbv zeta. rewrite Hx. by f_equal. Qed.

Lemma ends_in_o s :
  trailingBackslashes (TrimRight (s ++ "o") (fun c => Ascii.eqb c " " || Ascii.eqb c tab)) = 0%nat.
Proof.
  unfold trailingBackslashes, TrimRight. fold (rev (s ++ "o")). rewrite rev_app.
  change (rev "o" ++ rev s)%string with (String "o" (rev s)). rewrite (span_stops _ (String "o" (rev s)) eq_refl). cbn [snd].
  fold (rev (String "o" (rev s))). rewrite rev_cons, rev_rev. fold (rev (s ++ "o")). rewrite rev_app. reflexivity.
Qed.

(** The words of the command. *)
Definition exec_words (params : UnitParams) : list string :=
  [BinaryPath params; "-data-dir=" ++ DataDir params; "-log-level=info"].

(** Paths without white space of any kind; [Render] refuses that of ASCII's which systemd
    knows. *)
Definition plain_params (params : UnitParams) : Prop :=
  spaceless (BinaryPath params) = true /\ spaceless (DataDir params) = true.

Lemma exec_words_words params : plain_params params -> IsAbs (BinaryPath params) = true -> Forall is_word (exec_words params).
Proof.
  intros [Hb Hd] Ha. repeat constructor; try done. intros He. by rewrite He in Ha.
Qed.

Lemma exec_line_words params :
  exec_line params = ("ExecStart=" ++ Join (exec_words params) (String space EmptyString))%string.
Proof.
  unfold exec_line, exec_words. cbn [Join String.concat]. rewrite <- !append_assoc. reflexivity.
Qed.

Lemma exec_value params :
  plain_params params -> IsAbs (BinaryPath params) = true ->
  exec_command (Join (exec_words params) (String space EmptyString)) = exec_words params.
Proof.
  intros Hp Ha. unfold exec_command.
  assert (span (one_of "-@+!:") (Join (exec_words params) (String space EmptyString))
    = (EmptyString, Join (exec_words params) (String space EmptyString))) as ->.
  - apply HasPrefix_app in Ha as [r Hr]. apply span_stops. unfold exec_words. by rewrite Hr.
  - cbn [snd]. pose proof (exec_words_words params Hp Ha) as Hw. rewrite TrimSpace_words by done. by apply Fields_Join.
Qed.

Lemma exec_directive params :
  plain_params params -> IsAbs (BinaryPath params) = true ->
  directive (exec_line params) = Some ("execstart", Join (exec_words params) (String space EmptyString)).
Proof.
  intros Hp Ha. pose proof (exec_words_words params Hp Ha) as Hw. unfold directive.
  assert (TrimSpace (exec_line params) = exec_line params) as ->.
  { rewrite exec_line_words.
    change ("ExecStart=" ++ Join (exec_words params) (String space EmptyString))%string
      with (Join (("ExecStart=" ++ BinaryPath params)%string :: List.tl (exec_words params)) (String space EmptyString)).
    apply TrimSpace_words; [|done]. inversion_clear Hw. constructor; [|done]. split; [done|].
    apply (class_spaceless_app (fun c => letter_or_digit c || one_of "-=" c)); [done..|apply Hp]. }
  assert (exec_words params <> []) as Hne by done. pose proof (TrimSpace_words _ Hw Hne) as Ht.
  rewrite exec_line_words. revert Ht. generalize (Join (exec_words params) (String space EmptyString)).
  intros value Ht. change (HasPrefix ("ExecStart=" ++ value) "#") with false.
  change (HasPrefix ("ExecStart=" ++ value) ";") with false. rewrite bool_decide_false by done.
  change (Cut ("ExecStart=" ++ value) "=") with ("ExecStart", value, true). cbv beta iota.
  rewrite Ht. reflexivity.
Qed.


(** ** The manager of services as the manager of the unit *)

Definition agent_unit_file : list string := ["etc"; "systemd"; "system"; UnitName].

Lemma agent_unit_path : IsAbs (unit_path UnitName) = true /\ components (unit_path UnitName) = agent_unit_file.
Proof. by split; vm_compute. Qed.

Definition daemon_reload : Command := command true [] None "systemctl" ["daemon-reload"].

Definition needs_reload : Command :=
  command false [] None "systemctl" ["show"; "--property=NeedDaemonReload"; "--"; UnitName].

(** What systemd is documented to do with the agent's unit: it runs by what it has read, and
    says that it has to read again unless the file is what it has read. *)
Class Systemd (D X : Type) `{!Runner D, !FsManager D, !FsManagerLaws D X} := {
  read_unit : X -> option string;
  reload_spec : forall ctx f l,
    triple (fun d => file_at d agent_unit_file = f /\ read_unit (rest_of d) = l) (Run ctx daemon_reload)
      (fun o d => file_at d agent_unit_file = f /\ (read_unit (rest_of d) = l \/ read_unit (rest_of d) = f) /\
         (snd (o : outcome) = None -> Exec_ExitCode o.1 = 0 -> read_unit (rest_of d) = f))
      (fun _ d => file_at d agent_unit_file = f /\ (read_unit (rest_of d) = l \/ read_unit (rest_of d) = f));
  show_spec : forall ctx f l,
    triple (fun d => file_at d agent_unit_file = f /\ read_unit (rest_of d) = l) (Run ctx needs_reload)
      (fun o d => (TrimSpace (Exec_Stdout (fst (o : outcome))) = "NeedDaemonReload=no" -> l = f) /\
         file_at d agent_unit_file = f /\ read_unit (rest_of d) = l)
      (fun _ d => file_at d agent_unit_file = f /\ read_unit (rest_of d) = l);
}.

Section unit_manager.
Context {D X : Type} `{!Runner D, !FsManager D, !FsManagerLaws D X, !Systemd D X}.

(** The unit's file, and what systemd has read. *)
Definition unit_state (f l : option string) (d : D) : Prop :=
  file_at d agent_unit_file = f /\ read_unit (rest_of d) = l.

Lemma name_valid {A} (k : unit -> M D A) : lift (ValidateUnitName UnitName) ≫= k = k tt.
Proof. by vm_compute. Qed.

Lemma unit_state_at {A} f l (m : M D A) Q E :
  (forall x, read_unit x = l ->
     triple (fun d => file_at d agent_unit_file = f /\ rest_of d = x) m Q E) ->
  triple (unit_state f l) m Q E.
Proof.
  intros Hm. apply triple_at. intros d0 [Hf Hl]. eapply triple_conseq; [by apply (Hm (rest_of d0))|by intros d ->|done..].
Qed.

Lemma ReadUnit_state ctx f l :
  triple (unit_state f l) (ReadUnit ctx UnitName) (fun current d => f = Some current /\ unit_state f l d)
    (fun err d => (errors_is os_ErrNotExist err = true -> f = None) /\ unit_state f l d).
Proof.
  unfold ReadUnit. destruct agent_unit_path as [Ha Hc]. rewrite name_valid. apply unit_state_at. intros x <-.
  pose proof (fsm_ReadFile_spec ctx (unit_path UnitName) f x Ha) as Hr. rewrite Hc in Hr.
  eapply triple_conseq; [exact Hr|done|..]; intros ? d (H1 & H2 & H3); split; [done|split; congruence|done|split; congruence].
Qed.

Lemma WriteUnit_state ctx text f l :
  triple (unit_state f l) (WriteUnit ctx UnitName text) (fun _ => unit_state (Some text) l)
    (fun _ d => (unit_state f l d \/ unit_state (Some text) l d)).
Proof.
  unfold WriteUnit. destruct agent_unit_path as [Ha Hc]. rewrite name_valid.
  apply triple_bind_lift; [|intros e d _ Hd; by left]. intros [] _. apply unit_state_at. intros x <-.
  pose proof (fsm_WriteFile_spec ctx (unit_path UnitName) text unit_options f x Ha eq_refl) as Hw. rewrite Hc in Hw.
  eapply triple_conseq; [exact Hw|done|..].
  - intros [] d (H1 & H2). split; congruence.
  - intros ? d ([H1|H1] & H2); [left|right]; split; congruence.
Qed.

Lemma DaemonReload_state ctx f l :
  triple (unit_state f l) (DaemonReload ctx) (fun _ => unit_state f f) (fun _ d => unit_state f l d \/ unit_state f f d).
Proof.
  unfold DaemonReload, mutate, runChecked, run_as.
  eapply triple_bind with (R := fun (res : ExecResult) d => file_at d agent_unit_file = f /\
    (read_unit (rest_of d) = l \/ read_unit (rest_of d) = f) /\ (Exec_ExitCode res = 0 -> read_unit (rest_of d) = f)).
  - eapply triple_bind; [eapply triple_conseq; [apply (reload_spec ctx f l)|done|intros o d Hd; exact Hd|]|].
    + intros ? d [Hf [Hl|Hl]]; [by left|by right].
    + intros [res [err|]]; simpl.
      * apply triple_fail. intros d (Hf & [Hl|Hl] & _); [by left|by right].
      * apply triple_ret. intros d (Hf & Hl & Hz). split_and!; auto.
  - intros res. unfold cmdError. destruct (Z.eqb_spec (Exec_ExitCode res) 0).
    + apply triple_ret. intros d (Hf & _ & Hz). split; auto.
    + apply triple_fail. intros d (Hf & [Hl|Hl] & _); [by left|by right].
Qed.

Lemma NeedsReload_state ctx f l :
  triple (unit_state f l) (NeedsReload ctx UnitName) (fun pending d => (pending = false -> l = f) /\ unit_state f l d)
    (fun _ => unit_state f l).
Proof.
  unfold NeedsReload, systemctl, runRead, wrapped. rewrite name_valid.
  eapply triple_bind with (R := fun (res : ExecResult) d =>
    (TrimSpace (Exec_Stdout res) = "NeedDaemonReload=no" -> l = f) /\ unit_state f l d).
  - eapply triple_on_error with (E' := fun _ => unit_state f l); [|intros e; by apply triple_fail].
    eapply triple_bind with (R := fun _ => unit_state f l).
    + unfold ensureCtx, WithTimeout, now. change (preserves (unit_state f l) (ensureCtx (D := D) ctx)).
      unfold ensureCtx, WithTimeout, now. preserve.
    + intros ctx'. eapply triple_bind; [apply (show_spec ctx' f l)|]. intros [res [err|]]; simpl.
      * apply triple_fail. by intros d (_ & Hd).
      * apply triple_ret. by intros d Hd.
  - intros res. apply triple_pure. intros Hno. cbv zeta. repeat case_bool_decide.
    + by apply triple_ret.
    + apply triple_ret. intros d Hd. split; auto.
    + by apply triple_fail.
Qed.

#[export] Program Instance services_unit_laws : UnitManagerLaws D :=
  {| on_disk d := file_at d agent_unit_file; loaded d := read_unit (rest_of d) |}.
Next Obligation. intros ctx f l. apply ReadUnit_state. Qed.
Next Obligation.
  intros ctx text f l. eapply triple_conseq; [apply (WriteUnit_state ctx text f l)|done..|].
  intros ? d [[Hf Hl]|[Hf Hl]]; split; auto.
Qed.
Next Obligation.
  intros ctx f l. eapply triple_conseq; [apply (DaemonReload_state ctx f l)|done..|].
  intros ? d [[Hf Hl]|[Hf Hl]]; split; auto.
Qed.
Next Obligation. intros ctx f l. apply NeedsReload_state. Qed.
End unit_manager.
