(* ===== verification/AgentMain.v ===== *)
(** * The agent's process ([agent/cmd/cadestrod])

    The command line and what its commands come to: [enroll] ([cmd_enroll.go]),
    [install-unit] and the reconciliation at startup ([cmd_installunit.go]), and the start of
    the agent itself ([main.go]) with the opening of its database ([agent/internal/store]),
    up to the loops that [AgentCerts], [Scheduler], [Sync] and [Delivery] model.  The state
    is the host, the credential files by their data directory, and the control plane's
    database. *)

From Stdlib Require Import Ascii.
From S2P Require Import Prelude Hash Engine Pair Quiet Pki Proto Schema Queries Service Demo.
From S2P Require Import Devices Enrollment AgentStream.
From S2P Require Import Strs Text Words Paths Exec Executor Scheduler Delivery AgentCerts.
From S2P Require Import Reconnect AgentEnroll Packages PackageManagers.
From S2P Require Import Units Files HostFiles CredentialStore Services AgentUnit.

Open Scope string_scope.
Open Scope Z_scope.

(** ** Flags ([flag], flags with a text) *)

(** The first argument: no flag, the end of the flags, or a flag with or without a value. *)
Inductive argument := NoFlag | EndOfFlags | BadFlag | Flag (name : string) (value : option string).

Definition argument_of (s : string) : argument :=
  let named (name : string) :=
    match name with
    | EmptyString => BadFlag
    | String c _ =>
        if bool_decide (c = "-"%char \/ c = "="%char) then BadFlag
        else let '(before, value, found) := Cut name "=" in Flag before (if (found : bool) then Some value else None)
    end in
  match s with
  | String "-" (String "-" EmptyString) => EndOfFlags
  | String "-" (String "-" name) => named name
  | String "-" EmptyString => NoFlag
  | String "-" name => named name
  | _ => NoFlag
  end.

(** [flag.ErrHelp]: [-help] or [-h], where they are no flags. *)
Definition ErrHelp : error := ErrVar "flag: help requested".

(** [FlagSet.Parse]: the values and the arguments left. *)
Fixpoint parse_flags (names args : list string) (values : gmap string string)
    : result (gmap string string * list string) :=
  match args with
  | [] => Ok (values, [])
  | s :: rest =>
      match argument_of s with
      | NoFlag => Ok (values, args)
      | EndOfFlags => Ok (values, rest)
      | BadFlag => Err (ErrNew "bad flag syntax")
      | Flag name value =>
          if negb (bool_decide (name ∈ names)) then
            Err (if bool_decide (name ∈ ["help"; "h"]) then ErrHelp else ErrNew "flag provided but not defined")
          else match value, rest with
          | Some value, _ => parse_flags names rest (<[name := value]> values)
          | None, [] => Err (ErrNew "flag needs an argument")
          | None, value :: rest => parse_flags names rest (<[name := value]> values)
          end
      end
  end.

Example flags_ex :
  (fun r => (map_to_list r.1, r.2)) <$>
    match parse_flags ["token"; "server"] ["-token=a=b"; "--server"; "https://x"; "rest"; "-token=c"] ∅ with
    | Ok r => Some r | Err _ => None end
  = Some ([("server", "https://x"); ("token", "a=b")], ["rest"; "-token=c"]).
Proof. by vm_compute. Qed.

(** ** The query of a URL ([net/url]) *)

(** [url.QueryUnescape]. *)
Fixpoint QueryUnescape (s : string) : option string :=
  match s with
  | EmptyString => Some EmptyString
  | String "%" (String a (String b s)) =>
      match hex_value a, hex_value b with
      | Some a, Some b => String (ascii_of_N (Z.to_N (16 * a + b))) <$> QueryUnescape s
      | _, _ => None
      end
  | String "%" _ => None
  | String "+" s => String " " <$> QueryUnescape s
  | String c s => String c <$> QueryUnescape s
  end.

(** A part of the query, which is skipped when it is not well formed. *)
Definition query_pair (part : string) : option (string * string) :=
  if has_byte ";" part || bool_decide (part = EmptyString) then None
  else
    let '(key, value, _) := Cut part "=" in
    key ← QueryUnescape key; value ← QueryUnescape value; Some (key, value).

(** [u.Query().Get(key)]: the first value, or nothing. *)
Definition Query_Get (rawQuery key : string) : string :=
  match List.find (fun p => bool_decide (fst p = key)) (omap query_pair (Split rawQuery "&")) with
  | Some (_, value) => value
  | None => EmptyString
  end.

Example query_ex : (Query_Get "token=a%2Bb&pin=+AB:CD+&token=c" "token", Query_Get "token=a&pin=+AB+" "pin") = ("a+b", " AB ").
Proof. reflexivity. Qed.

(** ** The files of the data directories *)

(** The credentials in each data directory. *)
Abbreviation DataDirs := (gmap string Credentials).

Definition in_dir {A} (dir : string) (m : M CredentialFile A) : M DataDirs A := fun env w =>
  let (r, w') := m env (mkWorld (w_db w !! dir) (w_step w)) in
  (r, mkWorld (partial_alter (fun _ => w_db w') dir (w_db w)) (w_step w')).

Definition at_dir {A} (dir : string) (m : M (CredentialFile * Database) A) : M (DataDirs * Database) A := fun env w =>
  let (r, w') := m env (mkWorld ((w_db w).1 !! dir, (w_db w).2) (w_step w)) in
  (r, mkWorld (partial_alter (fun _ => (w_db w').1) dir (w_db w).1, (w_db w').2) (w_step w')).

(** What the host answers at a step: the content of a file, its name, the process's own
    path. *)
Class AgentSystem := {
  token_file : nat -> string -> result string;
  os_Hostname : nat -> result string;
  os_Executable : nat -> result string;
}.

(** [rand.Int64N]. *)
Class Random := { Int64N : nat -> Z -> Z }.

(** ** Enrolling ([cmd_enroll.go]) *)

Record registrationURI := { ServerURL : string; Token : string; Pin : string }.

Section commands.
Context `{!X509, !Tls, !WebAddress, !EnvironmentVariables, !AgentSystem}.

Definition parseRegistrationURI (rawURI : string) : result registrationURI :=
  let normalizedURI := match cut_at rawURI "cadestro://" with
    | Some (before, after) => before ++ "https://" ++ after
    | None => rawURI
    end in
  match url_Parse normalizedURI with
  | None => Err (ErrNew "invalid URI")
  | Some parsed =>
      let token := Query_Get (Url_RawQuery parsed) "token" in
      if bool_decide (token = EmptyString) then Err (ErrNew "token parameter is required in URI")
      else
        let pin := TrimSpace (Query_Get (Url_RawQuery parsed) "pin") in
        if bool_decide (pin = EmptyString) then Err (ErrNew "pin parameter is required in URI")
        else Ok {| ServerURL := "https://" ++ Url_Host parsed; Token := token; Pin := pin |}
  end.

Definition resolveEnrollToken {D} (flagToken tokenFile envToken : string) : M D string :=
  if negb (bool_decide (tokenFile = EmptyString)) then
    b ← draw (fun _ n => token_file n tokenFile);
    match (b : result string) with
    | Err err => fail (ErrWrap "read token file" err)
    | Ok b => mret (TrimSpace b)
    end
  else if negb (bool_decide (envToken = EmptyString)) then mret (TrimSpace envToken)
  else if negb (bool_decide (flagToken = EmptyString)) then mret (TrimSpace flagToken)
  else mret EmptyString.

Definition enroll_flags : list string := ["token"; "token-file"; "server"; "pin"; "data-dir"].

(** The data directory of a command line: the environment wins. *)
Definition data_dir (values : gmap string string) : string :=
  let value := Getenv "CADESTRO_DATA_DIR" in
  if bool_decide (value = EmptyString) then default DefaultDataDir (values !! "data-dir") else value.

Context (service : Service) (ca : CA) (agentVersion : string).
Context (link : nat -> Link) (unreadable ends : nat -> bool).

(** A killed process has no exit code. *)
Definition exit_code {D A} (m : M D A) (code : A -> Z) : M D Z :=
  r ← attempt m;
  match (r : result A) with
  | Ok a => mret (code a)
  | Err err => if bool_decide (err = ErrProcessEnded) then fail err else mret 1
  end.

(** The enrollment with the server, the token and the pin that the command line names. *)
Definition enroll_with (dir server token pin : string) : M (DataDirs * Database) Z :=
  hostname ← draw (fun _ n => os_Hostname n);
  match (hostname : result string) with
  | Err _ => mret 1
  | Ok hostname =>
      exit_code (at_dir (dataDir (NewStore dir)) (Enroll service ca link unreadable ends {|
        Enroll_ServerURL := server; Enroll_Token := token; Enroll_CAPin := pin;
        Enroll_Hostname := hostname; Enroll_Version := agentVersion |})) (fun _ => 0)
  end.

Definition runEnroll (args : list string) (euid : Z) : M (DataDirs * Database) Z :=
  if negb (euid =? 0) then mret 1
  else match parse_flags enroll_flags args ∅ with
  | Err _ => mret 2
  | Ok (values, rest) =>
      let flag name := default EmptyString (values !! name) in
      let dir := data_dir values in
      let uri := match rest with
                 | arg :: _ => if HasPrefix arg "cadestro://" then Some (parseRegistrationURI arg) else None
                 | [] => None
                 end in
      match uri with
      | Some (Err _) => mret 1
      | Some (Ok parsed) =>
          enroll_with dir (ServerURL parsed) (Token parsed)
            (if bool_decide (Pin parsed = EmptyString) then flag "pin" else Pin parsed)
      | None =>
          token ← attempt (resolveEnrollToken (flag "token") (flag "token-file") (Getenv "CADESTRO_REGISTRATION_TOKEN"));
          match (token : result string) with
          | Err _ => mret 1
          | Ok token => enroll_with dir (flag "server") token (flag "pin")
          end
      end
  end.

Definition registrationURIRefusedByHandler (uri : string) : bool := HasPrefix uri "cadestro://".
End commands.

(** ** The unit ([cmd_installunit.go]) and the agent's database ([store.go]) *)

Section host.
Context {U : Type} `{!OS U, !Runner U, !Binaries U, !UnitManager U, !Folders U, !Sqlite U, !FloatText}.
Context `{!AgentSystem, !EnvironmentVariables}.

Definition systemdRunMarker : string := "/run/systemd/system".

(** [service.Available]. *)
Definition Available : M U bool :=
  found ← lookPath "systemctl";
  match (found : option string) with
  | None => mret false
  | Some _ => st ← attempt (os_Stat systemdRunMarker);
              mret match (st : result (option FileStat)) with Ok (Some _) => true | _ => false end
  end.

Definition background : Ctx := {| ctx_deadline := None; ctx_cancelled _ := false |}.

Definition runInstallUnit (args : list string) (euid : Z) : M U Z :=
  match parse_flags ["data-dir"] args ∅ with
  | Err _ => mret 2
  | Ok (values, _) =>
      if negb (euid =? 0) then mret 1
      else
        available ← Available;
        if negb available then mret 1
        else
          binaryPath ← draw (fun _ n => os_Executable n);
          match (binaryPath : result string) with
          | Err _ => mret 1
          | Ok binaryPath =>
              err ← EnsureInstalled background
                {| BinaryPath := binaryPath; DataDir := default DefaultDataDir (values !! "data-dir") |};
              mret match (err : option error) with Some _ => 1 | None => 0 end
          end
  end.

(** What it finds only goes to the log. *)
Definition reconcileUnitAtStartup (ctx : Ctx) (dir : string) (euid : Z) : M U unit :=
  if negb (euid =? 0) then mret tt
  else
    available ← Available;
    if negb available then mret tt
    else
      binaryPath ← draw (fun _ n => os_Executable n);
      match (binaryPath : result string) with
      | Err _ => mret tt
      | Ok binaryPath =>
          _ ← Reconcile ctx {| BinaryPath := binaryPath; DataDir := dir |}; mret tt
      end.

Definition verifyRestrictiveDirMode (dir : string) : M U unit :=
  info ← wrapped "stat data dir after chmod" (os_Stat dir);
  match (info : option FileStat) with
  | None => fail (ErrWrap "stat data dir after chmod" os_ErrNotExist)
  | Some info =>
      if others_access (Stat_Mode info) then fail (ErrNew "refusing to store state there") else mret tt
  end.

(** The mode of a file of the database, if it is there. *)
Definition restrict_file (path : string) : M U unit :=
  r ← attempt (os_Chmod path 384);
  match (r : result unit) with
  | Ok _ => mret tt
  | Err err => if errors_is os_ErrNotExist err then mret tt else fail (ErrWrap "restrict mode" err)
  end.

Definition openActionStore (dir : string) : M U unit :=
  _ ← wrapped "create data directory" (os_MkdirAll dir 448);
  let dbPath := if bool_decide (dir = EmptyString) then "agent.db" else Clean (dir ++ "/agent.db") in
  if ContainsAny dbPath "?#" then fail (ErrNew "store: data dir path contains '?' or '#'")
  else
    _ ← wrapped "open database" (sqlite_Open (dbPath ++ sqlite_pragmas));
    _ ← closeOnError "run migrations" goose_Up;
    _ ← closeOnError "restrict data dir mode" (os_Chmod dir 448);
    _ ← closeOnError "verify" (verifyRestrictiveDirMode dir);
    for_each (fun path => closeOnError "restrict" (restrict_file path)) [dbPath; dbPath ++ "-wal"; dbPath ++ "-shm"].
End host.

(** ** Delays between two connections ([backend.go], [runtime.go]) *)

Definition minInitialBackoff : Z := 5 * 1000000000.
Definition maxInitialBackoff : Z := 10 * 1000000000.
Definition maxBackoff : Z := 5 * 60 * 1000000000.

Section delays.
Context `{!Random}.

Definition randomBackoff {D} : M D Z :=
  let span := maxInitialBackoff - minInitialBackoff in
  if span <=? 0 then mret minInitialBackoff
  else r ← draw (fun _ n => Int64N n span); mret (minInitialBackoff + r).

(** The delay after a connection of a length, and the one after the next. *)
Definition next_delay {D} (backoff elapsed : Z) : M D (Z * Z) :=
  backoff ← (if backoff <? elapsed then randomBackoff else mret backoff);
  mret (backoff, Z.min (backoff * 2) maxBackoff).
End delays.

(** ** The process ([main.go]) *)

Definition rootBackend (euid : Z) : result PrivilegeBackend :=
  if negb (euid =? 0) then Err (ErrNew "root is required") else Ok Direct.

(** What a command line comes to: an exit code, or an agent in its loops. *)
Inductive Process := Exit (code : Z) | AgentRuns (l : Loop).

Section main.
Context {U : Type} `{!OS U, !Runner U, !Binaries U, !UnitManager U, !Folders U, !Sqlite U, !FloatText}.
Context `{!X509, !Tls, !WebAddress, !EnvironmentVariables, !AgentSystem}.
Context (service : Service) (ca : CA) (agentVersion : string).
Context (link : nat -> Link) (unreadable ends : nat -> bool).
(** The context that a signal to the process cancels. *)
Context (ctx : Ctx).

(** [parseFlags]: the data directory, or the exit code. *)
Definition parseFlags (args : list string) : Z + string :=
  match parse_flags ["data-dir"; "log-level"; "log-format"] args ∅ with
  | Err err => inl (if bool_decide (err = ErrHelp) then 0 else 2)
  | Ok (values, rest) =>
      if registrationURIRefusedByHandler (default EmptyString (head rest)) then inl 1 else inr (data_dir values)
  end.

(** A step of the start, whose failure is the end of it. *)
Definition or_exit {D A} (m : M D A) (k : A -> M D Process) : M D Process :=
  r ← attempt m;
  match (r : result A) with Ok a => k a | Err _ => mret (Exit 1) end.

Definition start_agent (dir : string) (euid : Z) : M (U * (DataDirs * Database)) Process :=
  or_exit (lift (rootBackend euid)) (fun _ =>
  or_exit (hostname ← draw (fun _ n => os_Hostname n); lift (hostname : result string)) (fun _ =>
  _ ← on_fst (reconcileUnitAtStartup ctx dir euid);
  or_exit (on_snd (on_fst (in_dir (dataDir (NewStore dir)) (agent_start unreadable)))) (fun l =>
  or_exit (on_fst (openActionStore dir)) (fun _ =>
  or_exit (on_fst NewExecutor) (fun _ => mret (AgentRuns l)))))).

Definition main (argv : list string) (euid : Z) : M (U * (DataDirs * Database)) Process :=
  let run_agent := match parseFlags argv with
                   | inl code => mret (Exit code)
                   | inr dir => start_agent dir euid
                   end in
  match argv with
  | [] => run_agent
  | command :: args =>
      if bool_decide (command ∈ ["version"; "--version"; "-v"]) then mret (Exit 0)
      else if bool_decide (command = "enroll") then
        code ← on_snd (runEnroll service ca agentVersion link unreadable ends args euid); mret (Exit code)
      else if bool_decide (command = "install-unit") then
        code ← on_fst (runInstallUnit args euid); mret (Exit code)
      else run_agent
  end.
End main.
