(* ===== verification/AgentMainFacts.v ===== *)
(** * What the agent's commands come to

    The exit codes of [enroll] and [install-unit] and what they stand for, and that an
    agent runs exactly with the credentials of an enrollment of its data directory. *)

From Stdlib Require Import Ascii.
From S2P Require Import Prelude Hash Engine Pair Quiet Pki Proto Schema Queries Service Demo.
From S2P Require Import Devices Enrollment AgentStream.
From S2P Require Import Strs Text Words Paths Exec Executor Scheduler Delivery AgentCerts.
From S2P Require Import Reconnect AgentEnroll Packages PackageManagers.
From S2P Require Import Units Files HostFiles CredentialStore Services AgentUnit AgentMain.

Open Scope string_scope.
Open Scope Z_scope.

(** ** One data directory among others *)

Definition others (dir : string) (files files' : DataDirs) : Prop :=
  forall dir', dir' <> dir -> files' !! dir' = files !! dir'.

Lemma others_alter dir files f : others dir files (partial_alter f dir files).
Proof. intros dir' Hne. by rewrite lookup_partial_alter_ne. Qed.

Lemma others_trans dir a b c : others dir a b -> others dir b c -> others dir a c.
Proof. intros Ha Hb dir' Hne. rewrite Hb by done. by apply Ha. Qed.

Lemma put_back dir (files : DataDirs) : partial_alter (fun _ => files !! dir) dir files = files.
Proof.
  apply map_eq. intros dir'. destruct (decide (dir = dir')) as [<-|]; [by rewrite lookup_partial_alter_eq|].
  by rewrite lookup_partial_alter_ne.
Qed.

(** The file of the directory, with the database. *)
Definition file_of (dir : string) (s : DataDirs * Database) : CredentialFile * Database := (s.1 !! dir, s.2).

Definition within (dir : string) (files : DataDirs) (P : CredentialFile * Database -> Prop) (s : DataDirs * Database) : Prop :=
  others dir files s.1 /\ P (file_of dir s).

Lemma at_dir_triple {A} dir files P (m : M (CredentialFile * Database) A) Q E :
  triple P m Q E ->
  triple (within dir files P) (at_dir dir m) (fun a => within dir files (Q a)) (fun e => within dir files (E e)).
Proof.
  intros Hm env [[f d] n] [Ho HP]. unfold at_dir. simpl in *. specialize (Hm env (mkWorld (f !! dir, d) n) HP).
  unfold within, file_of. destruct (m env _) as [[a|e] [[f' d'] n']]; simpl in *;
    (split; [by eapply others_trans, others_alter|]; by rewrite lookup_partial_alter_eq).
Qed.

Lemma in_dir_triple {A} dir files P (m : M CredentialFile A) Q E :
  triple P m Q E ->
  triple (fun f => others dir files f /\ P (f !! dir)) (in_dir dir m)
    (fun a f => others dir files f /\ Q a (f !! dir)) (fun e f => others dir files f /\ E e (f !! dir)).
Proof.
  intros Hm env [f n] [Ho HP]. unfold in_dir. simpl in *. specialize (Hm env (mkWorld (f !! dir) n) HP).
  destruct (m env _) as [[a|e] [f' n']]; simpl in *;
    (split; [by eapply others_trans, others_alter|]; by rewrite lookup_partial_alter_eq).
Qed.

(** ** Enrolling *)

Section enroll.
Context `{!X509, !X509Laws, !Tls, !TlsLaws, !WebAddress, !EnvironmentVariables, !AgentSystem}.
Context (service : Service) (ca : CA) (agentVersion : string) (x : X509Certificate).
Context (link : nat -> Link) (unreadable ends : nat -> bool).
Context (Hx : ParseCertificate (CA_Raw ca) = Some x) (Haddr : requireHTTPSAgentAddr (agentURL service) = true).

(** An exit code of [enroll] and what the directory's file is then. *)
Definition enroll_outcome (code : Z) (s : CredentialFile * Database) : Prop :=
  code = 0 /\ (exists res, enrolled_with res s) \/ (code = 1 \/ code = 2) /\ resumable s.

Definition killed (e : error) (s : CredentialFile * Database) : Prop := e = ErrProcessEnded /\ resumable s.

Lemma exit_code_triple {A} dir files P (m : M (CredentialFile * Database) A) :
  triple P m (fun _ s => exists res, enrolled_with res s) (fun _ => resumable) ->
  triple (within dir files P) (exit_code (at_dir dir m) (fun _ => 0))
    (fun code => within dir files (enroll_outcome code)) (fun e => within dir files (killed e)).
Proof.
  intros Hm. unfold exit_code.
  set (Q0 := fun (r : result A) => within dir files (fun s => match r with
    | Ok _ => exists res, enrolled_with res s | Err _ => resumable s end)).
  eapply triple_bind with (R := Q0).
  - eapply triple_attempt with (Q0 := Q0); [|done]. by apply at_dir_triple.
  - intros [a|e].
    + apply triple_ret. intros s [Ho Hs]. split; [done|]. by left.
    + case_bool_decide as He; [apply triple_fail|apply triple_ret]; intros s [Ho Hs]; (split; [done|]).
      * by split.
      * right. by split; [left|].
Qed.

Lemma enroll_with_outcome dir files server token pin :
  triple (within (dataDir (NewStore dir)) files resumable)
    (enroll_with service ca agentVersion link unreadable ends dir server token pin)
    (fun code => within (dataDir (NewStore dir)) files (enroll_outcome code))
    (fun e => within (dataDir (NewStore dir)) files (killed e)).
Proof.
  unfold enroll_with. apply triple_bind_draw. intros [hostname|e].
  - apply exit_code_triple. eapply triple_conseq; [by apply (Enroll_spec service ca link ends unreadable _ x)|done| |done].
    intros res s Hs. by exists res.
  - apply triple_ret. intros s [Ho Hs]. split; [done|]. right. by split; [left|].
Qed.

(** The data directory a command line enrolls in. *)
Definition enroll_dir (args : list string) : string :=
  match parse_flags enroll_flags args ∅ with
  | Ok (values, _) => dataDir (NewStore (data_dir values))
  | Err _ => EmptyString
  end.

Lemma runEnroll_outcome args euid files :
  triple (within (enroll_dir args) files resumable)
    (runEnroll service ca agentVersion link unreadable ends args euid)
    (fun code => within (enroll_dir args) files (enroll_outcome code))
    (fun e => within (enroll_dir args) files (killed e)).
Proof.
  assert (forall dir code, code = 1 \/ code = 2 ->
    triple (within dir files resumable) (mret code) (fun code => within dir files (enroll_outcome code))
      (fun e => within dir files (killed e))) as Hcode.
  { intros dir code Hc. apply triple_ret. intros s [Ho Hs]. split; [done|]. by right. }
  unfold runEnroll, enroll_dir. destruct (negb (euid =? 0)); [apply Hcode; by left|].
  destruct (parse_flags enroll_flags args ∅) as [[values rest]|e]; [|apply Hcode; by right]. cbv zeta.
  destruct (match rest with [] => None | _ => _ end) as [[parsed|e]|].
  - apply enroll_with_outcome.
  - apply Hcode. by left.
  - eapply triple_bind with (R := fun _ => within (dataDir (NewStore (data_dir values))) files resumable).
    + eapply triple_attempt with (Q0 := fun _ => within (dataDir (NewStore (data_dir values))) files resumable); [|done].
      unfold resolveEnrollToken. destruct (negb _); [|repeat (destruct (negb _)); by apply triple_ret].
      apply triple_bind_draw. intros [b|e]; [by apply triple_ret|by apply triple_fail].
    + intros [token|e]; [apply enroll_with_outcome|apply Hcode; by left].
Qed.
End enroll.

(** ** Starting *)

(** The agent's first state, from a file. *)
Lemma agent_start_file unreadable file :
  triple (fun f => f = file) (agent_start unreadable)
    (fun l f => f = file /\ file = Some (loop_creds l) /\ Ready file = true /\ fallbackActive l = false /\ firstConnect l = true)
    (fun _ f => f = file).
Proof.
  intros env [f n] Hf. simpl in Hf. subst f. unfold agent_start, loadCredentials, Load, mbind, M_bind, on_error, draw, read_file, fail, mret, M_ret.
  simpl. destruct (unreadable n); [done|]. simpl. destruct file as [c|]; [|done]. simpl.
  destruct (Ready (Some c)) eqn:Hr; [|unfold Ready in Hr; simpl; by rewrite ?Hr].
  unfold Ready in Hr. simpl. rewrite Hr. simpl. by split_and!.
Qed.

Section start.
Context {U : Type} `{!OS U, !Runner U, !Binaries U, !UnitManager U, !Folders U, !Sqlite U, !FloatText}.
Context `{!BinariesLaws U, !UnitManagerLaws U}.
Context `{!X509, !X509Laws, !Tls, !TlsLaws, !WebAddress, !EnvironmentVariables, !AgentSystem}.

Lemma Available_returns : returns (D := U) Available.
Proof.
  unfold Available. apply returns_bind; [apply lookPath_returns|]. intros [p|]; [|apply returns_ret].
  apply returns_bind; [apply returns_attempt|]. intros st. apply returns_ret.
Qed.

Lemma Reconcile_returns ctx params : returns (D := U) (Reconcile ctx params).
Proof.
  intros env w _. pose proof (sync_spec ctx params false (on_disk (w_db w)) (loaded (w_db w)) env w (conj eq_refl eq_refl)) as Hs.
  unfold Reconcile. by destruct (sync ctx params false env w) as [[r|e] w'].
Qed.

Lemma reconcileUnitAtStartup_returns ctx dir euid : returns (D := U) (reconcileUnitAtStartup ctx dir euid).
Proof.
  unfold reconcileUnitAtStartup. destruct (negb _); [apply returns_ret|].
  apply returns_bind; [apply Available_returns|]. intros []; simpl; [|apply returns_ret].
  apply returns_bind; [apply returns_draw|]. intros [p|e]; [|apply returns_ret].
  apply returns_bind; [apply Reconcile_returns|]. intros r. apply returns_ret.
Qed.

Lemma NewExecutor_returns : returns (D := U) NewExecutor.
Proof.
  unfold NewExecutor. apply returns_bind; [apply Detect_returns|]. intros backends. apply returns_ret.
Qed.

Lemma or_exit_triple {D A} P (m : M D A) k R (Q : Process -> D -> Prop) E :
  triple P m R (fun _ => E) -> (forall a, triple (R a) (k a) Q (fun _ _ => False)) -> (forall d, E d -> Q (Exit 1) d) ->
  triple P (or_exit m k) Q (fun _ _ => False).
Proof.
  intros Hm Hk HE. unfold or_exit.
  eapply triple_bind with (R := fun r d => match r with Ok a => R a d | Err _ => E d end).
  - by eapply triple_attempt with (Q0 := fun r d => match r with Ok a => R a d | Err _ => E d end).
  - intros [a|e]; [apply Hk|]. by apply triple_ret.
Qed.

Lemma or_exit_quietly {D A} P (m : M D A) k R (Q : Process -> D -> Prop) :
  quietly P m R -> (forall a, quietly (R a) (k a) Q) -> quietly P (or_exit m k) Q.
Proof.
  intros Hm Hk. unfold or_exit. eapply quietly_bind; [by apply quietly_attempt|]. intros r.
  apply quietly_at. intros d0 (a & -> & Ha). eapply quietly_conseq; [apply Hk|by intros d ->|done].
Qed.

Context (unreadable : nat -> bool) (ctx : Ctx).

(** The credentials an agent runs with. *)
Definition runs_with (file : CredentialFile) (l : Loop) : Prop :=
  file = Some (loop_creds l) /\ Ready file = true /\ fallbackActive l = false /\ firstConnect l = true.

Lemma agent_start_in dir files :
  triple (fun f => f = files) (in_dir dir (agent_start unreadable))
    (fun l f => f = files /\ runs_with (files !! dir) l) (fun _ f => f = files).
Proof.
  intros env [f n] Hf. simpl in Hf. subst f. unfold in_dir. simpl.
  pose proof (agent_start_file unreadable (files !! dir) env (mkWorld (files !! dir) n) eq_refl) as Hs.
  destruct (agent_start unreadable env _) as [[l|e] [f' n']]; simpl in *.
  - destruct Hs as [-> Hs]. split; [apply put_back|done].
  - subst f'. apply put_back.
Qed.

Definition start_outcome (dir : string) (euid : Z) (files : DataDirs) (p : Process) : Prop :=
  match p with
  | AgentRuns l => euid = 0 /\ runs_with (files !! dataDir (NewStore dir)) l
  | Exit code => code = 1
  end.

Lemma start_agent_outcome dir euid (s0 : DataDirs * Database) :
  triple (fun s : U * (DataDirs * Database) => s.2 = s0) (start_agent unreadable ctx dir euid)
    (fun p s => s.2 = s0 /\ start_outcome dir euid s0.1 p) (fun _ _ => False).
Proof.
  assert (forall A (m : M U A) (P : Prop), triple (fun s : U * (DataDirs * Database) => s.2 = s0 /\ P) (on_fst m)
    (fun _ s => s.2 = s0 /\ P) (fun _ s => s.2 = s0 /\ P)) as Hkeep.
  { intros A m P. apply triple_on_fst. intros d env w Hw. by destruct (m env w) as [[a|e] w']. }
  unfold start_agent. eapply or_exit_triple with (R := fun _ s => s.2 = s0 /\ euid = 0) (E := fun s => s.2 = s0).
  { apply triple_lift; [|done]. unfold rootBackend. intros b s Hb Hs. destruct (euid =? 0) eqn:He; [|done]. split; [done|lia]. }
  2: by intros s Hs.
  intros b. eapply or_exit_triple with (R := fun _ s => s.2 = s0 /\ euid = 0) (E := fun s => s.2 = s0).
  { apply triple_bind_draw. intros h. apply triple_lift; [done|]. by intros e s _ [Hs _]. }
  2: by intros s Hs.
  intros h. eapply triple_bind with (R := fun _ s => s.2 = s0 /\ euid = 0).
  { intros env w Hw. pose proof (Hkeep _ (reconcileUnitAtStartup ctx dir euid) (euid = 0) env w Hw) as Hk.
    unfold on_fst in *. pose proof (reconcileUnitAtStartup_returns ctx dir euid env (mkWorld (w_db w).1 (w_step w)) I) as Hr.
    by destruct (reconcileUnitAtStartup _ _ _ _ _) as [[u|e] w']. }
  intros []. eapply or_exit_triple with (E := fun s => s.2 = s0)
    (R := fun l s => s.2 = s0 /\ (euid = 0 /\ runs_with (s0.1 !! dataDir (NewStore dir)) l)).
  2: intros l; eapply or_exit_triple; [apply Hkeep| |by intros s [Hs _]]; intros u; eapply or_exit_triple; [apply Hkeep| |by intros s [Hs _]];
     intros m; by apply triple_ret.
  2: by intros s Hs.
  apply triple_at. intros [u [files db]] [Hs ->]. simpl in Hs. subst s0.
  apply triple_on_snd_at with (d2 := (files, db)). apply triple_on_fst_at with (d1 := files) (d2 := db).
  eapply triple_conseq; [apply (agent_start_in (dataDir (NewStore dir)) files)|done|..].
  - intros l f [-> Hl]. by split.
  - by intros e f ->.
Qed.

(** A start at which nothing is missing. *)
Lemma start_agent_starts dir c (s0 : DataDirs * Database) :
  s0.1 !! dataDir (NewStore dir) = Some c -> Ready (Some c) = true ->
  (forall n, exists name, os_Hostname n = Ok name) -> (forall n, unreadable n = false) ->
  quietly (fun _ : U => True) (openActionStore dir) (fun _ _ => True) ->
  quietly (fun s : U * (DataDirs * Database) => s.2 = s0) (start_agent unreadable ctx dir 0)
    (fun p _ => exists l, p = AgentRuns l /\ loop_creds l = c).
Proof.
  intros Hfile Hready Hname Hreadable Hopen.
  assert (forall A (m : M U A), quietly (fun _ => True) m (fun _ _ => True) ->
    quietly (fun s : U * (DataDirs * Database) => s.2 = s0) (on_fst m) (fun _ s => s.2 = s0)) as Hhost.
  { intros A m Hm. eapply quietly_conseq; [apply (quietly_on_fst m s0 _ _ Hm)|by intros s|by intros a s [_ Hs]]. }
  unfold start_agent. eapply or_exit_quietly with (R := fun _ s => s.2 = s0); [by eapply quietly_lift; [reflexivity|]|].
  intros _. eapply or_exit_quietly with (R := fun _ s => s.2 = s0).
  { apply quietly_bind_draw. intros env n. destruct (Hname n) as [name ->]. by eapply quietly_lift. }
  intros _. eapply quietly_bind; [apply Hhost, quietly_total, reconcileUnitAtStartup_returns|]. intros [].
  eapply or_exit_quietly with (R := fun l s => loop_creds l = c /\ s.2 = s0).
  { apply quietly_at. intros [u [files db]] Hs. simpl in Hs. subst s0. simpl in Hfile.
    intros env [d n] Hq Hd. simpl in Hd. subst d. unfold on_snd, on_fst, in_dir. simpl. rewrite Hfile.
    unfold agent_start, loadCredentials, Load, mbind, M_bind, on_error, draw, read_file. simpl. rewrite Hreadable. simpl.
    unfold Ready in Hready. simpl in *. rewrite Hready. simpl. do 2 eexists. split; [reflexivity|]. split; [done|]. simpl.
    by rewrite <- Hfile, put_back. }
  intros l. apply quietly_pure. intros Hl.
  eapply or_exit_quietly; [by apply Hhost|]. intros u.
  eapply or_exit_quietly; [apply Hhost, quietly_total, NewExecutor_returns|]. intros m.
  apply quietly_ret. intros s _. by exists l.
Qed.

(** ** Installing the unit *)

(** Looking for systemd changes nothing. *)
Context (Hprobe : forall f l, triple (fun d : U => on_disk d = f /\ loaded d = l) Available
  (fun _ d => on_disk d = f /\ loaded d = l) (fun _ _ => False)).

Lemma runInstallUnit_outcome args euid f l :
  triple (fun d : U => on_disk d = f /\ loaded d = l) (runInstallUnit args euid)
    (fun code d =>
       code = 0 /\ euid = 0 /\ (exists params changed, installed background params f l changed d) \/
       (code = 1 \/ code = 2) /\ exists params, interrupted params f l d)
    (fun _ _ => False).
Proof.
  set (Q := fun (code : Z) (d : U) => _).
  assert (forall code, code = 1 \/ code = 2 -> triple (fun d : U => on_disk d = f /\ loaded d = l) (mret code) Q (fun _ _ => False)) as Hcode.
  { intros code Hc. apply triple_ret. intros d [Hd Hl]. right. split; [done|].
    exists {| BinaryPath := ""; DataDir := "" |}. by split; [left|left]. }
  unfold runInstallUnit. destruct (parse_flags ["data-dir"] args ∅) as [[values rest]|e]; [|apply Hcode; by right].
  destruct (euid =? 0) eqn:Hroot; simpl; [|apply Hcode; by left]. apply Z.eqb_eq in Hroot.
  eapply triple_bind; [apply Hprobe|]. intros []; simpl; [|apply Hcode; by left].
  apply triple_bind_draw. intros [binary|e]; [|apply Hcode; by left].
  eapply triple_bind; [apply (EnsureInstalled_spec background _ f l)|]. intros [err|]; apply triple_ret.
  - intros d Hd. right. split; [by left|]. by eexists.
  - intros d Hd. left. split_and!; [done..|]. by eexists.
Qed.
End start.

(** ** Delays *)

Class RandomLaws `{!Random} : Prop := { Int64N_range : forall n k, 0 < k -> 0 <= Int64N n k < k }.

(** Delays between two connections are between five seconds and five minutes. *)
Lemma next_delay_bounds `{!Random, !RandomLaws} {D} backoff elapsed :
  minInitialBackoff <= backoff <= maxBackoff ->
  triple (fun _ : D => True) (next_delay backoff elapsed)
    (fun r _ => minInitialBackoff <= r.1 <= maxBackoff /\ minInitialBackoff <= r.2 <= maxBackoff /\
       (backoff < elapsed -> r.1 < maxInitialBackoff)) (fun _ _ => False).
Proof.
  intros Hb. unfold next_delay. destruct (backoff <? elapsed) eqn:He.
  - apply triple_bind with (R := fun b _ => minInitialBackoff <= b < maxInitialBackoff).
    + change (triple (fun _ : D => True) (r ← draw (fun _ n => Int64N n (maxInitialBackoff - minInitialBackoff)); mret (minInitialBackoff + r))
        (fun b _ => minInitialBackoff <= b < maxInitialBackoff) (fun _ _ => False)).
      intros e w _. cbn. pose proof (Int64N_range (w_step w) (maxInitialBackoff - minInitialBackoff) eq_refl).
      simpl. lia.
    + intros b. apply triple_ret. unfold minInitialBackoff, maxInitialBackoff, maxBackoff in *. simpl. intros d Hd. lia.
  - apply triple_bind with (R := fun b _ => b = backoff); [by apply triple_ret|]. intros b. apply triple_ret.
    unfold minInitialBackoff, maxInitialBackoff, maxBackoff in *. simpl. intros d ->. lia.
Qed.

(** ** Enrolling, then starting *)

(** A directory that is enrolled already stays as it is. *)
Definition already (s0 : DataDirs * Database) (code : Z) (s : DataDirs * Database) : Prop :=
  s = s0 /\ code ∈ [0; 1; 2].

Section commands.
Context `{!X509, !X509Laws, !Tls, !TlsLaws, !WebAddress, !EnvironmentVariables, !AgentSystem}.
Context (service : Service) (ca : CA) (agentVersion : string) (link : nat -> Link) (unreadable ends : nat -> bool).

(** An enrollment that goes on has no credentials to run with. *)
Lemma resumable_not_ready s : resumable s -> Ready s.1 = false.
Proof. intros [[->|(csr & key & _ & ->)] _]; done. Qed.

Lemma Enroll_already request c d :
  Ready (Some c) = true ->
  triple (fun s => s = (Some c, d)) (Enroll service ca link unreadable ends request)
    (fun _ s => s = (Some c, d)) (fun e s => e <> ErrProcessEnded /\ s = (Some c, d)).
Proof.
  intros Hr env [s n] Hs. simpl in Hs. subst s. unfold Enroll, Load, mbind, M_bind, attempt, on_fst, draw. simpl.
  destruct (unreadable n); [done|]. unfold Ready in *. simpl in *. by rewrite Hr.
Qed.

Lemma enroll_with_already dir server token pin (s0 : DataDirs * Database) :
  Ready (s0.1 !! dataDir (NewStore dir)) = true ->
  triple (fun s => s = s0) (enroll_with service ca agentVersion link unreadable ends dir server token pin)
    (already s0) (fun _ _ => False).
Proof.
  unfold enroll_with. generalize (dataDir (NewStore dir)). intros dd Hr. apply triple_bind_draw. intros [hostname|e].
  2: { apply triple_ret. intros s ->. split; [done|set_solver]. }
  intros env [s n] Hs. simpl in Hs. subst s. destruct s0 as [files d]. simpl in Hr.
  destruct (files !! dd) as [c|] eqn:Hc; [|by simpl in Hr].
  unfold exit_code, attempt, at_dir, mbind, M_bind. simpl. rewrite Hc.
  pose proof (Enroll_already {| Enroll_ServerURL := server; Enroll_Token := token; Enroll_CAPin := pin;
    Enroll_Hostname := hostname; Enroll_Version := agentVersion |} c d Hr env (mkWorld (Some c, d) n) eq_refl) as He.
  destruct (Enroll _ _ _ _ _ _ _ _) as [[res|e] [s' n']]; simpl in *.
  - subst s'. unfold already. simpl. rewrite <- Hc, put_back. split; [done|set_solver].
  - destruct He as [Hne ->]. rewrite (bool_decide_false _ Hne). unfold already. simpl. rewrite <- Hc, put_back.
    split; [done|set_solver].
Qed.

Lemma runEnroll_already args euid (s0 : DataDirs * Database) :
  Ready (s0.1 !! enroll_dir args) = true ->
  triple (fun s => s = s0) (runEnroll service ca agentVersion link unreadable ends args euid)
    (already s0) (fun _ _ => False).
Proof.
  assert (forall code, code = 1 \/ code = 2 ->
    triple (fun s => s = s0) (mret code) (already s0) (fun _ _ => False)) as Hcode.
  { intros code Hc. apply triple_ret. intros s ->. split; [done|]. destruct Hc as [-> | ->]; set_solver. }
  unfold runEnroll, enroll_dir. destruct (negb (euid =? 0)); [intros _; apply Hcode; by left|].
  destruct (parse_flags enroll_flags args ∅) as [[values rest]|e]; [|intros _; apply Hcode; by right]. cbv zeta. intros Hr.
  destruct (match rest with [] => None | _ => _ end) as [[parsed|e]|].
  - by apply enroll_with_already.
  - apply Hcode. by left.
  - eapply triple_bind with (R := fun _ s => s = s0).
    + eapply triple_attempt with (Q0 := fun _ s => s = s0); [|done].
      unfold resolveEnrollToken. destruct (negb _); [|repeat (destruct (negb _)); by apply triple_ret].
      apply triple_bind_draw. intros [b|e]; [by apply triple_ret|by apply triple_fail].
    + intros [token|e]; [by apply enroll_with_already|apply Hcode; by left].
Qed.

Context {U : Type} `{!OS U, !Runner U, !Binaries U, !UnitManager U, !Folders U, !Sqlite U, !FloatText}.
Context `{!BinariesLaws U, !UnitManagerLaws U}.
Context (x : X509Certificate) (unreadable' : nat -> bool) (ctx : Ctx).
Context (Hx : ParseCertificate (CA_Raw ca) = Some x) (Haddr : requireHTTPSAgentAddr (agentURL service) = true).

(** [cadestrod enroll], then [cadestrod] with the same data directory. *)
Definition enroll_then_start (args : list string) (euid : Z) (dir : string) : M (U * (DataDirs * Database)) (Z * Process) :=
  code ← on_snd (runEnroll service ca agentVersion link unreadable ends args euid);
  p ← start_agent unreadable' ctx dir euid;
  mret (code, p).

(** The agent runs with the credentials of the enrollment, or there is an exit code. *)
Definition runs_enrolled (dir : string) (r : Z * Process) (s : DataDirs * Database) : Prop :=
  match r.2 with
  | AgentRuns l => r.1 = 0 /\ exists res, enrolled_with res (file_of dir s) /\ loop_creds l = json_credentials (Enrolled_Credentials res)
  | Exit code => code = 1
  end.

Lemma enroll_then_start_outcome args euid dir files :
  enroll_dir args = dataDir (NewStore dir) ->
  triple (fun s : U * (DataDirs * Database) => within (enroll_dir args) files resumable s.2) (enroll_then_start args euid dir)
    (fun r s => others (enroll_dir args) files s.2.1 /\ runs_enrolled (enroll_dir args) r s.2)
    (fun e s => within (enroll_dir args) files (killed e) s.2).
Proof.
  intros Hdir. unfold enroll_then_start.
  eapply triple_bind with (R := fun code s => within (enroll_dir args) files (enroll_outcome code) s.2).
  { apply triple_on_snd. intros u. by apply (runEnroll_outcome service ca agentVersion x). }
  intros code. apply triple_at. intros [u s0] [Ho Hout]. simpl in Ho, Hout.
  eapply triple_bind with (R := fun p s => s.2 = s0 /\ start_outcome dir euid s0.1 p).
  { eapply triple_conseq; [apply (start_agent_outcome unreadable' ctx dir euid s0)|by intros s ->|done|done]. }
  intros p. apply triple_ret. intros s [-> Hp]. split; [done|].
  unfold runs_enrolled. simpl. destruct p as [c|l]; [done|]. destruct Hp as (_ & Hl & Hr & _). rewrite <- Hdir in Hl, Hr.
  destruct Hout as [[-> [res He]]|[_ Hres]].
  - split; [done|]. exists res. split; [done|]. destruct He as (_ & Hf & _). simpl in Hf. congruence.
  - apply resumable_not_ready in Hres. simpl in Hres. congruence.
Qed.
End commands.

