(* ===== verification/Middleware.v ===== *)
(** * The public listener's middleware ([server/internal/middleware])

    What stands between the public listener and its routes ([server/cmd/cadestro/main.go]):
    the security headers of every response, and the answers to requests of other origins.
    A handler is a function of the request and the response so far; [next] is whatever
    handles the request. *)

From Stdlib Require Import Ascii.
From S2P Require Import Prelude Strs.

Open Scope string_scope.
Open Scope Z_scope.

(** ** Headers, requests and responses ([net/http]) *)

(** The values of a header, under the key's one spelling. *)
Abbreviation Header := (gmap string (list string)).

Definition header_get (h : Header) (key : string) : string :=
  match h !! ToLower key with Some (value :: _) => value | _ => EmptyString end.

Definition header_set (key value : string) (h : Header) : Header := <[ToLower key := [value]]> h.

Definition header_add (key value : string) (h : Header) : Header :=
  <[ToLower key := (default [] (h !! ToLower key) ++ [value])%list]> h.

Record Request := { Request_Method : string; Request_Header : Header; Request_TLS : bool }.

(** The headers so far; the status and the headers that were sent with it, the first status
    that is written. *)
Record ResponseWriter := { Writer_Header : Header; Writer_Sent : option (Z * Header) }.

Definition fresh_writer : ResponseWriter := {| Writer_Header := ∅; Writer_Sent := None |}.

Definition on_header (f : Header -> Header) (w : ResponseWriter) : ResponseWriter :=
  {| Writer_Header := f (Writer_Header w); Writer_Sent := Writer_Sent w |}.

Definition WriteHeader (status : Z) (w : ResponseWriter) : ResponseWriter :=
  match Writer_Sent w with
  | Some _ => w
  | None => {| Writer_Header := Writer_Header w; Writer_Sent := Some (status, Writer_Header w) |}
  end.

Definition Handler : Type := Request -> ResponseWriter -> ResponseWriter.

(** ** [cors.go] *)

Definition corsAllowMethods : string := "GET, POST, PUT, DELETE, OPTIONS".
Definition corsAllowHeaders : string := "Accept, Authorization, Content-Type, Connect-Protocol-Version, Connect-Timeout-Ms".
Definition corsExposeHeaders : string := "Connect-Content-Encoding, Connect-Protocol-Version".
Definition corsMaxAge : string := "86400".

Definition MethodOptions : string := "OPTIONS".
Definition StatusForbidden : Z := 403.
Definition StatusNoContent : Z := 204.

Definition allow_origin (origin : string) (h : Header) : Header :=
  header_set "Access-Control-Allow-Credentials" "true" (header_set "Access-Control-Allow-Origin" origin h).

Definition preflight_headers (h : Header) : Header :=
  header_add "Vary" "Access-Control-Request-Headers" (header_add "Vary" "Access-Control-Request-Method"
    (header_set "Access-Control-Max-Age" corsMaxAge (header_set "Access-Control-Expose-Headers" corsExposeHeaders
      (header_set "Access-Control-Allow-Headers" corsAllowHeaders
        (header_set "Access-Control-Allow-Methods" corsAllowMethods (header_add "Vary" "Origin" h)))))).

Definition CORS (allowedOrigins : list string) (next : Handler) : Handler := fun r w =>
  let origin := header_get (Request_Header r) "Origin" in
  let preflight := bool_decide (Request_Method r = MethodOptions) in
  if negb (bool_decide (origin = EmptyString)) && negb (bool_decide (origin ∈ allowedOrigins))
  then if preflight then WriteHeader StatusForbidden w else next r w
  else
    let w := if bool_decide (origin = EmptyString) then w else on_header (allow_origin origin) w in
    if preflight then WriteHeader StatusNoContent (on_header preflight_headers w)
    else next r (on_header (fun h => header_set "Access-Control-Expose-Headers" corsExposeHeaders
                                       (header_add "Vary" "Origin" h)) w).

(** ** [security.go] *)

Definition contentSecurityPolicy : string :=
  "default-src 'self'; " ++ "script-src 'self'; " ++ "style-src 'self' 'unsafe-inline'; " ++ "img-src 'self' data:; "
  ++ "connect-src 'self'; " ++ "frame-ancestors 'none'; " ++ "base-uri 'self'; " ++ "form-action 'self'".

Definition security_headers (h : Header) : Header :=
  header_set "Content-Security-Policy" contentSecurityPolicy
    (header_set "Permissions-Policy" "camera=(), microphone=(), geolocation=()"
      (header_set "X-XSS-Protection" "0" (header_set "Referrer-Policy" "strict-origin-when-cross-origin"
        (header_set "X-Content-Type-Options" "nosniff" (header_set "X-Frame-Options" "DENY" h))))).

Definition SecurityHeaders (next : Handler) : Handler := fun r w =>
  let w := on_header security_headers w in
  next r (if Request_TLS r || bool_decide (header_get (Request_Header r) "X-Forwarded-Proto" = "https")
          then on_header (header_set "Strict-Transport-Security" "max-age=31536000; includeSubDomains") w else w).

(** [publicRoot] of [main.go]. *)
Definition publicRoot (origins : list string) (publicMux : Handler) : Handler :=
  SecurityHeaders (CORS origins publicMux).

(** ** Facts *)

Lemma header_get_set_eq key value h : header_get (header_set key value h) key = value.
Proof. unfold header_get, header_set. by rewrite lookup_insert_eq. Qed.

Lemma header_get_set_ne key key' value h :
  ToLower key' <> ToLower key -> header_get (header_set key' value h) key = header_get h key.
Proof. intros Hne. unfold header_get, header_set. by rewrite lookup_insert_ne. Qed.

Lemma header_get_add_ne key key' value h :
  ToLower key' <> ToLower key -> header_get (header_add key' value h) key = header_get h key.
Proof. intros Hne. unfold header_get, header_add. by rewrite lookup_insert_ne. Qed.

(** The headers every response begins with. *)
Definition required_headers : list (string * string) :=
  [("X-Frame-Options", "DENY"); ("X-Content-Type-Options", "nosniff");
   ("Referrer-Policy", "strict-origin-when-cross-origin"); ("X-XSS-Protection", "0");
   ("Permissions-Policy", "camera=(), microphone=(), geolocation=()");
   ("Content-Security-Policy", contentSecurityPolicy)].

(** Whether the headers let the origin of the request read the response, with its
    credentials. *)
Definition admits (h : Header) (origin : string) : Prop :=
  header_get h "Access-Control-Allow-Origin" = origin /\ header_get h "Access-Control-Allow-Credentials" = "true".

Definition admits_none (h : Header) : Prop :=
  header_get h "Access-Control-Allow-Origin" = EmptyString /\
  header_get h "Access-Control-Allow-Credentials" = EmptyString.

(** What the headers of a response say: the required ones, and the origin of the request if it
    is one of the configured ones. *)
Definition public_headers (origins : list string) (r : Request) (h : Header) : Prop :=
  (forall key value, (key, value) ∈ required_headers -> header_get h key = value) /\
  let origin := header_get (Request_Header r) "Origin" in
  if bool_decide (origin <> EmptyString /\ origin ∈ origins) then admits h origin else admits_none h.

#[local] Ltac headers :=
  repeat first [ rewrite header_get_set_eq | rewrite header_get_set_ne by by vm_compute
               | rewrite header_get_add_ne by by vm_compute ].

Lemma required_first h key value : (key, value) ∈ required_headers -> header_get (security_headers h) key = value.
Proof.
  unfold required_headers. intros Hin.
  repeat (apply elem_of_cons in Hin as [[= -> ->]|Hin]; [unfold security_headers; by headers|]). by apply elem_of_nil in Hin.
Qed.

(** The headers [CORS] sees. *)
Definition secured (r : Request) : Header := Writer_Header (SecurityHeaders (fun _ w => w) r fresh_writer).

Lemma secured_headers r :
  (forall key value, (key, value) ∈ required_headers -> header_get (secured r) key = value) /\ admits_none (secured r).
Proof.
  unfold secured, SecurityHeaders, admits_none. split.
  - intros key value Hin. pose proof (required_first ∅ key value Hin) as Hreq. case_match; [|exact Hreq].
    simpl. rewrite header_get_set_ne; [exact Hreq|]. unfold required_headers in Hin.
    repeat (apply elem_of_cons in Hin as [[= -> ->]|Hin]; [by vm_compute|]). by apply elem_of_nil in Hin.
  - case_match; vm_compute; by split.
Qed.

(** Changes to headers other than the required ones and those that admit an origin. *)
Definition neutral (f : Header -> Header) : Prop :=
  forall h key, key ∈ ("Access-Control-Allow-Origin" :: "Access-Control-Allow-Credentials" :: (fst <$> required_headers)) ->
    header_get (f h) key = header_get h key.

Lemma neutral_preflight : neutral preflight_headers.
Proof.
  intros h key Hin. unfold required_headers in Hin. simpl in Hin.
  repeat (apply elem_of_cons in Hin as [->|Hin]; [unfold preflight_headers; by headers|]). by apply elem_of_nil in Hin.
Qed.

Lemma neutral_exposed :
  neutral (fun h => header_set "Access-Control-Expose-Headers" corsExposeHeaders (header_add "Vary" "Origin" h)).
Proof.
  intros h key Hin. unfold required_headers in Hin. simpl in Hin.
  repeat (apply elem_of_cons in Hin as [->|Hin]; [by headers|]). by apply elem_of_nil in Hin.
Qed.

Lemma public_neutral origins r f h : neutral f -> public_headers origins r h -> public_headers origins r (f h).
Proof.
  intros Hf [Hreq Hadm]. split.
  - intros key value Hin. rewrite Hf; [by apply Hreq|]. do 2 right. apply list_elem_of_fmap. by exists (key, value).
  - cbv zeta in *. unfold admits, admits_none in *. rewrite !Hf by set_solver. done.
Qed.

(** The headers once the origin has been looked at. *)
Lemma public_admitted origins r :
  let origin := header_get (Request_Header r) "Origin" in
  ~ (origin <> EmptyString /\ origin ∉ origins) ->
  public_headers origins r (if bool_decide (origin = EmptyString) then secured r else allow_origin origin (secured r)).
Proof.
  cbv zeta. set (origin := header_get (Request_Header r) "Origin"). intros Hok.
  destruct (secured_headers r) as [Hreq Hnone]. unfold public_headers. fold origin. case_bool_decide as Hempty.
  - split; [done|]. cbv zeta. by rewrite bool_decide_false by tauto.
  - split.
    + intros key value Hin. rewrite <- (Hreq key value Hin). unfold allow_origin, required_headers in *.
      repeat (apply elem_of_cons in Hin as [[= -> ->]|Hin]; [by headers|]). by apply elem_of_nil in Hin.
    + cbv zeta. rewrite bool_decide_true.
      * unfold admits, allow_origin. by headers.
      * split; [done|]. destruct (decide (origin ∈ origins)); [done|tauto].
Qed.

Lemma public_foreign origins r :
  let origin := header_get (Request_Header r) "Origin" in
  origin ∉ origins -> public_headers origins r (secured r).
Proof.
  cbv zeta. intros Hout. destruct (secured_headers r) as [Hreq Hnone]. split; [done|]. cbv zeta.
  by rewrite bool_decide_false by tauto.
Qed.

(** What the middleware makes of a request before its routes: the response so far, and
    whether a route sees it. *)
Definition public_response (origins : list string) (r : Request) (w : ResponseWriter) : Prop :=
  let origin := header_get (Request_Header r) "Origin" in
  public_headers origins r (Writer_Header w) /\
  forall publicMux, let response := publicRoot origins publicMux r fresh_writer in
    if bool_decide (Request_Method r = MethodOptions)
    then response = w /\ Writer_Sent w = Some
           (if bool_decide (origin <> EmptyString /\ origin ∉ origins) then StatusForbidden else StatusNoContent,
            Writer_Header w)
    else response = publicMux r w /\ Writer_Sent w = None.

Lemma publicRoot_response origins r : exists w, public_response origins r w.
Proof.
  unfold public_response. cbv zeta. set (origin := header_get (Request_Header r) "Origin").
  assert (forall mux, publicRoot origins mux r fresh_writer
    = CORS origins mux r {| Writer_Header := secured r; Writer_Sent := None |}) as Hroot.
  { intros mux. unfold publicRoot, secured, SecurityHeaders. by case_match. }
  destruct (decide (origin <> EmptyString /\ origin ∉ origins)) as [[Hne Hout]|Hok].
  - rewrite (bool_decide_true (origin <> EmptyString /\ _)) by done.
    set (w0 := {| Writer_Header := secured r; Writer_Sent := None |}) in *.
    exists (if bool_decide (Request_Method r = MethodOptions) then WriteHeader StatusForbidden w0 else w0). split.
    { pose proof (public_foreign origins r Hout). by destruct (bool_decide (Request_Method r = MethodOptions)). }
    intros mux. rewrite Hroot. unfold CORS. fold origin. rewrite (bool_decide_false (origin = EmptyString)), (bool_decide_false (origin ∈ origins)) by done. simpl.
    by destruct (bool_decide (Request_Method r = MethodOptions)).
  - rewrite (bool_decide_false (origin <> EmptyString /\ _)) by done.
    set (w0 := {| Writer_Header := if bool_decide (origin = EmptyString) then secured r else allow_origin origin (secured r);
                  Writer_Sent := None |}).
    pose proof (public_admitted origins r Hok) as Hadm.
    exists (if bool_decide (Request_Method r = MethodOptions) then WriteHeader StatusNoContent (on_header preflight_headers w0)
            else on_header (fun h => header_set "Access-Control-Expose-Headers" corsExposeHeaders (header_add "Vary" "Origin" h)) w0).
    split.
    { destruct (bool_decide (Request_Method r = MethodOptions)); [apply (public_neutral _ _ _ _ neutral_preflight Hadm)|apply (public_neutral _ _ _ _ neutral_exposed Hadm)]. }
    intros mux. rewrite Hroot. unfold CORS. fold origin.
    assert (negb (bool_decide (origin = EmptyString)) && negb (bool_decide (origin ∈ origins)) = false) as ->.
    { rewrite <- !bool_decide_not, <- bool_decide_and. by apply bool_decide_false. }
    unfold w0. by destruct (bool_decide (origin = EmptyString)), (bool_decide (Request_Method r = MethodOptions)).
Qed.

(** C34: Before any route sees a request to the public listener its response has the security
    headers, and lets the origin of the request read it, with its credentials, exactly
    when the request has an origin that is configured.  A preflight never reaches a
    route: it is answered 403 when its origin is not configured and 204 otherwise. *)
Theorem public_origins origins r :
  let origin := header_get (Request_Header r) "Origin" in
  exists w, public_headers origins r (Writer_Header w) /\
    forall publicMux, let response := publicRoot origins publicMux r fresh_writer in
      if bool_decide (Request_Method r = MethodOptions)
      then response = w /\ Writer_Sent w = Some
             (if bool_decide (origin <> EmptyString /\ origin ∉ origins) then StatusForbidden else StatusNoContent,
              Writer_Header w)
      else response = publicMux r w /\ Writer_Sent w = None.
Proof. apply publicRoot_response. Qed.
