(* ===== verification/ServerStart.v ===== *)
(** * Starting the control plane ([server/cmd/cadestro])

    The configuration in the environment variables ([config.go]), the certificate authority
    from its files ([ca.New]), the database's file ([store.New]), and [run] from the opening
    of the database to the shut-down of the listeners ([main.go]).  A program here runs over
    the host and the database.  The requests that the listeners serve meanwhile are
    [Server.server_step]. *)

From Stdlib Require Import Ascii.
From S2P Require Import Prelude Hash Engine Pair Quiet Pki Proto Schema Queries Service Auth Idp.
From S2P Require Import Login Server Strs Text Paths Files.
From S2P Require Import AgentCerts AgentEnroll HostFiles Middleware.

Open Scope string_scope.
Open Scope Z_scope.

(** [time.ParseDuration]. *)
Class Durations := { ParseDuration : string -> option Z }.

(** [x509.MarshalPKIXPublicKey]. *)
Class Pkix := { MarshalPKIXPublicKey : PublicKey -> option bytes }.

(** ** The configuration ([config.go]) *)

Record Config := {
  PublicListen : string;
  AgentListen : string;
  PublicBaseURL : string;
  AgentURL : string;
  CORSOrigins : list string;
  LogLevel : string;
  LogFormat : string;
  CertificateValidity : Z;
  HeartbeatInterval : Z;
  CACertFile : string;
  CAKeyFile : string;
  AgentTLSCertFile : string;
  AgentTLSKeyFile : string;
  PublicTLSCertFile : string;
  PublicTLSKeyFile : string;
  DatabasePath : string;
  SessionSigningKey : bytes;
  BootstrapOIDCName : string;
  BootstrapOIDCSlug : string;
  BootstrapOIDCClientID : string;
  BootstrapOIDCIssuer : string;
  BootstrapOIDCScopes : list string;
}.

Definition second : Z := 1000000000.

Section config.
Context {D : Type} `{!OS D, !EnvironmentVariables, !Durations, !X509, !Tls, !WebAddress}.

Definition environment (name fallback : string) : string :=
  let value := TrimSpace (Getenv name) in
  if bool_decide (value = EmptyString) then fallback else value.

Definition durationEnvironment (name : string) (fallback : Z) : result Z :=
  let value := TrimSpace (Getenv name) in
  if bool_decide (value = EmptyString) then Ok fallback
  else
    let invalid := Err (ErrNew "must be a positive duration") in
    match ParseDuration value with
    | None => invalid
    | Some parsed => if parsed <=? 0 then invalid else Ok parsed
    end.

Definition listEnvironment (name : string) (fallback : list string) : list string :=
  let value := TrimSpace (Getenv name) in
  if bool_decide (value = EmptyString) then fallback
  else List.filter (fun item => negb (bool_decide (item = EmptyString))) (TrimSpace <$> Split value ",").

Definition readPrivateFile (path : string) : M D bytes :=
  if bool_decide (path = EmptyString) then fail (ErrNew "private file path is required")
  else
    info ← os_Stat path;
    match (info : option FileStat) with
    | None => fail os_ErrNotExist
    | Some info =>
        if negb (IsRegular (Stat_Mode info)) || others_access (Stat_Mode info)
        then fail (ErrNew "private file must be regular and not group/world accessible")
        else
          value ← os_ReadFile path;
          if 65536 <? Z.of_nat (String.length value) then fail (ErrNew "private file is too large")
          else mret (string_bytes value)
    end.

(** An [ed25519.PrivateKey]: the seed, then the public key. *)
Definition private_key (seed : bytes) : bytes := seed ++ ed25519_Public seed.

Definition session_key (value : bytes) : result bytes :=
  let several := Err (ErrNew "session signing key must contain one PEM block") in
  match pem_Decode value with
  | None => several
  | Some (block, rest) =>
      if negb (blank rest) then several
      else match ParsePKCS8PrivateKey (Block_Bytes block) with
      | None => Err (ErrNew "parse session signing key")
      | Some OtherPrivate => Err (ErrNew "session signing key must be Ed25519")
      | Some (Ed25519Private seed) => Ok (private_key seed)
      end
  end.

Definition loadSessionKey (path : string) : M D bytes :=
  value ← readPrivateFile path; lift (session_key value).

Definition validateHTTPS (name value : string) : result unit :=
  match ValidateHTTPSURL value with Err err => Err (ErrWrap name err) | Ok _ => Ok tt end.

(** An origin is [https://host]. *)
Definition cors_origin (origin : string) : bool :=
  match url_Parse origin with
  | None => false
  | Some parsed =>
      bool_decide (Url_Scheme parsed = "https") && negb (bool_decide (Url_Host parsed = EmptyString))
      && negb (Url_HasUser parsed) && bool_decide (Url_Path parsed = EmptyString)
      && bool_decide (Url_RawQuery parsed = EmptyString) && bool_decide (Url_Fragment parsed = EmptyString)
  end.

(** What the variables say, whatever the durations and the key. *)
Definition configured (certificateValidity heartbeatInterval : Z) (sessionKey : bytes) : Config := {|
  PublicListen := environment "CADESTRO_PUBLIC_LISTEN" ":8081";
  AgentListen := environment "CADESTRO_AGENT_LISTEN" ":8082";
  PublicBaseURL := environment "CADESTRO_PUBLIC_BASE_URL" "";
  AgentURL := environment "CADESTRO_AGENT_URL" "";
  CORSOrigins := listEnvironment "CADESTRO_CORS_ORIGINS" [];
  LogLevel := environment "CADESTRO_LOG_LEVEL" "info";
  LogFormat := environment "CADESTRO_LOG_FORMAT" "json";
  CertificateValidity := certificateValidity;
  HeartbeatInterval := heartbeatInterval;
  CACertFile := environment "CADESTRO_CA_CERT_FILE" "";
  CAKeyFile := environment "CADESTRO_CA_KEY_FILE" "";
  AgentTLSCertFile := environment "CADESTRO_AGENT_TLS_CERT_FILE" "";
  AgentTLSKeyFile := environment "CADESTRO_AGENT_TLS_KEY_FILE" "";
  PublicTLSCertFile := environment "CADESTRO_PUBLIC_TLS_CERT_FILE" "";
  PublicTLSKeyFile := environment "CADESTRO_PUBLIC_TLS_KEY_FILE" "";
  DatabasePath := environment "CADESTRO_DATABASE_PATH" "/var/lib/cadestro/control.db";
  SessionSigningKey := sessionKey;
  BootstrapOIDCName := environment "CADESTRO_OIDC_NAME" "Company SSO";
  BootstrapOIDCSlug := environment "CADESTRO_OIDC_SLUG" "sso";
  BootstrapOIDCClientID := environment "CADESTRO_OIDC_CLIENT_ID" "";
  BootstrapOIDCIssuer := environment "CADESTRO_OIDC_ISSUER_URL" "";
  BootstrapOIDCScopes := listEnvironment "CADESTRO_OIDC_SCOPES" ["openid"; "profile"; "email"] |}.

Definition required_files (config : Config) : list string :=
  [CACertFile config; CAKeyFile config; AgentTLSCertFile config; AgentTLSKeyFile config;
   PublicTLSCertFile config; PublicTLSKeyFile config].

(** Go ranges over the required files in any order, which only decides the file that the
    error names. *)
Definition check_config (config : Config) : result Config :=
  if bool_decide (PublicListen config = AgentListen config)
  then Err (ErrNew "public and agent listeners must be distinct")
  else
    _ ← validateHTTPS "CADESTRO_PUBLIC_BASE_URL" (PublicBaseURL config);
    _ ← validateHTTPS "CADESTRO_AGENT_URL" (AgentURL config);
    if negb (forallb cors_origin (CORSOrigins config)) then Err (ErrNew "invalid CORS origin")
    else if negb (IsAbs (DatabasePath config)) then Err (ErrNew "database path must be absolute")
    else if existsb (fun path => bool_decide (path = EmptyString)) (required_files config)
    then Err (ErrNew "is required")
    else Ok config.

Definition loadConfig : M D Config :=
  certificateValidity ← lift (durationEnvironment "CADESTRO_CERTIFICATE_VALIDITY" (365 * 24 * 3600 * second));
  heartbeatInterval ← lift (durationEnvironment "CADESTRO_HEARTBEAT_INTERVAL" (30 * second));
  sessionKey ← wrapped "CADESTRO_SESSION_SIGNING_KEY_FILE"
    (loadSessionKey (environment "CADESTRO_SESSION_SIGNING_KEY_FILE" ""));
  lift (check_config (configured certificateValidity heartbeatInterval sessionKey)).
End config.

(** ** The certificate authority from its files ([ca.go]) *)

Section authority.
Context {D : Type} `{!OS D, !X509, !Tls, !Pkix}.

(** The CA and the seed of its private key, with which [CreateCertificate] signs. *)
Definition NewFromPEM (certPEM keyPEM : bytes) (validity : Z) : result (CA * bytes) :=
  match pem_Decode certPEM with
  | None => Err (ErrNew "failed to decode CA certificate PEM")
  | Some (certBlock, _) =>
      match ParseCertificate (Block_Bytes certBlock) with
      | None => Err (ErrNew "parse CA certificate")
      | Some cert =>
          match pem_Decode keyPEM with
          | None => Err (ErrNew "failed to decode CA key PEM")
          | Some (keyBlock, _) =>
              match ParsePKCS8PrivateKey (Block_Bytes keyBlock) with
              | None => Err (ErrNew "parse CA key")
              | Some OtherPrivate => Err (ErrNew "unsupported CA signing key type")
              | Some (Ed25519Private seed) =>
                  match MarshalPKIXPublicKey (Cert_PublicKey cert),
                        MarshalPKIXPublicKey (Ed25519Key (ed25519_Public seed)) with
                  | None, _ => Err (ErrNew "marshal CA certificate public key")
                  | _, None => Err (ErrNew "marshal CA private-key public key")
                  | Some certPublic, Some keyPublic =>
                      if negb (bool_decide (certPublic = keyPublic))
                      then Err (ErrNew "CA certificate and private key do not match")
                      else Ok ({| CA_Raw := Block_Bytes certBlock; CA_validity := validity |}, seed)
                  end
              end
          end
      end
  end.

Definition ca_New (certPath keyPath : string) (validity : Z) : M D (CA * bytes) :=
  certPEM ← wrapped "read CA certificate" (os_ReadFile certPath);
  keyInfo ← wrapped "stat CA key" (os_Stat keyPath);
  match (keyInfo : option FileStat) with
  | None => fail (ErrWrap "stat CA key" os_ErrNotExist)
  | Some keyInfo =>
      if others_access (Stat_Mode keyInfo)
      then fail (ErrNew "CA private key file must not be group/world accessible")
      else
        keyPEM ← wrapped "read CA key" (os_ReadFile keyPath);
        lift (NewFromPEM (string_bytes certPEM) (string_bytes keyPEM) validity)
  end.

(** [TrustPool]: the certificates of the pool, in DER. *)
Definition TrustPool (ca : CA) : list bytes := [CA_Raw ca].
End authority.

(** ** The database's file ([store.go]) *)

Section database.
Context {D : Type} `{!OS D, !Folders D, !Sqlite D}.

Definition store_New (path : string) : M D unit :=
  if bool_decide (path = EmptyString) || negb (IsAbs path) || ContainsAny path "?#"
  then fail (ErrNew "database path must be an absolute SQLite file path without '?' or '#'")
  else
    _ ← wrapped "create database directory" (os_MkdirAll (Dir path) 448);
    _ ← wrapped "open database" (sqlite_Open (path ++ sqlite_pragmas));
    _ ← closeOnError "apply migrations" goose_Up;
    closeOnError "restrict database permissions" (os_Chmod path 384).
End database.

(** ** The servers and [run] ([main.go]) *)

Definition VersionTLS13 : Z := 772.

(** A listener's address, its certificate and key, and the least version of TLS. *)
Record Listener := { Addr : string; Certificate_ : bytes; Key_ : bytes; MinVersion : Z }.

(** The public listener's handler in front of its routes, and the agents' listener, which
    requires a client certificate that one of [ClientCAs] verifies. *)
Record PublicServer := { Public_Listener : Listener; Public_Root : Handler -> Handler }.
Record AgentServer := { Agent_Listener : Listener; ClientCAs : list bytes }.

(** What [run] holds when the listeners start. *)
Record Running := {
  Run_Service : Service;
  Run_CA : CA;
  Run_JWT : JWTManager;
  Run_Public : PublicServer;
  Run_Agents : AgentServer;
}.

Inductive Role := PublicRole | AgentRole.

Definition role_name (role : Role) : string :=
  match role with PublicRole => "public" | AgentRole => "agent" end.

(** [net/http]'s servers: the requests that are served until the process is told to stop or
    a listener fails, with anything but [http.ErrServerClosed]; and the shut-down of a
    listener, which waits for the requests it serves. *)
Class Listeners (D : Type) := {
  ListenAndServeTLS : Running -> M (D * Database) (option (Role * error));
  Shutdown : Running -> Role -> M (D * Database) unit;
}.

Definition health : Handler := fun _ w =>
  WriteHeader 200 (on_header (header_set "Content-Type" "text/plain; charset=utf-8") w).

Section run.
Context {D : Type} `{!OS D, !Folders D, !Sqlite D, !EnvironmentVariables, !Durations, !X509, !Tls, !Pkix, !WebAddress, !OIDC, !Listeners D}.

(** [tls.LoadX509KeyPair]. *)
Definition LoadX509KeyPair (certFile keyFile : string) : M D (bytes * bytes) :=
  cert ← os_ReadFile certFile;
  key ← os_ReadFile keyFile;
  if X509KeyPair (string_bytes cert) (string_bytes key) then mret (string_bytes cert, string_bytes key)
  else fail (ErrNew "tls: X509KeyPair").

Definition key_pair_of (name certFile keyFile : string) : M D (bytes * bytes) :=
  _ ← wrapped (name ++ " TLS key") (readPrivateFile keyFile);
  wrapped ("load " ++ name ++ " TLS certificate") (LoadX509KeyPair certFile keyFile).

Definition buildServers (config : Config) (ca : CA) : M D (PublicServer * AgentServer) :=
  public ← key_pair_of "public" (PublicTLSCertFile config) (PublicTLSKeyFile config);
  agent ← key_pair_of "agent" (AgentTLSCertFile config) (AgentTLSKeyFile config);
  let '((publicCert, publicKey), (agentCert, agentKey)) := ((public, agent) : (bytes * bytes) * (bytes * bytes)) in
  mret ({| Public_Listener := {| Addr := PublicListen config; Certificate_ := publicCert; Key_ := publicKey;
             MinVersion := VersionTLS13 |};
           Public_Root := publicRoot (CORSOrigins config) |},
        {| Agent_Listener := {| Addr := AgentListen config; Certificate_ := agentCert; Key_ := agentKey;
             MinVersion := VersionTLS13 |};
           ClientCAs := TrustPool ca |}).

(** [run] up to the start of the listeners, the database being open. *)
Definition prepare (config : Config) : M (D * Database) Running :=
  authority ← wrapped "load certificate authority"
    (on_fst (ca_New (CACertFile config) (CAKeyFile config) (CertificateValidity config)));
  let certificateAuthority := fst (authority : CA * bytes) in
  jwt ← wrapped "load session signer" (lift (NewJWTManager {|
    PrivateKey := SessionSigningKey config; AccessTokenExpiry := 0; RefreshTokenExpiry := 0; Issuer := "" |}));
  fingerprint ← wrapped "fingerprint certificate authority"
    (lift (CAFingerprintFromPEM (CACertPEM certificateAuthority)));
  let service := Service.New {| publicBaseURL := PublicBaseURL config; agentURL := AgentURL config;
    caFingerprint := fingerprint; heartbeatInterval := HeartbeatInterval config |} in
  _ ← wrapped "bootstrap identity provider" (on_snd (EnsureBootstrapProvider service {|
    Bootstrap_Name := BootstrapOIDCName config; Bootstrap_Slug := BootstrapOIDCSlug config;
    Bootstrap_ClientID := BootstrapOIDCClientID config; Bootstrap_IssuerURL := BootstrapOIDCIssuer config;
    Bootstrap_Scopes := BootstrapOIDCScopes config |}));
  servers ← on_fst (buildServers config certificateAuthority);
  let '(publicServer, agentServer) := (servers : PublicServer * AgentServer) in
  mret {| Run_Service := service; Run_CA := certificateAuthority; Run_JWT := jwt; Run_Public := publicServer;
          Run_Agents := agentServer |}.

(** The rest of [run]: the first end decides the error, then the public listener's. *)
Definition serve_until (running : Running) : M (D * Database) unit :=
  ended ← ListenAndServeTLS running;
  publicErr ← attempt (Shutdown running PublicRole);
  agentErr ← attempt (Shutdown running AgentRole);
  match (ended : option (Role * error)), (publicErr : result unit), (agentErr : result unit) with
  | Some (role, err), _, _ => fail (ErrWrap (role_name role ++ " listener") err)
  | None, Err err, _ => fail (ErrWrap "shut down public listener" err)
  | None, Ok _, Err err => fail (ErrWrap "shut down agent listener" err)
  | None, Ok _, Ok _ => mret tt
  end.

Definition run (config : Config) : M (D * Database) unit :=
  _ ← wrapped "open database" (on_fst (store_New (DatabasePath config)));
  ended ← attempt (running ← prepare config; serve_until running);
  _ ← perform (on_fst sqlite_Close);
  lift ended.

(** The exit code of the process. *)
Definition main : M (D * Database) Z :=
  config ← attempt (on_fst loadConfig);
  match (config : result Config) with
  | Err _ => mret 2
  | Ok config => ended ← attempt (run config); mret match (ended : result unit) with Ok _ => 0 | Err _ => 1 end
  end.
End run.
