(* ===== verification/ServerStartFacts.v ===== *)
(** * What a control plane that starts has

    The configurations [loadConfig] accepts, what [run] has made of one when its listeners
    start, and that the database stays one the server reaches until the process ends. *)

From Stdlib Require Import Ascii.
From S2P Require Import Prelude Hash Engine Pair Quiet Pki Proto Schema Queries QueriesFacts.
From S2P Require Import Service Actions Assignments Auth Idp Login Server Strs Text Paths Files.
From S2P Require Import AgentCerts AgentEnroll HostFiles Middleware ServerStart.

Open Scope string_scope.
Open Scope Z_scope.

(** ** The laws of the calls *)

(** Stat and ReadFile on the files of a host: a mode and a content. *)
Class FileLaws (D : Type) `{!OS D} := {
  file_at : D -> string -> option (Z * string);
  Stat_reads : forall path d0,
    triple (fun d => d = d0) (os_Stat path) (fun st d => d = d0 /\ Stat_Mode <$> st = fst <$> file_at d0 path)
      (fun _ d => d = d0);
  ReadFile_reads : forall path d0,
    triple (fun d => d = d0) (os_ReadFile path) (fun c d => d = d0 /\ snd <$> file_at d0 path = Some c)
      (fun _ d => d = d0);
  Stat_answers : forall path d0, is_Some (file_at d0 path) ->
    quietly (fun d => d = d0) (os_Stat path) (fun _ d => d = d0);
  ReadFile_answers : forall path d0, is_Some (file_at d0 path) ->
    quietly (fun d => d = d0) (os_ReadFile path) (fun _ d => d = d0);
}.

(** Ed25519 keys have 32 bytes and one encoding. *)
Class KeyLaws `{!Tls, !Pkix} : Prop := {
  parsed_key_size : forall der seed, ParsePKCS8PrivateKey der = Some (Ed25519Private seed) ->
    length seed = 32%nat /\ length (ed25519_Public seed) = 32%nat;
  pkix_injective : forall pub key der, MarshalPKIXPublicKey pub = Some der ->
    MarshalPKIXPublicKey (Ed25519Key key) = Some der -> pub = Ed25519Key key;
}.

(** The listeners change the database by serving requests. *)
Class ListenerLaws (D : Type) `{!Listeners D, !Jwt, !OIDC, !WebAddress, !X509, !ProtoCodec Action, !ProtoCodec ActionResult,
    !DeterministicMarshal, !PageTokenText} : Prop := {
  serves : forall running d,
    triple (fun x : D * Database => x.2 = d) (ListenAndServeTLS running)
      (fun _ x => reaches (Run_Service running) (Run_CA running) (Run_JWT running) d x.2) (fun _ _ => False);
  shuts_down : forall running role d,
    triple (fun x : D * Database => x.2 = d) (Shutdown running role)
      (fun _ x => reaches (Run_Service running) (Run_CA running) (Run_JWT running) d x.2)
      (fun _ x => reaches (Run_Service running) (Run_CA running) (Run_JWT running) d x.2);
}.

(** ** Calls *)

Lemma wrapped_spec {D A} (P : D -> Prop) text (m : M D A) Q (E : D -> Prop) :
  triple P m Q (fun _ => E) -> triple P (wrapped text m) Q (fun _ => E).
Proof. intros Hm. eapply triple_on_error; [exact Hm|]. intros err. by apply triple_fail. Qed.

Lemma quietly_wrapped {D A} (P : D -> Prop) text (m : M D A) Q : quietly P m Q -> quietly P (wrapped text m) Q.
Proof. apply quietly_on_error. Qed.

Lemma quietly_bind_lift {D A B} (P : D -> Prop) (r : result A) a (k : A -> M D B) Q :
  r = Ok a -> quietly P (k a) Q -> quietly P (lift r ≫= k) Q.
Proof. intros -> Hk. exact Hk. Qed.

Lemma triple_bind_wrapped_lift {D A B} (P : D -> Prop) text (r : result A) (k : A -> M D B) Q E :
  (forall a, r = Ok a -> triple P (k a) Q E) -> (forall e d, P d -> E e d) -> triple P (wrapped text (lift r) ≫= k) Q E.
Proof.
  intros Hk HE env w Hw. unfold mbind, M_bind, wrapped, on_error, lift, fail.
  destruct r as [a|e]; [by apply Hk|by apply HE].
Qed.

(** A call whose value is known. *)
Lemma quietly_bind_value {D A B} (d0 : D) (m : M D A) a (k : A -> M D B) Q :
  quietly (fun d => d = d0) m (fun v d => d = d0 /\ v = a) -> quietly (fun d => d = d0) (k a) Q ->
  quietly (fun d => d = d0) (m ≫= k) Q.
Proof. intros Hm Hk. eapply quietly_bind; [exact Hm|]. intros v. apply quietly_at. by intros d1 [-> ->]. Qed.

(** ** Files no one else may read *)

Section files.
Context {D : Type} `{!OS D, !FileLaws D}.

Definition private_file (d : D) (path : string) (value : bytes) : Prop :=
  path <> EmptyString /\ exists mode content,
    file_at d path = Some (mode, content) /\ value = string_bytes content /\
    IsRegular mode = true /\ others_access mode = false /\ Z.of_nat (String.length content) <= 65536.

Lemma ReadFile_value path c d0 :
  snd <$> file_at d0 path = Some c -> quietly (fun d => d = d0) (os_ReadFile path) (fun x d => d = d0 /\ x = c).
Proof.
  intros Hc. eapply quietly_conseq; [eapply quietly_triple; [apply ReadFile_answers|apply ReadFile_reads]|intros d Hd; exact Hd|].
  - destruct (file_at d0 path); [done|discriminate].
  - intros x d (-> & _ & Hx). split; [done|]. cbv beta in Hx. rewrite Hc in Hx. by injection Hx.
Qed.

Lemma readPrivateFile_spec path d0 :
  triple (fun d => d = d0) (readPrivateFile path) (fun value d => d = d0 /\ private_file d0 path value) (fun _ d => d = d0).
Proof.
  unfold readPrivateFile. case_bool_decide as Hp; [by apply triple_fail|].
  eapply triple_bind; [apply Stat_reads|]. intros [info|]; [|apply triple_fail; by intros d [-> _]].
  destruct (negb _ || others_access _) eqn:Hmode; [apply triple_fail; by intros d [-> _]|].
  apply orb_false_iff in Hmode as [Hreg%negb_false_iff Hothers].
  eapply triple_bind with (R := fun c d => (Stat_Mode <$> Some info = fst <$> file_at d0 path /\ snd <$> file_at d0 path = Some c) /\ d = d0).
  { apply triple_at. intros d1 [-> Hst]. eapply triple_conseq; [apply (ReadFile_reads path d0)|done| |done].
    by intros c d [-> Hc]. }
  intros c. destruct (65536 <? _) eqn:Hsize; [apply triple_fail; by intros d [_ ->]|].
  apply triple_ret. intros d [[Hst Hc] ->]. split; [done|]. split; [done|].
  destruct (file_at d0 path) as [[mode content]|]; [|done]. simpl in *. simplify_eq.
  exists (Stat_Mode info), c. split_and!; [done..|lia].
Qed.

Lemma readPrivateFile_answers path value d0 :
  private_file d0 path value ->
  quietly (fun d => d = d0) (readPrivateFile path) (fun v d => d = d0 /\ v = value).
Proof.
  intros (Hp & mode & content & Hfile & -> & Hreg & Hothers & Hsize). unfold readPrivateFile.
  rewrite bool_decide_false by done. eapply quietly_bind.
  { eapply quietly_triple; [by apply Stat_answers; rewrite Hfile|apply Stat_reads]. }
  intros info. apply quietly_at. intros d1 (-> & _ & Hst). rewrite Hfile in Hst.
  destruct info as [info|]; [|done]. injection Hst as ->. rewrite Hreg, Hothers. simpl.
  eapply quietly_bind.
  { eapply quietly_triple; [by apply ReadFile_answers; rewrite Hfile|apply ReadFile_reads]. }
  intros c. apply quietly_at. intros d1 (-> & _ & Hc). rewrite Hfile in Hc. injection Hc as ->.
  rewrite (proj2 (Z.ltb_ge _ _)) by lia. by apply quietly_ret.
Qed.
End files.

(** ** The configuration *)

Section config.
Context {D : Type} `{!OS D, !FileLaws D, !EnvironmentVariables, !Durations, !X509, !Tls, !Pkix, !KeyLaws, !WebAddress}.

Definition acceptable (config : Config) : Prop :=
  PublicListen config <> AgentListen config /\
  ValidateHTTPSURL (PublicBaseURL config) = Ok tt /\ ValidateHTTPSURL (AgentURL config) = Ok tt /\
  (forall origin, origin ∈ CORSOrigins config -> cors_origin origin = true) /\
  IsAbs (DatabasePath config) = true /\ (forall path, path ∈ required_files config -> path <> EmptyString).

Lemma check_config_ok config c : check_config config = Ok c <-> c = config /\ acceptable config.
Proof.
  unfold check_config, acceptable, validateHTTPS.
  assert (forallb cors_origin (CORSOrigins config) = true <->
    (forall origin, origin ∈ CORSOrigins config -> cors_origin origin = true)) as Hcors.
  { rewrite forallb_forall. by setoid_rewrite list_elem_of_In. }
  assert (existsb (fun path => bool_decide (path = EmptyString)) (required_files config) = false <->
    (forall path, path ∈ required_files config -> path <> EmptyString)) as Hfiles.
  { rewrite <- not_true_iff_false, existsb_exists. setoid_rewrite list_elem_of_In.
    setoid_rewrite bool_decide_eq_true. split; [intros Hno path Hin ->; apply Hno; by exists EmptyString|].
    intros Hall (path & Hin & ->). by apply (Hall EmptyString). }
  rewrite <- Hcors, <- Hfiles. clear Hcors Hfiles.
  generalize (forallb cors_origin (CORSOrigins config)) (IsAbs (DatabasePath config))
    (existsb (fun path => bool_decide (path = EmptyString)) (required_files config)).
  intros origins absolute missing.
  case_bool_decide as Hl; [by split; [|intros (_ & Hne & _)]|].
  destruct (ValidateHTTPSURL (PublicBaseURL config)) as [[]|]; [|by split; [|intros (_ & _ & Hu & _)]].
  destruct (ValidateHTTPSURL (AgentURL config)) as [[]|]; [|by split; [|intros (_ & _ & _ & Hu & _)]]. simpl.
  destruct origins; simpl; [|split; [discriminate|intros (_ & _ & _ & _ & Hf & _); discriminate Hf]].
  destruct absolute; simpl; [|split; [discriminate|intros (_ & _ & _ & _ & _ & Hf & _); discriminate Hf]].
  destruct missing; simpl; [split; [discriminate|intros (_ & _ & _ & _ & _ & _ & Hf); discriminate Hf]|].
  split; [by intros [= <-]|by intros [-> _]].
Qed.

(** What the variables and the key's file make of the configuration. *)
Definition loads (d : D) (config : Config) : Prop :=
  exists validity interval value key,
    durationEnvironment "CADESTRO_CERTIFICATE_VALIDITY" (365 * 24 * 3600 * second) = Ok validity /\
    durationEnvironment "CADESTRO_HEARTBEAT_INTERVAL" (30 * second) = Ok interval /\
    private_file d (environment "CADESTRO_SESSION_SIGNING_KEY_FILE" "") value /\ session_key value = Ok key /\
    config = configured validity interval key /\ acceptable config.

Lemma loadConfig_spec d0 :
  triple (fun d => d = d0) loadConfig (fun config d => d = d0 /\ loads d0 config) (fun _ d => d = d0).
Proof.
  unfold loadConfig. apply triple_bind_lift; [|done]. intros validity Hv.
  apply triple_bind_lift; [|done]. intros interval Hi.
  eapply triple_bind.
  { apply wrapped_spec. unfold loadSessionKey.
    eapply triple_bind; [apply readPrivateFile_spec|]. intros value. apply triple_lift with
      (Q := fun key d => d = d0 /\ exists value, private_file d0 (environment "CADESTRO_SESSION_SIGNING_KEY_FILE" "") value /\ session_key value = Ok key).
    - intros key d Hkey [-> Hpriv]. split; [done|]. by exists value.
    - by intros e d _ [-> _]. }
  intros key. apply triple_lift.
  - intros config d Hc [-> (value & Hpriv & Hkey)]. split; [done|]. apply check_config_ok in Hc as [-> Hok].
    by exists validity, interval, value, key.
  - by intros e d _ [-> _].
Qed.

Lemma loadConfig_answers d0 config :
  loads d0 config -> quietly (fun d => d = d0) loadConfig (fun c d => d = d0 /\ c = config).
Proof.
  intros (validity & interval & value & key & Hv & Hi & Hpriv & Hkey & Hc & Hok). unfold loadConfig.
  eapply quietly_bind_lift; [exact Hv|]. eapply quietly_bind_lift; [exact Hi|].
  eapply quietly_bind_value.
  { apply quietly_wrapped. unfold loadSessionKey. eapply quietly_bind_value; [by apply readPrivateFile_answers|].
    eapply quietly_lift; [exact Hkey|]. by intros d ->. }
  rewrite <- Hc. eapply quietly_lift; [by apply check_config_ok|]. by intros d ->.
Qed.

(** An address the server hands out is one its agents connect to. *)
Lemma https_addr raw : ValidateHTTPSURL raw = Ok tt -> requireHTTPSAgentAddr raw = true.
Proof.
  unfold ValidateHTTPSURL, requireHTTPSAgentAddr. destruct (url_Parse (TrimSpace raw)) as [u|]; [|done].
  destruct (bool_decide (ToLower _ = _)); [|done]. destruct (bool_decide (Url_Opaque u = _)); [|done]. simpl.
  by case_bool_decide.
Qed.

Lemma session_key_size value key : session_key value = Ok key -> length key = 64%nat.
Proof.
  unfold session_key. destruct (pem_Decode value) as [[block rest]|]; [|done].
  destruct (negb (blank rest)); [done|].
  destruct (ParsePKCS8PrivateKey _) as [[seed|]|] eqn:Hkey; try done. intros [= <-].
  apply parsed_key_size in Hkey as [Hs Hp]. unfold private_key. rewrite length_app. lia.
Qed.

Lemma duration_positive name fallback v : 0 < fallback -> durationEnvironment name fallback = Ok v -> 0 < v.
Proof.
  unfold durationEnvironment. intros Hf. case_bool_decide; [by intros [= <-]|].
  destruct (ParseDuration _) as [p|]; [|done]. destruct (p <=? 0) eqn:Hp; [done|]. intros [= <-]. lia.
Qed.
End config.

(** ** What [run] prepares *)

Section prepare.
Context {D : Type} `{!OS D, !FileLaws D, !X509, !X509Laws, !Tls, !Pkix, !KeyLaws}.

(** The CA's certificate carries the public key of the private key. *)
Definition authority_of (ca : CA) (seed : bytes) : Prop :=
  exists x, ParseCertificate (CA_Raw ca) = Some x /\ Cert_PublicKey x = Ed25519Key (ed25519_Public seed).

Lemma NewFromPEM_authority certPEM keyPEM validity ca seed :
  NewFromPEM certPEM keyPEM validity = Ok (ca, seed) -> authority_of ca seed /\ CA_validity ca = validity.
Proof.
  unfold NewFromPEM, authority_of. destruct (pem_Decode certPEM) as [[cb ?]|]; [|done].
  destruct (ParseCertificate (Block_Bytes cb)) as [x|] eqn:Hx; [|done].
  destruct (pem_Decode keyPEM) as [[kb ?]|]; [|done].
  destruct (ParsePKCS8PrivateKey _) as [[s|]|]; try done.
  destruct (MarshalPKIXPublicKey (Cert_PublicKey x)) as [c|] eqn:Hc; [|done].
  destruct (MarshalPKIXPublicKey (Ed25519Key _)) as [k|] eqn:Hk; [|done].
  case_bool_decide as Heq; simpl; [|done]. intros [= <- <-]. subst k. simpl. split; [|done].
  exists x. split; [done|]. by eapply pkix_injective.
Qed.

(** The files the CA was made from. *)
Definition authority_files (d : D) (config : Config) (ca : CA) (seed : bytes) : Prop :=
  exists certPEM mode keyPEM,
    snd <$> file_at d (CACertFile config) = Some certPEM /\
    file_at d (CAKeyFile config) = Some (mode, keyPEM) /\ others_access mode = false /\
    NewFromPEM (string_bytes certPEM) (string_bytes keyPEM) (CertificateValidity config) = Ok (ca, seed).

Lemma ca_New_spec config d0 :
  triple (fun d => d = d0) (ca_New (CACertFile config) (CAKeyFile config) (CertificateValidity config))
    (fun r d => d = d0 /\ authority_files d0 config r.1 r.2) (fun _ d => d = d0).
Proof.
  unfold ca_New, authority_files. eapply triple_bind; [apply wrapped_spec, ReadFile_reads|]. intros certPEM.
  apply triple_at. intros d1 [-> Hcert].
  eapply triple_bind; [apply wrapped_spec, Stat_reads|]. intros [info|]; [|apply triple_fail; by intros d [-> _]].
  apply triple_at. intros d1 [-> Hinfo].
  destruct (others_access _) eqn:Hothers; [by apply triple_fail|].
  eapply triple_bind; [apply wrapped_spec, ReadFile_reads|]. intros keyPEM.
  apply triple_lift; [|by intros e d _ [-> _]].
  intros [ca seed] d Hnew [-> Hkey]. split; [done|]. simpl.
  destruct (file_at d0 (CAKeyFile config)) as [[mode key]|]; [|done]. simpl in *. simplify_eq.
  by exists certPEM, (Stat_Mode info), keyPEM.
Qed.

Lemma ca_New_answers config ca seed d0 :
  authority_files d0 config ca seed ->
  quietly (fun d => d = d0) (ca_New (CACertFile config) (CAKeyFile config) (CertificateValidity config))
    (fun r d => d = d0 /\ r = (ca, seed)).
Proof.
  intros (certPEM & mode & keyPEM & Hcert & Hkey & Hothers & Hnew). unfold ca_New.
  eapply quietly_bind_value; [by apply quietly_wrapped, ReadFile_value|].
  eapply quietly_bind; [apply quietly_wrapped; eapply quietly_triple; [apply Stat_answers|apply Stat_reads]; by rewrite Hkey|].
  intros info. apply quietly_at. intros d1 (-> & _ & Hinfo). rewrite Hkey in Hinfo.
  destruct info as [info|]; [|done]. injection Hinfo as ->. rewrite Hothers.
  eapply quietly_bind_value; [apply quietly_wrapped, ReadFile_value; by rewrite Hkey|].
  eapply quietly_lift; [exact Hnew|]. by intros d ->.
Qed.

(** A listener's certificate and private key: a pair, and the key no one else may read. *)
Definition listener_files (d : D) (certFile keyFile : string) (pair : bytes * bytes) : Prop :=
  (exists cert, snd <$> file_at d certFile = Some cert /\ pair.1 = string_bytes cert) /\
  private_file d keyFile pair.2 /\ X509KeyPair pair.1 pair.2 = true.

Lemma key_pair_of_spec name certFile keyFile d0 :
  triple (fun d => d = d0) (key_pair_of name certFile keyFile)
    (fun pair d => d = d0 /\ listener_files d0 certFile keyFile pair) (fun _ d => d = d0).
Proof.
  unfold key_pair_of, LoadX509KeyPair.
  eapply triple_bind; [apply wrapped_spec, readPrivateFile_spec|]. intros value.
  apply triple_at. intros d1 [-> Hpriv]. apply wrapped_spec.
  eapply triple_bind; [apply ReadFile_reads|]. intros cert. apply triple_at. intros d1 [-> Hcert].
  eapply triple_bind; [apply ReadFile_reads|]. intros key. apply triple_at. intros d1 [-> Hkey].
  destruct (X509KeyPair _ _) eqn:Hpair; [|by apply triple_fail]. apply triple_ret. intros d ->. split; [done|].
  assert (string_bytes key = value) as Hval.
  { destruct Hpriv as (_ & mode & content & Hfile & -> & _). rewrite Hfile in Hkey. by injection Hkey as ->. }
  split_and!; [by exists cert|by rewrite Hval|done].
Qed.

Lemma key_pair_of_answers name certFile keyFile pair d0 :
  listener_files d0 certFile keyFile pair ->
  quietly (fun d => d = d0) (key_pair_of name certFile keyFile) (fun p d => d = d0 /\ p = pair).
Proof.
  intros ((cert & Hcert & Hc) & Hpriv & Hpair). destruct pair as [c k]. simpl in *. subst c.
  unfold key_pair_of, LoadX509KeyPair.
  eapply quietly_bind_value; [by apply quietly_wrapped, readPrivateFile_answers|]. apply quietly_wrapped.
  destruct Hpriv as (_ & mode & content & Hfile & -> & _).
  eapply quietly_bind_value; [by apply ReadFile_value|].
  eapply quietly_bind_value; [apply ReadFile_value; by rewrite Hfile|].
  simpl. rewrite Hpair. apply quietly_ret. by intros d ->.
Qed.
End prepare.

(** ** The program *)

Section start.
Context {D : Type} `{!OS D, !FileLaws D, !Folders D, !Sqlite D, !EnvironmentVariables, !Durations, !Pkix, !Tls, !KeyLaws}.
Context `{!Jwt, !OIDC, !WebAddress, !X509, !X509Laws, !ProtoCodec Action, !ProtoCodec ActionResult,
          !DeterministicMarshal, !PageTokenText}.
Implicit Types (config : Config) (running : Running) (d : D) (db : Database).

(** The databases a running server may have, from one. *)
Definition serving running : Database -> Database -> Prop :=
  reaches (Run_Service running) (Run_CA running) (Run_JWT running).

Definition served db0 db : Prop := db = db0 \/ exists service ca jwt, reaches service ca jwt db0 db.

Lemma reaches_trans service ca jwt (d1 d2 d3 : Database) :
  reaches service ca jwt d1 d2 -> reaches service ca jwt d2 d3 -> reaches service ca jwt d1 d3.
Proof. intros Hr Hs. induction Hs as [|d2' request env n r w' Hs IH Hrun]; [done|]. by eapply reaches_step. Qed.

(** Every origin whose scripts may read a response of the public listener, with the
    credentials of the browser, is an https origin. *)
Definition only_https_origins (server : PublicServer) : Prop :=
  forall r publicMux, exists w,
    (Public_Root server publicMux r fresh_writer = w \/ Public_Root server publicMux r fresh_writer = publicMux r w) /\
    forall origin, origin <> EmptyString -> header_get (Writer_Header w) "Access-Control-Allow-Origin" = origin ->
      cors_origin origin = true.

Definition servers_ready config (ca : CA) d (servers : PublicServer * AgentServer) : Prop :=
  (exists cert key, listener_files d (PublicTLSCertFile config) (PublicTLSKeyFile config) (cert, key) /\
     Public_Listener servers.1 =
       {| Addr := PublicListen config; Certificate_ := cert; Key_ := key; MinVersion := VersionTLS13 |}) /\
  only_https_origins servers.1 /\
  (exists cert key, listener_files d (AgentTLSCertFile config) (AgentTLSKeyFile config) (cert, key) /\
     Agent_Listener servers.2 =
       {| Addr := AgentListen config; Certificate_ := cert; Key_ := key; MinVersion := VersionTLS13 |}) /\
  ClientCAs servers.2 = [CA_Raw ca].

(** What holds when the listeners start, on the host and its database. *)
Record ready config running d db : Prop := {
  ready_configured : acceptable config;
  ready_database : WellFormed db;
  ready_provider : identity_providers db <> ∅;
  ready_authority : exists seed, authority_files d config (Run_CA running) seed /\ authority_of (Run_CA running) seed;
  ready_sessions : PrivateKey (Run_JWT running) = SessionSigningKey config /\ length (PrivateKey (Run_JWT running)) = 64%nat;
  ready_pin : CAFingerprintFromPEM (CACertPEM (Run_CA running)) = Ok (caFingerprint (Run_Service running));
  ready_address : requireHTTPSAgentAddr (agentURL (Run_Service running)) = true;
  ready_heartbeat : heartbeatInterval (Run_Service running) = HeartbeatInterval config;
  ready_servers : servers_ready config (Run_CA running) d (Run_Public running, Run_Agents running);
}.

Lemma origins_https origins :
  (forall origin, origin ∈ origins -> cors_origin origin = true) ->
  forall l, only_https_origins {| Public_Listener := l; Public_Root := publicRoot origins |}.
Proof.
  intros Hall l r mux. destruct (publicRoot_response origins r) as (w & [_ Hadm] & Hroot). exists w. split.
  - simpl. specialize (Hroot mux). cbv zeta in Hroot. case_match; [left|right]; apply Hroot.
  - clear Hroot. intros origin Hne Hget. cbv zeta in Hadm. unfold admits, admits_none in Hadm. case_bool_decide as Hin.
    + apply Hall. destruct Hadm as [Ha _]. rewrite Ha in Hget. subst origin. apply Hin.
    + destruct Hadm as [Ha _]. congruence.
Qed.

(** The provider that was there, or the one of the configuration. *)
Lemma EnsureBootstrapProvider_provides service provider :
  triple (fun _ => True) (EnsureBootstrapProvider service provider)
    (fun _ db => identity_providers db <> ∅) (fun _ _ => True).
Proof.
  unfold EnsureBootstrapProvider, CountIdentityProviders, count_all.
  eapply triple_bind with (R := fun count db => 0 < count -> identity_providers db <> ∅).
  { apply triple_query; [|done]. intros db _ Hcount Hnone. by rewrite Hnone in Hcount. }
  intros count. destruct (0 <? count) eqn:Hcount; [apply triple_ret; intros db Hdb; apply Hdb; lia|].
  destruct (_ || _); [by apply triple_fail|]. cbv zeta.
  eapply triple_bind; [apply triple_any|]. intros id.
  eapply triple_bind; [apply triple_any|]. intros client.
  eapply triple_bind with (R := fun _ db => identity_providers db <> ∅).
  - unfold Queries.CreateIdentityProvider, insert_row. apply triple_sql; [|done]. intros t db _.
    destruct (identity_providers db !! id); [done|]. destruct (exists_row _ _); [done|]. simpl. apply insert_non_empty.
  - intros row. by apply triple_ret.
Qed.

Lemma EnsureBootstrapProvider_reaches service ca jwt provider db0 :
  WellFormed db0 ->
  triple (fun db => db = db0) (EnsureBootstrapProvider service provider)
    (fun _ db => reaches service ca jwt db0 db /\ WellFormed db /\ identity_providers db <> ∅)
    (fun _ db => db = db0).
Proof.
  intros Hwf env [db n] Hdb. simpl in Hdb. subst db.
  pose proof (EnsureBootstrapProvider_atomic service provider db0 env (mkWorld db0 n) eq_refl) as Ha.
  pose proof (EnsureBootstrapProvider_preserves service provider env (mkWorld db0 n) Hwf) as Hp.
  pose proof (EnsureBootstrapProvider_provides service provider env (mkWorld db0 n) I) as Hn.
  destruct (EnsureBootstrapProvider _ _ _ _) as [[[]|e] w'] eqn:Hrun; [|done].
  split_and!; [|done..]. eapply (reaches_step service ca jwt db0 db0 (Start provider)); [apply reaches_refl|exact Hrun].
Qed.

Lemma buildServers_spec config ca d0 :
  (forall origin, origin ∈ CORSOrigins config -> cors_origin origin = true) ->
  triple (fun d => d = d0) (buildServers config ca)
    (fun servers d => d = d0 /\ servers_ready config ca d0 servers)
    (fun _ d => d = d0).
Proof.
  intros Horigins. unfold buildServers.
  eapply triple_bind; [apply key_pair_of_spec|]. intros [pc pk]. apply triple_at. intros d1 [-> Hpublic].
  eapply triple_bind; [apply key_pair_of_spec|]. intros [ac ak]. apply triple_ret. intros d [-> Hagent].
  split; [done|]. split; [by exists pc, pk|]. split; [by apply origins_https|]. split; [by exists ac, ak|done].
Qed.

(** The host is not changed, and the database by the first provider at most. *)
Definition unprepared d db0 (x : D * Database) : Prop := x.1 = d /\ WellFormed x.2 /\ served db0 x.2.

Lemma prepare_spec config d db0 :
  acceptable config -> WellFormed db0 -> 0 < HeartbeatInterval config ->
  triple (fun x => x = (d, db0)) (prepare config)
    (fun running x => x.1 = d /\ serving running db0 x.2 /\ ready config running x.1 x.2)
    (fun _ => unprepared d db0).
Proof.
  intros Hok Hwf Hheart.
  assert (forall x, x = (d, db0) -> unprepared d db0 x) as Hstart by (intros x ->; split_and!; [done..|by left]).
  unfold prepare.
  eapply triple_bind with (R := fun authority x => authority_files d config authority.1 authority.2 /\ x = (d, db0)).
  { eapply triple_on_error with (E' := fun _ x => x = (d, db0)); [|intros err; apply triple_fail; exact Hstart].
    apply triple_on_fst_at. eapply triple_conseq; [apply (ca_New_spec config d)|intros x Hx; exact Hx| |].
    - by intros a x [-> Ha].
    - by intros e x ->. }
  intros [ca seed]. apply triple_pure. intros Hauth. cbv zeta. simpl fst.
  apply triple_bind_wrapped_lift; [|by intros e; apply Hstart]. intros jwt Hjwt.
  apply triple_bind_wrapped_lift; [|by intros e; apply Hstart]. intros fingerprint Hpin.
  set (service := Service.New _).
  eapply triple_bind with (R := fun _ x => x.1 = d /\ reaches service ca jwt db0 x.2 /\ WellFormed x.2 /\ identity_providers x.2 <> ∅).
  { eapply triple_on_error with (E' := fun _ x => x = (d, db0)); [|intros err; apply triple_fail; exact Hstart].
    apply triple_on_snd_at. eapply triple_conseq; [by apply (EnsureBootstrapProvider_reaches service ca jwt)|done|intros [] x Hx; exact (conj eq_refl Hx)|].
    by intros e x ->. }
  intros []. apply triple_at. intros [d1 db1] (Hd & Hreach & Hwf1 & Hprov). simpl in *. subst d1.
  assert (served db0 db1) as Hserved by (right; by exists service, ca, jwt).
  eapply triple_bind with (R := fun servers x => servers_ready config ca d servers /\ x = (d, db1)).
  { apply triple_on_fst_at. eapply triple_conseq; [apply (buildServers_spec config ca d), Hok|intros x Hx; exact Hx| |].
    - by intros servers x [-> Hs].
    - by intros e x ->. }
  intros [public agents]. apply triple_pure. intros (Hpublic & Horigins & Hagents & Hclients).
  apply triple_ret. intros x ->. simpl. split_and!; [done|done|].
  unfold NewJWTManager in Hjwt. simpl in Hjwt. case_bool_decide as Hsize; [|done]. injection Hjwt as <-.
  constructor; simpl; try done.
  - exists seed. split; [done|]. destruct Hauth as (c & m & k & _ & _ & _ & Hnew). by eapply NewFromPEM_authority.
  - apply https_addr, Hok.
  - by rewrite (proj2 (Z.leb_gt _ _)).
Qed.

Lemma loads_ready d config : loads d config -> acceptable config /\ 0 < HeartbeatInterval config.
Proof.
  intros (v & i & value & key & _ & Hi & _ & _ & -> & Hok). split; [done|]. simpl.
  eapply duration_positive; [|exact Hi]. unfold second. lia.
Qed.

(** The variables and the files of a control plane that has its first provider. *)
Definition startable config d (public agents : bytes * bytes) (ca : CA) (seed : bytes) : Prop :=
  loads d config /\ authority_files d config ca seed /\
  listener_files d (PublicTLSCertFile config) (PublicTLSKeyFile config) public /\
  listener_files d (AgentTLSCertFile config) (AgentTLSKeyFile config) agents.

Lemma loads_session_key d config : loads d config -> length (SessionSigningKey config) = 64%nat.
Proof.
  intros (v & i & value & key & _ & _ & _ & Hkey & -> & _). simpl. by eapply session_key_size.
Qed.

Lemma EnsureBootstrapProvider_there service provider db0 :
  identity_providers db0 <> ∅ ->
  quietly (fun db => db = db0) (EnsureBootstrapProvider service provider) (fun _ db => db = db0).
Proof.
  intros Hsome. unfold EnsureBootstrapProvider, CountIdentityProviders, count_all.
  eapply quietly_bind with (R := fun count db => 0 < count /\ db = db0).
  - apply quietly_query. intros db ->. eexists. split; [reflexivity|]. split; [|done].
    rewrite count_rows_size. destruct (size (identity_providers db0)) eqn:Hsize; [|lia].
    by apply map_size_empty_inv in Hsize.
  - intros count. apply quietly_pure. intros Hcount. rewrite (proj2 (Z.ltb_lt _ _)) by done. by apply quietly_ret.
Qed.

Lemma buildServers_answers config ca d public agents :
  listener_files d (PublicTLSCertFile config) (PublicTLSKeyFile config) public ->
  listener_files d (AgentTLSCertFile config) (AgentTLSKeyFile config) agents ->
  exists servers, quietly (fun x => x = d) (buildServers config ca) (fun s x => x = d /\ s = servers).
Proof.
  destruct public as [pc pk], agents as [ac ak]. intros Hpublic Hagents. unfold buildServers. eexists.
  eapply quietly_bind_value; [by apply key_pair_of_answers|].
  eapply quietly_bind_value; [by apply key_pair_of_answers|].
  apply quietly_ret. intros x ->. by split.
Qed.

Lemma prepare_restarts config d db public agents ca seed :
  startable config d public agents ca seed -> identity_providers db <> ∅ ->
  quietly (fun x => x = (d, db)) (prepare config) (fun running x => x = (d, db)).
Proof.
  intros (Hload & Hauth & Hpublic & Hagents) Hsome. unfold prepare.
  eapply quietly_bind_value.
  { apply quietly_wrapped. eapply quietly_conseq; [exact (quietly_on_fst _ db _ _ (ca_New_answers config ca seed d Hauth))|by intros x ->|].
    intros a [x1 x2] [[Hx1 Ha] Hx2]. simpl in *. by subst. }
  cbv zeta. simpl fst.
  eapply quietly_bind_value.
  { apply quietly_wrapped. eapply quietly_lift.
    - unfold NewJWTManager. simpl. rewrite (loads_session_key _ _ Hload). reflexivity.
    - by intros x ->. }
  eapply quietly_bind_value.
  { apply quietly_wrapped. eapply quietly_lift; [|by intros x ->].
    unfold CAFingerprintFromPEM, CACertPEM. rewrite pem_decode_encode. reflexivity. }
  eapply quietly_bind_value with (a := tt).
  { apply quietly_wrapped. eapply quietly_conseq; [exact (quietly_on_snd _ d _ _ (EnsureBootstrapProvider_there _ _ db Hsome))|by intros x ->|].
    intros [] [x1 x2] [Hx1 Hx2]. simpl in *. by subst. }
  destruct (buildServers_answers config ca d public agents) as [servers Hservers]; [done..|].
  eapply quietly_bind_value.
  { eapply quietly_conseq; [exact (quietly_on_fst _ db _ _ Hservers)|by intros x ->|].
    intros s [x1 x2] [[Hx1 Hs] Hx2]. simpl in *. by subst. }
  destruct servers as [p a]. apply quietly_ret. by intros x ->.
Qed.

(** ** The process *)

Context `{!Listeners D, !ListenerLaws D}.

Lemma served_wf db0 db : WellFormed db0 -> served db0 db -> WellFormed db.
Proof.
  intros Hwf [->|(service & ca & jwt & Hr)]; [done|]. eapply reaches_preserves; [apply server_step_wf|exact Hr|done].
Qed.

Lemma served_on running db0 db db' : serving running db0 db -> serving running db db' -> served db0 db'.
Proof. intros Hr Hs. right. do 3 eexists. by eapply reaches_trans. Qed.

Lemma serve_until_serves running db0 :
  triple (fun x => x.2 = db0) (serve_until running) (fun _ x => serving running db0 x.2) (fun _ x => serving running db0 x.2).
Proof.
  assert (forall P role, (forall x : D * Database, P x -> serving running db0 x.2) ->
    triple P (attempt (Shutdown running role)) (fun _ x => serving running db0 x.2) (fun _ _ => False)) as Hshut.
  { intros P role HP. apply triple_at. intros [d db1] Hx. apply HP in Hx. simpl in Hx.
    eapply triple_attempt with (Q0 := fun _ x => serving running db0 x.2); [|done].
    eapply triple_conseq; [apply (shuts_down running role db1)|by intros x ->|..]; intros ? x Hs; by eapply reaches_trans. }
  unfold serve_until. eapply triple_bind; [eapply triple_conseq; [apply serves|intros x Hx; exact Hx|intros a x Hx; exact Hx|done]|].
  intros ended. eapply triple_bind; [eapply triple_conseq; [apply (Hshut (fun x => serving running db0 x.2) PublicRole)|done|done|done]; done|].
  intros public. eapply triple_bind; [eapply triple_conseq; [apply (Hshut (fun x => serving running db0 x.2) AgentRole)|done|done|done]; done|].
  intros agents. destruct ended as [[role err]|]; [by apply triple_fail|].
  destruct public; [|by apply triple_fail]. destruct agents; [by apply triple_ret|by apply triple_fail].
Qed.

Lemma on_fst_keeps {A} (m : M D A) (P : Database -> Prop) :
  triple (fun x => P x.2) (on_fst m) (fun _ x => P x.2) (fun _ x => P x.2).
Proof. apply triple_on_fst. intros db env w Hw. by destruct (m env w) as [[?|?] ?]. Qed.

Lemma run_serves config db0 :
  acceptable config -> 0 < HeartbeatInterval config -> WellFormed db0 ->
  triple (fun x => x.2 = db0) (run config) (fun _ x => served db0 x.2) (fun _ x => served db0 x.2).
Proof.
  intros Hok Hheart Hwf. unfold run.
  eapply triple_bind with (R := fun _ x => x.2 = db0).
  { eapply triple_on_error; [apply (on_fst_keeps _ (fun db => db = db0))|]. intros e. apply triple_fail. by left. }
  intros []. eapply triple_bind with (R := fun _ x => served db0 x.2).
  - eapply triple_attempt with (Q0 := fun _ x => served db0 x.2); [|done].
    apply triple_at. intros [d db1] Hx. simpl in Hx. subst db1.
    eapply triple_bind; [eapply triple_conseq; [by apply (prepare_spec config d db0)|done|intros a x Hx; exact Hx|]|].
    { by intros e x (_ & _ & Hs). }
    intros running. apply triple_at. intros [d1 db1] (_ & Hr & _). simpl in Hr.
    eapply triple_conseq; [apply (serve_until_serves running db1)|by intros x ->|..]; intros ? x Hs; by eapply served_on.
  - intros ended. eapply triple_bind with (R := fun _ x => served db0 x.2).
    + eapply triple_bind with (R := fun _ x => served db0 x.2).
      * eapply triple_attempt with (Q0 := fun _ x => served db0 x.2); [apply (on_fst_keeps _ (served db0))|done].
      * intros r. by apply triple_ret.
    + intros []. by apply triple_lift.
Qed.

Lemma loadConfig_on_fst d db0 :
  triple (fun x => x = (d, db0)) (on_fst loadConfig) (fun config x => x = (d, db0) /\ loads d config) (fun _ x => x = (d, db0)).
Proof.
  apply triple_on_fst_at. eapply triple_conseq; [apply (loadConfig_spec d)|intros x Hx; exact Hx|..].
  - by intros config x [-> Hl].
  - by intros e x ->.
Qed.

End start.
