(* ===== verification/Witnesses.v ===== *)
(** * The theorems at concrete inputs

    Concrete functions for the parts outside the repository (PEM and X.509, JWT,
    OIDC, URLs, RFC 3339), which satisfy the laws the theorems assume, and each
    theorem with hypotheses applied to a small run of the program in the
    environment of [Demo]. *)

From S2P Require Import Prelude Hash Base64 Engine Pki Proto Schema Queries QueriesFacts.
From S2P Require Import QueriesFrame Service Demo Roles Actions Assignments Devices Enrollment.
From S2P Require Import AgentStream Rotation Auth Idp Login Sessions Server Pagination.

From stdpp Require Import pretty.

Open Scope Z_scope.

(** ** X.509 *)

#[export] Instance Block_eq_dec : EqDecision Block.
Proof. solve_decision. Defined.

#[export] Instance Block_countable : Countable Block.
Proof. apply (inj_countable' (fun b => (Block_Type b, Block_Bytes b)) (fun p => Build_Block p.1 p.2)). by intros []. Defined.

#[export] Instance URL_eq_dec : EqDecision URL.
Proof. solve_decision. Defined.

#[export] Instance URL_countable : Countable URL.
Proof.
  apply (inj_countable' (fun u => (Scheme u, Host u, Path u)) (fun '(s, h, p) => Build_URL s h p)).
  by intros [].
Defined.

#[export] Instance PublicKey_eq_dec : EqDecision PublicKey.
Proof. solve_decision. Defined.

#[export] Instance PublicKey_countable : Countable PublicKey.
Proof.
  apply (inj_countable' (fun k => match k with Ed25519Key b => Some b | OtherKey => None end)
    (fun o => match o with Some b => Ed25519Key b | None => OtherKey end)).
  by intros [].
Defined.

#[export] Instance CertificateRequest_eq_dec : EqDecision CertificateRequest.
Proof. solve_decision. Defined.

#[export] Instance CertificateRequest_countable : Countable CertificateRequest.
Proof.
  refine (inj_countable (fun c => [encode (Csr_SignatureValid c); encode (Csr_PublicKey c);
               encode (Csr_DNSNames c); encode (Csr_IPAddresses c);
               encode (Csr_EmailAddresses c); encode (Csr_URIs c)])
    (fun l => match l with
      | [x0; x1; x2; x3; x4; x5] =>
          x0 ← decode x0; x1 ← decode x1; x2 ← decode x2; x3 ← decode x3;
          x4 ← decode x4; x5 ← decode x5;
          Some (Build_CertificateRequest x0 x1 x2 x3 x4 x5)
      | _ => None
      end) _).
  intros []. cbv beta iota. repeat (rewrite decode_encode; cbv [mbind option_bind]; cbv beta iota). done.
Defined.

#[export] Instance X509Certificate_eq_dec : EqDecision X509Certificate.
Proof. solve_decision. Defined.

#[export] Instance X509Certificate_countable : Countable X509Certificate.
Proof.
  refine (inj_countable (fun c => [encode (Cert_SerialNumber c); encode (Cert_CommonName c);
               encode (Cert_SubjectSerialNumber c); encode (Cert_NotBefore c);
               encode (Cert_NotAfter c); encode (Cert_PublicKey c); encode (Cert_URIs c)])
    (fun l => match l with
      | [x0; x1; x2; x3; x4; x5; x6] =>
          x0 ← decode x0; x1 ← decode x1; x2 ← decode x2; x3 ← decode x3;
          x4 ← decode x4; x5 ← decode x5; x6 ← decode x6;
          Some (Build_X509Certificate x0 x1 x2 x3 x4 x5 x6)
      | _ => None
      end) _).
  intros []. cbv beta iota. repeat (rewrite decode_encode; cbv [mbind option_bind]; cbv beta iota). done.
Defined.

#[export] Instance example_x509 : X509 := {|
  pem_Encode b := Byte.x01 :: positive_bytes (encode b);
  pem_Decode l := match l with
                  | Byte.x01 :: l => match (p ← bytes_positive l; decode p) with
                                     | Some b => Some (b, [])
                                     | None => None
                                     end
                  | _ => None
                  end;
  ParseCertificateRequest l := p ← bytes_positive l; decode p;
  ParseCertificate l := p ← bytes_positive l; decode p;
  CreateCertificate t := Some (positive_bytes (encode t));
|}.

#[export] Instance example_x509_laws : X509Laws.
Proof.
  split.
  - intros b. simpl. rewrite bytes_positive_bytes. simpl. by rewrite decode_encode.
  - done.
  - intros t der [= <-]. exists t. split; [|done]. simpl. rewrite bytes_positive_bytes. apply decode_encode.
Qed.

Definition demo_key : bytes := [Byte.x61; Byte.x62; Byte.x63].

Definition demo_csr : bytes := pem_Encode {| Block_Type := "CERTIFICATE REQUEST";
  Block_Bytes := positive_bytes (encode {| Csr_SignatureValid := true;
    Csr_PublicKey := Ed25519Key demo_key; Csr_DNSNames := []; Csr_IPAddresses := [];
    Csr_EmailAddresses := []; Csr_URIs := [] |}) |}.

Definition demo_ca : CA := {| CA_Raw := [Byte.x30]; CA_validity := 90 * 24 * 3600 * 1000000000 |}.

Definition demo_service : Service := New {| publicBaseURL := "https://fleet.example.org";
  agentURL := "https://agents.example.org"; caFingerprint := "aa"; heartbeatInterval := 0 |}%string.

(** ** A registration token and two devices *)

#[export] Instance example_action_codec : ProtoCodec Action := example_codec Action.
#[export] Instance example_result_codec : ProtoCodec ActionResult := example_codec ActionResult.
#[export] Instance example_action_laws : ProtoLaws Action := example_codec_laws Action.
#[export] Instance example_result_laws : ProtoLaws ActionResult := example_codec_laws ActionResult.
#[export] Existing Instance example_deterministic.

(** A token for one device, that expires in the year 2033. *)
Definition demo_token_run : result (RegistrationTokenMessage * string) * Database :=
  run_at 0 (CreateToken demo_service demo_ctx "laptops" 1 (Some (mkTimestamp 2000000000 0))) demo_initial.

Definition demo_tokens : Database :=
  after 0 (CreateToken demo_service demo_ctx "laptops" 1 (Some (mkTimestamp 2000000000 0))) demo_initial.

Definition demo_token : string :=
  match demo_token_run.1 with Ok (m, _) => TokenMessage_Value m | Err _ => EmptyString end.

Lemma demo_tokens_wf : WellFormed demo_tokens.
Proof.
  unfold demo_tokens. apply (after_preserves WellFormed); [apply CreateToken_preserves|apply initial_wf].
Qed.

Definition token_row : RegistrationToken :=
  default {| RegistrationToken_ID := EmptyString; RegistrationToken_ValueHash := EmptyString;
    RegistrationToken_Name := EmptyString; RegistrationToken_MaxUses := 0;
    RegistrationToken_CurrentUses := 0; RegistrationToken_ExpiresAt := 0;
    RegistrationToken_CreatedAt := 0; RegistrationToken_UpdatedAt := 0 |}
    (registration_tokens demo_tokens !! "01JULID3"%string).

(** Two devices enroll with the same snapshot of the token, a role is created in
    between. *)
Definition demo_events : list event :=
  let t := 1700000200 * 1000000000 in
  [ Enroll token_row t "DEV1" "one" "1.0" [Byte.x61] [Byte.x41] "s1" (t + 1);
    Other (run_unit (CreateRole demo_ctx "auditor" "" [36]));
    Enroll token_row t "DEV2" "two" "1.0" [Byte.x62] [Byte.x42] "s2" (t + 1) ]%string.

Lemma registration_token_never_overused_witness :
  (let (enrolled, w') := run_events demo_events demo_env (mkWorld demo_tokens 200) in
   at_most "01JULID3" (1 - enrolled) (w_db w') /\ 0 <= enrolled <= 1) /\
  (run_events demo_events demo_env (mkWorld demo_tokens 200)).1 = 1.
Proof.
  split; [|vm_compute; reflexivity].
  apply (registration_token_never_overused "01JULID3" 1).
  - intros tok at_ id host version key cert serial na Hin. unfold demo_events in Hin.
    rewrite !elem_of_cons in Hin. destruct Hin as [[=]|[[=]|[[=]|?%not_elem_of_nil]]];
      [by subst; vm_compute..|done].
  - intros m Hin k. unfold demo_events in Hin.
    rewrite !elem_of_cons in Hin. destruct Hin as [[=]|[[=]|[[=]|?%not_elem_of_nil]]]; [subst|done].
    intros env w [Hwf Hk].
    pose proof (run_unit_preserves _ _ (CreateRole_preserves demo_ctx "auditor" "" [36]) env w Hwf) as H1.
    assert (preserves (fun d => exists n, remaining d "01JULID3" = Some n /\ n <= k)
      (run_unit (CreateRole demo_ctx "auditor" "" [36]))) as H2.
    { apply run_unit_preserves. unfold CreateRole, Transaction. preserve. }
    specialize (H2 env w Hk). by destruct (run_unit _ env w) as [[] w'].
  - split; [apply demo_tokens_wf|]. exists 1. split; [by vm_compute|done].
Defined.

(** ** An enrolled device *)

Definition ok_or {A} (x : A) (r : result A) : A := match r with Ok a => a | Err _ => x end.

Definition register_run : result RegisterResponse * Database :=
  run_at 100 (Register demo_service demo_ca empty_context demo_token demo_csr "laptop-1" "1.0") demo_tokens.

Definition demo_fleet : Database :=
  after 100 (Register demo_service demo_ca empty_context demo_token demo_csr "laptop-1" "1.0") demo_tokens.

Definition demo_device : string := "01JULID103".

Lemma demo_fleet_wf : WellFormed demo_fleet.
Proof.
  unfold demo_fleet. apply (after_preserves WellFormed); [apply Register_preserves|apply demo_tokens_wf].
Qed.

Lemma Register_enrolls_witness :
  triple (fun d => d = demo_tokens)
    (Register demo_service demo_ca empty_context demo_token demo_csr "laptop-1" "1.0")
    (fun resp d => (answered_again demo_key resp demo_tokens /\ d = demo_tokens) \/
       newly_enrolled demo_key demo_token resp demo_tokens d)
    (fun _ d => d = demo_tokens) /\
  bool_decide (is_Some (devices demo_fleet !! demo_device)) = true.
Proof.
  split; [|vm_compute; reflexivity].
  apply (Register_enrolls demo_service demo_ca empty_context demo_token demo_csr "laptop-1" "1.0" demo_key
    demo_tokens); [apply demo_tokens_wf|vm_compute; reflexivity].
Defined.

(** The certificate it got, and its connection. *)
Definition no_certificate : X509Certificate := {| Cert_SerialNumber := None;
  Cert_CommonName := EmptyString; Cert_SubjectSerialNumber := EmptyString; Cert_NotBefore := 0; Cert_NotAfter := 0;
  Cert_PublicKey := OtherKey; Cert_URIs := [] |}.

Definition demo_certificate : X509Certificate :=
  match register_run.1 with
  | Ok resp => ok_or no_certificate (parseCertificatePEM (Register_Certificate resp))
  | Err _ => no_certificate
  end.

Definition demo_serial : string := ok_or EmptyString (SerialFromCert demo_certificate).

Definition demo_connection : Context :=
  WithPeerCertificate (WithDeviceID empty_context demo_device) demo_certificate.

Definition demo_http : HttpRequest :=
  {| Request_Path := "/cadestro.v1.AgentService/Stream"; Request_TLS := Some [demo_certificate] |}.

Lemma AgentMiddleware_admits_witness :
  AgentMiddleware empty_context demo_http = inr demo_connection /\
  exists cert rest, Request_TLS demo_http = Some (cert :: rest) /\
    Cert_CommonName cert <> EmptyString /\ PeerClassFromCert cert = Ok PeerClassAgent /\
    demo_connection = WithPeerCertificate (WithDeviceID empty_context (Cert_CommonName cert)) cert.
Proof.
  assert (AgentMiddleware empty_context demo_http = inr demo_connection) as Hm
    by (vm_compute; reflexivity).
  split; [exact Hm|]. by apply (AgentMiddleware_admits empty_context demo_http demo_connection).
Defined.

Definition renewal : result bytes * World Database :=
  RenewCertificate demo_ca demo_connection demo_csr demo_env (mkWorld demo_fleet 300).

Lemma certificate_rotation_witness :
  renewal.1 = Ok (ok_or [] renewal.1) /\
  exists s2, SerialFromPEM (ok_or [] renewal.1) = Ok s2 /\ is_active demo_device demo_serial (w_db renewal.2) /\
    forall env' n, quiet env' -> exists n',
      RenewCertificate demo_ca demo_connection demo_csr env' (mkWorld (w_db renewal.2) n) =
        (Ok (ok_or [] renewal.1), mkWorld (w_db renewal.2) n').
Proof.
  split; [vm_compute; reflexivity|].
  destruct (certificate_rotation demo_ca demo_connection demo_device demo_serial demo_csr demo_key demo_env
    (mkWorld demo_fleet 300) (ok_or [] renewal.1) renewal.2) as (s2 & Hs & Ha & Hagain & _).
  - vm_compute; reflexivity.
  - exists demo_certificate. split_and!; vm_compute; reflexivity.
  - eexists. split; vm_compute; reflexivity.
  - vm_compute; reflexivity.
  - exists s2. split_and!; [exact Hs|exact Ha|exact Hagain].
Defined.

(** ** A policy and its results *)

Definition demo_policy : Database :=
  after 520 (CreateAssignment demo_ctx "01JULID500" ASSIGNMENT_TARGET_TYPE_DEVICE demo_device)
    (after 500 (CreateAction demo_ctx "editor" "an editor" (demo_package "9.0")) demo_fleet).

Lemma demo_policy_wf : WellFormed demo_policy.
Proof.
  unfold demo_policy. apply (after_preserves WellFormed); [apply CreateAssignment_preserves|].
  apply (after_preserves WellFormed); [apply CreateAction_preserves|apply demo_fleet_wf].
Qed.

Lemma demo_policy_stored : StoredActions demo_policy.
Proof.
  unfold demo_policy. apply (after_preserves StoredActions).
  { unfold CreateAssignment, Transaction. preserve. }
  apply (after_preserves StoredActions); [apply CreateAction_preserves_stored|].
  unfold demo_fleet. apply (after_preserves StoredActions).
  { unfold Register, registerTransaction, Transaction. cbv zeta. preserve. }
  unfold demo_tokens. apply (after_preserves StoredActions); [|apply initial_stored].
  unfold CreateToken, Transaction. preserve.
Qed.

Lemma desiredPolicy_exact_witness :
  triple (fun d => d = demo_policy) (desiredPolicy demo_connection demo_device)
    (fun p d => d = demo_policy /\
       StronglySorted (fun a b => str_lt (GetValue (Action_Id a)) (GetValue (Action_Id b)) = true)
         (Policy_Actions p) /\
       forall a, a ∈ Policy_Actions p <->
         exists act, assigned_to demo_policy demo_device act /\ unmarshal (ActionRow_ActionBlob act) = Some a)
    (fun _ d => d = demo_policy) /\
  length (Policy_Actions (ok_or {| RefreshIntervalMinutes := 0; Policy_Actions := [] |}
    (run_at 600 (desiredPolicy demo_connection demo_device) demo_policy).1)) = 1%nat.
Proof.
  split; [|vm_compute; reflexivity].
  apply (desiredPolicy_exact demo_connection demo_device demo_policy);
    [apply demo_policy_wf|apply demo_policy_stored].
Defined.

Definition demo_result (status : Z) : ActionResult := {|
  Result_ActionId := Some "01JULID500"%string; Result_Status := status; Result_Output := None;
  Result_DetectionOutput := None; Result_CompletedAt := Some (mkTimestamp 1700000650 0);
  Result_RunId := Some "01JRUN1"%string; Result_ActionDigest := replicate 32 Byte.x00 |}.

Lemma storeActionResult_exactly_once_witness :
  triple (fun d => d = demo_policy)
    (storeActionResult demo_connection demo_device (Some (demo_result EXECUTION_STATUS_SUCCESS)))
    (fun _ d => (d = demo_policy \/ result_added demo_device (demo_result EXECUTION_STATUS_SUCCESS) demo_policy d) /\
       exists row, execution_results d !! GetValue (Result_RunId (demo_result EXECUTION_STATUS_SUCCESS)) = Some row /\
         ExecutionResult_DeviceID row = demo_device /\
         unmarshal (ExecutionResult_ResultBlob row) = Some (demo_result EXECUTION_STATUS_SUCCESS))
    (fun _ d => d = demo_policy) /\
  (let once := run_at 650 (storeActionResult demo_connection demo_device
                 (Some (demo_result EXECUTION_STATUS_SUCCESS))) demo_policy in
   once.1 = Ok tt /\
   (run_at 660 (storeActionResult demo_connection demo_device
      (Some (demo_result EXECUTION_STATUS_SUCCESS))) once.2).1 = Ok tt /\
   (run_at 660 (storeActionResult demo_connection demo_device
      (Some (demo_result EXECUTION_STATUS_FAILED))) once.2).1 =
     Err (ErrWrap "conflicting run id" errResultRejected)).
Proof.
  split; [|vm_compute; by split_and!].
  apply (storeActionResult_exactly_once demo_connection demo_device (demo_result EXECUTION_STATUS_SUCCESS)
    demo_policy). apply demo_policy_wf.
Defined.

(** A compliance check, assigned to the device. *)
Definition demo_check : ActionRequest := {|
  Req_DesiredState := 1; Req_TimeoutSeconds := 60; Req_Schedule := None; Req_Package := None;
  Req_Update := None; Req_Shell := Some {| Script := ""; Interpreter := "/bin/sh";
    WorkingDirectory := ""; Environment := ∅; DetectionScript := "test -f /etc/hardened";
    IsCompliance := true |} |}%string.

Definition demo_compliance : Database :=
  after 720 (CreateAssignment demo_ctx "01JULID700" ASSIGNMENT_TARGET_TYPE_DEVICE demo_device)
    (after 700 (CreateAction demo_ctx "hardened" "" demo_check) demo_policy).

Lemma demo_compliance_wf : WellFormed demo_compliance.
Proof.
  unfold demo_compliance. apply (after_preserves WellFormed); [apply CreateAssignment_preserves|].
  apply (after_preserves WellFormed); [apply CreateAction_preserves|apply demo_policy_wf].
Qed.

Lemma deviceCompliance_meaning_witness :
  triple (fun d => d = demo_compliance) (deviceCompliance demo_device)
    (fun s d => d = demo_compliance /\
       summary_status s = overall (Check_Status <$> summary_checks s) /\
       summary_passing s = int32 (count_compliant (summary_checks s)) /\
       (summary_status s = COMPLIANCE_STATUS_COMPLIANT <->
        summary_checks s <> [] /\
        forall act a, assigned_to demo_compliance demo_device act ->
          unmarshal (ActionRow_ActionBlob act) = Some a -> isComplianceAction a = true ->
          has_compliant_result demo_compliance demo_device (ActionRow_ID act) a))
    (fun _ d => d = demo_compliance) /\
  match (run_at 800 (deviceCompliance demo_device) demo_compliance).1 with
  | Ok s => Check_Status <$> summary_checks s = [COMPLIANCE_STATUS_PENDING]
  | Err _ => False
  end.
Proof.
  split; [|vm_compute; reflexivity].
  apply (deviceCompliance_meaning demo_compliance demo_device). apply demo_compliance_wf.
Defined.

Lemma ListRoles_enumerates_witness :
  exists l n', list_all 3 (ListRoles demo_ctx 1) EmptyString demo_env (mkWorld demo_initial 0) =
      (Ok (map (role_message demo_initial) l), mkWorld demo_initial n') /\
    StronglySorted (fun a b => str_lt (Role_ID a) (Role_ID b) = true) l /\
    (forall r, r ∈ l <-> roles demo_initial !! Role_ID r = Some r).
Proof.
  apply (ListRoles_enumerates demo_env demo_quiet demo_ctx 1 demo_initial 0 3);
    [apply initial_wf|vm_compute; reflexivity|vm_compute; lia].
Defined.

(** ** Page tokens *)

(** Instants as text of two characters; ULIDs are not looked into. *)
#[export] Instance example_page_text : PageTokenText := {|
  format_time t := bytes_string (positive_bytes (encode t));
  parse_time s := p ← bytes_positive (string_bytes s); decode p;
  ulid_ParseStrict s := bool_decide (s <> EmptyString);
|}.

Lemma positive_bytes_small p : Forall (fun b => b = Byte.x00 \/ b = Byte.x01) (positive_bytes p).
Proof. induction p; simpl; constructor; auto. Qed.

#[export] Instance example_page_laws : PageTokenLaws.
Proof.
  split.
  - intros t _. simpl. rewrite string_bytes_string, bytes_positive_bytes. simpl. by rewrite decode_encode.
  - intros t. simpl. induction (positive_bytes_small (encode t)) as [|b l Hb Hl IH]; simpl.
    + apply not_elem_of_nil.
    + apply not_elem_of_cons. split; [by destruct Hb as [-> | ->]|done].
Qed.

Lemma executionPageToken_roundtrip_witness :
  parseExecutionPageToken (executionPageToken (1700000650 * 1000000000) "01JRUN1") =
    Ok (1700000650 * 1000000000, "01JRUN1"%string).
Proof. apply executionPageToken_roundtrip; vm_compute; reflexivity. Defined.

(** ** Sessions *)

#[export] Instance RegisteredClaims_eq_dec : EqDecision RegisteredClaims.
Proof. solve_decision. Defined.

(** Field by field, so that the code of a record stays short. *)
#[export] Instance RegisteredClaims_countable : Countable RegisteredClaims.
Proof.
  apply (inj_countable
    (fun c => [encode (Claims_ID c); encode (Claims_Issuer c); encode (Claims_Subject c);
               encode (Claims_IssuedAt c); encode (Claims_ExpiresAt c)])
    (fun l => match l with
              | [i; s; u; a; e] =>
                  i ← decode i; s ← decode s; u ← decode u; a ← decode a; e ← decode e;
                  Some (Build_RegisteredClaims i s u a e)
              | _ => None
              end)).
  intros []. cbv beta iota. repeat (rewrite decode_encode; cbv [mbind option_bind]; cbv beta iota). done.
Defined.

#[export] Instance Claims_eq_dec : EqDecision Claims.
Proof. solve_decision. Defined.

#[export] Instance Claims_countable : Countable Claims.
Proof.
  apply (inj_countable
    (fun c => [encode (Claims_Registered c); encode (Claims_UserID c); encode (Claims_Email c);
               encode (Claims_TokenType c); encode (Claims_SessionVersion c); encode (Claims_Permissions c)])
    (fun l => match l with
              | [r; u; e; t; v; p] =>
                  r ← decode r; u ← decode u; e ← decode e; t ← decode t; v ← decode v; p ← decode p;
                  Some (Build_Claims r u e t v p)
              | _ => None
              end)).
  intros []. cbv beta iota. repeat (rewrite decode_encode; cbv [mbind option_bind]; cbv beta iota). done.
Defined.

#[export] Instance OIDCTransactionClaims_eq_dec : EqDecision OIDCTransactionClaims.
Proof. solve_decision. Defined.

#[export] Instance OIDCTransactionClaims_countable : Countable OIDCTransactionClaims.
Proof.
  apply (inj_countable
    (fun c => [encode (OIDC_Registered c); encode (OIDC_State c); encode (OIDC_ProviderID c);
               encode (OIDC_Nonce c); encode (OIDC_CodeVerifier c); encode (OIDC_RedirectURL c)])
    (fun l => match l with
              | [r; s; p; n; v; u] =>
                  r ← decode r; s ← decode s; p ← decode p; n ← decode n; v ← decode v; u ← decode u;
                  Some (Build_OIDCTransactionClaims r s p n v u)
              | _ => None
              end)).
  intros []. cbv beta iota. repeat (rewrite decode_encode; cbv [mbind option_bind]; cbv beta iota). done.
Defined.

(** A signed token: its key and its claims. *)
Definition token_text (t : bytes * (Claims + OIDCTransactionClaims)) : string :=
  bytes_string (positive_bytes (encode t)).

Definition token_of (s : string) : option (bytes * (Claims + OIDCTransactionClaims)) :=
  p ← bytes_positive (string_bytes s); decode p.

Lemma token_of_text t : token_of (token_text t) = Some t.
Proof.
  unfold token_of, token_text. rewrite string_bytes_string, bytes_positive_bytes. apply decode_encode.
Qed.

(** The library's checks: the key, the issuer, the expiry. *)
Definition still_valid (key key' : bytes) (issuer : string) (at_ : time) (r : RegisteredClaims) : bool :=
  bool_decide (key = key') && bool_decide (Claims_Issuer r = issuer) &&
  match Claims_ExpiresAt r with Some e => at_ <? e * 1000000000 | None => false end.

#[export] Instance example_jwt : Jwt := {|
  SignClaims key c := Some (token_text (key, inl c));
  SignOIDC key c := Some (token_text (key, inr c));
  ParseClaims key issuer at_ v :=
    match token_of v with
    | Some (key', inl c) => if still_valid key key' issuer at_ (Claims_Registered c) then Some c else None
    | _ => None
    end;
  ParseOIDC key issuer at_ v :=
    match token_of v with
    | Some (key', inr c) => if still_valid key key' issuer at_ (OIDC_Registered c) then Some c else None
    | _ => None
    end;
|}.

#[export] Instance example_jwt_laws : JwtLaws.
Proof.
  split; simpl.
  - intros key c v e at_ [= <-] _ He Ht. rewrite token_of_text. unfold still_valid.
    rewrite !bool_decide_true, He by done. simpl. by rewrite (proj2 (Z.ltb_lt _ _) Ht).
  - intros key issuer at_ v c. destruct (token_of v) as [[key' [c'|]]|]; try done.
    destruct (still_valid _ _ _ _ _) eqn:Hv; [|done]. intros [= ->]. unfold still_valid in Hv.
    apply andb_true_iff in Hv as [[_ Hi%bool_decide_eq_true]%andb_true_iff He]. split; [done|].
    destruct (Claims_ExpiresAt _) as [e|]; [|done]. exists e. split; [done|]. by apply Z.ltb_lt.
  - intros key key' issuer at_ v o c [= <-]. by rewrite token_of_text.
  - intros key key' issuer at_ v o c [= <-]. by rewrite token_of_text.
  - intros key issuer at1 at2 v c1 c2. destruct (token_of v) as [[key' [c'|]]|]; try done.
    destruct (still_valid _ _ _ at1 _); [|done]. destruct (still_valid _ _ _ at2 _); [|done]. congruence.
  - intros key issuer at_ v c c' [= <-] _. rewrite token_of_text. destruct (still_valid _ _ _ _ _); congruence.
Qed.

Definition demo_manager : JWTManager := {| PrivateKey := [Byte.x6b]; AccessTokenExpiry := 300 * 1000000000;
  RefreshTokenExpiry := 7 * 24 * 3600 * 1000000000; Issuer := "cadestro" |}%string.

(** As [demo_env], with one id. *)
Definition one_id_env : Env := {|
  env_fault := env_fault demo_env; env_now := env_now demo_env; env_sql_now := env_sql_now demo_env;
  env_ulid _ := "01JULID"%string; env_rand := env_rand demo_env |}.

Definition demo_pair_run : result TokenPair * World Database :=
  GenerateTokens demo_manager "U1" "ada@example.org" 1 [PERMISSION_LIST_USERS] one_id_env
    (mkWorld demo_initial 0).

Definition demo_pair : TokenPair :=
  ok_or {| AccessToken := EmptyString; Auth.RefreshToken := EmptyString; ExpiresAt := 0 |} demo_pair_run.1.

Lemma GenerateTokens_validate_witness :
  exists a r,
    (Claims_UserID a = "U1"%string /\ Claims_Email a = "ada@example.org"%string /\
     Claims_SessionVersion a = 1 /\ Claims_Permissions a = [PERMISSION_LIST_USERS]) /\
    (Claims_UserID r = "U1"%string /\ Claims_SessionVersion r = 1 /\ Claims_Permissions r = []) /\
    (forall t ty c, validate demo_manager t (AccessToken demo_pair) ty = Ok c <->
       c = a /\ ty = TokenTypeAccess /\ t < ExpiresAt demo_pair / 1000000000 * 1000000000) /\
    (forall t ty c, validate demo_manager t (Auth.RefreshToken demo_pair) ty = Ok c <->
       c = r /\ ty = TokenTypeRefresh /\
       t < (env_now one_id_env 0 + RefreshTokenExpiry demo_manager) / 1000000000 * 1000000000).
Proof.
  assert (GenerateTokens demo_manager "U1" "ada@example.org" 1 [PERMISSION_LIST_USERS] one_id_env
    (mkWorld demo_initial 0) = (Ok demo_pair, demo_pair_run.2)) as Hrun by (vm_compute; reflexivity).
  pose proof (GenerateTokens_validate demo_manager "U1" "ada@example.org" 1 [PERMISSION_LIST_USERS] one_id_env
    (mkWorld demo_initial 0) demo_pair demo_pair_run.2 (fun _ => eq_refl) eq_refl eq_refl eq_refl) as Hv.
  refine (proj2 (Hv _ Hrun)). done.
Defined.

Definition demo_cookie : string := token_text ([Byte.x6b], inr {| OIDC_Registered :=
    {| Claims_ID := ""; Claims_Issuer := "cadestro"; Claims_Subject := ""; Claims_IssuedAt := None;
       Claims_ExpiresAt := Some 2000000000 |}; OIDC_State := "s"; OIDC_ProviderID := "p";
    OIDC_Nonce := "n"; OIDC_CodeVerifier := "v"; OIDC_RedirectURL := "https://fleet.example.org" |}%string).

Lemma token_kinds_separate_witness :
  ~ exists c w', ValidateToken demo_manager demo_cookie TokenTypeAccess demo_env (mkWorld demo_initial 0) = (Ok c, w').
Proof.
  intros (c & w' & Hrun).
  refine (proj1 (token_kinds_separate (D := Database) demo_manager [Byte.x6b] demo_cookie) _ eq_refl _ _ _ _ _ Hrun).
Defined.

(** The request of a user who may list users. *)
Definition demo_header : string := ("bearer " ++ AccessToken demo_pair)%string.

Lemma WrapUnary_authorizes_witness :
  ((exists user, authorized demo_manager ListUsersProcedure demo_header (env_now demo_env 5) user /\
     WrapUnary demo_manager (fun ctx => ListUsers ctx 10 EmptyString) ListUsersProcedure demo_header empty_context
       demo_env (mkWorld demo_initial 5) =
       ListUsers (WithUser empty_context user) 10 EmptyString demo_env (mkWorld demo_initial 6)) \/
   ((forall user, ~ authorized demo_manager ListUsersProcedure demo_header (env_now demo_env 5) user) /\
    exists c msg n, (c = CodeUnauthenticated \/ c = CodePermissionDenied) /\
      WrapUnary demo_manager (fun ctx => ListUsers ctx 10 EmptyString) ListUsersProcedure demo_header empty_context
        demo_env (mkWorld demo_initial 5) = (Err (ErrConnect c msg), mkWorld demo_initial n))) /\
  (WrapUnary demo_manager (fun ctx => ListUsers ctx 10 EmptyString) ListUsersProcedure demo_header empty_context
     demo_env (mkWorld demo_initial 5)).1 = Ok ([], EmptyString).
Proof.
  split; [|vm_compute; reflexivity].
  exact (WrapUnary_authorizes demo_manager (fun ctx => ListUsers ctx 10 EmptyString) ListUsersProcedure demo_header
    empty_context demo_env (mkWorld demo_initial 5) eq_refl).
Defined.

Lemma procedure_gated_witness :
  (publicProcedure DeleteRoleProcedure = true /\ PermissionForProcedure DeleteRoleProcedure = None) \/
  (publicProcedure DeleteRoleProcedure = false /\
   exists p, PermissionForProcedure DeleteRoleProcedure = Some p /\ 1 <= p <= 46).
Proof. apply (procedure_gated DeleteRoleProcedure). by intros path. Defined.

(** ** Logins *)

#[export] Instance example_oidc : OIDC := {|
  oidc_NewProvider _ issuer := Some issuer;
  oauth2_AuthCodeURL _ state nonce _ := ("https://idp.example.org/auth?state=" ++ state ++ "&nonce=" ++ nonce)%string;
  oauth2_Exchange _ _ code _ := Some (Some code);
  oidc_Verify _ _ raw := Some {| IDToken_Subject := raw; IDToken_Nonce := "n"; IDToken_Claims := Some ∅ |};
|}%string.

#[export] Instance example_web : WebAddress := {|
  url_Parse raw := Some {| Url_Scheme := "https"; Url_Opaque := ""; Url_Host := raw; Url_HasUser := false; Url_Path := ""; Url_RawQuery := "";
    Url_Fragment := "" |};
  host_EqualFold a b := bool_decide (a = b);
|}%string.

Definition demo_provider : Database :=
  after 0 (EnsureBootstrapProvider demo_service {| Bootstrap_Name := ""; Bootstrap_Slug := "";
    Bootstrap_ClientID := "cadestro"; Bootstrap_IssuerURL := "https://idp.example.org"; Bootstrap_Scopes := [] |})
    demo_initial.

Lemma demo_provider_wf : WellFormed demo_provider.
Proof.
  unfold demo_provider. apply (after_preserves WellFormed); [apply EnsureBootstrapProvider_preserves|apply initial_wf].
Qed.

Definition ada : UserClaims := {| Subject := "ada"; Email := "ada@example.org"; Name := "" |}.

Lemma linkIdentity_links_witness :
  triple (fun d => d = demo_provider) (linkIdentity "01JULID1" ada)
    (fun u d => known_login "01JULID1" ada u demo_provider d \/ first_login "01JULID1" ada u demo_provider d)
    (fun _ d => d = demo_provider) /\
  bool_decide (("01JULID14", administratorsRoleID) ∈ user_roles (after 10 (linkIdentity "01JULID1" ada) demo_provider))%string = true.
Proof.
  split; [|vm_compute; reflexivity].
  apply (linkIdentity_links "01JULID1" ada demo_provider). apply demo_provider_wf.
Defined.

(** ** The server *)

#[export] Instance example_net : Net := {|
  SplitHostPort s := Some s;
  ParseIP s := if bool_decide (s = EmptyString) then None
               else Some ([0; 0; 0; 0; 0; 0; 0; 0; 0; 0; 255; 255; 10; 0; 0; 7]);
|}.

Lemma ssrfSafeDialControl_exact_witness :
  (ssrfSafeDialControl "10.0.0.7" = Ok tt <-> ~ internal4 10 0 0 7) /\
  ssrfSafeDialControl "10.0.0.7" <> Ok tt.
Proof.
  split; [|by vm_compute].
  apply (proj2 (ssrfSafeDialControl_exact "10.0.0.7") [0; 0; 0; 0; 0; 0; 0; 0; 0; 0; 255; 255; 10; 0; 0; 7]);
    [reflexivity| |by right]. apply Forall_forall. intros x Hx. vm_compute in Hx.
  repeat (apply elem_of_cons in Hx as [->|Hx]; [lia|]). by apply not_elem_of_nil in Hx.
Defined.

Definition step (request : Request) (n : nat) (d : Database) : result unit * World Database :=
  server_step demo_service demo_ca demo_manager request demo_env (mkWorld d n).

(** The pair of ada's first login. *)
Definition ada_accounts : Database := after 10 (linkIdentity "01JULID1" ada) demo_provider.

Definition ada_id : string := "01JULID14".

Definition ada_pair : TokenPair :=
  ok_or {| AccessToken := EmptyString; Auth.RefreshToken := EmptyString; ExpiresAt := 0 |}
    (GenerateTokens demo_manager ada_id "ada@example.org" 1 [PERMISSION_UPDATE_ROLE] demo_env
       (mkWorld ada_accounts 30)).1.

Lemma ada_accounts_wf : WellFormed ada_accounts.
Proof.
  unfold ada_accounts. apply (after_preserves WellFormed); [apply linkIdentity_preserves|apply demo_provider_wf].
Qed.

(** The administrators lose a permission. *)
Definition revoke_request : Request :=
  Public ("Bearer " ++ AccessToken ada_pair) (RevokeRolePermissionRequest administratorsRoleID 46).

Definition revoked : result unit * World Database := step revoke_request 50 ada_accounts.

Lemma reaches_one request n d : reaches demo_service demo_ca demo_manager d (w_db (step request n d).2).
Proof. eapply reaches_step; [apply reaches_refl|apply surjective_pairing]. Qed.

Lemma permissions_follow_sessions_witness :
  sessions_follow ada_accounts (w_db revoked.2) /\ revoked.1 = Ok tt.
Proof.
  split; [|vm_compute; reflexivity].
  apply (permissions_follow_sessions demo_service demo_ca demo_manager ada_accounts (w_db revoked.2));
    [apply ada_accounts_wf|apply reaches_one].
Defined.

Lemma server_invariant_witness :
  WellFormed (w_db (step revoke_request 50 demo_initial).2) /\
  StoredActions (w_db (step revoke_request 50 demo_initial).2).
Proof. apply (server_invariant demo_service demo_ca demo_manager 0). apply reaches_one. Defined.

Lemma failed_request_changes_nothing_witness :
  atomic (server_step demo_service demo_ca demo_manager revoke_request).
Proof. apply (failed_request_changes_nothing demo_service demo_ca demo_manager revoke_request). reflexivity. Defined.

Lemma RefreshToken_rotates_witness :
  triple (fun d => d = ada_accounts) (RefreshToken demo_manager empty_context (Auth.RefreshToken ada_pair))
    (fun resp d => exists at_ claims u ps pair,
       refreshes demo_manager at_ (Auth.RefreshToken ada_pair) claims /\
       users ada_accounts !! Claims_UserID claims = Some u /\
       User_SessionVersion u = Claims_SessionVersion claims /\
       session_bumped (Claims_UserID claims) ada_accounts d /\
       (forall p, p ∈ ps <-> allowed ada_accounts (Claims_UserID claims) p) /\
       (exists env w w', GenerateTokens (D := Database) demo_manager (User_ID u) (User_Email u)
          (User_SessionVersion u + 1) ps env w = (Ok pair, w')) /\
       resp = sessionMessage pair)
    (fun e d => d = ada_accounts \/ exists id, session_bumped id ada_accounts d).
Proof.
  apply (RefreshToken_rotates demo_manager empty_context (Auth.RefreshToken ada_pair) ada_accounts).
  apply ada_accounts_wf.
Defined.

(** A refresh, a request, and the same token again. *)
Definition refreshed : result SessionMessage * World Database :=
  RefreshToken demo_manager empty_context (Auth.RefreshToken ada_pair) demo_env (mkWorld ada_accounts 60).

Definition no_session : SessionMessage := {| Session_AccessToken := EmptyString;
  Session_RefreshToken := EmptyString; Session_ExpiresAt := mkTimestamp 0 0 |}.

Lemma refresh_token_single_use_witness :
  exists e w', RefreshToken demo_manager empty_context (Auth.RefreshToken ada_pair) demo_env
    (mkWorld (w_db (step revoke_request 70 (w_db refreshed.2)).2) 90) = (Err e, w') /\
    w_db w' = w_db (step revoke_request 70 (w_db refreshed.2)).2.
Proof.
  assert (refreshed = (Ok (ok_or no_session refreshed.1), refreshed.2)) as Hrun by (vm_compute; reflexivity).
  apply (refresh_token_single_use demo_service demo_ca demo_manager empty_context (Auth.RefreshToken ada_pair)
    demo_env (mkWorld ada_accounts 60) (ok_or no_session refreshed.1) refreshed.2 _ Hrun (reaches_one _ _ _)).
Defined.

Definition revocation : result unit * World Database :=
  RevokeUserSessions demo_ctx ada_id demo_env (mkWorld ada_accounts 60).

Definition ada_claims : Claims :=
  ok_or {| Claims_Registered := {| Claims_ID := EmptyString; Claims_Issuer := EmptyString;
      Claims_Subject := EmptyString; Claims_IssuedAt := None; Claims_ExpiresAt := None |};
    Claims_UserID := EmptyString; Claims_Email := EmptyString; Claims_TokenType := EmptyString;
    Claims_SessionVersion := 0; Claims_Permissions := [] |}
    (validate demo_manager (1700000100 * 1000000000) (Auth.RefreshToken ada_pair) TokenTypeRefresh).

Lemma revoked_sessions_stay_revoked_witness :
  exists e w', RefreshToken demo_manager empty_context (Auth.RefreshToken ada_pair) demo_env
    (mkWorld (w_db (step revoke_request 70 (w_db revocation.2)).2) 90) = (Err e, w') /\
    w_db w' = w_db (step revoke_request 70 (w_db revocation.2)).2.
Proof.
  destruct (users ada_accounts !! ada_id) as [u|] eqn:Hu; [|vm_compute in Hu; discriminate Hu].
  assert (revocation = (Ok tt, revocation.2)) as Hrun by (vm_compute; reflexivity).
  apply (revoked_sessions_stay_revoked demo_service demo_ca demo_manager demo_ctx ada_id u demo_env
    (mkWorld ada_accounts 60) revocation.2 _ (1700000100 * 1000000000) (Auth.RefreshToken ada_pair) ada_claims
    Hu Hrun (reaches_one _ _ _)).
  - split_and!; vm_compute; [reflexivity|discriminate..].
  - vm_compute; reflexivity.
  - vm_compute in Hu. injection Hu as <-. vm_compute. discriminate.
Defined.
