(* ===== verification/AgentWitnesses.v ===== *)
(** * The agent's theorems at concrete inputs

    A host with a set of packages and a shell that always succeeds, a policy of two
    actions, and the device's life under it: the policy is reconciled, a round of the
    scheduler runs both actions, and the results are delivered. *)

From S2P Require Import Prelude Hash Engine Pair Proto Schema Queries QueriesFacts Service Demo.
From S2P Require Import Pki AgentStream AgentStore AgentPolicy AgentLedger Strs Exec Executor.
From S2P Require Import Scheduler.
From S2P Require Import Delivery Sync Witnesses.

From stdpp Require Import pretty.

Open Scope Z_scope.

(** ** A host *)

#[export] Instance example_range : MapRange := {| map_range := map_to_list |}.

#[export] Instance example_range_laws : MapRangeLaws.
Proof. intros m. reflexivity. Qed.

#[export] Instance example_text : ErrorText := {| Error e := match e with
  | ErrVar s | ErrNew s | ErrWrap s _ | ErrConnect _ s => s
  | _ => "database error"
  end |}%string.

(** The packages installed. *)
Definition Host : Type := gset string.

Definition succeeds : outcome :=
  ({| Exec_ExitCode := 0; Exec_Stdout := "ok"; Exec_Stderr := EmptyString |}, None)%string.

#[export] Instance example_runner : Runner Host := {| Run _ _ := mret succeeds; Backend := Sudo |}.

#[export] Instance example_runner_laws : RunnerLaws Host.
Proof. split. intros ctx c. by apply triple_ret. Qed.

(** A change of the packages. *)
Definition packages (f : gset string -> gset string) : M Host outcome :=
  sql (fun _ d => Ok (succeeds, f d)).

Definition total {D A} (a : A) (m : M D A) : M D A := on_error m (fun _ => mret a).

Definition example_manager : Manager Host := {|
  IsInstalled _ name := query (fun d => Ok (bool_decide (name ∈ d)));
  InstalledVersion _ _ := mret "1.0"%string;
  Install _ _ specs := total succeeds (packages (fun d => list_to_set (Spec_Name <$> specs) ∪ d));
  Remove _ _ names := total succeeds (packages (fun d => d ∖ list_to_set names));
  Update _ := mret succeeds;
  UpgradeAll _ := mret succeeds;
|}.

Lemma total_returns {D A} (a : A) (m : M D A) : returns (total a m).
Proof. intros env w _. unfold total, on_error. by destruct (m env w) as [[x|e] w']. Qed.

Lemma example_manager_laws m : Some example_manager = Some m -> ManagerLaws m.
Proof.
  intros [= <-]. split; intros; first [apply total_returns | by apply triple_ret].
Qed.

(** ** A policy and a device under it *)

(** The clock stands still. *)
Definition still_env : Env := {|
  env_fault _ := false; env_now _ := 1700000000000000000; env_sql_now _ := 1700000000000000000;
  env_ulid n := ("01JRUN" ++ pretty n)%string; env_rand _ := None |}.

Lemma still_quiet : quiet still_env.
Proof. done. Qed.

Definition curl_action : Action := {|
  Action_Id := Some "01JACT1"%string; Action_DesiredState := DESIRED_STATE_PRESENT;
  Action_TimeoutSeconds := 0; Action_Schedule := Some {| IntervalHours := 24 |};
  Action_Params := Some (Action_Package {| pkg_Name := "curl"; pkg_Version := "" |}%string) |}.

Definition hardened_params : ShellActionParams := {| Script := ""; Interpreter := "/bin/sh";
  WorkingDirectory := ""; Environment := {["STAGE" := "prod"]};
  DetectionScript := "test -f /etc/hardened"; IsCompliance := true |}%string.

Definition hardened_action : Action := {|
  Action_Id := Some "01JACT2"%string; Action_DesiredState := DESIRED_STATE_UNSPECIFIED;
  Action_TimeoutSeconds := 60; Action_Schedule := None;
  Action_Params := Some (Action_Shell hardened_params) |}.

Definition agent_policy : DesiredPolicy := {| RefreshIntervalMinutes := 30;
  Policy_Actions := [curl_action; hardened_action] |}.

(** The state after a first policy. *)
Definition under (policy : option DesiredPolicy) : AgentDatabase :=
  w_db (perform_op (OpReconcilePolicy policy) still_env (mkWorld empty_agent_database 0)).2.

Definition planned : AgentDatabase := under (Some agent_policy).

(** Nothing else happens. *)
Definition alone : Schedule := {| others _ := []; ends _ := false |}.

(** The process ends while the first action runs. *)
Definition crash : Schedule := {| others _ := []; ends n := (23 <? n)%nat |}.

Definition a_round (schedule : Schedule) (n : nat) (d : AgentDatabase)
    : result unit * World (AgentDatabase * Host) :=
  runDue (Some example_manager) schedule background still_env (mkWorld (d, ∅) n).

Definition reported_state : AgentDatabase := (w_db (a_round alone 10 planned).2).1.
Definition interrupted_state : AgentDatabase := (w_db (a_round crash 10 planned).2).1.

Notation example_reaches := (agent_reaches (Some example_manager)).

Lemma under_reached policy : example_reaches (under policy).
Proof. unfold under. eapply rtc_l; [|reflexivity]. apply step_op. Qed.

Lemma planned_reached : example_reaches planned.
Proof. apply (under_reached (Some agent_policy)). Qed.

Lemma round_reached schedule n d : example_reaches d -> example_reaches (w_db (a_round schedule n d).2).1.
Proof. intros Hd. eapply rtc_r; [exact Hd|]. apply step_round. Qed.

Lemma reached_inv d : example_reaches d -> StoreInv d.
Proof. intros Hd. by apply (agent_reaches_tracks (Some example_manager)). Qed.

Lemma reported_reached : example_reaches reported_state.
Proof. apply round_reached, planned_reached. Qed.

Lemma interrupted_reached : example_reaches interrupted_state.
Proof. apply round_reached, planned_reached. Qed.

(** ** The store *)

Lemma calculateNextExecuteFromSchedule_bounds_witness :
  let daily := Some {| IntervalHours := 24 |} in
  (forall last, let next := calculateNextExecuteFromSchedule daily (Some last) 1000 in
     next = Z.min last 1000 + interval_of daily /\
     (last <= 1000 -> last < next <= 1000 + 8760 * hour)) /\
  calculateNextExecuteFromSchedule daily (Some 5000) 1000 = 1000 + 24 * hour /\
  scheduleInterval (Some {| IntervalHours := 2562048 |}) < 0.
Proof.
  split; [|by vm_compute].
  assert (forall s, Some {| IntervalHours := 24 |} = Some s -> IntervalHours s <= 8760) as Hs
    by (intros s [= <-]; simpl; lia).
  apply (calculateNextExecuteFromSchedule_bounds (Some {| IntervalHours := 24 |}) 1000); [|done].
  by intros s [= <-].
Defined.

Lemma planned_inv : StoreInv planned.
Proof. apply reached_inv, planned_reached. Qed.

(** The next policy drops the check and changes the package. *)
Definition next_policy : DesiredPolicy := {| RefreshIntervalMinutes := 30;
  Policy_Actions := [{| Action_Id := Action_Id curl_action; Action_DesiredState := DESIRED_STATE_ABSENT;
    Action_TimeoutSeconds := 0; Action_Schedule := None; Action_Params := Action_Params curl_action |}] |}.

Lemma ReconcilePolicy_reconciles_witness :
  triple (fun d => d = interrupted_state) (ReconcilePolicy (Some next_policy))
    (fun _ d => NoDup ((fun a => GetValue (Action_Id a)) <$> Policy_Actions next_policy) /\
       (forall a, a ∈ Policy_Actions next_policy -> GetValue (Action_Id a) <> EmptyString) /\
       exists now,
         (forall id, becomes (scheduled_work d !! id)
            (reconciled now (policy_action next_policy id) (scheduled_work interrupted_state !! id))) /\
         result_outbox d = result_outbox interrupted_state /\
         outbox_sequence d = outbox_sequence interrupted_state)
    (fun _ d => d = interrupted_state) /\
  (let d := w_db (ReconcilePolicy (Some next_policy) still_env (mkWorld interrupted_state 60)).2 in
   (Work_RunInProgress <$> scheduled_work d !! "01JACT1"%string, scheduled_work d !! "01JACT2"%string)
     = (Some true, None)).
Proof.
  split; [|vm_compute; reflexivity].
  apply (ReconcilePolicy_reconciles next_policy interrupted_state), inv_keyed, reached_inv, interrupted_reached.
Defined.

Lemma example_encodes (r : ActionResult) : is_Some (marshal r).
Proof. by eexists. Qed.




(** ** The executor *)

Definition demo_command : Command := {| Cmd_Name := "/bin/sh"; Cmd_Args := ["-c"; "true"]; Cmd_Dir := "";
  Cmd_Env := ["STAGE=prod"]; Cmd_Stdin := None; Cmd_ChildPath := ""; Cmd_Escalate := true |}%string.

Definition child_env : list string :=
  ["PATH=/usr/bin"; "STAGE=prod"; "LC_ALL=C"; "LANG=C"; "NO_COLOR=1"]%string.

Lemma buildChildEnv_safe_witness :
  buildChildEnv demo_command ["LD_PRELOAD=/tmp/x.so"]%string "/usr/bin" = Ok child_env /\
  (forall e, e ∈ Cmd_Env demo_command -> caller_entry e) /\
  (forall key, hijacks key -> key <> "PATH"%string -> env_value key child_env = None) /\
  env_value "STAGE" child_env = Some "prod"%string.
Proof.
  split; [vm_compute; reflexivity|].
  destruct (buildChildEnv_safe demo_command ["LD_PRELOAD=/tmp/x.so"]%string "/usr/bin" child_env)
    as (Hcaller & _ & _ & _ & _ & Hnone & _); [vm_compute; reflexivity|].
  split_and!; [exact Hcaller|exact Hnone|vm_compute; reflexivity].
Defined.

Lemma captured_bounded_witness :
  Z.of_nat (String.length (captured ["one"; "two"]%string)) <= MaxOutputBytes + 19 /\
  captured ["one"; "two"]%string = ("one" ++ newline ++ "two" ++ newline)%string.
Proof.
  destruct (captured_bounded ["one"; "two"]%string) as (Hle & Hall & _); [vm_compute; discriminate|].
  split; [exact Hle|]. apply Hall. vm_compute. discriminate.
Defined.

Lemma ExecuteAction_answers_witness :
  triple (fun _ : Host => True) (ExecuteAction (Some example_manager) background (Some curl_action))
    (fun r _ => well_formed_result curl_action r) (fun _ _ => False) /\
  (w_db (ExecuteAction (Some example_manager) background (Some curl_action) still_env (mkWorld ∅ 0)).2
     = {["curl"%string]}).
Proof.
  split; [|vm_compute; reflexivity].
  apply (ExecuteAction_answers (Some example_manager) example_manager_laws background curl_action).
  by eexists.
Defined.

Lemma compliance_only_detects_witness :
  triple (fun d : Host => d = ∅) (ExecuteAction (Some example_manager) background (Some hardened_action))
    (fun r d => exists out, (d = ∅ /\ out = succeeds) /\ Result_ActionId r = Action_Id hardened_action /\
       Result_Output r = None /\
       match out.2 with
       | None => Result_Status r = EXECUTION_STATUS_SUCCESS /\
           Result_DetectionOutput r = Some (output_of out.1)
       | Some _ => Result_Status r <> EXECUTION_STATUS_SUCCESS
       end)
    (fun _ _ => False).
Proof.
  apply (compliance_only_detects (Some example_manager) background hardened_action "01JACT2"%string
    hardened_params (fun d => d = ∅) (fun out d => d = ∅ /\ out = succeeds)); try done.
Defined.

(** ** A run and its delivery *)

Definition curl_work : ScheduledWork :=
  {| SW_Action := curl_action; SW_WorkID := "01JACT1"; SW_RunID := EmptyString |}%string.

Definition curl_digest : bytes := ok_or [] (ActionDigest (Some curl_action)).

Definition curl_row : WorkRow :=
  new_work "01JACT1" (ok_or [] (proto_Marshal curl_action)) 1700000000000000000 1700000000000000000
    1700000000000000000.

Lemma planned_not_run id x run : scheduled_work planned !! id = Some x -> Work_RunID x <> Some run.
Proof.
  assert (map_Forall (fun _ x => Work_RunID x = None) (scheduled_work planned)) as Hall
    by (refine (bool_decide_unpack _ _); vm_compute; exact I).
  intros Hx. by rewrite (Hall id x Hx).
Qed.

Lemma executeAction_reports_witness :
  exists d' h' n', executeAction (Some example_manager) alone background curl_work still_env
      (mkWorld (planned, ∅) 10) = (Ok tt, mkWorld (d', h') n') /\
    StoreInv d' /\
    exists run r at_, well_formed_result curl_action r /\ run <> EmptyString /\
      open_runs (ledger d') = open_runs (ledger planned) /\
      reports (ledger d') = <[last_report (ledger planned) + 1 := stamp run curl_digest at_ r]>
        (reports (ledger planned)).
Proof.
  destruct (executeAction_reports (Some example_manager) alone example_manager_laws curl_work still_env
    planned ∅ 10 curl_row curl_action curl_digest)
    as (d' & h' & n' & Hrun & Hinv & run & r & at_ & Hok & Hne & Hopen & Hrep).
  - apply still_quiet.
  - done.
  - apply planned_inv.
  - vm_compute. reflexivity.
  - done.
  - vm_compute. reflexivity.
  - vm_compute. reflexivity.
  - intros k. split; [done|]. intros id x. apply planned_not_run.
  - vm_compute. reflexivity.
  - exists d', h', n'. split; [exact Hrun|]. split; [exact Hinv|].
    exists run, r, at_. by split_and!.
Defined.

Definition demo_hello : Hello :=
  {| Hello_DeviceId := Some demo_device; Hello_Hostname := "one"; Hello_AgentVersion := "1.0" |}%string.

(** The device under the policy the control plane computes for it. *)
Definition fleet_policy : option DesiredPolicy :=
  match (run_at 600 (desiredPolicy demo_connection demo_device) demo_policy).1 with
  | Ok policy => Some policy
  | Err _ => None
  end.

Definition fleet_planned : AgentDatabase := under fleet_policy.

Definition fleet_reported : AgentDatabase := (w_db (a_round alone 10 fleet_planned).2).1.

Lemma fleet_reached : example_reaches fleet_reported.
Proof. apply round_reached, under_reached. Qed.

#[local] Instance demo_remote : Remote Database :=
  server_remote demo_connection demo_device demo_hello (fun _ => Answered).

(** While the session waits, the policy is pulled, a run begins and is interrupted. *)
Definition busy : Meanwhile := {|
  works _ := WorkReconcile fleet_policy ::
    match (GetDueScheduledWork still_env (mkWorld fleet_planned 10)).1 with
    | Ok items => (fun w => WorkBegin w (env_now still_env 10)) <$> items
    | Err _ => []
    end ++ [WorkRecover];
  dies _ := false |}.

Definition no_agent_data : AgentDatabase * Database := (empty_agent_database, demo_policy).


Definition nothing_else : Meanwhile := {| works _ := []; dies _ := false |}.

(** A remote that acknowledges everything and counts. *)
Definition counting_remote : Remote nat :=
  {| SendActionResult _ := fun _ w => (Ok None, mkWorld (S (w_db w)) (S (w_step w))) |}.

Lemma counting_answers : answers (Remote0 := counting_remote).
Proof. done. Qed.

Lemma syncPendingResults_drains_witness :
  (exists a' s' n', syncPendingResults (Remote0 := counting_remote) nothing_else still_env
      (mkWorld (reported_state, 0%nat) 100) = (Ok tt, mkWorld (a', s') n') /\
    scheduled_work a' = scheduled_work reported_state /\ result_outbox a' = ∅ /\
    outbox_sequence a' = outbox_sequence reported_state) /\
  size (result_outbox reported_state) = 2%nat.
Proof.
  split; [|vm_compute; reflexivity].
  apply (syncPendingResults_drains (Remote0 := counting_remote) nothing_else still_env reported_state 0%nat 100).
  - apply still_quiet.
  - done.
  - apply reached_inv, reported_reached.
  - apply counting_answers.
Defined.

(** ** A pull *)

Lemma wanted_nonempty id x : wanted demo_policy demo_device id x -> id <> EmptyString /\ is_Some (marshal x).
Proof.
  assert (actions demo_policy !! EmptyString = None) as Hnone by (vm_compute; reflexivity).
  intros (act & [Hl _] & <- & _). split; [|by eexists]. intros He. rewrite He in Hl. congruence.
Qed.

#[local] Instance demo_source : PolicySource Database :=
  server_source demo_connection demo_device demo_hello (fun _ => Answered).

Lemma pullDesiredPolicyFromControl_converges_witness :
  (exists a' n', pullDesiredPolicyFromControl still_env (mkWorld (interrupted_state, demo_policy) 80) =
      (Ok (5 * minute), mkWorld (a', demo_policy) n') /\
    StoreInv a' /\ (forall id x, live a' id x <-> wanted demo_policy demo_device id x) /\
    open_runs (ledger a') = open_runs (ledger interrupted_state) /\
    reports (ledger a') = reports (ledger interrupted_state)) /\
  size (scheduled_work
    (w_db (pullDesiredPolicyFromControl still_env (mkWorld (interrupted_state, demo_policy) 80)).2).1) = 2%nat.
Proof.
  split; [|vm_compute; reflexivity].
  apply (pullDesiredPolicyFromControl_converges demo_connection demo_device demo_hello (fun _ => Answered)
    still_env interrupted_state demo_policy 80).
  - apply still_quiet.
  - done.
  - apply reached_inv, interrupted_reached.
  - apply demo_policy_wf.
  - apply demo_policy_stored.
  - apply wanted_nonempty.
Defined.
