(* ===== verification/LifeWitnesses.v ===== *)
(** * An agent's certificates at concrete inputs

    Concrete functions for the parts of TLS the agent uses, which satisfy the laws its
    theorems assume; an agent that enrolls, renews its certificate, loses the answer of
    the connection that promotes it, and is killed; and the run that shows why
    [Reconnect] needs a credential file that can be read. *)

From S2P Require Import Prelude Hash Engine Pair Quiet Pki Proto Schema Queries QueriesFacts.
From S2P Require Import QueriesFrame.
From S2P Require Import Service Demo Devices Enrollment AgentStream Rotation Strs Delivery.
From S2P Require Import AgentCerts.
From S2P Require Import Reconnect AgentEnroll Login Witnesses.

Open Scope Z_scope.

(** ** Keys that are their own seeds *)

Definition pair_of (certPEM keyPEM : bytes) : bool :=
  match parseCertificatePEM certPEM, pem_Decode keyPEM with
  | Ok x, Some (block, _) =>
      bool_decide (Cert_PublicKey x = Ed25519Key (Block_Bytes block))
      && bool_decide (Block_Type block = "PRIVATE KEY"%string)
  | _, _ => false
  end.

Definition request_of (seed : bytes) : CertificateRequest := {|
  Csr_SignatureValid := true; Csr_PublicKey := Ed25519Key seed; Csr_DNSNames := [];
  Csr_IPAddresses := []; Csr_EmailAddresses := []; Csr_URIs := [] |}.

Lemma request_of_parses seed :
  ParseCertificateRequest (positive_bytes (encode (request_of seed))) = Some (request_of seed).
Proof.
  unfold ParseCertificateRequest, example_x509. rewrite bytes_positive_bytes. cbv [mbind option_bind].
  apply decode_encode.
Qed.

#[export] Instance example_tls : Tls := {|
  X509KeyPair := pair_of;
  AppendCertsFromPEM pem :=
    match pem_Decode pem with
    | Some (block, _) => bool_decide (is_Some (ParseCertificate (Block_Bytes block)))
    | None => false
    end;
  VerifyClientAuth cert caCert := true;
  ParsePKCS8PrivateKey der := Some (Ed25519Private der);
  MarshalPKCS8PrivateKey seed := Some seed;
  CreateCertificateRequest hostname seed := Some (positive_bytes (encode (request_of seed)));
  ed25519_Public seed := seed;
|}.

#[export] Instance example_tls_laws : TlsLaws.
Proof.
  split.
  - by intros seed der [= ->].
  - intros hostname seed der [= <-]. exists (request_of seed). split; [apply request_of_parses|reflexivity].
  - intros certPEM x keyPEM block rest seed Hx Hk Hdec Hty [= <-].
    change (pair_of certPEM keyPEM = true). unfold pair_of. unfold ed25519_Public, example_tls in Hk.
    rewrite Hx, Hdec, (bool_decide_true _ Hty), (bool_decide_true _ Hk). reflexivity.
  - intros der x Hx. unfold AppendCertsFromPEM, example_tls. rewrite pem_decode_encode. simpl.
    change (bool_decide (is_Some (ParseCertificate der)) = true). rewrite Hx. by apply bool_decide_true.
Qed.

(** ** Enrolling *)

Definition fleet_root : X509Certificate := {|
  Cert_SerialNumber := Some 1; Cert_CommonName := "fleet CA"; Cert_SubjectSerialNumber := EmptyString;
  Cert_NotBefore := 0; Cert_NotAfter := 4000000000 * 1000000000; Cert_PublicKey := OtherKey; Cert_URIs := [] |}.

Definition fleet_ca : CA :=
  {| CA_Raw := positive_bytes (encode fleet_root); CA_validity := 90 * 24 * 3600 * 1000000000 |}.

Definition fleet_request : EnrollmentRequest := {|
  Enroll_ServerURL := "https://fleet.example.org"; Enroll_Token := demo_token;
  Enroll_CAPin := ok_or EmptyString (CAFingerprintFromPEM (CACertPEM fleet_ca));
  Enroll_Hostname := "laptop-1"; Enroll_Version := "1.0" |}.

Definition always {A} (x : A) : nat -> A := fun _ => x.

Definition enroll_run (link : nat -> Link) (s : CredentialFile * Database) (n : nat) :=
  Enroll demo_service fleet_ca link (always false) (always false) fleet_request demo_env (mkWorld s n).

Lemma fleet_ca_parses : ParseCertificate (CA_Raw fleet_ca) = Some fleet_root.
Proof. vm_compute. reflexivity. Qed.

Lemma fleet_address : requireHTTPSAgentAddr (agentURL demo_service) = true.
Proof. vm_compute. reflexivity. Qed.

(** The first answer is lost; the second attempt gets the same device. *)
Definition interrupted : CredentialFile * Database :=
  w_db (enroll_run (always AnswerLost) (None, demo_tokens) 100).2.

Definition enrolled_state : CredentialFile * Database := w_db (enroll_run (always Answered) interrupted 200).2.

Lemma initial_resumable : resumable (None, demo_tokens).
Proof.
  split; [by left|]. split; [apply demo_tokens_wf|]. intros id r Hr. exfalso.
  assert (devices demo_tokens = ∅) as He by (vm_compute; reflexivity). simpl in Hr. rewrite He in Hr.
  by apply lookup_empty_Some in Hr.
Qed.


(** ** A life *)

Definition fleet_credentials : Credentials := default (pending_credentials [] []) enrolled_state.1.

Lemma interrupted_resumable : resumable interrupted.
Proof.
  pose proof (Enroll_spec demo_service fleet_ca (always AnswerLost) (always false) (always false) fleet_request
    fleet_root fleet_ca_parses fleet_address demo_env
    (mkWorld (None, demo_tokens) 100) initial_resumable) as Hspec.
  unfold interrupted, enroll_run. destruct (Enroll _ _ _ _ _ _ _ _) as [[res|e] w] eqn:Hrun; [|exact Hspec].
  exfalso. assert (match (enroll_run (always AnswerLost) (None, demo_tokens) 100).1 with Ok _ => False | Err _ => True end)
    as Hno by (vm_compute; exact I).
  unfold enroll_run in Hno. by rewrite Hrun in Hno.
Qed.

Lemma fleet_enrolled : enrolled fleet_credentials enrolled_state.2.
Proof.
  pose proof (Enroll_spec demo_service fleet_ca (always Answered) (always false) (always false) fleet_request
    fleet_root fleet_ca_parses fleet_address demo_env
    (mkWorld interrupted 200) interrupted_resumable) as Hspec.
  assert (match (enroll_run (always Answered) interrupted 200).1 with
          | Ok res => json_credentials (Enrolled_Credentials res) = Enrolled_Credentials res | Err _ => False end)
    as Hyes by (vm_compute; reflexivity).
  unfold fleet_credentials, enrolled_state, enroll_run in *.
  destruct (Enroll _ _ _ _ _ _ _ _) as [[res|e] w]; [|done]. simpl in *.
  destruct Hspec as (_ & -> & _ & Hspec). simpl. rewrite Hyes. by apply Hspec.
Qed.

(** Eighty days after the enrollment the certificate is due. *)
Definition later : Env := {|
  env_fault := env_fault demo_env;
  env_now n := env_now demo_env n + 80 * 24 * 3600 * 1000000000;
  env_sql_now n := env_sql_now demo_env n + 80 * 24 * 3600 * 1000000000;
  env_ulid := env_ulid demo_env; env_rand := env_rand demo_env |}.

Definition iterate (link : nat -> Link) (l : Loop) (s : CredentialFile * Database) (n : nat) :=
  agent_iteration demo_service fleet_ca "laptop-1" "1.0" link (always false) (always false) l later (mkWorld s n).

Definition started : Loop :=
  {| loop_creds := fleet_credentials; fallbackActive := false; firstConnect := true |}.

(** The first session stages a renewal. *)
Definition renewing := iterate (always Answered) started (Some fleet_credentials, enrolled_state.2) 300.

Definition renewing_loop : Loop := default started (next_loop renewing.1).

(** The second presents it and loses the welcome: the control plane promoted it. *)
Definition promoting := iterate (always AnswerLost) renewing_loop (w_db renewing.2) 400.

Definition life := life_step demo_service fleet_ca "laptop-1" "1.0".

Lemma iterated link l s n : life (s, Some l) (w_db (iterate link l s n).2, next_loop (iterate link l s n).1).
Proof.
  apply (life_iterate _ _ _ _ s l link (always false) later n (iterate link l s n).1 (iterate link l s n).2).
  unfold iterate. by destruct (agent_iteration _ _ _ _ _ _ _ _ _ _).
Qed.

Lemma promoting_life : rtc life ((Some fleet_credentials, enrolled_state.2), None) (w_db promoting.2, None).
Proof.
  eapply rtc_l.
  { apply (life_start _ _ _ _ (Some fleet_credentials) enrolled_state.2 demo_env 290 started
      (mkWorld (Some fleet_credentials) 291)). vm_compute. reflexivity. }
  eapply rtc_l; [apply (iterated (always Answered) started _ 300)|].
  eapply rtc_l; [|apply rtc_once, life_kill].
  assert (next_loop renewing.1 = Some renewing_loop) as Hl by (vm_compute; reflexivity).
  change (iterate (always Answered) started _ 300) with renewing. rewrite Hl.
  apply (iterated (always AnswerLost) renewing_loop (w_db renewing.2) 400).
Qed.

(** The file still has the renewal as pending, the control plane has it as active. *)
Lemma agent_reconnects_witness :
  (exists w, (l ← resume (always false) None;
              run_until_connected demo_service fleet_ca "laptop-1" "1.0" (always Answered) (always false)
                (always false) 2 l) later (mkWorld (w_db promoting.2) 500) = (Ok true, w) /\ safe (w_db w)) /\
  match (w_db promoting.2).1, devices (w_db promoting.2).2 !! "01JULID108"%string with
  | Some c, Some r =>
      Creds_PendingCertificate c = Device_ActiveCertificatePem r /\
      Creds_Certificate c <> Device_ActiveCertificatePem r /\ Creds_PendingCertificate c <> []
  | _, _ => False
  end.
Proof.
  split; [|vm_compute; by split_and!].
  apply (agent_reconnects demo_service fleet_ca "laptop-1" "1.0" fleet_credentials enrolled_state.2
    (w_db promoting.2, None) (always Answered) (always false) later 500).
  - apply fleet_enrolled.
  - apply promoting_life.
  - done.
  - done.
  - done.
Defined.

(** ** A credential file that cannot be read

    [applyRenewal] changes the credentials in memory before they are saved.  When that
    save fails and the file cannot be read at the next reconnect either, the agent
    presents a certificate that is nowhere on disk, and the control plane gives up the
    old one; when saving fails again, the file is left with the superseded certificate
    only. *)

Definition failing_from (k : nat) : Env := {|
  env_fault n := (k <=? n)%nat; env_now := env_now later; env_sql_now := env_sql_now later;
  env_ulid := env_ulid later; env_rand := env_rand later |}.

Definition iterate_failing (k : nat) (unreadable : bool) (l : Loop) (s : CredentialFile * Database) (n : nat) :=
  agent_iteration demo_service fleet_ca "laptop-1" "1.0" (always Answered) (always unreadable) (always false) l
    (failing_from k) (mkWorld s n).

Definition unsaved := iterate_failing 318 false started (Some fleet_credentials, enrolled_state.2) 300.

Definition unread := iterate_failing 409 true (default started (next_loop unsaved.1)) (w_db unsaved.2) 400.

(** From then on no iteration connects, in the best of weather. *)
Lemma unread_credentials_lock_out :
  (w_db unread.2).1 = Some fleet_credentials /\
  match (l ← resume (always false) None;
         run_until_connected demo_service fleet_ca "laptop-1" "1.0" (always Answered) (always false)
           (always false) 3 l) later (mkWorld (w_db unread.2) 500) with
  | (Ok connected, _) => connected = false
  | (Err _, _) => False
  end.
Proof. split; vm_compute; reflexivity. Qed.
