(* ===== verification/PackageWitnesses.v ===== *)
(** * The package managers' theorems at concrete inputs

    An Arch host that is its configuration file, on which packages are pinned; and the
    host of [AgentWitnesses] with every back end. *)

From Stdlib Require Import Ascii.
From S2P Require Import Prelude Engine Proto Strs Text Words Exec Executor Packages.
From S2P Require Import Apt Dnf Zypper Pacman PacmanFacts PackageManagers PackageSafety.
From S2P Require Import AgentWitnesses.

Open Scope string_scope.
Open Scope Z_scope.

(** ** An Arch host *)

Definition prints (text : string) : outcome :=
  ({| Exec_ExitCode := 0; Exec_Stdout := text; Exec_Stderr := EmptyString |}, None).

Definition Arch : Type := string.

Definition arch_run (c : Command) : M Arch outcome :=
  if bool_decide (Cmd_Name c = "cat") then fun _ w => (Ok (prints (w_db w)), w)
  else if bool_decide (Cmd_Name c = "tee")
  then fun _ w => (Ok (prints EmptyString), mkWorld (default EmptyString (Cmd_Stdin c)) (w_step w))
  else mret (prints EmptyString).

#[export] Instance arch_runner : Runner Arch := {| Run _ := arch_run; Backend := Sudo |}.

#[export] Instance arch_conf : ConfFile Arch.
Proof.
  refine {| conf_of := id |}.
  - intros ctx c env w Hw. split; [done|]. intros _ _. by left.
  - intros ctx stdin env w _. by intros _ _.
Defined.

Definition arch_file : string := "[options]" ++ newline ++ "HoldPkg = pacman glibc" ++ newline.

Definition arch_ctx : Ctx := {| ctx_deadline := None; ctx_cancelled _ := false |}.

(** The file after [linux] and [nvidia] are pinned, and after [linux] is unpinned. *)
Example arch_pins :
  let run := (_ ← Pacman.Pin arch_ctx ["linux"; "nvidia"];
              pinned ← Pacman.IsPinned arch_ctx "nvidia"; _ ← Pacman.Unpin arch_ctx ["linux"]; mret pinned) in
  match run still_env (mkWorld arch_file 0) with
  | (Ok pinned, w) => pinned = true /\ Pacman.getIgnoredPackages (w_db w) = ["nvidia"] /\
      w_db w = "[options]" ++ newline ++ "IgnorePkg = nvidia" ++ newline ++ "HoldPkg = pacman glibc" ++ newline
               ++ newline ++ newline
  | _ => False
  end.
Proof. vm_compute. split_and!; reflexivity. Qed.


(** ** A host with every tool *)

#[export] Instance example_binaries : Binaries Host :=
  {| is_file _ := mret false; lookPath name := mret (Some ("/usr/bin/" ++ name)) |}.

Lemma base_bin name : base ("/usr/bin/" ++ name) = base name.
Proof.
  unfold base. change ("/usr/bin/" ++ name) with ("/usr/bin" ++ String "/" name). rewrite Split_app.
  pose proof (Split_not_nil name "/") as Hne. destruct (exists_last Hne) as (parts & x & ->).
  by rewrite app_assoc, !List.last_last.
Qed.

#[export] Instance example_binaries_laws : BinariesLaws Host.
Proof.
  split; intros; try (by apply triple_ret). apply triple_ret. intros _ _ path [= <-]. apply base_bin.
Qed.

#[local] Existing Instances recording_runner recording_binaries.

(** No sizes are read. *)
#[export] Instance example_floats : FloatText := {| ParseFloat _ := None |}.

Definition hostile : Mutation := MInstall false [{| Spec_Name := "curl"; Spec_Version := "-oDPkg::Pre-Invoke=sh" |}].


Lemma package_action_commands_witness :
  preserves (only (D := Host) (action_command BackendDnf5 {| pkg_Name := "curl"; pkg_Version := "" |}))
    (ExecuteAction (Some (executor_manager (manager_of BackendDnf5))) arch_ctx (Some curl_action)).
Proof. apply (package_action_commands (D := Host)). reflexivity. Defined.

(** The commands of that action on the host. *)
Example curl_commands :
  let run := ExecuteAction (Some (executor_manager (manager_of BackendPacman))) arch_ctx (Some curl_action) in
  match run still_env (mkWorld (∅ : Host, []) 0) with
  | (Ok r, w) => Result_Status r = EXECUTION_STATUS_SUCCESS /\ Cmd_Args <$> (w_db w).2 = [["-Q"; "curl"]]
  | _ => False
  end.
Proof. vm_compute. split_and!; reflexivity. Qed.

Lemma NewExecutor_answers_witness :
  triple (fun _ => True) (manager ← NewExecutor; ExecuteAction (D := Host) manager arch_ctx (Some curl_action))
    (fun r _ => well_formed_result curl_action r) (fun _ _ => False).
Proof. apply (NewExecutor_answers (D := Host)). by eexists. Defined.

(** ** A SUSE host that has to be rebooted *)

(** No package is installed, and an installation asks for a reboot. *)
Definition suse_run (c : Command) : outcome :=
  let exit := if bool_decide (Cmd_Name c = "rpm") then 1
    else if bool_decide (Cmd_Args c !! 1%nat = Some "install") then 102 else 0 in
  ({| Exec_ExitCode := exit; Exec_Stdout := EmptyString; Exec_Stderr := EmptyString |}, None).

(** The back end takes the exit code for a success, and the executor for a failure. *)
Example reboot_needed_fails :
  let H := {| Run _ c := mret (suse_run c); Backend := Sudo |} : Runner Host in
  let install := Zypper.Install arch_ctx false [{| Spec_Name := "curl"; Spec_Version := EmptyString |}] in
  match install still_env (mkWorld (∅ : Host) 0),
        ExecuteAction (Some (executor_manager (manager_of BackendZypper))) arch_ctx (Some curl_action)
          still_env (mkWorld (∅ : Host) 0) with
  | (Ok run, _), (Ok r, _) =>
      run.2 = None /\ Exec_ExitCode run.1 = 102 /\ Result_Status r = EXECUTION_STATUS_FAILED /\
      stderr_of (Result_Output r) = "package manager exited with status 102"
  | _, _ => False
  end.
Proof. vm_compute. split_and!; reflexivity. Qed.
