(* ===== verification/ServiceWitnesses.v ===== *)
(** * The files', services' and middleware's theorems at concrete inputs

    A file system that is a map of paths, on which any system call may fail, with a systemd
    that reads the agent's unit when it is told to. *)

From Stdlib Require Import Ascii.
From stdpp Require Import pretty.
From S2P Require Import Prelude Engine Pair Strs Text Words Paths Exec Packages Units Files.
From S2P Require Import FilesFacts Services.
From S2P Require Import ServicesFacts AgentUnit AgentUnitFacts Middleware AgentWitnesses.

Open Scope string_scope.
Open Scope Z_scope.

(** ** A host *)

(** The files, and the unit systemd has read. *)
Abbreviation FS := (FileHost (option string)).

(** A system call: it fails without effect when the environment says so. *)
Definition syscall {A} (f : FS -> result (A * FS)) : M FS A := sql (fun _ d => f d).

Definition keeping {A} (f : FS -> result A) : M FS A :=
  syscall (fun d => match f d with Ok a => Ok (a, d) | Err e => Err e end).

Definition entry (d : FS) (path : string) : option N := Host_Entries d !! components path.

Definition unusedb (d : FS) (k : list string) (n : N) : bool :=
  bool_decide (Host_Entries d !! k = None) && bool_decide (Host_Contents d !! n = None)
  && forallb (fun e => negb (bool_decide (snd e = n))) (map_to_list (Host_Entries d)).

Definition fs_create (dir prefix : string) : M FS string := syscall (fun d =>
  let n := N.of_nat (size (Host_Contents d)) in
  let tmp := "/" ++ Join (components dir ++ [(prefix ++ pretty n)%string])%list "/" in
  if bool_decide (components tmp = (components dir ++ [(prefix ++ pretty n)%string])%list) && unusedb d (components tmp) n
  then Ok (tmp, with_temp d (components tmp) n EmptyString) else Err ErrExists).

Definition fs_write (h : N) (data : string) : M FS unit := syscall (fun d =>
  match Host_Contents d !! h with
  | Some c => Ok (tt, with_contents <[h := (c ++ data)%string]> d)
  | None => Err os_ErrNotExist
  end).

Definition fs_rename (a b : string) : M FS unit := syscall (fun d =>
  match entry d a with
  | Some n => Ok (tt, renamed d (components a) (components b) n)
  | None => Err os_ErrNotExist
  end).

Definition fs_rename_noreplace (a b : string) : M FS rename_answer := syscall (fun d =>
  match entry d b, entry d a with
  | Some _, _ => Ok (AlreadyThere, d)
  | None, Some n => Ok (Renamed, renamed d (components a) (components b) n)
  | None, None => Err os_ErrNotExist
  end).

Definition fs_read (path : string) : M FS string := keeping (fun d =>
  match entry d path with
  | None => Err os_ErrNotExist
  | Some n => match Host_Contents d !! n with Some c => Ok c | None => Err (ErrNew "is a directory") end
  end).

#[export] Instance fs_os : OS FS := {|
  Handle := N;
  Getwd := keeping (fun _ => Ok "/");
  CreateTemp := fs_create;
  OpenNoFollow path := keeping (fun d => Ok (entry d path));
  OpenDirNoFollow path := keeping (fun d => Ok 0%N);
  FdIsRegular h := keeping (fun d => Ok true);
  FdRead h := keeping (fun d => match Host_Contents d !! h with Some c => Ok c | None => Err os_ErrNotExist end);
  FdWrite := fs_write;
  FdChmod h mode := keeping (fun _ => Ok tt);
  FdChown h uid gid := keeping (fun _ => Ok tt);
  FdSync h := keeping (fun _ => Ok tt);
  FdClose h := keeping (fun _ => Ok tt);
  SyncDir dir := keeping (fun _ => Ok tt);
  Unlink path := syscall (fun d => Ok (tt, with_entries (delete (components path)) d));
  Rename := fs_rename;
  RenameNoReplace := fs_rename_noreplace;
  Lstat path := keeping (fun d => Ok (bool_decide (is_Some (entry d path))));
  os_Stat path := keeping (fun d => Ok None);
  os_ReadFile := fs_read;
  os_ReadDir path := keeping (fun _ => Ok []);
  EvalSymlinks path := keeping (fun _ => Ok path);
  LookupUser name := keeping (fun _ => if bool_decide (name = "root") then Ok "0" else Err (ErrNew "unknown user"));
  LookupGroup name := keeping (fun _ => if bool_decide (name = "root") then Ok "0" else Err (ErrNew "unknown group"));
  LookupId id := keeping (fun _ => Ok "root");
  LookupGroupId id := keeping (fun _ => Ok "root");
|}.

Lemma keeping_triple {A} (f : FS -> result A) s (Q : A -> FS -> Prop) (E : error -> FS -> Prop) :
  (forall a, f s = Ok a -> Q a s) -> (forall e, E e s) -> triple (fun d => d = s) (keeping f) Q E.
Proof.
  intros HQ HE. apply triple_sql; [|by intros d ->]. intros _ d ->. destruct (f s) as [a|e]; [by apply HQ|by apply HE].
Qed.

Lemma keeping_silent {A} (f : FS -> result A) : silent id (keeping f).
Proof. intros s. by apply keeping_triple. Qed.

Lemma unusedb_spec d k n : unusedb d k n = true -> unused d k n.
Proof.
  unfold unusedb, unused. rewrite !andb_true_iff, !bool_decide_eq_true, forallb_forall. intros [[Hk Hn] Hall].
  split_and!; [done..|]. intros k' Hk'. specialize (Hall (k', n)). rewrite negb_true_iff, bool_decide_eq_false in Hall.
  apply Hall; [|done]. apply list_elem_of_In. by apply elem_of_map_to_list.
Qed.

#[export] Instance fs_laws : OSLaws FS (option string).
Proof.
  refine {| observe := id : FS -> FileHost (option string); node := id : @Handle FS fs_os -> N |};
    try (intros; apply keeping_silent); unfold id.
  - intros dir prefix s Ha. apply triple_sql; [|done]. intros _ d ->.
    cbv zeta. set (n := N.of_nat _). set (tmp := ("/" ++ _)%string). match goal with |- context [if ?b then _ else _] => destruct b eqn:Hok end; [|done].
    apply andb_true_iff in Hok as [Hk%bool_decide_eq_true Hun]. exists (pretty n), n.
    split_and!; [by apply HasPrefix_app; eexists|done|by apply unusedb_spec|done].
  - intros path s Ha. apply keeping_triple; [|done]. intros opened [= <-]. split; [|done]. unfold entry.
    by destruct (Host_Entries s !! _).
  - intros h s. apply keeping_triple; [|done]. intros c.
    case_match eqn:Hh; [|done]. intros [= <-]. by split.
  - intros h data s Hc. apply triple_sql.
    + intros _ d ->. by rewrite Hc.
    + intros d ->. exists EmptyString. unfold with_contents. rewrite insert_id by done. by destruct s.
  - intros path s Ha. apply triple_sql; [|done]. by intros _ d ->.
  - intros a b s Ha Hb. apply triple_sql; [|done]. intros _ d ->. unfold entry, moves.
    destruct (Host_Entries s !! components a) as [n|] eqn:Hn; [|done]. by exists n.
  - intros a b s Ha Hb. apply triple_sql; [|done]. intros _ d ->. unfold entry, moves.
    destruct (Host_Entries s !! components b) eqn:Hbe; [done|].
    destruct (Host_Entries s !! components a) as [n|] eqn:Hn; [|done]. split; [done|]. by exists n.
  - intros path s Ha. apply keeping_triple; [|done]. by intros there [= <-].
  - intros path s Ha. apply triple_sql.
    + intros _ d ->. unfold content, entry. destruct (Host_Entries s !! components path) as [n|]; [|done]. simpl.
      destruct (Host_Contents s !! n); [done|]. split; [|done]. intros He. by vm_compute in He.
    + intros d ->. split; [|done]. intros He. by vm_compute in He.
Defined.

(** [systemctl] on the host, with and without answers. *)
Definition answer (text : string) : outcome :=
  ({| Exec_ExitCode := 0; Exec_Stdout := text; Exec_Stderr := EmptyString |}, None).

Definition with_rest (l : option string) (d : FS) : FS :=
  {| Host_Entries := Host_Entries d; Host_Contents := Host_Contents d; Host_Rest := l |}.

Definition fs_run (c : Command) : M FS outcome :=
  if bool_decide (Cmd_Args c = Cmd_Args daemon_reload)
  then syscall (fun d => Ok (answer EmptyString, with_rest (content d agent_unit_file) d))
  else if bool_decide (Cmd_Args c = Cmd_Args needs_reload)
  then keeping (fun d => Ok (answer (if bool_decide (Host_Rest d = content d agent_unit_file)
                                     then "NeedDaemonReload=no" else "NeedDaemonReload=yes")))
  else keeping (fun _ => Ok (answer EmptyString)).

#[export] Instance fs_runner : Runner FS := {| Run _ := fs_run; Backend := Direct |}.

#[export] Instance fs_root : RootProcess FS := eq_refl.

#[export] Instance fs_systemd : Systemd FS (option string).
Proof.
  refine {| read_unit := id |}.
  - intros ctx f l. apply triple_sql.
    + intros _ d [Hf Hl]. cbn. split_and!; [done|by right|done].
    + intros d [Hf Hl]. split; [done|by left].
  - intros ctx f l. apply triple_sql; [|done]. intros _ d [Hf Hl]. split; [|done].
    cbn in Hf, Hl |- *. unfold id in *. case_bool_decide; [congruence|]. intros He. by vm_compute in He.
Defined.

(** ** Files *)

Definition conf_path : string := "/etc/app.conf".

Definition conf_host : FS :=
  {| Host_Entries := {[ components conf_path := 0%N ]}; Host_Contents := {[ 0%N := "old" ]}; Host_Rest := None |}.

Definition conf_options : WriteOptions :=
  {| Write_Mode := 384; Write_Owner := "root"; Write_Group := EmptyString; Write_Backup := "/etc/app.conf.bak" |}.

Definition service_ctx : Ctx := {| ctx_deadline := None; ctx_cancelled _ := false |}.

Lemma files_written_whole_witness :
  IsAbs conf_path = true /\
  triple (fun d => observe d = conf_host) (WriteFile service_ctx conf_path "new" conf_options)
    (fun _ d => written [Write_Backup conf_options] conf_path "new" conf_host (observe d))
    (fun _ d => intact [Write_Backup conf_options] conf_path conf_host (observe d) \/
       written [Write_Backup conf_options] conf_path "new" conf_host (observe d)).
Proof.
  split; [reflexivity|].
  destruct (files_written_whole (D := FS) service_ctx conf_path "new" conf_options conf_host) as [Hw _];
    [reflexivity|reflexivity|by repeat constructor|].
  eapply triple_conseq; [exact Hw|done| |done]. by intros ? d [Hd _].
Defined.

(** The environment in which every call from the n-th on fails. *)
Definition crash_after (n : nat) : Env := {|
  env_fault step := (n <=? step)%nat; env_now _ := 0; env_sql_now _ := 0; env_ulid _ := EmptyString;
  env_rand _ := None |}.

(** What is in the file and in its backup after a crash at each point. *)
Example crashes :
  map (fun n => let d := w_db (WriteFile service_ctx conf_path "new" conf_options (crash_after n) (mkWorld conf_host 0)).2 in
      (content d (components conf_path), content d (components "/etc/app.conf.bak"))) [0; 5; 12; 21; 40]%nat =
    [(Some "old", None); (Some "old", None); (Some "old", Some "old"); (Some "new", Some "old"); (Some "new", Some "old")].
Proof. vm_compute. reflexivity. Qed.

Lemma protected_prefix_exact_witness :
  IsAbs "//srv/../etc/./sudoers.d" = true /\
  exists refused, IsUnderProtectedPrefix "//srv/../etc/./sudoers.d" (crash_after 9) (mkWorld conf_host 0)
    = (Ok refused, mkWorld conf_host 0) /\ (refused = true <-> protected (components "//srv/../etc/./sudoers.d")).
Proof.
  split; [reflexivity|].
  destruct (protected_prefix_exact (D := FS) "//srv/../etc/./sudoers.d" (crash_after 9) (mkWorld conf_host 0)) as [H _];
    [reflexivity|exact H].
Defined.

Example protected_paths :
  let refused p := match IsUnderProtectedPrefix p (crash_after 9) (mkWorld conf_host 0) with (Ok b, _) => b | _ => false end in
  map refused ["/etc/../etc/sudoers.d"; "/var/lib/cadestro"; "/var/cache"; "/var"; "/opt/app"; "/usrlocal"; "etc"] =
    [true; true; false; true; false; false; true].
Proof. vm_compute. reflexivity. Qed.

(** ** Services *)

(** The commands and files of a call, on the host. *)
Example service_calls :
  let effects call name :=
    let run := @call_unit (FS * list Effect) effect_runner effect_files call service_ctx name in
    snd (w_db (run (crash_after 99) (mkWorld (conf_host, []) 0)).2) in
  effects (CallMutate UEnableNow) "cron.service" = [unit_command true ["enable"; "--now"] "cron.service"] /\
  effects (CallWriteUnit (unit_with "ExecStart=/tmp/x")) "cron.service" = [] /\
  effects CallStatus "../../passwd.service" = [].
Proof. vm_compute. split_and!; reflexivity. Qed.

(** ** The agent's unit *)

Definition agent_params : UnitParams := {| BinaryPath := "/usr/local/bin/cadestrod"; DataDir := "/var/lib/cadestro" |}.


(** Installed on an empty host; interrupted after each number of calls, and completed by the
    next start of the installer. *)
Definition empty_host : FS := {| Host_Entries := ∅; Host_Contents := ∅; Host_Rest := None |}.

Definition install (n : nat) (d : FS) : FS :=
  w_db (EnsureInstalled service_ctx agent_params (crash_after n) (mkWorld d 0)).2.

Example installs :
  (forall n, n ∈ [0; 3; 7; 11; 14; 16; 20]%nat -> on_disk (install 99 (install n empty_host)) = Some (unitTemplate agent_params) /\
     loaded (install 99 (install n empty_host)) = Some (unitTemplate agent_params)) /\
  on_disk (install 3 empty_host) = None /\ loaded (install 14 empty_host) = None.
Proof.
  split; [|by vm_compute]. apply Forall_forall. repeat constructor; vm_compute; by split.
Qed.


(** What the agent would not be able to install. *)
Example refused_units :
  (fun p => match Render p with Ok c => validateUnitContent c | Err e => Err e end) <$>
    [{| BinaryPath := "/tmp/cadestrod"; DataDir := "/var/lib/cadestro" |};
     {| BinaryPath := "/bin/sh"; DataDir := "/var/lib/cadestro" |};
     {| BinaryPath := "/opt/a b"; DataDir := "/var/lib/cadestro" |}] =
    [Err (ErrWrap "runs from a world-writable directory" ErrUnsafeUnitContent);
     Err (ErrWrap "shells out via -c" ErrUnsafeUnitContent);
     Err (ErrNew "BinaryPath contains a character interpreted by systemd")].
Proof. vm_compute. reflexivity. Qed.

(** ** What the policy lets through *)

Definition service_of (l : list string) : string := unlines ("[Service]" :: l).

(** A comment that ends in a backslash hides the next line from the policy; one inside a
    command ends the command for the policy; the policy looks at the first of several
    commands, and at no quoted name. *)
Example policy_gaps :
  validateUnitContent <$>
    [service_of ["# note \"; "ExecStart=/bin/sh -c id"];
     service_of ["ExecStart=/bin/sh \"; "# note"; " -c id"];
     service_of ["ExecStart=/bin/true ; /bin/sh -c id"];
     service_of ["ExecStart='/bin/sh' -c id"]] = [Ok tt; Ok tt; Ok tt; Ok tt].
Proof. vm_compute. reflexivity. Qed.

(** ** Other origins *)

Definition request (method origin : string) : Request :=
  {| Request_Method := method; Request_Header := header_set "Origin" origin ∅; Request_TLS := true |}.

(** A route that answers 200. *)
Definition ok_route : Handler := fun _ => WriteHeader 200.

Example origins_answered :
  (fun r => match Writer_Sent (publicRoot ["https://app.example"] ok_route r fresh_writer) with
            | Some (status, h) => (status, header_get h "access-control-allow-origin")
            | None => (0, EmptyString)
            end) <$>
    [request "GET" "https://app.example"; request "GET" "https://evil.example";
     request "OPTIONS" "https://app.example"; request "OPTIONS" "https://evil.example"; request "OPTIONS" EmptyString] =
  [(200, "https://app.example"); (200, EmptyString); (204, "https://app.example"); (403, EmptyString); (204, EmptyString)].
Proof. vm_compute. reflexivity. Qed.
