(* ===== verification/TreeWitnesses.v ===== *)
(** * Removing a tree, run

    A host that is a tree of entries: its calls on descriptors, their laws, and runs of
    [RemoveDir] on it. *)

From S2P Require Import Prelude Engine Pair Quiet Strs Text Words Paths Exec Packages Units Files.
From S2P Require Import FilesFacts RemoveDir RemoveDirFacts Demo.

Open Scope string_scope.
Open Scope Z_scope.

(** A call on the tree; it fails without effect when the environment says so. *)
Definition tree_call {A} (f : Tree -> option (A * Tree)) : M Tree A :=
  sql (fun _ d => match f d with Some r => Ok r | None => Err (ErrNew "no such entry") end).

Definition at_entry {A} (fd : list string) (name : string) (f : FileKind -> Tree -> option (A * Tree)) : M Tree A :=
  tree_call (fun d => kind ← d !! (fd ++ [name])%list; f kind d).

Definition children_of (fd : list string) (d : Tree) : list string :=
  omap (fun e => match reverse (fst e) with
                 | c :: l => if bool_decide (reverse l = fd) then Some c else None
                 | [] => None
                 end) (map_to_list d).

Definition tree_readdir (fd : list string) (d : Tree) : option (list string * Tree) :=
  if bool_decide (fd = [] \/ d !! fd = Some Directory) then Some (children_of fd d, d) else None.

#[export] Instance tree_removal : Removal Tree := {|
  Fd := list string;
  OpenRoot := tree_call (fun d => Some ([], d));
  Openat fd name := at_entry fd name (fun kind d =>
    if bool_decide (kind = Directory) then Some ((fd ++ [name])%list, d) else None);
  Fstatat fd name := at_entry fd name (fun kind d => Some (kind, d));
  Unlinkat fd name := at_entry fd name (fun kind d =>
    if bool_decide (kind = Directory) then None else Some (tt, delete (fd ++ [name])%list d));
  UnlinkatDir fd name := at_entry fd name (fun kind d =>
    if bool_decide (kind = Directory) && bool_decide (children_of (fd ++ [name]) d = [])
    then Some (tt, delete (fd ++ [name])%list d) else None);
  Readdirnames fd := tree_call (tree_readdir fd);
  CloseFd fd := tree_call (fun d => Some (tt, d));
|}.

Lemma children_of_spec fd d c : c ∈ children_of fd d <-> is_Some (d !! (fd ++ [c])%list).
Proof.
  unfold children_of. rewrite list_elem_of_omap. split.
  - intros ([k x] & Hk%elem_of_map_to_list & Hc). simpl in Hc.
    destruct (reverse k) as [|c' l] eqn:Hr; [done|]. case_bool_decide as Hl; [|done]. injection Hc as ->.
    exists x. rewrite <- Hl, <- reverse_cons, <- Hr, reverse_involutive. done.
  - intros [x Hx]. exists ((fd ++ [c])%list, x). split; [by apply elem_of_map_to_list|]. simpl.
    rewrite reverse_snoc, reverse_involutive. by rewrite bool_decide_true.
Qed.

Lemma children_of_NoDup fd d : NoDup (children_of fd d).
Proof.
  unfold children_of. pose proof (NoDup_fst_map_to_list d) as Hnd. induction (map_to_list d) as [|[k x] l IH]; [constructor|].
  apply NoDup_cons in Hnd as [Hk Hnd]. simpl. specialize (IH Hnd).
  destruct (reverse k) as [|c r] eqn:Hr; [done|]. case_bool_decide as Hfd; [|done].
  constructor; [|done]. rewrite list_elem_of_omap. intros ([k' x'] & Hin & Hc'). apply Hk.
  simpl in Hc'. destruct (reverse k') as [|c' r'] eqn:Hr'; [done|]. case_bool_decide as Hfd'; [|done].
  injection Hc' as ->. assert (k = k') as ->.
  { rewrite <- (reverse_involutive k), <- (reverse_involutive k'), Hr, Hr', !reverse_cons. by rewrite Hfd, Hfd'. }
  apply list_elem_of_fmap. by exists (k', x').
Qed.

Lemma tree_call_triple {A} (f : Tree -> option (A * Tree)) (s : Tree) (Q : A -> Tree -> Prop) (E : error -> Tree -> Prop) :
  (forall a t, f s = Some (a, t) -> Q a t) -> (forall e, errors_is ErrTooDeep e = false -> E e s) ->
  triple (fun d => d = s) (tree_call f) Q E.
Proof.
  intros HQ HE. apply triple_sql; [|intros d ->; by apply HE]. intros _ d ->.
  destruct (f s) as [[a t]|]; [by apply HQ|by apply HE].
Qed.

Lemma tree_call_quiet {A} (f : Tree -> option (A * Tree)) (P : Tree -> Prop) :
  (forall s, P s -> is_Some (f s)) -> quietly P (tree_call f) (fun _ _ => True).
Proof.
  intros Hf. apply quietly_sql. intros _ d Hd. destruct (Hf d Hd) as [[a t] ->]. by exists a, t.
Qed.

#[export] Instance tree_laws : RemovalLaws Tree.
Proof.
  refine {| tree := id; walk := id : @Fd Tree tree_removal -> list string |}; unfold id.
  - intros s. apply tree_call_triple; [|done]. by intros fd t [= <- <-].
  - intros fd name s. apply tree_call_triple; [|done]. simpl. intros fd' t.
    destruct (s !! _) as [kind|]; simpl; [|done]. case_bool_decide as Hk; [|done]. intros [= <- <-]. by rewrite Hk.
  - intros fd name s. apply tree_call_triple; [|done]. simpl. intros kind t.
    destruct (s !! _) as [kind'|]; simpl; [|done]. by intros [= <- <-].
  - intros fd name s. apply tree_call_triple; [|done]. simpl. intros [] t.
    destruct (s !! _) as [kind|]; simpl; [|done]. case_bool_decide as Hk; [done|]. intros [= <-].
    split; [congruence|done].
  - intros fd name s. apply tree_call_triple; [|done]. simpl. intros [] t.
    destruct (s !! _) as [kind|]; simpl; [|done]. case_bool_decide as Hk; simpl; [|done].
    case_bool_decide as Hc; [|done]. intros [= <-]. split; [|done]. intros c. apply eq_None_not_Some.
    change [name; c] with ([name] ++ [c])%list. rewrite app_assoc, <- children_of_spec, Hc. apply not_elem_of_nil.
  - intros fd s. apply tree_call_triple; [|done]. unfold tree_readdir. intros names t.
    case_bool_decide; [|done]. intros [= <- <-]. split_and!; [apply children_of_NoDup|apply children_of_spec|done].
  - intros fd s. apply tree_call_triple; [|done]. by intros [] t [= <-].
  - by apply tree_call_quiet.
  - intros fd name s Hs. apply tree_call_quiet. intros ? ->. simpl. rewrite Hs. by eexists.
  - intros fd name s [kind Hs]. apply tree_call_quiet. intros ? ->. simpl. rewrite Hs. by eexists.
  - intros fd name s kind Hs Hk. apply tree_call_quiet. intros ? ->. simpl. rewrite Hs. simpl.
    rewrite bool_decide_false by done. by eexists.
  - intros fd name s Hs Hc. apply tree_call_quiet. intros ? ->. simpl. rewrite Hs. simpl.
    rewrite bool_decide_true; [by eexists|].
    destruct (children_of _ s) as [|c l] eqn:Hl; [done|]. exfalso.
    assert (c ∈ children_of (fd ++ [name]) s) as [x Hx]%children_of_spec by (rewrite Hl; by left).
    rewrite <- app_assoc in Hx. simpl in Hx. by rewrite Hc in Hx.
  - intros fd s Hs. apply tree_call_quiet. intros ? ->. unfold tree_readdir. rewrite bool_decide_true by done. by eexists.
  - intros fd. by apply tree_call_quiet.
Defined.

(** The other calls of the manager are not used on this host. *)
Definition unused_call {A} : M Tree A := fail (ErrNew "function not implemented").

#[export] Instance tree_os : OS Tree := {|
  Handle := unit; Getwd := unused_call; CreateTemp _ _ := unused_call; OpenNoFollow _ := unused_call;
  OpenDirNoFollow _ := unused_call; FdIsRegular _ := unused_call; FdRead _ := unused_call;
  FdWrite _ _ := unused_call; FdChmod _ _ := unused_call; FdChown _ _ _ := unused_call;
  FdSync _ := unused_call; FdClose _ := unused_call; SyncDir _ := unused_call; Unlink _ := unused_call;
  Rename _ _ := unused_call; RenameNoReplace _ _ := unused_call; Lstat _ := unused_call;
  os_Stat _ := unused_call; os_ReadFile _ := unused_call; os_ReadDir _ := unused_call;
  EvalSymlinks _ := unused_call; LookupUser _ := unused_call; LookupGroup _ := unused_call;
  LookupId _ := unused_call; LookupGroupId _ := unused_call;
|}.

#[export] Instance tree_runner : Runner Tree := {| Run _ _ := unused_call; Backend := Direct |}.

(** A tree with a link out of what is to be removed. *)
Definition data_tree : Tree := {[
  ["data"] := Directory; ["data"; "keep"] := RegularOrOther;
  ["data"; "app"] := Directory; ["data"; "app"; "log"] := RegularOrOther;
  ["data"; "app"; "out"] := Symlink; ["data"; "app"; "cache"] := Directory;
  ["data"; "app"; "cache"; "a"] := RegularOrOther;
  ["data"; "link"] := Symlink ]}.

Definition forever : Ctx := {| ctx_deadline := None; ctx_cancelled := fun _ => false |}.

Definition remove (path : string) : result unit * list (list string) :=
  let (r, w) := RemoveDir 5 forever path demo_env (mkWorld data_tree 0) in
  (r, (map_to_list (w_db w)).*1).

Example removed : remove "/data//x/../app/" = (Ok tt, [["data"; "keep"]; ["data"; "link"]; ["data"]]).
Proof. vm_compute. reflexivity. Qed.

Example refused :
  (fun path => fst (remove path)) <$> ["/data/link"; "/data/keep"; "/data/../etc/cadestro"; "data/app"] =
  [Err (ErrNew "refusing to remove symlink"); Err (ErrNew "refusing to remove non-directory");
   Err (ErrNew "refusing to remove protected path"); Err (ErrNew "path must be absolute")].
Proof. vm_compute. reflexivity. Qed.

(** What holds of every key of the tree, checked key by key. *)
Lemma tree_keys (t : Tree) (P : list string -> bool) :
  forallb P (map_to_list t).*1 = true -> forall k, is_Some (t !! k) -> P k = true.
Proof.
  intros Hall k [x Hx]. rewrite forallb_forall in Hall. apply Hall, list_elem_of_In, list_elem_of_fmap.
  exists (k, x). by split; [|apply elem_of_map_to_list].
Qed.

Lemma data_tree_rooted : rooted data_tree.
Proof.
  intros k c Hk.
  apply (tree_keys data_tree (fun k => match reverse k with
    | [] => true
    | _ :: r => bool_decide (reverse r = [] \/ data_tree !! reverse r = Some Directory)
    end)) in Hk; [|by vm_compute].
  rewrite reverse_snoc, reverse_involutive in Hk. by apply bool_decide_eq_true in Hk.
Qed.

Lemma data_tree_proper : proper_names data_tree.
Proof.
  intros k c Hk.
  apply (tree_keys data_tree (fun k => match reverse k with
    | [] => true
    | c :: _ => bool_decide (c <> "." /\ c <> "..")
    end)) in Hk; [|by vm_compute].
  rewrite reverse_snoc in Hk. by apply bool_decide_eq_true in Hk.
Qed.

Lemma data_tree_depth k : is_Some (data_tree !! k) -> (length k < 5)%nat.
Proof. intros Hk. by apply (tree_keys data_tree (fun k => bool_decide (length k < 5)%nat)), bool_decide_eq_true in Hk. Qed.

Lemma app_unprotected : ~ protected (components "/data/app").
Proof. rewrite <- protected_clean_spec by done. by vm_compute. Qed.

Lemma RemoveDir_removes_witness :
  quietly (fun d => d = data_tree) (RemoveDir 5 forever "/data/app")
    (fun _ d => d = without ["data"; "app"] data_tree).
Proof.
  exact (proj2 (RemoveDir_removes (D := Tree) 5 forever "/data/app" data_tree eq_refl data_tree_rooted
    eq_refl data_tree_depth) (conj eq_refl (fun _ => eq_refl)) data_tree_proper eq_refl app_unprotected eq_refl).
Defined.
