(* ===== verification/StartWitnesses.v ===== *)
(** * The control plane, started

    A host with the variables and the files that [server/deploy/setup.sh] writes, on which
    the control plane is started twice: on a new database and on the one the first start
    left. *)

From Stdlib Require Import Ascii.
From S2P Require Import Prelude Hash Engine Pair Quiet Pki Proto Schema Queries QueriesFacts.
From S2P Require Import Service Actions Assignments.
From S2P Require Import Demo Auth Idp Login Server Strs Text Paths Files AgentCerts AgentEnroll.
From S2P Require Import HostFiles Middleware.
From S2P Require Import ServerStart ServerStartFacts Witnesses LifeWitnesses.

Open Scope string_scope.
Open Scope Z_scope.

(** A mode and a content for each path. *)
Abbreviation StartHost := (gmap string (Z * string)).

Definition reading {A} (f : StartHost -> option A) (none : error) : M StartHost A :=
  query (fun d => match f d with Some a => Ok a | None => Err none end).

Definition not_called {A} : M StartHost A := fail (ErrNew "not called").

#[export] Instance start_os : OS StartHost := {|
  Handle := unit; Getwd := not_called; CreateTemp _ _ := not_called; OpenNoFollow _ := not_called;
  OpenDirNoFollow _ := not_called; FdIsRegular _ := not_called; FdRead _ := not_called;
  FdWrite _ _ := not_called; FdChmod _ _ := not_called; FdChown _ _ _ := not_called;
  FdSync _ := not_called; FdClose _ := not_called; SyncDir _ := not_called; Unlink _ := not_called;
  Rename _ _ := not_called; RenameNoReplace _ _ := not_called; Lstat _ := not_called;
  os_Stat path := reading (fun d => Some ((fun f => {| Stat_Uid := 0; Stat_Gid := 0; Stat_Mode := f.1 |}) <$> d !! path)) ErrDatabase;
  os_ReadFile path := reading (fun d => snd <$> d !! path) os_ErrNotExist;
  os_ReadDir _ := not_called; EvalSymlinks _ := not_called; LookupUser _ := not_called;
  LookupGroup _ := not_called; LookupId _ := not_called; LookupGroupId _ := not_called;
|}.

#[export] Instance start_files : FileLaws StartHost.
Proof.
  refine {| file_at (d : StartHost) path := d !! path |}.
  - intros path d0. apply triple_query; [|done]. intros d ->. split; [done|]. by destruct (d0 !! path).
  - intros path d0. apply triple_query; [|done]. intros d ->. by destruct (d0 !! path).
  - intros path d0 [f Hf]. apply quietly_query. intros d ->. by eexists.
  - intros path d0 [f Hf]. apply quietly_query. intros d ->. exists f.2. rewrite Hf. by split.
Defined.

#[export] Instance start_folders : Folders StartHost := {|
  os_MkdirAll _ _ := mret tt; os_Chmod _ _ := mret tt; os_LstatMode path := reading (fun d => Some (fst <$> d !! path)) ErrDatabase |}.

#[export] Instance start_sqlite : Sqlite StartHost := {| sqlite_Open _ := mret tt; goose_Up := mret tt; sqlite_Close := mret tt |}.

(** Keys of 32 bytes, which are their own seeds. *)
#[local] Instance start_tls : Tls := {|
  X509KeyPair := pair_of;
  AppendCertsFromPEM _ := true; VerifyClientAuth _ _ := true;
  ParsePKCS8PrivateKey der := if bool_decide (length der = 32%nat) then Some (Ed25519Private der) else None;
  MarshalPKCS8PrivateKey seed := Some seed; CreateCertificateRequest _ _ := None; ed25519_Public seed := seed;
|}.

#[export] Instance start_pkix : Pkix := {|
  MarshalPKIXPublicKey pub := match pub with Ed25519Key key => Some key | OtherKey => None end |}.

#[local] Instance start_keys : KeyLaws.
Proof.
  split.
  - intros der seed. unfold ParsePKCS8PrivateKey, start_tls. case_bool_decide as Hlen; [|done]. by intros [= <-].
  - intros [key'|] key der; [|done]. intros [= ->]. by intros [= ->].
Qed.

(** [https://host/path]. *)
#[local] Instance start_web : WebAddress := {|
  url_Parse raw :=
    match cut_at raw "://" with
    | Some (scheme, rest) =>
        let '(host, path, found) := Cut rest "/"%char in
        Some {| Url_Scheme := scheme; Url_Opaque := ""; Url_Host := host; Url_HasUser := has_byte "@"%char host;
                Url_Path := (if found : bool then "/" ++ path else ""); Url_RawQuery := ""; Url_Fragment := "" |}
    | None => None
    end;
  host_EqualFold a b := bool_decide (a = b);
|}.

#[export] Instance start_variables : EnvironmentVariables := {|
  Getenv name := default "" ((list_to_map [
    ("CADESTRO_PUBLIC_LISTEN", "0.0.0.0:8081"); ("CADESTRO_AGENT_LISTEN", "0.0.0.0:8082");
    ("CADESTRO_PUBLIC_BASE_URL", "https://control.example.org"); ("CADESTRO_AGENT_URL", "https://agents.example.org");
    ("CADESTRO_CORS_ORIGINS", "https://control.example.org"); ("CADESTRO_CERTIFICATE_VALIDITY", "8760h");
    ("CADESTRO_HEARTBEAT_INTERVAL", "30s"); ("CADESTRO_DATABASE_PATH", "/var/lib/cadestro/control.db");
    ("CADESTRO_CA_CERT_FILE", "/run/certs/ca.crt"); ("CADESTRO_CA_KEY_FILE", "/run/certs/ca.key");
    ("CADESTRO_AGENT_TLS_CERT_FILE", "/run/certs/control.crt"); ("CADESTRO_AGENT_TLS_KEY_FILE", "/run/certs/control.key");
    ("CADESTRO_PUBLIC_TLS_CERT_FILE", "/run/certs/control.crt"); ("CADESTRO_PUBLIC_TLS_KEY_FILE", "/run/certs/control.key");
    ("CADESTRO_SESSION_SIGNING_KEY_FILE", "/run/secrets/session-signing.pem");
    ("CADESTRO_OIDC_ISSUER_URL", "https://idp.example.org"); ("CADESTRO_OIDC_CLIENT_ID", "cadestro")]
    : gmap string string) !! name) |}.

#[export] Instance start_durations : Durations := {|
  ParseDuration text := if bool_decide (text = "8760h") then Some (8760 * 3600 * second)
                        else if bool_decide (text = "30s") then Some (30 * second) else None |}.

Definition start_key (b : Byte.byte) : bytes := replicate 32 b.

Definition pem_file (ty : string) (der : bytes) : string := Hash.bytes_string (pem_Encode {| Block_Type := ty; Block_Bytes := der |}).

Definition cert_file (key : bytes) : string := pem_file "CERTIFICATE" (positive_bytes (encode {|
  Cert_SerialNumber := Some 1; Cert_CommonName := "control"; Cert_SubjectSerialNumber := ""; Cert_NotBefore := 0;
  Cert_NotAfter := 4000000000 * second; Cert_PublicKey := Ed25519Key key; Cert_URIs := [] |})).

Definition start_host : StartHost := list_to_map [
  ("/run/secrets/session-signing.pem", (384, pem_file "PRIVATE KEY" (start_key Byte.x11)));
  ("/run/certs/ca.crt", (420, cert_file (start_key Byte.x22)));
  ("/run/certs/ca.key", (384, pem_file "PRIVATE KEY" (start_key Byte.x22)));
  ("/run/certs/control.crt", (420, cert_file (start_key Byte.x33)));
  ("/run/certs/control.key", (384, pem_file "PRIVATE KEY" (start_key Byte.x33)))].

#[local] Instance start_listeners : Listeners StartHost := {|
  ListenAndServeTLS _ := mret None; Shutdown _ _ := mret tt |}.

#[local] Instance start_listener_laws : ListenerLaws StartHost.
Proof. split; intros; apply triple_ret; intros x ->; apply reaches_refl. Qed.

Definition started : M (StartHost * Database) (Config * Running) :=
  config ← on_fst loadConfig; _ ← on_fst (store_New (DatabasePath config));
  running ← prepare config; mret (config, running).

Definition is_ok {A} (r : result A) : bool := match r with Ok _ => true | Err _ => false end.

Example first_start : is_ok (started demo_env (mkWorld (start_host, demo_initial) 0)).1 = true.
Proof. by vm_compute. Qed.

(** A control plane whose files may be read by its group does not start. *)
Example shared_key :
  is_ok (loadConfig demo_env (mkWorld (<["/run/secrets/session-signing.pem" := (416, pem_file "PRIVATE KEY" (start_key Byte.x11))]> start_host) 0)).1
  = false.
Proof. by vm_compute. Qed.

