(* ===== verification/CredentialWitnesses.v ===== *)
(** * The credential file, saved and loaded

    The store of credentials on a file system that is a map of paths, whose directories have
    mode 0700 and whose files 0600. *)

From S2P Require Import Prelude Hash Engine Pair Strs Text Words Paths Exec Packages Units Files.
From S2P Require Import FilesFacts HostFiles.
From S2P Require Import Proto AgentCerts CredentialStore Demo Witnesses ServiceWitnesses.

Open Scope string_scope.
Open Scope Z_scope.

(** The mode of a file, or of a directory something is in. *)
Definition fs_mode (d : FS) (path : string) : option Z :=
  if bool_decide (is_Some (entry d path)) then Some 384
  else if bool_decide (components path = ["var"; "lib"; "cadestro"])
       || existsb (fun e => bool_decide (components path `prefix_of` e.1)) (map_to_list (Host_Entries d))
  then Some (ModeDir + 448) else None.

Definition fs_stat (path : string) : M FS (option FileStat) :=
  keeping (fun d => Ok ((fun mode => {| Stat_Uid := 0; Stat_Gid := 0; Stat_Mode := mode |}) <$> fs_mode d path)).

Definition with_stat (os : OS FS) : OS FS := {|
  Handle := Handle; Getwd := Getwd; CreateTemp := CreateTemp; OpenNoFollow := OpenNoFollow;
  OpenDirNoFollow := OpenDirNoFollow; FdIsRegular := FdIsRegular; FdRead := FdRead; FdWrite := FdWrite;
  FdChmod := FdChmod; FdChown := FdChown; FdSync := FdSync; FdClose := FdClose; SyncDir := SyncDir;
  Unlink := Unlink; Rename := Rename; RenameNoReplace := RenameNoReplace; Lstat := Lstat; os_Stat := fs_stat;
  os_ReadFile := os_ReadFile; os_ReadDir := os_ReadDir; EvalSymlinks := EvalSymlinks; LookupUser := LookupUser;
  LookupGroup := LookupGroup; LookupId := LookupId; LookupGroupId := LookupGroupId |}.

#[local] Instance credential_os : OS FS := with_stat fs_os.

#[local] Instance credential_laws : OSLaws FS (option string) := {|
  observe := id : FS -> FileHost (option string); node := id : @Handle FS credential_os -> N;
  CreateTemp_spec := @CreateTemp_spec _ _ _ fs_laws; OpenNoFollow_spec := @OpenNoFollow_spec _ _ _ fs_laws;
  FdRead_spec := @FdRead_spec _ _ _ fs_laws; FdWrite_spec := @FdWrite_spec _ _ _ fs_laws; Unlink_spec :=
  @Unlink_spec _ _ _ fs_laws; Rename_spec := @Rename_spec _ _ _ fs_laws; RenameNoReplace_spec :=
  @RenameNoReplace_spec _ _ _ fs_laws; Lstat_spec := @Lstat_spec _ _ _ fs_laws; ReadFile_spec :=
  @ReadFile_spec _ _ _ fs_laws; FdIsRegular_silent := @FdIsRegular_silent _ _ _ fs_laws; FdChmod_silent :=
  @FdChmod_silent _ _ _ fs_laws; FdChown_silent := @FdChown_silent _ _ _ fs_laws; FdSync_silent :=
  @FdSync_silent _ _ _ fs_laws; FdClose_silent := @FdClose_silent _ _ _ fs_laws; SyncDir_silent :=
  @SyncDir_silent _ _ _ fs_laws; LookupUser_silent := @LookupUser_silent _ _ _ fs_laws; LookupGroup_silent :=
  @LookupGroup_silent _ _ _ fs_laws |}.

#[local] Instance credential_folders : Folders FS := {|
  os_MkdirAll _ _ := keeping (fun _ => Ok tt); os_Chmod _ _ := keeping (fun _ => Ok tt);
  os_LstatMode path := keeping (fun d => Ok (fs_mode d path)) |}.

Lemma fs_mode_none d path k :
  fs_mode d path = None -> components path `prefix_of` k -> Host_Entries d !! k = None.
Proof.
  unfold fs_mode. case_bool_decide; [done|]. destruct (_ || existsb _ _) eqn:Hex; [done|]. intros _ Hk.
  apply orb_false_iff in Hex as [_ Hex]. destruct (Host_Entries d !! k) as [n|] eqn:Hn; [|done].
  exfalso. rewrite <- not_true_iff_false, existsb_exists in Hex. apply Hex. exists (k, n). split.
  - apply list_elem_of_In. by apply elem_of_map_to_list.
  - by apply bool_decide_true.
Qed.

Lemma keeping_reads {A} (f : FS -> result A) s (Q : A -> FS -> Prop) (E : error -> FS -> Prop) :
  (forall a, f s = Ok a -> Q a s) -> (forall e, f s = Err e -> E e s) -> E ErrDatabase s ->
  triple (fun d => d = s) (keeping f) Q E.
Proof.
  intros HQ HE Hdb. apply triple_sql; [|by intros d ->]. intros _ d ->. destruct (f s) as [a|e]; [by apply HQ|by apply HE].
Qed.

#[local] Instance credential_folder_laws : FolderLaws FS (option string).
Proof.
  refine {| mode_at := fs_mode |}.
  - intros path mode s Ha. apply keeping_reads; intros; (split; [apply same_but_refl|intros k; reflexivity]).
  - intros path mode s. apply (keeping_silent (fun _ => Ok tt) s).
  - intros path d0 Ha. apply keeping_reads; [|done|done]. intros st [= <-]. split_and!; [done|by destruct (fs_mode d0 path)|].
    intros Hst k. apply (fs_mode_none d0). by destruct (fs_mode d0 path).
  - intros path d0 Ha. apply keeping_reads; [|done|done]. intros mode [= <-]. split_and!; [done..|].
    intros Hm. by apply (fs_mode_none d0 path).
Defined.

(** A text for credentials. *)
Definition credential_fields (c : Credentials) : string * bytes * bytes * bytes * bytes * bytes * bytes * string :=
  (Creds_DeviceID c, Creds_CACert c, Creds_Certificate c, Creds_PendingCertificate c, Creds_PendingPrivateKey c,
   Creds_PendingCSR c, Creds_PrivateKey c, Creds_AgentAddr c).

Definition credentials_of (f : string * bytes * bytes * bytes * bytes * bytes * bytes * string) : Credentials :=
  let '(id, ca, cert, pending, pkey, pcsr, key, addr) := f in {|
    Creds_DeviceID := id; Creds_CACert := ca; Creds_Certificate := cert; Creds_PendingCertificate := pending;
    Creds_PendingPrivateKey := pkey; Creds_PendingCSR := pcsr; Creds_PrivateKey := key; Creds_AgentAddr := addr |}.

#[local] Instance example_json : Json := {|
  json_Marshal c := Some (Hash.bytes_string (positive_bytes (encode (credential_fields (json_credentials c)))));
  json_Unmarshal text := credentials_of <$> (p ← bytes_positive (Hash.string_bytes text); decode p) |}.

#[local] Instance example_json_laws : JsonLaws.
Proof.
  split. intros c text [= <-]. unfold json_Unmarshal, example_json.
  rewrite Hash.string_bytes_string, bytes_positive_bytes. cbv [mbind option_bind]. rewrite decode_encode. by destruct c.
Qed.

Definition some_credentials : Credentials := {|
  Creds_DeviceID := "01JDEVICE"; Creds_CACert := [Byte.x01]; Creds_Certificate := [Byte.x02];
  Creds_PendingCertificate := []; Creds_PendingPrivateKey := []; Creds_PendingCSR := [];
  Creds_PrivateKey := [Byte.x03]; Creds_AgentAddr := "https://agents.example.org" |}.

Definition no_files : FS := {| Host_Entries := ∅; Host_Contents := ∅; Host_Rest := None |}.

Definition never_cancelled : Ctx := {| ctx_deadline := None; ctx_cancelled _ := false |}.

(** What an agent saves is what it loads. *)
Example saves_and_loads :
  (let store := NewStore "" in
   (_ ← SaveFile store never_cancelled some_credentials; LoadFile store) demo_env (mkWorld no_files 0)).1
  = Ok some_credentials.
Proof. by vm_compute. Qed.

Lemma credential_store_refines_witness :
  let store := NewStore "" in
  holds_file (X := option string) store no_files None /\
  refines (holds_file (X := option string) store) (fun _ _ => True) (SaveFile store never_cancelled some_credentials)
    (fun m => m = AgentCerts.Save some_credentials) /\
  triple (fun d => holds_file (X := option string) store d None)
    (_ ← SaveFile store never_cancelled some_credentials; LoadFile store)
    (fun loaded _ => loaded = json_credentials some_credentials) (fun _ _ => True).
Proof.
  destruct (credential_store_refines (D := FS) (X := option string) "" never_cancelled some_credentials)
    as (Hsave & _ & Hagain & _); [reflexivity|reflexivity|].
  split_and!; [reflexivity|exact Hsave|exact (Hagain None)].
Defined.
