(* ===== verification/AgentMainWitnesses.v ===== *)
(** * The agent's commands at concrete inputs

    A host with systemd and an empty data directory, on which an agent is enrolled from its
    command line, interrupted and enrolled again, and then started. *)

From Stdlib Require Import Ascii.
From S2P Require Import Prelude Hash Engine Pair Quiet Pki Proto Schema Queries QueriesFacts.
From S2P Require Import Service Demo Devices Enrollment AgentStream.
From S2P Require Import Strs Text Words Paths Exec Executor Scheduler Delivery AgentCerts.
From S2P Require Import Reconnect AgentEnroll Packages PackageManagers.
From S2P Require Import Units Files FilesFacts HostFiles CredentialStore Services ServicesFacts.
From S2P Require Import AgentUnit AgentUnitFacts.
From S2P Require Import AgentMain AgentMainFacts Witnesses LifeWitnesses AgentWitnesses.
From S2P Require Import PackageWitnesses ServiceWitnesses CredentialWitnesses.

Open Scope string_scope.
Open Scope Z_scope.

#[local] Existing Instances credential_os credential_laws credential_folders.

#[local] Instance agent_binaries : Binaries FS :=
  {| is_file _ := mret false; lookPath name := mret (Some ("/usr/bin/" ++ name)) |}.

#[local] Instance agent_binaries_laws : BinariesLaws FS.
Proof.
  split; intros; try (by apply triple_ret). apply triple_ret. intros _ _ path [= <-]. apply base_bin.
Qed.

#[local] Instance agent_systemd : Systemd FS (option string).
Proof.
  refine {| read_unit := id |}; [exact (@reload_spec _ _ _ _ _ fs_systemd)|exact (@show_spec _ _ _ _ _ fs_systemd)].
Defined.

#[local] Instance agent_sqlite : Sqlite FS := {| sqlite_Open _ := mret tt; goose_Up := mret tt; sqlite_Close := mret tt |}.

#[local] Instance no_variables : EnvironmentVariables := {| Getenv _ := EmptyString |}.

#[local] Instance laptop : AgentSystem := {|
  token_file _ path := if bool_decide (path = "/run/token") then Ok demo_token else Err os_ErrNotExist;
  os_Hostname _ := Ok "laptop-1"; os_Executable _ := Ok "/usr/local/bin/cadestrod" |}.

(** systemd runs, nothing else is there. *)
Definition laptop_files : FS :=
  {| Host_Entries := {[ components "/run/systemd/system/x" := 0%N ]}; Host_Contents := {[ 0%N := "" ]}; Host_Rest := None |}.

Definition enroll_args : list string :=
  ["-server=https://fleet.example.org"; "-token-file"; "/run/token"; "--pin"; Enroll_CAPin fleet_request].

(** A process with its arguments, as root. *)
Definition process (link : nat -> Link) (argv : list string) (s : FS * (DataDirs * Database)) (n : nat) :=
  main demo_service fleet_ca "1.0" link (always false) (always false) background argv 0 demo_env (mkWorld s n).

Definition fresh_laptop : FS * (DataDirs * Database) := (laptop_files, (∅, demo_tokens)).

(** Not enrolled, the agent exits; an answer is lost; then it enrolls, installs its unit and
    runs with the credentials of its enrollment. *)
Definition life : list (result Process) :=
  let run link argv sn := let (r, w) := process link argv (w_db sn) (w_step sn) in (r, w) in
  let (a, w) := run (always Answered) [] (mkWorld fresh_laptop 100) in
  let (b, w) := run (always AnswerLost) ("enroll" :: enroll_args) w in
  let (c, w) := run (always Answered) ("enroll" :: enroll_args) w in
  let (d, w) := run (always Answered) ["install-unit"] w in
  let (e, w) := run (always Answered) [] w in
  [a; b; c; d; e].

Definition outcome_of (r : result Process) : option (Z + string) :=
  match r with
  | Ok (Exit code) => Some (inl code)
  | Ok (AgentRuns l) => Some (inr (Creds_DeviceID (loop_creds l)))
  | Err _ => None
  end.

Example a_life : outcome_of <$> life = [Some (inl 1); Some (inl 1); Some (inl 0); Some (inl 0); Some (inr "01JULID115")].
Proof. by vm_compute. Qed.

Lemma probe_reads f l :
  triple (fun d : FS => on_disk d = f /\ loaded d = l) Available (fun _ d => on_disk d = f /\ loaded d = l) (fun _ _ => False).
Proof.
  unfold Available. apply triple_at. intros d0 Hd0. apply triple_bind with (R := fun _ d => d = d0); [by apply triple_ret|].
  intros [p|]; [|apply triple_ret; by intros d ->].
  apply triple_bind with (R := fun _ d => d = d0); [|intros st; apply triple_ret; by intros d ->].
  apply triple_attempt with (Q0 := fun _ d => d = d0); [|done]. by apply keeping_reads.
Qed.

