(* ===== verification/ClientStream.v ===== *)
(** * The agent's connection as a concurrent program ([contract/client.go])

    [Client.Run] owns one stream: it sends the greeting, receives every message and
    hands the answers to the goroutines that wait for them; a second goroutine sends
    heartbeats, and any number of them call [SendActionResult] and
    [PullDesiredPolicy].  The state is the struct [Client] with the channels it made,
    the position of every goroutine, and what crossed the wire; [step] is one step of
    one goroutine, of the network or of a caller.  A goroutine that waits for a mutex, a
    channel or the network is [Blocked]; a send on a closed channel and a second close
    are [Panics]. *)

From S2P Require Import Prelude Hash Engine Proto Schema Queries Service Actions Assignments.
From S2P Require Import AgentStream.
From S2P Require Import Exec Delivery Sync.

Open Scope Z_scope.

(** ** Data *)

(** [make(chan *ServerMessage, 1)]. *)
Record Channel := { Buffer : option ServerMessage; Closed : bool }.

(** A goroutine: the one of [Run], the one of [sendHeartbeats], the function [Run] gave to
    [context.AfterFunc], and the caller whose request carries an id. *)
Inductive Goroutine := Runner | Heart | Transport | Caller (id : string).

#[export] Instance Goroutine_eq_dec : EqDecision Goroutine.
Proof. solve_decision. Defined.

(** The position of a goroutine inside [send]: the validation, the read of the stream under
    [mu], the wait for [sendMu], the check of the context with [sendMu] held, the call of
    [stream.Send]. *)
Inductive Send :=
| Validating
| Reading
| Acquiring (stream : nat)
| Checking (stream : nat)
| Transmitting (stream : nat).

(** What a caller asked for. *)
Inductive Request :=
| ResultRequest (result : option ActionResult)
| PolicyRequest.

(** What became of a request: an error before or instead of an answer, or the receive from the
    channel, [None] when the channel was closed. *)
Inductive Answer :=
| Failed (err : error)
| Received (reply : option ServerMessage).

Inductive CallPhase :=
| Sending (p : Send)
| Awaiting
| Leaving (answer : Answer)
| Returned (answer : Answer).

Record Call := {
  Call_Request : Request;
  Call_Pending : nat;
  Call_Cancelled : bool;
  Call_Phase : CallPhase;
}.

(** The position of [Run] once it has its stream; from [Returning] on, the deferred function
    with the error that [Run] returns. *)
Inductive RunPhase :=
| Greeting (hello : AgentMessage) (p : Send)
| Receiving
| Dispatching (message : ServerMessage)
| Delivering (pending : nat) (message : ServerMessage)
| Returning (err : option error)
| AwaitTransport (err : option error)
| AwaitHeartbeats (err : option error)
| CloseStream (err : option error)
| LockPending (err : option error)
| ClosePending (err : option error)
| ClearStream (err : option error).

Inductive RunState :=
| Stopped (err : option error)
| Running (own : nat) (p : RunPhase).

(** [heartbeatDone] is nil, or the goroutine waits for its ticker, sends, or is over. *)
Inductive HeartPhase :=
| NoHeartbeats
| Ticking
| Beating (heartbeat : AgentMessage) (p : Send)
| Finished.

(** The fields of [Client], the channels made so far (a channel is its index), the goroutines, the
    contexts of [Run], the streams opened and those closed, the channel [readiness], and the messages
    handed to a stream or received from one. *)
Record Client := {
  stream : option nat;
  mu : bool;
  sendMu : option Goroutine;
  pending : gmap string nat;
  pendingMu : bool;
  channels : list Channel;
  callers : gmap string Call;
  runner : RunState;
  heart : HeartPhase;
  ctx_done : bool;
  session_done : bool;
  opened : nat;
  closed_streams : gset nat;
  readiness : bool;
  wire : list (nat * AgentMessage);
  inbox : list ServerMessage;
}.

Definition set_runner r s := {| stream := stream s; mu := mu s; sendMu := sendMu s;
  pending := pending s; pendingMu := pendingMu s; channels := channels s; callers := callers s;
  runner := r; heart := heart s; ctx_done := ctx_done s; session_done := session_done s;
  opened := opened s; closed_streams := closed_streams s; readiness := readiness s;
  wire := wire s; inbox := inbox s |}.
Definition set_heart h s := {| stream := stream s; mu := mu s; sendMu := sendMu s;
  pending := pending s; pendingMu := pendingMu s; channels := channels s; callers := callers s;
  runner := runner s; heart := h; ctx_done := ctx_done s; session_done := session_done s;
  opened := opened s; closed_streams := closed_streams s; readiness := readiness s;
  wire := wire s; inbox := inbox s |}.
Definition set_calls p c k s := {| stream := stream s; mu := mu s; sendMu := sendMu s;
  pending := p; pendingMu := pendingMu s; channels := c; callers := k;
  runner := runner s; heart := heart s; ctx_done := ctx_done s; session_done := session_done s;
  opened := opened s; closed_streams := closed_streams s; readiness := readiness s;
  wire := wire s; inbox := inbox s |}.
Definition set_locks st m pm s := {| stream := st; mu := m; sendMu := sendMu s;
  pending := pending s; pendingMu := pm; channels := channels s; callers := callers s;
  runner := runner s; heart := heart s; ctx_done := ctx_done s; session_done := session_done s;
  opened := opened s; closed_streams := closed_streams s; readiness := readiness s;
  wire := wire s; inbox := inbox s |}.
Definition set_session c d o cl s := {| stream := stream s; mu := mu s; sendMu := sendMu s;
  pending := pending s; pendingMu := pendingMu s; channels := channels s; callers := callers s;
  runner := runner s; heart := heart s; ctx_done := c; session_done := d;
  opened := o; closed_streams := cl; readiness := readiness s;
  wire := wire s; inbox := inbox s |}.
Definition set_sendMu g w s := {| stream := stream s; mu := mu s; sendMu := g;
  pending := pending s; pendingMu := pendingMu s; channels := channels s; callers := callers s;
  runner := runner s; heart := heart s; ctx_done := ctx_done s; session_done := session_done s;
  opened := opened s; closed_streams := closed_streams s; readiness := readiness s;
  wire := w; inbox := inbox s |}.
Definition set_inbox r i s := {| stream := stream s; mu := mu s; sendMu := sendMu s;
  pending := pending s; pendingMu := pendingMu s; channels := channels s; callers := callers s;
  runner := runner s; heart := heart s; ctx_done := ctx_done s; session_done := session_done s;
  opened := opened s; closed_streams := closed_streams s; readiness := r;
  wire := wire s; inbox := i |}.

(** [NewClient]. *)
Definition NewClient : Client := {| stream := None; mu := false; sendMu := None; pending := ∅;
  pendingMu := false; channels := []; callers := ∅; runner := Stopped None; heart := NoHeartbeats;
  ctx_done := false; session_done := false; opened := 0%nat; closed_streams := ∅;
  readiness := false; wire := []; inbox := [] |}.

(** What a goroutine's step comes to. *)
Inductive Progress :=
| Blocked
| Panics
| Steps (s : Client).

(** The steps: a goroutine goes on ([Go]) or takes the branch of its [select] on the end of its
    context ([Done]), and [closeStream] closes the channel of one request, in the order of the map;
    the network takes a message from [stream.Send] or refuses it, and [stream.Receive] returns a
    message or an error; the ticker ticks, a caller calls or is cancelled, and [Run] is called (with
    the id generated for its greeting, if one was) or cancelled. *)
Inductive Label :=
| Go (g : Goroutine)
| Done (g : Goroutine)
| CloseOne (id : string)
| Transmitted (g : Goroutine)
| SendFails (g : Goroutine) (err : error)
| ReceiveReturns (message : ServerMessage)
| ReceiveFails (err : error)
| Tick (id : option string)
| StartCall (id : string) (request : Request)
| CancelCall (id : string)
| StartRun (id : option string)
| CancelRun.

(** ** The steps *)

Definition EOF : error := ErrVar "EOF".

Definition is_live (h : HeartPhase) : bool :=
  match h with Ticking | Beating _ _ => true | _ => false end.

(** The frame that carries a request under an id. *)
Definition request_message (id : string) (r : Request) : AgentMessage :=
  {| AgentMessage_Id := Some id;
     AgentMessage_Payload := match r with
                             | ResultRequest result => AgentMessage_ActionResult result
                             | PolicyRequest => AgentMessage_DesiredPolicyRequest
                             end |}.

Definition set_phase (p : CallPhase) (c : Call) : Call :=
  {| Call_Request := Call_Request c; Call_Pending := Call_Pending c;
     Call_Cancelled := Call_Cancelled c; Call_Phase := p |}.

Definition set_callers k s : Client := set_calls (pending s) (channels s) k s.
Definition set_pending p s : Client := set_calls p (channels s) (callers s) s.

Section steps.
Context (validateAgentMessage : AgentMessage -> option error).
Context (validateServerMessage : ServerMessage -> option error).
Context (deviceID hostname agentVersion : string).

(** *** Sending *)

(** The [send] that a goroutine is in: whether its context is done, the message and the position. *)
Definition sending (g : Goroutine) (s : Client) : option (bool * AgentMessage * Send) :=
  match g with
  | Runner =>
      match runner s with
      | Running _ (Greeting hello p) => Some (session_done s, hello, p)
      | _ => None
      end
  | Heart =>
      match heart s with
      | Beating heartbeat p => Some (session_done s, heartbeat, p)
      | _ => None
      end
  | Transport => None
  | Caller id =>
      c ← callers s !! id;
      match Call_Phase c with
      | Sending p => Some (Call_Cancelled c, request_message id (Call_Request c), p)
      | _ => None
      end
  end.

(** What the goroutine does with the outcome: it is still in [send], or [send] returned. *)
Definition sent (g : Goroutine) (r : Send + option error) (s : Client) : Client :=
  match g with
  | Runner =>
      match runner s with
      | Running own (Greeting hello _) =>
          set_runner (Running own match r with
            | inl p => Greeting hello p
            | inr None => Receiving
            | inr (Some err) => Returning (Some (ErrWrap "send hello" err))
            end) s
      | _ => s
      end
  | Heart =>
      match heart s with
      | Beating heartbeat _ =>
          set_heart match r with
                    | inl p => Beating heartbeat p
                    | inr None => Ticking
                    | inr (Some _) => Finished
                    end s
      | _ => s
      end
  | Transport => s
  | Caller id =>
      match callers s !! id with
      | Some c =>
          set_callers (<[id := set_phase match r with
                                         | inl p => Sending p
                                         | inr None => Awaiting
                                         | inr (Some err) => Leaving (Failed err)
                                         end c]> (callers s)) s
      | None => s
      end
  end.

(** [send] up to the call of [stream.Send]: the mutex [sendMu] afterwards and the outcome, or
    nothing while it waits. *)
Definition send (g : Goroutine) (done : bool) (message : AgentMessage) (p : Send) (s : Client)
    : option (option Goroutine * (Send + option error)) :=
  match p with
  | Validating =>
      match validateAgentMessage message with
      | Some err => Some (sendMu s, inr (Some (ErrWrap "validate agent message" err)))
      | None => Some (sendMu s, inl Reading)
      end
  | Reading =>
      if mu s then None
      else match stream s with
      | None => Some (sendMu s, inr (Some (ErrNew "agent stream is not connected")))
      | Some stream => Some (sendMu s, inl (Acquiring stream))
      end
  | Acquiring stream =>
      match sendMu s with
      | Some _ => None
      | None => Some (Some g, inl (Checking stream))
      end
  | Checking stream =>
      if done then Some (None, inr (Some Canceled)) else Some (sendMu s, inl (Transmitting stream))
  | Transmitting _ => None
  end.

Definition go_send (g : Goroutine) (done : bool) (message : AgentMessage) (p : Send) (s : Client)
    : Progress :=
  match send g done message p s with
  | Some (holder, r) => Steps (sent g r (set_sendMu holder (wire s) s))
  | None => Blocked
  end.

(** [stream.Send] returns: it hands the message to an open stream, or fails. *)
Definition transmit (g : Goroutine) (err : option error) (s : Client) : Progress :=
  match sending g s with
  | Some (_, message, Transmitting stream) =>
      match err with
      | None =>
          if bool_decide (stream ∈ closed_streams s) then Blocked
          else Steps (sent g (inr None) (set_sendMu None (wire s ++ [(stream, message)]) s))
      | Some err =>
          Steps (sent g (inr (Some (ErrWrap "send agent message" err))) (set_sendMu None (wire s) s))
      end
  | _ => Blocked
  end.

(** *** [Run] *)

Definition start_run (id : option string) (s : Client) : Progress :=
  if mu s then Blocked
  else match stream s with
  | Some _ => Steps s
  | None =>
      let own := opened s in
      Steps (set_runner (Running own match id with
          | None => Returning (Some (ErrNew "generate hello id"))
          | Some id => Greeting {| AgentMessage_Id := Some id; AgentMessage_Payload :=
              AgentMessage_Hello {| Hello_DeviceId := Some deviceID; Hello_Hostname := hostname;
                                    Hello_AgentVersion := agentVersion |} |} Validating
          end)
        (set_heart NoHeartbeats
          (set_locks (Some own) (mu s) (pendingMu s)
            (set_session false false (S own) (closed_streams s) s))))
  end.

(** [stream.Receive] returned a message. *)
Definition receive (message : ServerMessage) (s : Client) : Progress :=
  match runner s with
  | Running own Receiving =>
      Steps (set_inbox (readiness s) (inbox s ++ [message])
        (set_runner (Running own match validateServerMessage message with
                                 | Some err => Returning (Some (ErrWrap "validate server message" err))
                                 | None => Dispatching message
                                 end) s))
  | _ => Blocked
  end.

Definition receive_error (err : error) (s : Client) : Progress :=
  match runner s with
  | Running own Receiving =>
      Steps (set_runner (Running own (Returning
        (if errors_is EOF err || errors_is Canceled err
         then if ctx_done s then Some Canceled else None
         else Some (ErrWrap "receive agent stream" err)))) s)
  | _ => Blocked
  end.

(** The [switch] on a message that answers no request. *)
Definition uncorrelated (own : nat) (message : ServerMessage) (s : Client) : Client :=
  match ServerMessage_Payload message with
  | ServerMessage_Welcome interval =>
      let s := set_inbox true (inbox s) s in
      match heart s with
      | NoHeartbeats =>
          if interval <=? 0
          then set_runner (Running own (Returning
                 (Some (ErrNew "welcome heartbeat interval must be positive")))) s
          else set_runner (Running own Receiving) (set_heart Ticking s)
      | _ => set_runner (Running own Receiving) s
      end
  | _ => set_runner (Running own (Returning
           (Some (ErrNew "unexpected uncorrelated server message")))) s
  end.

(** [deliverPending] up to the send on the channel, and the [switch] when no request is pending. *)
Definition deliverPending (own : nat) (message : ServerMessage) (s : Client) : Progress :=
  if pendingMu s then Blocked
  else
    let id := GetValue (ServerMessage_Id message) in
    match pending s !! id with
    | Some ch => Steps (set_runner (Running own (Delivering ch message)) (set_pending (delete id (pending s)) s))
    | None => Steps (uncorrelated own message s)
    end.

(** [pending <- message]. *)
Definition push (own ch : nat) (message : ServerMessage) (s : Client) : Progress :=
  match channels s !! ch with
  | Some {| Closed := true |} => Panics
  | Some {| Buffer := None |} =>
      Steps (set_runner (Running own Receiving)
        (set_calls (pending s) (<[ch := {| Buffer := Some message; Closed := false |}]> (channels s))
           (callers s) s))
  | _ => Blocked
  end.

(** [closeStream] closes one channel. *)
Definition close_one (id : string) (s : Client) : Progress :=
  match runner s, pending s !! id with
  | Running _ (ClosePending _), Some ch =>
      match channels s !! ch with
      | Some {| Closed := true |} => Panics
      | Some {| Buffer := b |} =>
          Steps (set_calls (delete id (pending s)) (<[ch := {| Buffer := b; Closed := true |}]> (channels s))
                   (callers s) s)
      | None => Blocked
      end
  | _, _ => Blocked
  end.

(** The steps of [Run]'s goroutine that wait for nothing but itself and mutexes. *)
Definition go_run (s : Client) : Progress :=
  match runner s with
  | Running own (Dispatching message) => deliverPending own message s
  | Running own (Delivering ch message) => push own ch message s
  | Running own (Returning err) =>
      Steps (set_runner (Running own (AwaitTransport err))
               (set_session (ctx_done s) true (opened s) (closed_streams s) s))
  | Running own (AwaitTransport err) =>
      if bool_decide (own ∈ closed_streams s) then Steps (set_runner (Running own (AwaitHeartbeats err)) s)
      else Blocked
  | Running own (AwaitHeartbeats err) =>
      if is_live (heart s) then Blocked else Steps (set_runner (Running own (CloseStream err)) s)
  | Running own (CloseStream err) =>
      if mu s then Blocked
      else if negb (bool_decide (stream s = Some own)) then Steps (set_runner (Stopped err) s)
      else Steps (set_runner (Running own (LockPending err)) (set_locks (stream s) true (pendingMu s) s))
  | Running own (LockPending err) =>
      if pendingMu s then Blocked
      else Steps (set_runner (Running own (ClosePending err)) (set_locks (stream s) (mu s) true s))
  | Running own (ClosePending err) =>
      if bool_decide (pending s = ∅)
      then Steps (set_runner (Running own (ClearStream err)) (set_locks (stream s) (mu s) false s))
      else Blocked
  | Running own (ClearStream err) =>
      Steps (set_runner (Stopped err) (set_locks None false (pendingMu s) s))
  | _ => Blocked
  end.

(** The function given to [context.AfterFunc]. *)
Definition go_transport (s : Client) : Progress :=
  match runner s with
  | Running own _ =>
      if session_done s && negb (bool_decide (own ∈ closed_streams s))
      then Steps (set_session (ctx_done s) (session_done s) (opened s) ({[own]} ∪ closed_streams s) s)
      else Blocked
  | _ => Blocked
  end.

(** *** Callers and heartbeats *)

(** [registerPending], for an id that no call has had. *)
Definition start_call (id : string) (r : Request) (s : Client) : Progress :=
  match callers s !! id with
  | Some _ => Blocked
  | None =>
      if pendingMu s then Blocked
      else
        let ch := length (channels s) in
        Steps (set_calls (<[id := ch]> (pending s))
          (channels s ++ [{| Buffer := None; Closed := false |}])
          (<[id := {| Call_Request := r; Call_Pending := ch; Call_Cancelled := false;
                      Call_Phase := Sending Validating |}]> (callers s)) s)
  end.

(** The receive from the channel, and the deferred [unregisterPending]. *)
Definition go_call (id : string) (s : Client) : Progress :=
  match callers s !! id with
  | None => Blocked
  | Some c =>
      match Call_Phase c with
      | Awaiting =>
          match channels s !! Call_Pending c with
          | Some {| Buffer := Some m; Closed := closed |} =>
              Steps (set_calls (pending s)
                (<[Call_Pending c := {| Buffer := None; Closed := closed |}]> (channels s))
                (<[id := set_phase (Leaving (Received (Some m))) c]> (callers s)) s)
          | Some {| Closed := true |} =>
              Steps (set_callers (<[id := set_phase (Leaving (Received None)) c]> (callers s)) s)
          | _ => Blocked
          end
      | Leaving answer =>
          if pendingMu s then Blocked
          else Steps (set_calls (delete id (pending s)) (channels s)
                        (<[id := set_phase (Returned answer) c]> (callers s)) s)
      | _ => Blocked
      end
  end.

Definition cancel_call (id : string) (s : Client) : Progress :=
  match callers s !! id with
  | None => Blocked
  | Some c =>
      Steps (set_callers (<[id := {| Call_Request := Call_Request c; Call_Pending := Call_Pending c;
                                     Call_Cancelled := true; Call_Phase := Call_Phase c |}]> (callers s)) s)
  end.

(** [<-ctx.Done()] in the [select] of a call and of [sendHeartbeats]. *)
Definition done (g : Goroutine) (s : Client) : Progress :=
  match g with
  | Heart =>
      match heart s with
      | Ticking => if session_done s then Steps (set_heart Finished s) else Blocked
      | _ => Blocked
      end
  | Caller id =>
      match callers s !! id with
      | Some c =>
          match Call_Phase c with
          | Awaiting =>
              if Call_Cancelled c
              then Steps (set_callers (<[id := set_phase (Leaving (Failed Canceled)) c]> (callers s)) s)
              else Blocked
          | _ => Blocked
          end
      | None => Blocked
      end
  | _ => Blocked
  end.

Definition tick (id : option string) (s : Client) : Progress :=
  match heart s with
  | Ticking =>
      Steps (set_heart match id with
        | Some id => Beating {| AgentMessage_Id := Some id;
                                AgentMessage_Payload := AgentMessage_Heartbeat |} Validating
        | None => Finished
        end s)
  | _ => Blocked
  end.

Definition cancel_run (s : Client) : Progress :=
  match runner s with
  | Running _ _ => Steps (set_session true true (opened s) (closed_streams s) s)
  | Stopped _ => Blocked
  end.

Definition go (g : Goroutine) (s : Client) : Progress :=
  match sending g s with
  | Some (done, message, p) => go_send g done message p s
  | None =>
      match g with
      | Runner => go_run s
      | Transport => go_transport s
      | Caller id => go_call id s
      | Heart => Blocked
      end
  end.

Definition step (l : Label) (s : Client) : Progress :=
  match l with
  | Go g => go g s
  | Done g => done g s
  | CloseOne id => close_one id s
  | Transmitted g => transmit g None s
  | SendFails g err => transmit g (Some err) s
  | ReceiveReturns message => receive message s
  | ReceiveFails err => receive_error err s
  | Tick id => tick id s
  | StartCall id r => start_call id r s
  | CancelCall id => cancel_call id s
  | StartRun id => start_run id s
  | CancelRun => cancel_run s
  end.

(** The network's errors are its own: none of them is or wraps [ErrResultRejected]. *)
Definition foreign (l : Label) : Prop :=
  match l with SendFails _ err => errors_is ErrResultRejected err = false | _ => True end.

(** The runs of a fresh client. *)
Inductive reachable : Client -> Prop :=
| reachable_new : reachable NewClient
| reachable_step l s s' : reachable s -> foreign l -> step l s = Steps s' -> reachable s'.

Fixpoint run (ls : list Label) (s : Client) : Progress :=
  match ls with
  | [] => Steps s
  | l :: ls => match step l s with Steps s' => run ls s' | p => p end
  end.

(** *** What the callers return *)

(** [SendActionResult]: the error, if any. *)
Definition result_answer (a : Answer) : option error :=
  match a with Failed err => Some err | Received reply => ack_error reply end.

(** [PullDesiredPolicy]. *)
Definition desired_policy (a : Answer) : result DesiredPolicy :=
  match a with Failed err => Err err | Received reply => policy_answer reply end.
End steps.
