(* ===== verification/ClientStreamFacts.v ===== *)
(** * No call is lost, none is answered wrongly ([contract/client.go])

    The invariants of [ClientStream]'s steps, kept by every step of every goroutine:
    [run_inv] (the mutexes and streams follow the position of [Run]), [send_inv] (whoever
    holds [sendMu] is in [send]) and [call_inv] (a pending request has an open, empty
    channel of its own, and only [Run] takes it out).  From them: no step panics, an answer
    is the one to the request, and once [Run]'s session is over every schedule
    ends with [Run] and every call returned. *)

From S2P Require Import Prelude Hash Engine Proto Schema Queries Service Actions Assignments.
From S2P Require Import AgentStream.
From S2P Require Import Exec Delivery Sync ClientStream.

Open Scope Z_scope.

(** ** Positions *)

(** [Run] holds [mu], or [pendingMu]. *)
Definition holds_mu (p : RunPhase) : bool :=
  match p with LockPending _ | ClosePending _ | ClearStream _ => true | _ => false end.
Definition holds_pendingMu (p : RunPhase) : bool :=
  match p with ClosePending _ => true | _ => false end.

(** [Run] has cancelled its session, has seen the transport closed, the heartbeats over. *)
Definition ending (p : RunPhase) : bool :=
  match p with
  | AwaitTransport _ | AwaitHeartbeats _ | CloseStream _ | LockPending _ | ClosePending _
  | ClearStream _ => true
  | _ => false
  end.
Definition past_transport (p : RunPhase) : bool :=
  match p with
  | AwaitHeartbeats _ | CloseStream _ | LockPending _ | ClosePending _ | ClearStream _ => true
  | _ => false
  end.
Definition past_heartbeats (p : RunPhase) : bool :=
  match p with CloseStream _ | LockPending _ | ClosePending _ | ClearStream _ => true | _ => false end.

(** The stream a position of [send] has read, and whether it holds [sendMu]. *)
Definition at_stream (p : Send) : option nat :=
  match p with Acquiring n | Checking n | Transmitting n => Some n | _ => None end.
Definition holds_sendMu (p : Send) : bool :=
  match p with Checking _ | Transmitting _ => true | _ => false end.

(** The call may still wait for its answer; it has seen the client connected. *)
Definition waiting (p : CallPhase) : bool :=
  match p with Sending _ | Awaiting => true | _ => false end.
Definition past_reading (p : CallPhase) : bool :=
  match p with Sending p => bool_decide (is_Some (at_stream p)) | Awaiting => true | _ => false end.

Definition returned (p : CallPhase) : bool := match p with Returned _ => true | _ => false end.

(** What the call received instead of an error. *)
Definition received_answer (p : CallPhase) : option (option ServerMessage) :=
  match p with Leaving (Received r) | Returned (Received r) => Some r | _ => None end.

(** The error a call ends with instead of an answer. *)
Definition failure (p : CallPhase) : option error :=
  match p with Leaving (Failed err) | Returned (Failed err) => Some err | _ => None end.

Definition open_channel : Channel := {| Buffer := None; Closed := false |}.

(** Splits a step into its cases. *)
Ltac split_step H :=
  repeat (simplify_eq/=; match type of H with
  | context [match ?x with _ => _ end] => destruct x eqn:?
  | context [if ?x then _ else _] => destruct x eqn:?
  end); simplify_eq/=.

Section facts.
Context (validateAgentMessage : AgentMessage -> option error).
Context (validateServerMessage : ServerMessage -> option error).
Context (deviceID hostname agentVersion : string).
Hypothesis validator_foreign : forall m err,
  validateAgentMessage m = Some err -> errors_is ErrResultRejected err = false.

Abbreviation step := (step validateAgentMessage validateServerMessage deviceID hostname agentVersion).
Abbreviation reachable :=
  (reachable validateAgentMessage validateServerMessage deviceID hostname agentVersion).

(** ** The mutexes and the streams *)

Definition run_inv (s : Client) : Prop :=
  (forall k, k ∈ closed_streams s -> (k < opened s)%nat) /\
  match runner s with
  | Stopped _ =>
      stream s = None /\ mu s = false /\ pendingMu s = false /\ is_live (heart s) = false /\
      (forall k, (k < opened s)%nat -> k ∈ closed_streams s)
  | Running own p =>
      stream s = Some own /\ opened s = S own /\ mu s = holds_mu p /\ pendingMu s = holds_pendingMu p /\
      (forall k, (k < own)%nat -> k ∈ closed_streams s) /\
      (own ∈ closed_streams s -> session_done s = true) /\
      (ending p = true -> session_done s = true) /\
      (past_transport p = true -> own ∈ closed_streams s) /\
      (past_heartbeats p = true -> is_live (heart s) = false)
  end.

Lemma sent_run_inv g r s c m p :
  sending g s = Some (c, m, p) -> run_inv s -> run_inv (sent g r s).
Proof.
  unfold run_inv. intros Hg Hinv. destruct g; simpl in *; try done.
  - destruct (runner s) as [|own q] eqn:Hr; [done|]. destruct q; try done. simpl in *.
    destruct r as [|[|]]; destruct_and!; simpl; split_and!; done.
  - destruct (heart s) eqn:Hh; try done. simpl in *.
    destruct (runner s) as [|own q] eqn:Hr; simpl in *; destruct_and!; [done|].
    split_and!; try done. intros Hp. by specialize (H9 Hp).
  - destruct (callers s !! id); [|done]. exact Hinv.
Qed.

(** The [switch] leaves the calls alone and goes back to receiving, or returns. *)
Lemma uncorrelated_eq own m s :
  exists p h r, uncorrelated own m s = set_runner (Running own p) (set_heart h (set_inbox r (inbox s) s)) /\
    (p = Receiving \/ exists err, p = Returning err) /\
    (h = heart s \/ heart s = NoHeartbeats /\ h = Ticking).
Proof.
  assert (forall err, exists p h r, set_runner (Running own (Returning err)) s =
    set_runner (Running own p) (set_heart h (set_inbox r (inbox s) s)) /\
    (p = Receiving \/ exists err, p = Returning err) /\
    (h = heart s \/ heart s = NoHeartbeats /\ h = Ticking)) as Hret.
  { intros err. exists (Returning err), (heart s), (readiness s). split; [by destruct s|]. eauto. }
  unfold uncorrelated. destruct (ServerMessage_Payload m) as [interval| |]; [|apply Hret..].
  destruct (heart s) as [| | |] eqn:Hh; [destruct (interval <=? 0)|..].
  1: exists (Returning (Some (ErrNew "welcome heartbeat interval must be positive"))), NoHeartbeats, true.
  2: exists Receiving, Ticking, true.
  3-5: exists Receiving, (heart s), true.
  all: unfold set_runner, set_heart, set_inbox; simpl; rewrite ?Hh; split_and!; eauto.
Qed.

Lemma go_run_inv s s' : run_inv s -> go_run s = Steps s' -> run_inv s'.
Proof.
  unfold run_inv, go_run, deliverPending, push. intros [Hc Hinv] Hs.
  destruct (runner s) as [|own p] eqn:Hr; [done|]. destruct_and! Hinv.
  destruct p; split_step Hs; rewrite ?Hr;
    try destruct (uncorrelated_eq own message s) as (p & h & r & -> & [-> | [err ->]] & _);
    simpl; split_and!; auto; try done; try (case_bool_decide; done).
  all: intros k Hk; destruct (decide (k = own)) as [-> |]; [auto|]; enough (k < own)%nat by auto; lia.
Qed.

Lemma run_inv_step l s s' : run_inv s -> step l s = Steps s' -> run_inv s'.
Proof.
  intros Hinv Hs.
  assert (forall g d m p r w h, sending g s = Some (d, m, p) -> run_inv (sent g r (set_sendMu h w s))) as Hsend.
  { intros g d m p r w h Hg. apply (sent_run_inv _ _ _ d m p); [by destruct g|done]. }
  destruct l; simpl in Hs.
  - unfold go, go_send in Hs. destruct (sending g s) as [[[d m] p]|] eqn:Hg.
    { destruct (send _ _ _ _ _ _) as [[holder r]|]; [|done]. injection Hs as <-. by eapply Hsend. }
    clear Hsend. destruct g; [by eapply go_run_inv|done| |].
    + unfold go_transport, run_inv in *. destruct Hinv as [Hc Hinv].
      destruct (runner s) as [|own p] eqn:Hr; [done|]. destruct_and! Hinv.
      destruct (session_done s) eqn:Hd; [|done]. split_step Hs. rewrite Hr. split_and!; auto; simpl.
      * intros k [->%elem_of_singleton|]%elem_of_union; [lia|auto].
      * intros k Hk. apply elem_of_union; auto.
      * intros Hp. apply elem_of_union; auto.
    + unfold go_call in Hs. split_step Hs; exact Hinv.
  - unfold done, run_inv in *. split_step Hs; try exact Hinv.
    destruct (runner s); destruct_and! Hinv; split_and!; done.
  - unfold close_one in Hs. split_step Hs; exact Hinv.
  - unfold transmit in Hs. split_step Hs. by eapply Hsend.
  - unfold transmit in Hs. split_step Hs. by eapply Hsend.
  - unfold receive, run_inv in *. destruct (runner s) as [|own []]; try done. simplify_eq/=.
    destruct_and! Hinv. destruct (validateServerMessage message); split_and!; auto.
  - unfold receive_error, run_inv in *. destruct (runner s) as [|own []]; try done. simplify_eq/=.
    destruct_and! Hinv. split_and!; auto.
  - unfold tick, run_inv in *. destruct (heart s) eqn:Hh; try done. simplify_eq/=.
    destruct (runner s) as [|own p]; destruct_and! Hinv; [done|]. simpl in *.
    split_and!; auto. intros Hp. exfalso. auto using diff_true_false.
  - unfold start_call in Hs. split_step Hs; exact Hinv.
  - unfold cancel_call in Hs. split_step Hs; exact Hinv.
  - unfold start_run in Hs. destruct (mu s) eqn:Hmu; [done|].
    destruct (stream s) eqn:Hst; injection Hs as <-; [done|]. unfold run_inv in *.
    destruct Hinv as [Hc Hinv]. destruct (runner s) as [|own p]; destruct_and! Hinv; [|congruence].
    assert (opened s ∉ closed_streams s) by (intros Hk%Hc; lia).
    destruct id; simpl; split_and!; try done; auto; intros k Hk%Hc; lia.
  - unfold cancel_run, run_inv in *. split_step Hs; rewrite ?Heqr. destruct_and! Hinv; split_and!; auto.
Qed.

(** ** The mutex of the senders *)

Definition position (g : Goroutine) (s : Client) : option Send := snd <$> sending g s.

Record send_inv (s : Client) : Prop := {
  si_holder : forall g, sendMu s = Some g <-> exists p, position g s = Some p /\ holds_sendMu p = true;
  si_stream : forall g p k, position g s = Some p -> at_stream p = Some k -> (k < opened s)%nat;
}.

Lemma position_sent g g' r h w s p :
  position g s = Some p ->
  position g' (sent g r (set_sendMu h w s)) =
    if decide (g' = g) then match r with inl p' => Some p' | inr _ => None end else position g' s.
Proof.
  unfold position. intros Hg. destruct g; simpl in Hg.
  - destruct (runner s) as [|own []] eqn:Hr; try done.
    destruct g'; simpl; rewrite ?Hr; try done. by destruct r as [|[|]].
  - destruct (heart s) eqn:Hh; try done.
    destruct g'; simpl; rewrite ?Hh; try done. by destruct r as [|[|]].
  - done.
  - destruct (callers s !! id) as [c|] eqn:Hc; [|done]. simpl in Hg.
    destruct g' as [| | |id']; simpl; rewrite ?Hc; simpl; try done.
    case_decide as Hid; [injection Hid as ->|].
    + rewrite lookup_insert_eq. simpl. by destruct r as [|[|]].
    + rewrite lookup_insert_ne; [done|congruence].
Qed.

(** The other steps only start a [send]. *)
Definition senders_frame (s s' : Client) : Prop :=
  sendMu s' = sendMu s /\ (opened s <= opened s')%nat /\
  forall g, position g s' = position g s \/ position g s = None /\ position g s' = Some Validating.

Lemma send_inv_frame s s' : senders_frame s s' -> send_inv s -> send_inv s'.
Proof.
  intros (Hmu & Hopen & Hpos) [Hh Hs]. split.
  - intros g. rewrite Hmu, Hh. destruct (Hpos g) as [-> |[-> ->]]; [done|]. naive_solver.
  - intros g p k. destruct (Hpos g) as [-> |[_ ->]].
    + intros Hp Hk. specialize (Hs _ _ _ Hp Hk). lia.
    + intros [= <-]. done.
Qed.

(** A step of a goroutine inside [send]. *)
Lemma send_inv_sent g d m p h r w s :
  run_inv s -> send_inv s -> sending g s = Some (d, m, p) ->
  (holds_sendMu p = false -> h = sendMu s \/ sendMu s = None /\ h = Some g) ->
  (holds_sendMu p = true -> h = None \/ h = sendMu s) ->
  (forall q, r = inl q -> holds_sendMu q = bool_decide (h = Some g)) ->
  (forall e, r = inr e -> h <> Some g) ->
  (forall q k, r = inl q -> at_stream q = Some k -> at_stream p = Some k \/ stream s = Some k) ->
  send_inv (sent g r (set_sendMu h w s)).
Proof.
  intros Hrun [Hh Hs] Hg Hfree Hheld Hin Hout Hstream.
  assert (position g s = Some p) as Hp by (unfold position; by rewrite Hg).
  assert (opened (sent g r (set_sendMu h w s)) = opened s /\
    sendMu (sent g r (set_sendMu h w s)) = h) as [Ho Hm].
  { destruct g; simpl; [destruct (runner s) as [|own []]|destruct (heart s)| |destruct (callers s !! id)]; done. }
  split.
  - intros g'. rewrite Hm, (position_sent g g' r h w s p Hp). destruct (decide (g' = g)) as [Hgg|Hgg].
    + subst g'. destruct r as [q|e].
      * specialize (Hin q eq_refl). split; [intros Hq; exists q; by rewrite bool_decide_true in Hin|].
        intros (q' & [= <-] & Hq). rewrite Hq in Hin. symmetry in Hin. by apply bool_decide_eq_true in Hin.
      * split; [intros He; by apply (Hout e eq_refl) in He|naive_solver].
    + rewrite <-Hh. destruct (holds_sendMu p) eqn:Hhp.
      * assert (sendMu s = Some g) as Hsg by (apply Hh; eauto).
        rewrite Hsg. destruct (Hheld eq_refl) as [-> | ->]; naive_solver congruence.
      * destruct (Hfree eq_refl) as [-> |[-> ->]]; naive_solver congruence.
  - intros g' q k. rewrite Ho, (position_sent g g' r h w s p Hp). destruct (decide (g' = g)) as [Hgg|Hgg]; [|apply Hs].
    destruct r as [q'|e]; [|done]. intros [= <-] Hk.
    destruct (Hstream q' k eq_refl Hk) as [Hk'|Hk']; [by eapply Hs|].
    destruct Hrun as [_ Hrun]. destruct (runner s) as [|own ?]; destruct_and! Hrun; [congruence|].
    assert (k = own) by congruence. lia.
Qed.

Lemma wrapped_foreign msg err :
  errors_is ErrResultRejected err = false -> errors_is ErrResultRejected (ErrWrap msg err) = false.
Proof. done. Qed.

(** A step inside [send]: up to the call of [stream.Send], or its return. *)
Inductive send_step (s : Client) : Client -> Prop :=
| send_goes g d m p h r :
    sending g s = Some (d, m, p) -> send validateAgentMessage g d m p s = Some (h, r) ->
    send_step s (sent g r (set_sendMu h (wire s) s))
| send_succeeds g d m n :
    sending g s = Some (d, m, Transmitting n) -> n ∉ closed_streams s ->
    send_step s (sent g (inr None) (set_sendMu None (wire s ++ [(n, m)]) s))
| send_fails g d m n err :
    sending g s = Some (d, m, Transmitting n) -> errors_is ErrResultRejected err = false ->
    send_step s (sent g (inr (Some err)) (set_sendMu None (wire s) s)).

(** The steps outside [send]. *)
Definition other_step (l : Label) (s : Client) : Progress :=
  match l with
  | Go Runner => go_run s
  | Go Transport => go_transport s
  | Go (Caller id) => go_call id s
  | Go Heart | Transmitted _ | SendFails _ _ => Blocked
  | l => step l s
  end.

Lemma step_cases l s s' :
  foreign l -> step l s = Steps s' ->
  send_step s s' \/ other_step l s = Steps s' /\ (forall g, l = Go g -> sending g s = None).
Proof.
  intros Hl Hs. destruct l; simpl in Hs; try (by right); [| |].
  - unfold go, go_send in Hs. destruct (sending g s) as [[[d m] p]|] eqn:Hg.
    + left. destruct (send _ _ _ _ _ _) as [[h r]|] eqn:Hsend; [|done]. injection Hs as <-.
      by eapply send_goes.
    + right. split; [by destruct g|congruence].
  - unfold transmit in Hs. destruct (sending g s) as [[[d m] []]|] eqn:Hg; try done.
    case_bool_decide; [done|]. injection Hs as <-. left. by eapply send_succeeds.
  - unfold transmit in Hs. destruct (sending g s) as [[[d m] []]|] eqn:Hg; try done.
    injection Hs as <-. left. by eapply send_fails, wrapped_foreign.
Qed.

Lemma send_inv_send s s' : run_inv s -> send_inv s -> send_step s s' -> send_inv s'.
Proof.
  intros Hrun Hinv [g d m p h r Hg Hsend|g d m n Hg _|g d m n err Hg Herr].
  - assert (holds_sendMu p = true -> sendMu s = Some g) as Hmine.
    { intros Hp. apply (si_holder _ Hinv). exists p. unfold position. by rewrite Hg. }
    assert (holds_sendMu p = false -> sendMu s <> Some g) as Hother.
    { intros Hp Hm. apply (si_holder _ Hinv) in Hm as (q & Hq & Hh). unfold position in Hq.
      rewrite Hg in Hq. simpl in Hq. congruence. }
    eapply send_inv_sent; [done..| | | | |]; destruct p; simpl in *; split_step Hsend; intros; simplify_eq/=;
      auto; try by (right; congruence).
    all: try (rewrite bool_decide_false; auto; fail). all: try (rewrite bool_decide_true; auto; fail).
  - eapply send_inv_sent; [done..| | | | |]; intros; simplify_eq/=; auto.
  - eapply send_inv_sent; [done..| | | | |]; intros; simplify_eq/=; auto.
Qed.

Lemma position_callers s s' :
  runner s' = runner s -> heart s' = heart s ->
  (forall id, position (Caller id) s' = position (Caller id) s) -> forall g, position g s' = position g s.
Proof.
  intros Hr Hh Hc [| | |id]; unfold position; simpl; rewrite ?Hr, ?Hh; [|..|apply Hc]; [|by destruct (heart s)|done].
  by destruct (runner s) as [|own []].
Qed.

(** A call whose place in [send], if any, is kept leaves the senders alone. *)
Lemma senders_frame_call id c c' p ch s :
  callers s !! id = Some c -> (forall q, Call_Phase c <> Sending q) -> (forall q, Call_Phase c' <> Sending q) ->
  senders_frame s (set_calls p ch (<[id := c']> (callers s)) s).
Proof.
  intros Hc Hp Hp'. split_and!; [done..|]. intros g. left. revert g. apply position_callers; [done..|].
  intros id'. unfold position. simpl. destruct (decide (id' = id)) as [-> |].
  - rewrite lookup_insert_eq, Hc. simpl. destruct (Call_Phase c') eqn:?, (Call_Phase c) eqn:?; naive_solver.
  - by rewrite lookup_insert_ne.
Qed.

Lemma senders_frame_run r s h own p :
  runner s = Running own p -> (forall m q, p <> Greeting m q) ->
  match r with Running _ (Greeting _ _) => False | _ => True end ->
  (h = heart s \/ heart s = NoHeartbeats /\ h = Ticking) ->
  forall s', callers s' = callers s -> runner s' = r -> heart s' = h -> sendMu s' = sendMu s ->
    opened s' = opened s -> senders_frame s s'.
Proof.
  intros Hr Hp Hr' Hh s' Hc Hrs Hhs Hm Ho. split_and!; [done|lia|]. intros g. left.
  destruct g; unfold position; simpl; rewrite ?Hc, ?Hrs, ?Hhs; try done.
  - rewrite Hr. destruct r as [|? []], p; naive_solver.
  - destruct Hh as [-> |[-> ->]]; [by destruct (heart s)|done].
Qed.

Lemma go_run_senders s s' : go_run s = Steps s' -> sending Runner s = None -> senders_frame s s'.
Proof.
  unfold go_run, deliverPending, push. intros Hs Hg. simpl in Hg.
  destruct (runner s) as [|own p] eqn:Hr; [done|].
  destruct p; split_step Hs;
    try destruct (uncorrelated_eq own message s) as (p & h & r & -> & [-> | [err ->]] & Hh);
    (eapply senders_frame_run; [done|done| | |done..]); try done; auto.
Qed.

Lemma other_senders l s s' :
  run_inv s -> other_step l s = Steps s' -> (forall g, l = Go g -> sending g s = None) -> senders_frame s s'.
Proof.
  intros Hinv Hs Hg. destruct l as [g|g| | | |m|err| | | | |]; simpl in Hs; try done.
  - specialize (Hg g eq_refl). destruct g; [by apply go_run_senders|done| |].
    + unfold go_transport in Hs. split_step Hs. split_and!; [done..|]. intros g. left. by apply position_callers.
    + unfold go_call in Hs. destruct (callers s !! id) as [c|] eqn:Hc; [|done].
      split_step Hs; eapply senders_frame_call; try done; congruence.
  - unfold done in Hs. destruct g; try done.
    + destruct (heart s) eqn:Hh; try done. split_step Hs. split_and!; [done..|]. intros [| | |]; left;
        unfold position; simpl; rewrite ?Hh; try done.
    + destruct (callers s !! id) as [c|] eqn:Hc; [|done].
      split_step Hs; eapply senders_frame_call; try done; congruence.
  - unfold close_one in Hs. split_step Hs; split_and!; try done; intros g; left; by apply position_callers.
  - unfold receive in Hs. destruct (runner s) as [|own []] eqn:Hr; try done. simplify_eq/=.
    eapply senders_frame_run; [done| | | |done..]; try done; [|auto]. by destruct (validateServerMessage m).
  - unfold receive_error in Hs. destruct (runner s) as [|own []] eqn:Hr; try done. simplify_eq/=.
    eapply senders_frame_run; [done| | | |done..]; try done. auto.
  - unfold tick in Hs. destruct (heart s) eqn:Hh; try done. simplify_eq/=.
    split_and!; [done..|]. intros [| | |]; unfold position; simpl; rewrite ?Hh; auto. destruct id; auto.
  - unfold start_call in Hs. split_step Hs. split_and!; [done..|]. intros [| | |id']; unfold position; simpl; auto.
    destruct (decide (id' = id)) as [-> |]; [|left; by rewrite lookup_insert_ne].
    rewrite lookup_insert_eq, Heqo. auto.
  - unfold cancel_call in Hs. destruct (callers s !! id) as [c|] eqn:Hc; [|done]. simplify_eq/=.
    split_and!; [done..|]. intros g. left. revert g. apply position_callers; [done..|]. intros id'.
    unfold position. simpl. destruct (decide (id' = id)) as [-> |]; [|by rewrite lookup_insert_ne].
    rewrite lookup_insert_eq, Hc. simpl. by destruct (Call_Phase c).
  - unfold start_run in Hs. destruct (mu s); [done|]. destruct (stream s) eqn:Hst; simplify_eq/=.
    { split_and!; auto. }
    destruct Hinv as [_ Hinv]. destruct (runner s) eqn:Hr; destruct_and! Hinv; [|congruence].
    split_and!; [done|simpl; lia|]. intros [| | |]; unfold position; simpl; rewrite ?Hr; auto.
    + destruct id; auto.
    + left. by destruct (heart s).
  - unfold cancel_run in Hs. destruct (runner s) eqn:Hr; simplify_eq/=. split_and!; [done..|].
    intros g. left. destruct g; unfold position; simpl; rewrite ?Hr; try done; [by destruct p|by destruct (heart s)].
Qed.

Lemma send_inv_step l s s' : run_inv s -> send_inv s -> foreign l -> step l s = Steps s' -> send_inv s'.
Proof.
  intros Hrun Hinv Hl [Hs|[Hs Hg]]%step_cases; [| |done]; [by eapply send_inv_send|].
  eapply send_inv_frame; [by eapply other_senders|done].
Qed.

(** ** The calls *)

Definition message_id (m : ServerMessage) : string := GetValue (ServerMessage_Id m).

Definition delivering (r : RunState) : option (nat * ServerMessage) :=
  match r with Running _ (Delivering ch m) => Some (ch, m) | _ => None end.
Definition handling (r : RunState) : option ServerMessage :=
  match r with Running _ (Dispatching m) | Running _ (Delivering _ m) => Some m | _ => None end.

(** [Run] has still to close the channels of the pending requests. *)
Definition connected (r : RunState) : bool :=
  match r with Running _ (ClearStream _) | Stopped _ => false | _ => true end.

(** A valid message that was received for the request. *)
Definition answers (s : Client) (id : string) (m : ServerMessage) : Prop :=
  message_id m = id /\ m ∈ inbox s /\ validateServerMessage m = None.

Record call_ok (s : Client) (id : string) (c : Call) (k : Channel) : Prop := {
  co_channel : channels s !! Call_Pending c = Some k;
  co_pending : forall ch, pending s !! id = Some ch ->
    ch = Call_Pending c /\ returned (Call_Phase c) = false /\ k = open_channel;
  co_delivering : forall ch m, delivering (runner s) = Some (ch, m) -> message_id m = id ->
    ch = Call_Pending c /\ k = open_channel /\ pending s !! id = None;
  co_buffer : forall m, Buffer k = Some m -> answers s id m;
  co_waiting : waiting (Call_Phase c) = true ->
    pending s !! id = Some (Call_Pending c) \/
    (exists m, delivering (runner s) = Some (Call_Pending c, m) /\ message_id m = id) \/
    Buffer k <> None \/ Closed k = true;
  co_sent : Call_Phase c = Awaiting \/ is_Some (received_answer (Call_Phase c)) ->
    exists n, (n, request_message id (Call_Request c)) ∈ wire s;
  co_answer : forall m, received_answer (Call_Phase c) = Some (Some m) -> answers s id m;
  co_failed : forall err, failure (Call_Phase c) = Some err -> errors_is ErrResultRejected err = false;
  co_connected : past_reading (Call_Phase c) = true -> pending s !! id = Some (Call_Pending c) ->
    connected (runner s) = true;
}.

Definition id_ok (s : Client) (id : string) : Prop :=
  match callers s !! id with
  | Some c => exists k, call_ok s id c k
  | None => pending s !! id = None /\
      forall ch m, delivering (runner s) = Some (ch, m) -> message_id m <> id
  end.

Record call_inv (s : Client) : Prop := {
  ci_handling : forall m, handling (runner s) = Some m -> m ∈ inbox s /\ validateServerMessage m = None;
  ci_distinct : forall id1 c1 id2 c2, callers s !! id1 = Some c1 -> callers s !! id2 = Some c2 ->
    Call_Pending c1 = Call_Pending c2 -> id1 = id2;
  ci_ok : forall id, id_ok s id;
}.

(** A step that concerns one id, or none ([only] is then never the id). *)
Record concerns (only : string -> Prop) (s s' : Client) : Prop := {
  cn_inbox : inbox s ⊆ inbox s';
  cn_wire : wire s ⊆ wire s';
  cn_callers : forall id, ~ only id -> callers s' !! id = callers s !! id;
  cn_pending : forall id, ~ only id -> pending s' !! id = pending s !! id;
  cn_channels : forall id c, ~ only id -> callers s !! id = Some c ->
    channels s' !! Call_Pending c = channels s !! Call_Pending c;
  cn_delivering : forall ch m, ~ only (message_id m) ->
    delivering (runner s') = Some (ch, m) <-> delivering (runner s) = Some (ch, m);
  cn_handling : forall m, handling (runner s') = Some m ->
    handling (runner s) = Some m \/ m ∈ inbox s' /\ validateServerMessage m = None;
  cn_connected : connected (runner s) = true -> connected (runner s') = true \/ pending s = ∅;
}.

Lemma answers_mono s s' id m : inbox s ⊆ inbox s' -> answers s id m -> answers s' id m.
Proof. intros Hsub (? & ? & ?). by split_and!; [|apply Hsub|]. Qed.

Lemma id_ok_other only s s' id : concerns only s s' -> ~ only id -> id_ok s id -> id_ok s' id.
Proof.
  intros Hcn Hid. unfold id_ok. rewrite (cn_callers _ _ _ Hcn id Hid).
  destruct (callers s !! id) as [c|] eqn:Hc.
  - intros [k [Hch Hpend Hdel Hbuf Hwait Hsent Hans Hfail Hconn]]. exists k.
    pose proof (cn_pending _ _ _ Hcn id Hid) as Hp. split; rewrite ?Hp; auto.
    + by rewrite (cn_channels _ _ _ Hcn id c Hid Hc).
    + intros ch m Hm Hmid. apply (Hdel ch m); [|done]. apply (cn_delivering _ _ _ Hcn); congruence.
    + intros m Hm. eapply answers_mono; [apply (cn_inbox _ _ _ Hcn)|auto].
    + intros Hw. destruct (Hwait Hw) as [|[(m & Hm & Hmid)|]]; auto. right. left. exists m.
      split; [|done]. apply (cn_delivering _ _ _ Hcn); congruence.
    + intros Hs. destruct (Hsent Hs) as [n Hn]. exists n. by apply (cn_wire _ _ _ Hcn).
    + intros m Hm. eapply answers_mono; [apply (cn_inbox _ _ _ Hcn)|auto].
    + intros Hpast Hpid. destruct (cn_connected _ _ _ Hcn (Hconn Hpast Hpid)) as [|He]; [done|].
      rewrite He in Hpid. done.
  - intros [Hpend Hdel]. rewrite (cn_pending _ _ _ Hcn id Hid). split; [done|].
    intros ch m Hm Hmid. apply (Hdel ch m); [|done]. apply (cn_delivering _ _ _ Hcn); congruence.
Qed.

Lemma call_inv_concerns only s s' :
  (forall id, Decision (only id)) -> concerns only s s' -> call_inv s ->
  (forall id1 c1 id2 c2, callers s' !! id1 = Some c1 -> callers s' !! id2 = Some c2 ->
    Call_Pending c1 = Call_Pending c2 -> id1 = id2) ->
  (forall id, only id -> id_ok s' id) -> call_inv s'.
Proof.
  intros Hdec Hcn [Hhand Hdist Hok] Hdist' Hok'. split; [|exact Hdist'|].
  - intros m Hm. destruct (cn_handling _ _ _ Hcn m Hm) as [Hm'|]; [|done].
    destruct (Hhand m Hm'). split; [by apply (cn_inbox _ _ _ Hcn)|done].
  - intros id. destruct (decide (only id)); [by apply Hok'|]. by eapply id_ok_other.
Qed.

(** The step changes nothing but the position of [Run]'s goroutine and the record of what was sent
    and received. *)
Lemma call_inv_frame s s' :
  concerns (fun _ => False) s s' -> call_inv s -> call_inv s'.
Proof.
  intros Hcn Hinv. apply (call_inv_concerns _ s s' _ Hcn Hinv); [|done].
  intros id1 c1 id2 c2. rewrite !(cn_callers _ _ _ Hcn) by auto. apply Hinv.
Qed.

(** The step concerns a call, which keeps its channel. *)
Lemma call_inv_call id c c' s s' :
  call_inv s -> callers s !! id = Some c -> callers s' = <[id := c']> (callers s) ->
  Call_Pending c' = Call_Pending c -> concerns (eq id) s s' ->
  (exists k, call_ok s' id c' k) -> call_inv s'.
Proof.
  intros Hinv Hc Hc' Hp Hcn [k Hk].
  apply (call_inv_concerns (eq id) s s'); [|done..| |].
  - intros id'. apply _.
  - intros id1 c1 id2 c2. rewrite Hc', !lookup_insert_Some. pose proof (ci_distinct _ Hinv) as Hd.
    intros [[<- <-]|[? H1]] [[<- <-]|[? H2]] Heq; [done|..].
    + apply (Hd id c id2 c2); congruence.
    + apply (Hd id1 c1 id c); congruence.
    + by apply (Hd id1 c1 id2 c2).
  - intros ? <-. unfold id_ok. rewrite Hc', lookup_insert_eq. by exists k.
Qed.

(** The stream of a client that is not closing is [Run]'s. *)
Lemma stream_connected s n : run_inv s -> mu s = false -> stream s = Some n -> connected (runner s) = true.
Proof.
  intros [_ Hinv] Hmu Hst. destruct (runner s) as [|own []]; destruct_and! Hinv; simpl in *; congruence.
Qed.

Lemma call_inv_send s s' : run_inv s -> call_inv s -> send_step s s' -> call_inv s'.
Proof.
  intros Hrun Hinv Hs.
  assert (exists g d m p h w r, s' = sent g r (set_sendMu h w s) /\ sending g s = Some (d, m, p) /\
    wire s ⊆ w /\
    (forall q, r = inl q -> is_Some (at_stream q) -> is_Some (at_stream p) \/ connected (runner s) = true) /\
    (r = inr None -> is_Some (at_stream p) /\ exists n, (n, m) ∈ w) /\
    (forall err, r = inr (Some err) -> errors_is ErrResultRejected err = false)) as
    (g & d & m & p & h & w & r & -> & Hg & Hw & Hin & Hout & Herr).
  { destruct Hs as [g d m p h r Hg Hsend|g d m n Hg _|g d m n err Hg Herr].
    - exists g, d, m, p, h, (wire s), r. split_and!; [done|done|done|..].
      + intros q ->. destruct p; simpl in *; split_step Hsend; intros [k Hk]; simplify_eq/=; eauto.
        right. by eapply stream_connected.
      + intros ->. destruct p; simpl in *; split_step Hsend.
      + intros err ->. destruct p; simpl in *; split_step Hsend; eauto using wrapped_foreign.
    - exists g, d, m, (Transmitting n), None, (wire s ++ [(n, m)])%list, (inr None). split_and!; try done; [set_solver|].
      intros _. split; [by eexists|]. exists n. set_solver.
    - exists g, d, m, (Transmitting n), None, (wire s), (inr (Some err)). split_and!; try done. by intros ? [= <-]. }
  destruct g as [| | |id]; simpl in *.
  - destruct (runner s) as [|own []] eqn:Hr; try done.
    apply call_inv_frame with s; [|done].
    split; simpl; try done; rewrite Hr; destruct r as [|[|]]; try done; auto.
  - destruct (heart s); try done. apply call_inv_frame with s; [|done]. split; simpl; try done; auto.
  - done.
  - destruct (callers s !! id) as [c|] eqn:Hc; [|done]. simpl in Hg.
    destruct (Call_Phase c) as [q| | |] eqn:Hph; simplify_eq/=.
    apply (call_inv_call id c (set_phase match r with inl p' => Sending p' | inr None => Awaiting
      | inr (Some err) => Leaving (Failed err) end c) s); [done|done|done|done|..].
    + split; simpl; try done; auto. intros id' Hid. by rewrite lookup_insert_ne.
    + pose proof (ci_ok _ Hinv id) as Hok. unfold id_ok in Hok. rewrite Hc in Hok.
      destruct Hok as [k [Hch Hpend Hdel Hbuf Hwait Hsent Hans Hfail Hconn]]. rewrite Hph in *. exists k.
      assert (is_Some (at_stream p) -> pending s !! id = Some (Call_Pending c) -> connected (runner s) = true).
      { intros Hp. apply Hconn. simpl. by apply bool_decide_eq_true. }
      simpl in *. destruct r as [p'|[err|]]; split; simpl; auto; try done; try (intros [|[]]; done).
      * intros Hp Hpid. apply bool_decide_eq_true in Hp. destruct (Hin p' eq_refl Hp); auto.
      * intros err' [= <-]. by apply Herr.
      * intros _. by destruct Hout as [_ ?].
      * intros _. destruct Hout; auto.
Qed.

(** The call whose message [Run] has in hand, or whose channel is in the map. *)
Lemma call_of_pending s id ch :
  call_inv s -> pending s !! id = Some ch ->
  exists c, callers s !! id = Some c /\ ch = Call_Pending c /\ returned (Call_Phase c) = false /\
    call_ok s id c open_channel.
Proof.
  intros Hinv Hp. pose proof (ci_ok _ Hinv id) as Hok. unfold id_ok in Hok.
  destruct (callers s !! id) as [c|]; [|naive_solver]. destruct Hok as [k Hk].
  destruct (co_pending _ _ _ _ Hk ch Hp) as (-> & ? & ->). eauto.
Qed.

Lemma call_of_delivering s ch m :
  call_inv s -> delivering (runner s) = Some (ch, m) ->
  exists c, callers s !! message_id m = Some c /\ ch = Call_Pending c /\
    pending s !! message_id m = None /\ call_ok s (message_id m) c open_channel.
Proof.
  intros Hinv Hd. pose proof (ci_ok _ Hinv (message_id m)) as Hok. unfold id_ok in Hok.
  destruct (callers s !! message_id m) as [c|]; [|naive_solver]. destruct Hok as [k Hk].
  destruct (co_delivering _ _ _ _ Hk ch m Hd eq_refl) as (-> & -> & ?). eauto.
Qed.

(** A call other than [id]'s has another channel. *)
Lemma other_channel s id c id' c' :
  call_inv s -> callers s !! id = Some c -> callers s !! id' = Some c' -> id <> id' ->
  Call_Pending c' <> Call_Pending c.
Proof. intros Hinv Hc Hc' Hid Heq. by apply Hid, (ci_distinct _ Hinv id c id' c'). Qed.

Lemma call_inv_dispatch own m s s' :
  call_inv s -> runner s = Running own (Dispatching m) -> deliverPending own m s = Steps s' -> call_inv s'.
Proof.
  unfold deliverPending. intros Hinv Hr Hs. destruct (pendingMu s); [done|].
  destruct (pending s !! GetValue (ServerMessage_Id m)) as [ch|] eqn:Hp; simplify_eq/=.
  - change (GetValue (ServerMessage_Id m)) with (message_id m) in *.
    destruct (call_of_pending _ _ _ Hinv Hp) as (c & Hc & -> & _ & Hok).
    destruct (ci_handling _ Hinv m) as [Hm Hv]; [by rewrite Hr|].
    apply (call_inv_call (message_id m) c c s); [done|done|by simpl; rewrite insert_id|done|..].
    + split; simpl; try done; rewrite ?Hr; auto.
      * intros id Hid. by rewrite lookup_delete_ne.
      * intros ch m' Hid. split; [|done]. intros [= <- <-]. done.
    + exists open_channel. destruct Hok as [Hch Hpend Hdel Hbuf Hwait Hsent Hans Hfail Hconn].
      split; simpl; auto.
      * intros ch'. by rewrite lookup_delete_eq.
      * intros ch' m' [= <- <-] _. split_and!; [done..|]. apply lookup_delete_eq.
      * intros _. right. left. by exists m.
  - destruct (uncorrelated_eq own m s) as (p & h & r & -> & Hcase & _).
    apply call_inv_frame with s; [|done].
    destruct Hcase as [-> | [err ->]]; split; simpl; try done; rewrite ?Hr; auto; done.
Qed.

Lemma call_inv_push own ch m s s' :
  call_inv s -> runner s = Running own (Delivering ch m) -> push own ch m s = Steps s' -> call_inv s'.
Proof.
  unfold push. intros Hinv Hr Hs.
  destruct (call_of_delivering s ch m Hinv) as (c & Hc & -> & Hp & Hok); [by rewrite Hr|].
  rewrite (co_channel _ _ _ _ Hok) in Hs. simplify_eq/=.
  destruct (ci_handling _ Hinv m) as [Hm Hv]; [by rewrite Hr|].
  apply (call_inv_call (message_id m) c c s); [done|done|by simpl; rewrite insert_id|done|..].
  - split; simpl; try done; rewrite ?Hr; auto.
    + intros id c' Hid Hc'. rewrite list_lookup_insert_ne; [done|]. intros Heq.
      by eapply other_channel in Heq.
    + intros ch m' Hid. split; [done|]. by intros [= <- <-].
  - exists {| Buffer := Some m; Closed := false |}.
    destruct Hok as [Hch Hpend Hdel Hbuf Hwait Hsent Hans Hfail Hconn]. split; simpl; auto.
    + apply list_lookup_insert_eq. by eapply lookup_lt_Some.
    + intros ch Hpid. congruence.
    + done.
    + intros m' [= <-]. by split_and!.
Qed.

Lemma call_inv_run s s' : run_inv s -> call_inv s -> go_run s = Steps s' -> call_inv s'.
Proof.
  unfold go_run. intros [_ Hrun] Hinv Hs. destruct (runner s) as [|own p] eqn:Hr; [done|].
  destruct p; try done; [by eapply call_inv_dispatch|by eapply call_inv_push|..];
    destruct_and! Hrun; split_step Hs; (apply call_inv_frame with s; [|done]);
    split; simpl; try done; rewrite ?Hr; try done; auto; destruct_and?; auto.
  - by rewrite bool_decide_true in Heqb0.
  - right. by apply bool_decide_eq_true in Heqb.
Qed.

(** A call that goes on without [Run] and without the wire. *)
Lemma call_inv_alone id c c' p chs s :
  call_inv s -> callers s !! id = Some c -> Call_Pending c' = Call_Pending c ->
  (forall id', id' <> id -> p !! id' = pending s !! id') ->
  (forall ch, ch <> Call_Pending c -> chs !! ch = channels s !! ch) ->
  (exists k, call_ok (set_calls p chs (<[id := c']> (callers s)) s) id c' k) ->
  call_inv (set_calls p chs (<[id := c']> (callers s)) s).
Proof.
  intros Hinv Hc Hch Hp Hchs Hok. eapply call_inv_call; [done|done|done|done| |done].
  split; simpl; try done; auto.
  - intros id' Hid. by rewrite lookup_insert_ne.
  - intros id' c2 Hid Hc2. apply Hchs. by eapply other_channel.
Qed.

Lemma call_inv_go_call id s s' : call_inv s -> go_call id s = Steps s' -> call_inv s'.
Proof.
  unfold go_call. intros Hinv Hs. destruct (callers s !! id) as [c|] eqn:Hc; [|done].
  pose proof (ci_ok _ Hinv id) as Hok. unfold id_ok in Hok. rewrite Hc in Hok.
  destruct Hok as [k [Hch Hpend Hdel Hbuf Hwait Hsent Hans Hfail Hconn]].
  destruct (Call_Phase c) as [| |answer|] eqn:Hph; try done.
  - rewrite Hch in Hs. specialize (Hsent (or_introl eq_refl)).
    destruct k as [[m|] closed]; [|destruct closed; [|done]]; injection Hs as <-.
    + apply call_inv_alone with c; try done; [intros ch Hne; by rewrite list_lookup_insert_ne|].
      exists {| Buffer := None; Closed := closed |}. split; simpl; try done.
      * apply list_lookup_insert_eq. by eapply lookup_lt_Some.
      * intros ch Hp. by destruct (Hpend ch Hp) as (_ & _ & ?).
      * intros ch m' Hd Hm'. by destruct (Hdel ch m' Hd Hm') as (_ & ? & _).
      * intros m' [= <-]. by apply Hbuf.
    + apply call_inv_alone with c; try done. exists {| Buffer := None; Closed := true |}.
      split; simpl; try done.
  - destruct (pendingMu s); [done|]. injection Hs as <-.
    apply call_inv_alone with c; try done; [intros id' Hid; by rewrite lookup_delete_ne|].
    exists k. split; simpl in *; try done.
    + intros ch. by rewrite lookup_delete_eq.
    + intros ch m Hd Hm. rewrite lookup_delete_eq. destruct (Hdel ch m Hd Hm) as (-> & -> & _). done.
    + intros [|Hr]; [done|]. apply Hsent. by right.
Qed.

Lemma call_inv_done g s s' : call_inv s -> done g s = Steps s' -> call_inv s'.
Proof.
  unfold done. intros Hinv Hs. destruct g; try done.
  - destruct (heart s); try done. destruct (session_done s); [|done]. injection Hs as <-.
    apply call_inv_frame with s; [|done]. split; simpl; try done; auto.
  - destruct (callers s !! id) as [c|] eqn:Hc; [|done].
    destruct (Call_Phase c) eqn:Hph; try done. destruct (Call_Cancelled c); [|done]. injection Hs as <-.
    pose proof (ci_ok _ Hinv id) as Hok. unfold id_ok in Hok. rewrite Hc in Hok.
    destruct Hok as [k [Hch Hpend Hdel Hbuf Hwait Hsent Hans Hfail Hconn]].
    apply call_inv_alone with c; try done. exists k. split; simpl; try done.
    + intros ch Hp. destruct (Hpend ch Hp) as (? & _ & ?). done.
    + intros [|[]]; done.
    + by intros err [= <-].
Qed.

Lemma call_inv_cancel id s s' : call_inv s -> cancel_call id s = Steps s' -> call_inv s'.
Proof.
  unfold cancel_call. intros Hinv Hs. destruct (callers s !! id) as [c|] eqn:Hc; [|done].
  injection Hs as <-. pose proof (ci_ok _ Hinv id) as Hok. unfold id_ok in Hok. rewrite Hc in Hok.
  destruct Hok as [k [Hch Hpend Hdel Hbuf Hwait Hsent Hans Hfail Hconn]].
  apply call_inv_alone with c; try done. exists k. by split.
Qed.

Lemma call_inv_start id r s s' : call_inv s -> start_call id r s = Steps s' -> call_inv s'.
Proof.
  unfold start_call. intros Hinv Hs. destruct (callers s !! id) as [c|] eqn:Hc; [done|].
  destruct (pendingMu s); [done|]. injection Hs as <-.
  pose proof (ci_ok _ Hinv id) as Hok. unfold id_ok in Hok. rewrite Hc in Hok. destruct Hok as [Hpn Hdn].
  assert (forall id' c', callers s !! id' = Some c' -> (Call_Pending c' < length (channels s))%nat) as Hlt.
  { intros id' c' Hc'. pose proof (ci_ok _ Hinv id') as Hok. unfold id_ok in Hok. rewrite Hc' in Hok.
    destruct Hok as [k Hk]. eapply lookup_lt_Some, co_channel, Hk. }
  apply (call_inv_concerns (eq id) s); [intros ?; apply _|..|done| |].
  - split; simpl; try done; auto.
    + intros id' Hid. by rewrite lookup_insert_ne.
    + intros id' Hid. by rewrite lookup_insert_ne.
    + intros id' c' Hid Hc'. apply lookup_app_l. by eapply Hlt.
  - intros id1 c1 id2 c2. simpl. rewrite !lookup_insert_Some.
    intros [[<- <-]|[? H1]] [[<- <-]|[? H2]] Heq; [done|..].
    + apply Hlt in H2. simpl in Heq. lia.
    + apply Hlt in H1. simpl in Heq. lia.
    + by apply (ci_distinct _ Hinv id1 c1 id2 c2).
  - intros ? <-. unfold id_ok. simpl. rewrite lookup_insert_eq. exists open_channel.
    split; simpl; try done.
    + rewrite lookup_app_r by lia. by rewrite Nat.sub_diag.
    + intros ch. rewrite lookup_insert_eq. by intros [= <-].
    + intros ch m Hd Hm. by destruct (Hdn ch m Hd).
    + intros _. left. by rewrite lookup_insert_eq.
    + intros [|[]]; done.
Qed.

Lemma call_inv_close id s s' : call_inv s -> close_one id s = Steps s' -> call_inv s'.
Proof.
  unfold close_one. intros Hinv Hs. destruct (runner s) as [|own []] eqn:Hr; try done.
  destruct (pending s !! id) as [ch|] eqn:Hp; [|done].
  destruct (call_of_pending _ _ _ Hinv Hp) as (c & Hc & -> & Hret & Hok).
  rewrite (co_channel _ _ _ _ Hok) in Hs. simpl in Hs. injection Hs as <-.
  rewrite <-(insert_id (callers s) id c) at 1 by done.
  destruct Hok as [Hch Hpend Hdel Hbuf Hwait Hsent Hans Hfail Hconn].
  apply call_inv_alone with c; try done; [intros id' Hid; by rewrite lookup_delete_ne|
    intros ch Hne; by rewrite list_lookup_insert_ne|].
  exists {| Buffer := None; Closed := true |}. split; simpl; try done.
  - apply list_lookup_insert_eq. by eapply lookup_lt_Some.
  - intros ch. by rewrite lookup_delete_eq.
  - intros ch m. by rewrite Hr.
  - intros _. auto.
  - rewrite lookup_delete_eq. done.
Qed.

Lemma call_inv_step l s s' : run_inv s -> call_inv s -> foreign l -> step l s = Steps s' -> call_inv s'.
Proof.
  intros Hrun Hinv Hl [Hs|[Hs Hg]]%step_cases; [| |done]; [by eapply call_inv_send|].
  destruct l as [[]| | | | |m| | | | | |]; simpl in Hs; try done.
  - by eapply call_inv_run.
  - unfold go_transport in Hs. split_step Hs. apply call_inv_frame with s; [|done]. split; simpl; try done; auto.
  - by eapply call_inv_go_call.
  - by eapply call_inv_done.
  - by eapply call_inv_close.
  - unfold receive in Hs. destruct (runner s) as [|own []] eqn:Hr; try done. simplify_eq/=.
    apply call_inv_frame with s; [|done].
    split; simpl; try done; rewrite ?Hr; try (destruct (validateServerMessage m) eqn:Hv); try done; auto.
    all: try set_solver.
  - unfold receive_error in Hs. destruct (runner s) as [|own []] eqn:Hr; try done. simplify_eq/=.
    apply call_inv_frame with s; [|done]. split; simpl; try done; rewrite ?Hr; try done; auto.
  - unfold tick in Hs. destruct (heart s); try done. simplify_eq/=.
    apply call_inv_frame with s; [|done]. split; simpl; try done; auto.
  - by eapply call_inv_start.
  - by eapply call_inv_cancel.
  - unfold start_run in Hs. destruct (mu s); [done|]. destruct (stream s) eqn:Hst; simplify_eq/=; [done|].
    destruct Hrun as [_ Hrun]. destruct (runner s) as [|own p] eqn:Hr; destruct_and! Hrun; [|congruence].
    apply call_inv_frame with s; [|done]. split; simpl; try done; rewrite ?Hr; destruct id; try done; auto.
  - unfold cancel_run in Hs. split_step Hs. apply call_inv_frame with s; [|done]. split; simpl; try done; auto.
Qed.

(** ** Every reachable client *)

Record client_inv (s : Client) : Prop := {
  inv_run : run_inv s;
  inv_send : send_inv s;
  inv_call : call_inv s;
}.

Lemma client_inv_new : client_inv NewClient.
Proof.
  split.
  - split; [set_solver|]. split_and!; try done. simpl. lia.
  - split; [|by intros []]. intros g. split; [done|]. intros (p & Hp & _). by destruct g.
  - split; [done|done|]. intros id. by split.
Qed.

Lemma client_inv_step l s s' : client_inv s -> foreign l -> step l s = Steps s' -> client_inv s'.
Proof.
  intros [Hr Hs Hc] Hl Hstep. split; [by eapply run_inv_step|by eapply send_inv_step|by eapply call_inv_step].
Qed.

Lemma reachable_inv s : reachable s -> client_inv s.
Proof. induction 1; [apply client_inv_new|by eapply client_inv_step]. Qed.

Lemma step_no_panic l s : client_inv s -> step l s <> Panics.
Proof.
  intros [Hrun _ Hinv] Hs.
  assert (forall g d m p, go_send validateAgentMessage g d m p s <> Panics) as Hsend.
  { intros g d m p. unfold go_send. by destruct (send _ _ _ _ _ _) as [[]|]. }
  destruct l; simpl in Hs.
  - unfold go in Hs. destruct (sending g s) as [[[d m] p]|]; [by apply Hsend in Hs|].
    destruct g; try done.
    + unfold go_run in Hs. destruct (runner s) as [|own []] eqn:Hr; try (split_step Hs; done).
      * unfold deliverPending in Hs. split_step Hs; done.
      * destruct (call_of_delivering s pending message Hinv) as (c & Hc & -> & _ & Hok); [by rewrite Hr|].
        unfold push in Hs. by rewrite (co_channel _ _ _ _ Hok) in Hs.
    + unfold go_transport in Hs. split_step Hs; done.
    + unfold go_call in Hs. split_step Hs; done.
  - unfold done in Hs. split_step Hs; done.
  - unfold close_one in Hs. destruct (runner s) as [|own []]; try done.
    destruct (pending s !! id) as [ch|] eqn:Hp; [|done].
    destruct (call_of_pending _ _ _ Hinv Hp) as (c & Hc & -> & _ & Hok).
    by rewrite (co_channel _ _ _ _ Hok) in Hs.
  - unfold transmit in Hs. split_step Hs; done.
  - unfold transmit in Hs. split_step Hs; done.
  - unfold receive in Hs. split_step Hs; done.
  - unfold receive_error in Hs. split_step Hs; done.
  - unfold tick in Hs. split_step Hs; done.
  - unfold start_call in Hs. split_step Hs; done.
  - unfold cancel_call in Hs. split_step Hs; done.
  - unfold start_run in Hs. split_step Hs; done.
  - unfold cancel_run in Hs. split_step Hs; done.
Qed.

(** The request was handed to a stream, and a valid message with its id and this payload came back. *)
Definition answered (s : Client) (id : string) (r : Request) (payload : ServerPayload) : Prop :=
  (exists n, (n, request_message id r) ∈ wire s) /\
  exists m, m ∈ inbox s /\ message_id m = id /\ validateServerMessage m = None /\
    ServerMessage_Payload m = payload.

Lemma returned_answer s id c reply :
  call_inv s -> callers s !! id = Some c -> Call_Phase c = Returned (Received (Some reply)) ->
  answered s id (Call_Request c) (ServerMessage_Payload reply).
Proof.
  intros Hinv Hc Hp. pose proof (ci_ok _ Hinv id) as Hok. unfold id_ok in Hok. rewrite Hc in Hok.
  destruct Hok as [k Hok]. split.
  - apply (co_sent _ _ _ _ Hok). right. rewrite Hp. by eexists.
  - destruct (co_answer _ _ _ _ Hok reply) as (? & ? & ?); [by rewrite Hp|]. by exists reply.
Qed.

Lemma returned_failure s id c err :
  call_inv s -> callers s !! id = Some c -> Call_Phase c = Returned (Failed err) ->
  errors_is ErrResultRejected err = false.
Proof.
  intros Hinv Hc Hp. pose proof (ci_ok _ Hinv id) as Hok. unfold id_ok in Hok. rewrite Hc in Hok.
  destruct Hok as [k Hok]. apply (co_failed _ _ _ _ Hok). by rewrite Hp.
Qed.

(** C8: However the goroutines, the network and the callers interleave, no send on a closed channel and
    no second close happens, and a call concludes from its own answer only: [SendActionResult] reports
    success, or a rejection, only when this result was handed to a stream and a valid acknowledgement
    with its request's id came back that says so, and [PullDesiredPolicy] returns only the policy of
    the valid message that answers its own request. *)
Theorem client_calls_safe s :
  reachable s ->
  (forall l, step l s <> Panics) /\
  forall id c a, callers s !! id = Some c -> Call_Phase c = Returned a ->
    match Call_Request c with
    | ResultRequest _ =>
        (result_answer a = None ->
           answered s id (Call_Request c) (ServerMessage_ResultAck RESULT_ACK_CODE_ACCEPTED)) /\
        (forall err, result_answer a = Some err -> errors_is ErrResultRejected err = true ->
           answered s id (Call_Request c) (ServerMessage_ResultAck RESULT_ACK_CODE_REJECTED))
    | PolicyRequest =>
        forall policy, desired_policy a = Ok policy ->
          answered s id (Call_Request c) (ServerMessage_DesiredPolicy policy)
    end.
Proof.
  intros Hs%reachable_inv. split; [by intros l; apply step_no_panic|].
  destruct Hs as [_ _ Hinv]. intros id c a Hc Hp.
  pose proof (returned_failure s id c) as Hfail. pose proof (returned_answer s id c) as Hans.
  destruct a as [err|[reply|]]; simpl.
  - specialize (Hfail err Hinv Hc Hp). destruct (Call_Request c); [|done]. split; [done|].
    intros ? [= <-]. congruence.
  - specialize (Hans reply Hinv Hc Hp). destruct (Call_Request c).
    + destruct (ServerMessage_Payload reply) as [| |[]]; split; try done; intros ? [= <-]; done.
    + destruct (ServerMessage_Payload reply); try done. by intros ? [= <-].
  - destruct (Call_Request c); [|done]. split; [done|]. by intros ? [= <-].
Qed.
End facts.
