(* ===== verification/ClientStreamLive.v ===== *)
(** * Every call returns once the connection is over ([contract/client.go])

    [inevitably] is termination under any scheduler: some goroutine can go on, and
    wherever any of them goes the goal is inevitable again.  The steps counted are the
    program's own, and the network's only where a closed stream gives it no choice; no
    call need be cancelled.  [measure] falls at each of them, and [ended_goes_on] finds one
    while a call or [Run] has not returned. *)

From S2P Require Import Prelude Hash Engine Proto Schema Queries Service Actions Assignments.
From S2P Require Import AgentStream.
From S2P Require Import Exec Delivery Sync ClientStream ClientStreamFacts.

Open Scope nat_scope.

(** ** The measure *)

Definition send_rank (p : Send) : nat :=
  match p with Validating => 5 | Reading => 4 | Acquiring _ => 3 | Checking _ => 2 | Transmitting _ => 1 end.

Definition call_rank (c : Call) : nat :=
  match Call_Phase c with Sending p => 2 + send_rank p | Awaiting => 2 | Leaving _ => 1 | Returned _ => 0 end.

Definition run_rank (r : RunState) : nat :=
  match r with
  | Stopped _ => 0
  | Running _ p =>
      match p with
      | Greeting _ p => 12 + send_rank p
      | Dispatching _ => 12
      | Delivering _ _ => 11
      | Receiving => 10
      | Returning _ => 9
      | AwaitTransport _ => 8
      | AwaitHeartbeats _ => 7
      | CloseStream _ => 6
      | LockPending _ => 5
      | ClosePending _ => 4
      | ClearStream _ => 3
      end
  end.

Definition heart_rank (h : HeartPhase) : nat :=
  match h with NoHeartbeats => 2 | Ticking => 1 | Beating _ p => 1 + send_rank p | Finished => 0 end.

Definition transport_rank (s : Client) : nat :=
  match runner s with
  | Running own _ => if bool_decide (own ∈ closed_streams s) then 0 else 1
  | Stopped _ => 0
  end.

Definition add_rank (_ : string) (c : Call) (n : nat) : nat := call_rank c + n.
Definition calls_rank (m : gmap string Call) : nat := map_fold add_rank 0 m.

Definition measure (s : Client) : nat :=
  run_rank (runner s) + heart_rank (heart s) + transport_rank s + size (pending s) + calls_rank (callers s).

Lemma calls_rank_insert m id c c' :
  m !! id = Some c -> calls_rank (<[id := c']> m) + call_rank c = calls_rank m + call_rank c'.
Proof.
  intros Hc.
  assert (forall x, calls_rank (<[id := x]> (delete id m)) = call_rank x + calls_rank (delete id m)) as Hins.
  { intros x. apply (map_fold_insert_L add_rank); [unfold add_rank; lia|apply lookup_delete_eq]. }
  pose proof (Hins c') as Hnew. pose proof (Hins c) as Hold.
  rewrite insert_delete_eq in Hnew. rewrite insert_delete_id in Hold by done. lia.
Qed.

Lemma size_delete_le (m : gmap string nat) id : size (delete id m) <= size m.
Proof.
  destruct (m !! id) as [x|] eqn:Hx.
  - rewrite map_size_delete_Some by eauto. lia.
  - by rewrite map_size_delete_None.
Qed.

Lemma size_delete_lt (m : gmap string nat) id : is_Some (m !! id) -> size (delete id m) < size m.
Proof.
  intros [x Hx]. rewrite map_size_delete_Some by eauto.
  enough (size m <> 0) by lia. intros Hz%map_size_empty_inv. by rewrite Hz in Hx.
Qed.

Section live.
Context (validateAgentMessage : AgentMessage -> option error).
Context (validateServerMessage : ServerMessage -> option error).
Context (deviceID hostname agentVersion : string).
Hypothesis validator_foreign : forall m err,
  validateAgentMessage m = Some err -> errors_is ErrResultRejected err = false.

Abbreviation step := (step validateAgentMessage validateServerMessage deviceID hostname agentVersion).
Abbreviation reachable :=
  (reachable validateAgentMessage validateServerMessage deviceID hostname agentVersion).
Abbreviation send_step := (send_step validateAgentMessage).

(** The program's own steps, and the error that the network owes a closed stream. *)
Definition internal (s : Client) (l : Label) : Prop :=
  match l with
  | Go _ | Done _ | CloseOne _ => True
  | SendFails g _ =>
      match sending g s with Some (_, _, Transmitting n) => n ∈ closed_streams s | _ => False end
  | ReceiveFails _ => match runner s with Running own _ => own ∈ closed_streams s | Stopped _ => False end
  | _ => False
  end.

Definition own_step (s s' : Client) : Prop :=
  exists l, internal s l /\ foreign l /\ step l s = Steps s'.

Inductive inevitably (P : Client -> Prop) (s : Client) : Prop :=
| inevitably_now : P s -> inevitably P s
| inevitably_later :
    (exists s', own_step s s') -> (forall s', own_step s s' -> inevitably P s') -> inevitably P s.

Lemma sent_measure g d m p r h w s :
  sending g s = Some (d, m, p) ->
  match r with inl q => send_rank q < send_rank p | inr (Some _) => True | inr None => False end ->
  measure (sent g r (set_sendMu h w s)) < measure s.
Proof.
  unfold measure. intros Hg Hr. destruct g as [| | |id]; simpl in *.
  - unfold transport_rank. destruct (runner s) as [|own []]; try done. simplify_eq/=.
    destruct r as [q|[err|]]; simpl; [lia|lia|done].
  - unfold transport_rank. destruct (heart s); try done. simplify_eq/=.
    destruct r as [q|[err|]]; simpl; [lia|lia|done].
  - done.
  - unfold transport_rank. destruct (callers s !! id) as [c|] eqn:Hc; [|done]. simpl in Hg.
    destruct (Call_Phase c) as [q| | |] eqn:Hp; simplify_eq/=.
    match goal with |- context [<[id := ?c']> _] => pose proof (calls_rank_insert (callers s) id c c' Hc) as Hrank end.
    unfold call_rank in Hrank. rewrite Hp in Hrank. destruct r as [q|[err|]]; simpl in *; [lia|lia|done].
Qed.

Lemma go_run_measure s s' : go_run s = Steps s' -> measure s' < measure s.
Proof.
  unfold go_run, measure. intros Hs. destruct (runner s) as [|own p] eqn:Hr; [done|].
  destruct p; try done.
  - unfold deliverPending in Hs. destruct (pendingMu s); [done|].
    destruct (pending s !! _) as [ch|] eqn:Hp; simplify_eq/=.
    + pose proof (size_delete_le (pending s) (GetValue (ServerMessage_Id message))).
      unfold transport_rank. simpl. rewrite Hr. lia.
    + destruct (uncorrelated_eq own message s) as (p & h & r & -> & Hp' & Hh). unfold transport_rank. simpl. rewrite Hr.
      assert (heart_rank h <= heart_rank (heart s)) by (destruct Hh as [-> |[-> ->]]; simpl; lia).
      destruct Hp' as [-> |[err ->]]; simpl; lia.
  - unfold push in Hs. split_step Hs; unfold transport_rank; simpl; rewrite Hr; lia.
  - split_step Hs. unfold transport_rank; simpl; rewrite Hr; lia.
  - split_step Hs. unfold transport_rank; simpl; rewrite Hr; lia.
  - split_step Hs. unfold transport_rank; simpl; rewrite Hr; lia.
  - split_step Hs; unfold transport_rank; simpl; rewrite ?Hr; lia.
  - split_step Hs. unfold transport_rank; simpl; rewrite Hr; lia.
  - split_step Hs. unfold transport_rank; simpl; rewrite Hr; lia.
  - split_step Hs. unfold transport_rank; simpl; rewrite Hr; lia.
Qed.

Lemma call_measure id c c' p chs s :
  callers s !! id = Some c -> call_rank c' < call_rank c -> size p <= size (pending s) ->
  measure (set_calls p chs (<[id := c']> (callers s)) s) < measure s.
Proof.
  intros Hc Hrank Hp. unfold measure, transport_rank. simpl.
  pose proof (calls_rank_insert (callers s) id c c' Hc). lia.
Qed.

Lemma own_step_measure s s' : own_step s s' -> measure s' < measure s.
Proof.
  intros (l & Hi & Hl & Hs). destruct l; simpl in Hi, Hs; try done.
  - unfold go, go_send in Hs. destruct (sending g s) as [[[d m] p]|] eqn:Hg.
    { destruct (send _ _ _ _ _ _) as [[h r]|] eqn:Hsend; [|done]. injection Hs as <-.
      eapply sent_measure; [done|]. destruct p; simpl in *; split_step Hsend; simpl; lia. }
    destruct g; [by apply go_run_measure|done| |].
    + unfold go_transport in Hs. destruct (runner s) as [|own p] eqn:Hr; [done|].
      destruct (session_done s); [|done]. simpl in Hs. case_bool_decide as Ho; [done|]. injection Hs as <-.
      unfold measure, transport_rank. simpl. rewrite Hr. rewrite bool_decide_true by set_solver.
      rewrite bool_decide_false by done. lia.
    + unfold go_call in Hs. destruct (callers s !! id) as [c|] eqn:Hc; [|done].
      destruct (Call_Phase c) as [| |a|] eqn:Hp; try done.
      * split_step Hs; eapply call_measure; try done; unfold call_rank; rewrite Hp; simpl; lia.
      * split_step Hs. eapply call_measure; [done| |apply size_delete_le].
        unfold call_rank. rewrite Hp. simpl. lia.
  - unfold done in Hs. destruct g; try done.
    + destruct (heart s) eqn:Hh; try done. split_step Hs. unfold measure, transport_rank. simpl. rewrite Hh. simpl. lia.
    + destruct (callers s !! id) as [c|] eqn:Hc; [|done]. destruct (Call_Phase c) eqn:Hp; try done.
      split_step Hs. eapply call_measure; [done| |done]. unfold call_rank. rewrite Hp. simpl. lia.
  - unfold close_one in Hs. destruct (runner s) as [|own []] eqn:Hr; try done.
    destruct (pending s !! id) as [ch|] eqn:Hp; [|done].
    pose proof (size_delete_lt (pending s) id ltac:(eauto)).
    split_step Hs; unfold measure, transport_rank; simpl; rewrite Hr; lia.
  - unfold transmit in Hs. destruct (sending g s) as [[[d m] []]|] eqn:Hg; try done. injection Hs as <-.
    by eapply sent_measure.
  - unfold receive_error in Hs. destruct (runner s) as [|own []] eqn:Hr; try done. simplify_eq/=.
    unfold measure, transport_rank. simpl. rewrite Hr. simpl. lia.
Qed.

(** ** Progress *)

(** [Run] is over, has returned, or its session was cancelled. *)
Definition ended (s : Client) : Prop :=
  match runner s with
  | Stopped _ | Running _ (Returning _) => True
  | Running _ _ => session_done s = true
  end.

(** [Run] returned and so did every call. *)
Definition over (s : Client) : Prop :=
  (exists err, runner s = Stopped err) /\
  forall id c, callers s !! id = Some c -> exists answer, Call_Phase c = Returned answer.

Lemma go_own g s s' : step (Go g) s = Steps s' -> exists s', own_step s s'.
Proof. intros Hs. exists s'. by exists (Go g). Qed.

(** A goroutine inside [send] can go on, unless it waits for a mutex. *)
Lemma sender_goes g d m p s :
  sending g s = Some (d, m, p) -> mu s = false -> (forall n, at_stream p = Some n -> n ∈ closed_streams s) ->
  (holds_sendMu p = true \/ sendMu s = None) -> exists s', own_step s s'.
Proof.
  intros Hg Hmu Hclosed Hfree.
  assert (forall x, send validateAgentMessage g d m p s = Some x -> exists s', own_step s s') as Hgo.
  { intros [h r] Hx. eapply (go_own g). simpl. unfold go, go_send. by rewrite Hg, Hx. }
  destruct p as [| |n|n|n]; simpl in *.
  - destruct (validateAgentMessage m); by eapply Hgo.
  - rewrite Hmu in Hgo. destruct (stream s); by eapply Hgo.
  - destruct Hfree as [|Hfree]; [done|]. rewrite Hfree in Hgo. by eapply Hgo.
  - destruct d; by eapply Hgo.
  - eexists. exists (SendFails g Canceled). split; [simpl; rewrite Hg; auto|]. split; [done|].
    simpl. unfold transmit. by rewrite Hg.
Qed.

Lemma senders_go g d m p s :
  client_inv validateServerMessage s -> mu s = false ->
  (forall n, n < opened s -> n ∈ closed_streams s) -> sending g s = Some (d, m, p) -> exists s', own_step s s'.
Proof.
  intros [_ Hinv _] Hmu Hclosed Hg.
  assert (forall g d m p n, sending g s = Some (d, m, p) -> at_stream p = Some n -> n ∈ closed_streams s) as Hat.
  { intros g' d' m' p' n Hg' Hn. apply Hclosed, (si_stream _ Hinv g' p' n); [|done]. unfold position. by rewrite Hg'. }
  destruct (sendMu s) as [holder|] eqn:Hm; [|eapply sender_goes; eauto].
  pose proof Hm as Hh. apply (si_holder _ Hinv) in Hh as (q & Hq & Hholds). unfold position in Hq.
  destruct (sending holder s) as [[[d' m'] q']|] eqn:Hs'; simplify_eq/=. eapply sender_goes; eauto.
Qed.

Lemma call_goes s id c :
  client_inv validateServerMessage s -> mu s = false -> pendingMu s = false ->
  (forall n, n < opened s -> n ∈ closed_streams s) -> connected (runner s) = false ->
  delivering (runner s) = None -> callers s !! id = Some c -> returned (Call_Phase c) = false ->
  exists s', own_step s s'.
Proof.
  intros Hinv Hmu Hpmu Hclosed Hconn Hdel Hc Hret.
  destruct (Call_Phase c) as [p| |a|a] eqn:Hp; [| | |done].
  - apply (senders_go (Caller id) (Call_Cancelled c) (request_message id (Call_Request c)) p); try done.
    simpl. rewrite Hc. simpl. by rewrite Hp.
  - pose proof (ci_ok _ _ (inv_call _ _ Hinv) id) as Hok. unfold id_ok in Hok. rewrite Hc in Hok.
    destruct Hok as [k Hok]. pose proof (co_channel _ _ _ _ _ Hok) as Hch.
    destruct (co_waiting _ _ _ _ _ Hok) as [Hpend|[(m & Hm & _)|Hk]]; [by rewrite Hp| |congruence|].
    { rewrite (co_connected _ _ _ _ _ Hok) in Hconn; [done|by rewrite Hp|done]. }
    assert (exists s', go_call id s = Steps s') as [s' Hs'].
    { unfold go_call. rewrite Hc, Hp, Hch. destruct k as [[m|] []]; simpl in *; eauto. by destruct Hk. }
    apply (go_own (Caller id) s s'). simpl. unfold go. simpl. rewrite Hc. simpl. by rewrite Hp.
  - eapply (go_own (Caller id)). simpl. unfold go. simpl. rewrite Hc. simpl. rewrite Hp.
    unfold go_call. by rewrite Hc, Hp, Hpmu.
Qed.

Lemma ended_goes_on s :
  client_inv validateServerMessage s -> ended s -> ~ over s -> exists s', own_step s s'.
Proof.
  intros Hinv Hend Hover. pose proof (inv_run _ _ Hinv) as [_ Hrun]. unfold ended in Hend.
  destruct (runner s) as [err|own p] eqn:Hr;
    [destruct Hrun as (_ & Hmu & Hpmu & _ & Hclosed)|
     destruct Hrun as (Hst & Hopened & Hmu & Hpmu & Hpast & _ & Hdone & _ & _)].
  - destruct (decide (map_Forall (fun _ c => returned (Call_Phase c) = true) (callers s))) as [Hall|Hsome].
    + exfalso. apply Hover. split; [eauto|]. intros id c Hc%Hall. destruct (Call_Phase c); try done. eauto.
    + apply map_not_Forall in Hsome as (id & c & Hc & Hret); [|intros; apply _].
      apply not_true_is_false in Hret. by apply (call_goes s id c); rewrite ?Hr.
  - destruct (decide (own ∈ closed_streams s)) as [Hclosed|Hopen].
    2: { destruct (session_done s) eqn:Hd; [|by destruct p; try done; eapply (go_own Runner); simpl; unfold go; simpl;
           rewrite Hr; simpl; unfold go_run; rewrite Hr].
         eapply (go_own Transport). simpl. unfold go. simpl. unfold go_transport.
         by rewrite Hr, Hd, bool_decide_false by done. }
    assert (forall n, n < opened s -> n ∈ closed_streams s) as Hall.
    { intros n Hn. destruct (decide (n = own)) as [-> |]; [done|]. enough (n < own) by auto. lia. }
    assert (forall s', (forall m q, p <> Greeting m q) -> go_run s = Steps s' -> exists s', own_step s s') as Hgo.
    { intros s' Hp Hs'. eapply (go_own Runner). simpl. unfold go. simpl. rewrite Hr.
      destruct p; try done. by destruct (Hp hello p). }
    unfold go_run in Hgo. rewrite Hr in Hgo. destruct p; simpl in *; try by eapply Hgo.
    + eapply (senders_go Runner); [done..|]. simpl. by rewrite Hr.
    + eexists. exists (ReceiveFails Canceled). simpl. rewrite Hr. unfold receive_error. by rewrite Hr.
    + unfold deliverPending in Hgo. rewrite Hpmu in Hgo. destruct (pending s !! _); by eapply Hgo.
    + destruct (call_of_delivering _ s pending message (inv_call _ _ Hinv)) as (c & _ & -> & _ & Hok); [by rewrite Hr|].
      unfold push in Hgo. rewrite (co_channel _ _ _ _ _ Hok) in Hgo. by eapply Hgo.
    + rewrite bool_decide_true in Hgo by done. by eapply Hgo.
    + destruct (is_live (heart s)) eqn:Hl; [|by eapply Hgo].
      destruct (heart s) as [| |m q|] eqn:Hh; try done.
      * eexists. exists (Done Heart). simpl. split; [done|]. rewrite Hh. by rewrite Hdone.
      * eapply (senders_go Heart); [done..|]. simpl. by rewrite Hh.
    + rewrite Hmu in Hgo. rewrite bool_decide_true in Hgo by done. by eapply Hgo.
    + rewrite Hpmu in Hgo. by eapply Hgo.
    + destruct (decide (pending s = ∅)) as [Hp|Hp]; [rewrite bool_decide_true in Hgo by done; by eapply Hgo|].
      apply map_choose in Hp as (id & ch & Hch).
      destruct (call_of_pending _ _ _ _ (inv_call _ _ Hinv) Hch) as (c & _ & -> & _ & Hok).
      eexists. exists (CloseOne id). split; [done|]. split; [done|]. simpl. unfold close_one.
      by rewrite Hr, Hch, (co_channel _ _ _ _ _ Hok).
Qed.

Lemma ended_own_step s s' : ended s -> own_step s s' -> ended s'.
Proof.
  unfold ended. intros Hend (l & Hi & _ & Hs).
  assert (forall g d m p r h w, sending g s = Some (d, m, p) ->
    match runner (sent g r (set_sendMu h w s)) with
    | Stopped _ | Running _ (Returning _) => True
    | Running _ _ => session_done (sent g r (set_sendMu h w s)) = true
    end) as Hsent.
  { intros g d m p r h w Hg. destruct g; simpl in *; try done.
    - destruct (runner s) as [|own []] eqn:Hr; try done. by destruct r as [|[|]].
    - by destruct (heart s).
    - by destruct (callers s !! id). }
  destruct l; simpl in Hi, Hs; try done.
  - unfold go, go_send in Hs. destruct (sending g s) as [[[d m] p]|] eqn:Hg.
    { destruct (send _ _ _ _ _ _) as [[h r]|]; [|done]. injection Hs as <-. by eapply Hsent. }
    destruct g; [|done| |].
    + unfold go_run, deliverPending, push in Hs. destruct (runner s) as [|own p] eqn:Hr; [done|].
      rewrite ?Hr in Hend. destruct p; split_step Hs; try done.
      destruct (uncorrelated_eq own message s) as (p & h & r & -> & [-> |[err ->]] & _); done.
    + unfold go_transport in Hs. destruct (runner s) eqn:Hr; split_step Hs. by rewrite Hr.
    + unfold go_call in Hs. split_step Hs; done.
  - unfold done in Hs. split_step Hs; destruct (runner s) as [|own []]; done.
  - unfold close_one in Hs. destruct (runner s) as [|own []] eqn:Hr; try done. split_step Hs; by rewrite Hr.
  - unfold transmit in Hs. split_step Hs. by eapply Hsent.
  - unfold receive_error in Hs. split_step Hs; done.
Qed.

Lemma over_or_not s : over s \/ ~ over s.
Proof.
  unfold over. destruct (runner s) as [err|]; [|right; intros [[err Hs] _]; done].
  destruct (decide (map_Forall (fun _ c => returned (Call_Phase c) = true) (callers s))) as [Hall|Hsome].
  - left. split; [eauto|]. intros id c Hc%Hall. destruct (Call_Phase c); try done. eauto.
  - right. intros [_ Hall]. apply Hsome. intros id c Hc. by destruct (Hall id c Hc) as [answer ->].
Qed.

(** C9: Once [Run] has returned, or its session is cancelled, every schedule of the goroutines ends with
    [Run] and every call returned: whatever the goroutines were doing, some of them can go on until
    then, though no message arrives any more and nobody cancels a call. *)
Theorem client_calls_return s : reachable s -> ended s -> inevitably over s.
Proof.
  intros Hs%reachable_inv; [|done]. revert Hs.
  induction (Nat.lt_wf_0_projected measure s) as [s _ IH]. intros Hs Hend.
  destruct (over_or_not s) as [Hover|Hover]; [by apply inevitably_now|].
  apply inevitably_later; [by apply ended_goes_on|]. intros s' Hstep.
  apply IH; [by apply own_step_measure| |by eapply ended_own_step].
  destruct Hstep as (l & _ & Hl & Hstep). by eapply client_inv_step.
Qed.
End live.
