(* ===== verification/ClientStreamWitnesses.v ===== *)
(** * Runs of the agent's connection

    A connection on which one result is acknowledged and one pull is still waiting when
    the stream ends; a request that comes too late; an answer that comes too late. *)

From S2P Require Import Prelude Hash Engine Proto Schema Queries Service Actions Assignments.
From S2P Require Import AgentStream.
From S2P Require Import Exec Delivery Sync ClientStream ClientStreamFacts ClientStreamLive.

Open Scope string_scope.

Definition lenient {A} (m : A) : option error := None.

Abbreviation client_step := (step lenient lenient "device" "host" "1.0").
Abbreviation client_run := (run lenient lenient "device" "host" "1.0").

Lemma run_reachable ls s s' :
  reachable lenient lenient "device" "host" "1.0" s -> Forall foreign ls -> client_run ls s = Steps s' ->
  reachable lenient lenient "device" "host" "1.0" s'.
Proof.
  intros Hs Hls. revert s Hs. induction Hls as [|l ls Hl _ IH]; intros s Hs Hrun; simpl in Hrun.
  - by injection Hrun as <-.
  - destruct (client_step l s) as [| |s1] eqn:Hl1; try done. apply (IH s1); [|done]. by eapply reachable_step.
Qed.

(** [send] up to the network. *)
Definition sends (g : Goroutine) : list Label := [Go g; Go g; Go g; Go g; Transmitted g].

Definition message (id : string) (p : ServerPayload) : ServerMessage :=
  {| ServerMessage_Id := Some id; ServerMessage_Payload := p |}.

(** The greeting and the welcome. *)
Definition welcomed : list Label :=
  [StartRun (Some "hello")] ++ sends Runner ++
  [ReceiveReturns (message "welcome" (ServerMessage_Welcome 30000000000)); Go Runner].

Definition deliver (id : string) (p : ServerPayload) : list Label :=
  [ReceiveReturns (message id p); Go Runner; Go Runner].

(** Two requests cross on the wire, the first is answered, and the stream ends. *)
Definition crossing : list Label :=
  welcomed ++ [StartCall "result" (ResultRequest None); StartCall "policy" PolicyRequest] ++
  sends (Caller "policy") ++ sends (Caller "result") ++
  deliver "result" (ServerMessage_ResultAck RESULT_ACK_CODE_ACCEPTED) ++
  [Go (Caller "result"); Go (Caller "result"); ReceiveFails EOF].

Definition after (ls : list Label) : Client :=
  match client_run ls NewClient with Steps s => s | _ => NewClient end.

Definition phase_of (id : string) (s : Client) : option CallPhase := Call_Phase <$> callers s !! id.

Example crossed :
  phase_of "result" (after crossing) =
    Some (Returned (Received (Some (message "result" (ServerMessage_ResultAck RESULT_ACK_CODE_ACCEPTED))))) /\
  phase_of "policy" (after crossing) = Some Awaiting /\
  runner (after crossing) = Running 0 (Returning None).
Proof. by vm_compute. Qed.

Lemma crossing_reachable : reachable lenient lenient "device" "host" "1.0" (after crossing).
Proof.
  apply (run_reachable crossing NewClient); [apply reachable_new| |by vm_compute].
  repeat constructor.
Qed.

Lemma client_calls_safe_witness :
  (forall l, client_step l (after crossing) <> Panics) /\
  answered lenient (after crossing) "result" (ResultRequest None)
    (ServerMessage_ResultAck RESULT_ACK_CODE_ACCEPTED).
Proof.
  destruct (client_calls_safe lenient lenient "device" "host" "1.0" ltac:(done) (after crossing)
    crossing_reachable) as [Hsafe Hcalls].
  split; [exact Hsafe|].
  destruct (callers (after crossing) !! "result") as [c|] eqn:Hc; [|by vm_compute in Hc].
  specialize (Hcalls "result" c (Received (Some (message "result" (ServerMessage_ResultAck RESULT_ACK_CODE_ACCEPTED)))) Hc).
  vm_compute in Hc. injection Hc as <-. apply Hcalls; reflexivity.
Defined.

(** The waiting pull returns: [Run] closes its channel. *)
Lemma client_calls_return_witness :
  ended (after crossing) /\
  inevitably lenient lenient "device" "host" "1.0" over (after crossing).
Proof.
  assert (ended (after crossing)) as Hended by (by vm_compute).
  split; [exact Hended|].
  exact (client_calls_return lenient lenient "device" "host" "1.0" ltac:(done) (after crossing)
    crossing_reachable Hended).
Defined.

(** What [Run]'s deferred function does, up to the closing of the channels and to its end. *)
Definition closing : list Label := [Go Runner; Go Transport; Go Runner; Done Heart; Go Runner; Go Runner; Go Runner].
Definition closed_one : list Label := [CloseOne "policy"; Go Runner; Go Runner].

Example pull_closed :
  phase_of "policy" (after (crossing ++ closing ++ closed_one ++ [Go (Caller "policy"); Go (Caller "policy")])) =
    Some (Returned (Received None)) /\
  runner (after (crossing ++ closing ++ closed_one)) = Stopped None.
Proof. by vm_compute. Qed.

(** A request registered between the closing of the channels and the end of the stream is not closed; it
    waits for [mu] and finds no stream. *)
Example late_request :
  let late := (crossing ++ closing ++ [CloseOne "policy"; Go Runner; StartCall "late" PolicyRequest;
    Go (Caller "late")])%list in
  client_step (Go (Caller "late")) (after late) = Blocked /\
  phase_of "late" (after (late ++ [Go Runner; Go (Caller "late"); Go (Caller "late")])) =
    Some (Returned (Failed (ErrNew "agent stream is not connected"))).
Proof. by vm_compute. Qed.

(** The answer to a request whose caller gave up ends the connection. *)
Example late_answer :
  runner (after (welcomed ++ [StartCall "policy" PolicyRequest] ++ sends (Caller "policy") ++
    [CancelCall "policy"; Done (Caller "policy"); Go (Caller "policy");
     ReceiveReturns (message "policy" (ServerMessage_ResultAck RESULT_ACK_CODE_ACCEPTED)); Go Runner])) =
  Running 0 (Returning (Some (ErrNew "unexpected uncorrelated server message"))).
Proof. by vm_compute. Qed.

(** A second [Run] while the first is connected changes nothing, and nobody sends twice at once. *)
Example second_run : client_step (StartRun (Some "again")) (after crossing) = Steps (after crossing).
Proof. by vm_compute. Qed.

Example one_sender :
  let both := (welcomed ++ [StartCall "a" PolicyRequest; StartCall "b" PolicyRequest;
    Go (Caller "a"); Go (Caller "a"); Go (Caller "a"); Go (Caller "b"); Go (Caller "b")])%list in
  sendMu (after both) = Some (Caller "a") /\ client_step (Go (Caller "b")) (after both) = Blocked.
Proof. by vm_compute. Qed.
